(* ===== verification/_CoqProject ===== *)
-Q . S2P
Prelude.v
GoStrings.v
GoFormat.v
Float64.v
FloatScan.v
Sha256.v
Model.v
Heap.v
TaskQueue.v
InMemQueue.v
RedisQueue.v
TaskStore.v
NodeStore.v
NodeManager.v
Machine.v
Discovery.v
RateLimit.v
Pool.v
Config.v
Runtime.v
Concrete.v
Invariant.v
TaskService.v
Scheduler.v
Executor.v
TaskServiceSpec.v
Api.v
SchedulerSpec.v
Claims.v
LogStream.v
Routes.v
GrpcServer.v
Membership.v
Leases.v
Agent.v
AgentProcess.v
System.v
Election.v
Progress.v
Held.v
Ownership.v
Restart.v
Integrity.v
Recovery.v
Cycle.v
Batch.v
Outage.v
Server.v
Shutdown.v
