(* ===== verification/Prelude.v ===== *)
(** * MINI-BK: a verification library

    MINI-BK is a task scheduler: an HTTP API accepts shell commands, a
    PostgreSQL table records them, a queue holds those that wait, a scheduler
    runs them on the server or hands them to agents on other machines, and the
    agents report what became of them.  This library models the program of
    [src/cmd] and [src/internal] and proves what its parts and their
    composition do.

    ** How the program is put together

    [cmd/server/main.go] connects the stores and wires one of each part: the
    task store and the task service over it; the queue, in Redis if Redis can
    be reached and in memory otherwise; the executor; the node store and the
    node manager; with etcd also the watch on the nodes' leases, the service
    discovery, the lease of the claims and the leader election; the scheduler;
    the Gin router with the rate limiter and the handlers; and the gRPC service
    of the agents.  They share state: the service and the scheduler write the
    same rows, the queue, the scheduler and the goroutines of the executions
    hold pointers to the same [Task] objects, the agents' calls change the node
    manager the scheduler selects from, and cancellations reach the scheduler
    as Pub/Sub messages.

    ** The files, and what of the program each one models

    - This file: machine integers that wrap, time, errors, the state monad
      [M] with its Hoare triples, record setters, sorting and map iteration as
      classes, lists, and [eventually] (a property inevitably reached).
    - GoStrings, GoFormat, Float64, FloatScan, Sha256: the functions of Go's
      standard library the program uses ([strings], [strconv], [fmt.Sscanf],
      [time.Format], [float64], [math.Round], [crypto/sha256]), executable.
    - Model: [internal/model] (tasks with their status machine, nodes).
    - Heap, TaskQueue, InMemQueue, RedisQueue: [container/heap] and
      [internal/queue].  TaskQueue is the Go interface as a class with its
      laws; the two queues are its instances.
    - TaskStore, NodeStore: the SQL statements of [internal/store] on tables.
    - NodeManager: [internal/nodemanager].  Discovery: [internal/discovery].
    - RateLimit: [internal/middleware].  Pool: [internal/grpcclient].
      Config: [internal/config].
    - Runtime: the joint state [World] of the server and the effects of its
      handlers.  Invariant: the invariant of that state with one triple per
      effect.  Concrete: an instance of every class, for the witnesses.
    - TaskService and TaskServiceSpec: [internal/service].
    - Scheduler and SchedulerSpec: [internal/scheduler], except [Start].
      Claims: its claims in the etcd that several schedulers share.
    - Executor: [internal/executor].  LogStream: [internal/logstream] and the
      handler [streamTaskLog].  Api: the other handlers of [internal/api].
      Routes: [RegisterRoutes] and what each route has to do.
    - GrpcServer: [internal/grpcserver].  Machine, Membership, Agent,
      AgentProcess: [cmd/agent/main.go] (what it reads of its machine, its start
      and its heartbeats, the execution of a pulled task, its loops and its end).
    - System: the server as a transition system; each request, report, message
      or end of an execution is one step, and the scheduling cycle is cut at
      its iterations so that all of them interleave with it.
    - Leases: the nodes' leases as they are renewed and expire, on the node
      manager, the watch on the leases and the agents' calls.
    - Election: [internal/election], and [Start] and [runTickLoop] of the
      scheduler on top of System.
    - Server: [cmd/server/main.go] up to the serving program, and the
      connections of [internal/store].  Shutdown: its end, with Go's deferred
      calls.

    On top of System, with no code of their own:

    - Progress: a task of an idle server from its creation to its end.
    - Held: an interface ([HeldInv]) for properties of every task pointer the
      server holds.  Its instances are Restart (a server that has just started
      on the table of an earlier run) and Integrity (what is executed is what
      was submitted).
    - Ownership: the places a task can be in, and that it is in one of them.
    - Outage: a server whose database refuses every statement.
    - Recovery: tasks whose deadline has passed.
    - Cycle: a whole cycle compared with a pure pass over the waiting tasks.
    - Batch: many tasks at a time, until all of them have ended.

    An operation keeps the name of its Go function.  Where the code mutates a
    shared object, the model does too: a task pointer is a location of the
    store [w_mem], and [load] and [assign] read and write it.  A handler is a
    computation in [M W], a sequence of statements on the shared state; System
    makes it one step.  A mutex makes it one in the program for the operations
    of the in-memory queue, the channels of the nodes, [markOffline] and
    [checkOfflineNodes]; the other handlers hold none, or give it back before
    their statement in the database (see Limits).

    ** What the theorems show

    - Safety of the whole server: [resource_safety], [reachable_well_formed],
      [one_place_per_task], [runs_as_submitted], and for the agents
      [agent_membership].
    - Several servers: [ClaimTask_exclusive] and, when the lease of the claims
      has ended, [lost_lease_stops].
    - The cycle: [tick_terminates], [tick_first_fit] (it is one pass over the
      ready tasks by priority), [SelectNode_least], [node_queue_fifo].
    - Ends of executions: [failTask_outcome], [completeTask_outcome],
      [remote_execution] (from the server to the agent and back).
    - Liveness: [accepted_task_finishes], [batch_finishes],
      [single_scheduler_ticks], [executor_slots]; and its failure, [elected_never_ticks].
    - Deadlines, failures and restarts: [left_running_finishes],
      [interrupted_task_repeated]; and what they cost,
      [timeout_retried_twice] and [restart_strands].
    - The queues refine an abstract queue: [InMem_refines], [Redis_refines],
      with [Pop_terminates] and [Redis_delays].
    - Requests: [CreateTask_spec], [CancelTask_spec], [routes_functional] (what
      every route answers and changes), [RateLimit_exact].
    - Storage and texts: [store_roundtrip], [stream_in_order], [stream_ends],
      [detected_resources].
    - Nodes and connections: [silent_node_detected] and
      [restart_breaks_detection] (with etcd), [discovery_reference],
      [pool_no_leak].
    - Configuration: [reload_last_wins].

    Further results are lemmas of their files: [main_outcome],
    [no_redis_breaks_api] and [shutdown_in_order] for the program, [Load_exact]
    for the configuration, [tick_is_steps] (the function [tick] refines the
    steps of System), [dispatch_runs_task], [late_report_requeues],
    [claimed_task_is_dropped] and [cancel_overwrites] for the scheduler and the
    service, [overdue_recovered] for the
    deadlines, [unknown_task_is_500] and [getStats_counts] for the API,
    [Run_classifies] and [streamOutput_lines] for the executor,
    [FindByLabels_reference] and [heartbeat_undoes_drain] for the nodes,
    [pulls_reported] and [interrupt_loses] for the agent.

    ** Bounds and fuel

    [tick] has fuel for the iterations of its dispatch loop; [tick_terminates]
    gives the number that is enough, one more than the tasks ready in the
    queue.  [InMemQueue.Pop] has fuel for its polls; [Pop_terminates] computes
    it from the timeout.  Everything else recurs on its data.  An [int] is a
    [Z] wrapped at 64 bits, an [int32] at 32, sizes in bytes are taken modulo
    2^64.

    ** Parameters

    What is not under [src/] is an argument with its documented behaviour as
    the laws of a class, each with an instance: the clock, UUIDs, database
    errors, sort and map order ([Host], [HostOk]); Redis as commands of the
    deduplication, counters, streams and queue ([Redis], [RedisCounter],
    [RedisStreams], [RedisServer]); etcd ([Etcd] with its transactions and leases,
    [EtcdReplies], [LeaseService], the events of the watches and of the election); Viper; the operating system as a
    function from a command to its process, and [Machine].  A method called on
    a nil Redis client panics, and Gin's recovery answers 500.

    ** Not modelled

    - The messages of [pkg/proto] are generated; the web console is
      TypeScript.
    - What listening, shutting down a server and closing a client do inside
      the libraries; the order of these calls is modelled.
    - The timers of the loops: a tick is a step or an event.
    - Log output; it changes no state.

    What is left of the files under [src/] has no behaviour of its own to model:
    imports, comments, the wiring of constructors, log calls, and the interfaces
    whose methods are the classes above.

    ** Limits

    [batch_finishes] is about a server to which nothing is submitted any more:
    with arrivals that go on, a task without a priority or one that needs much
    of the machine may be overtaken for ever ([one_slot] in Cycle).  The lease
    of the claims expires at any moment, as a change of etcd from outside, not
    on a clock.

    [CreateTask], [CancelTask], [HandleRemoteResult] and the end of an
    execution ([completeTask]) hold no lock in the program, and [Heartbeat],
    [DrainNode] and [UncordonNode] none around their statement; each is one
    step of System (or of Leases and Membership), as is an iteration of the
    cycle: the theorems over the reachable states are about interleavings of
    whole handlers.  What happens
    when another step falls between two statements of one of them is outside
    them.  One such race is proved: [cancel_overwrites] splits [CancelTask]
    after its read and shows that it writes its copy over whatever the row has
    become, so that the success of an execution can be lost
    ([cancel_overwrites_success]).  The event stream of a log is cut at its
    reads and checks. *)

From Stdlib Require Import ZArith Lia Ascii.
From Stdlib Require Export String.
From stdpp Require Export sorting option base gmap strings list.

#[export] Set Default Goal Selector "!".

Declare Scope go_scope.
Delimit Scope go_scope with go.
#[global] Open Scope Z_scope.

(** ** Machine integers

    Go's [int] and [int64] are 64 bits wide on every platform the program is
    built for, [int32] is the width of the protobuf counters.  A value is a
    [Z]; every arithmetic operation the code performs wraps around
    explicitly. *)

Definition wrap (w : Z) (z : Z) : Z := (z + 2 ^ (w - 1)) mod 2 ^ w - 2 ^ (w - 1).
Abbreviation wrap64 := (wrap 64).
Abbreviation wrap32 := (wrap 32).

Definition in_int (w : Z) (z : Z) : Prop := - 2 ^ (w - 1) <= z < 2 ^ (w - 1).
Abbreviation in_i64 := (in_int 64).
Abbreviation in_i32 := (in_int 32).

Definition add64 (a b : Z) : Z := wrap64 (a + b).
Definition sub64 (a b : Z) : Z := wrap64 (a - b).
Definition mul64 (a b : Z) : Z := wrap64 (a * b).

(** [a << n] at type [int64]; Go panics on a negative count, which the
    callers' invariant [0 <= RetryCount] excludes. *)
Definition shl64 (a n : Z) : Z := wrap64 (Z.shiftl a n).

Notation "a '+64' b" := (add64 a b) (at level 50, left associativity) : go_scope.
Notation "a '-64' b" := (sub64 a b) (at level 50, left associativity) : go_scope.
Notation "a '*64' b" := (mul64 a b) (at level 40, left associativity) : go_scope.

Lemma wrap_in_int w z : 0 < w → in_int w (wrap w z).
Proof.
  intros Hw. unfold in_int, wrap.
  pose proof (Z.mod_pos_bound (z + 2 ^ (w - 1)) (2 ^ w)
                ltac:(apply Z.pow_pos_nonneg; lia)) as Hb.
  assert (2 ^ w = 2 * 2 ^ (w - 1)) as Hp.
  { rewrite <- Z.pow_succ_r by lia. f_equal. lia. }
  lia.
Qed.

Lemma wrap_id w z : 0 < w → in_int w z → wrap w z = z.
Proof.
  unfold in_int, wrap. intros Hw Hz.
  assert (2 ^ w = 2 * 2 ^ (w - 1)) as Hp.
  { rewrite <- Z.pow_succ_r by lia. f_equal. lia. }
  rewrite Z.mod_small; lia.
Qed.

Lemma wrap64_id z : in_i64 z → wrap64 z = z.
Proof. by apply wrap_id. Qed.

Lemma add64_id a b : in_i64 (a + b) → add64 a b = a + b.
Proof. apply wrap64_id. Qed.
Lemma sub64_id a b : in_i64 (a - b) → sub64 a b = a - b.
Proof. apply wrap64_id. Qed.
Lemma mul64_id a b : in_i64 (a * b) → mul64 a b = a * b.
Proof. apply wrap64_id. Qed.

(** Unfolds the range predicates into the numerals [lia] needs. *)
Ltac int_lia :=
  unfold in_int in *; simpl Z.sub in *; simpl Z.pow in *; lia.

(** ** Time

    A [time.Time] is the number of nanoseconds since the Unix epoch, a
    [time.Duration] an [int64] number of nanoseconds. *)

Definition Time := Z.
Definition Duration := Z.

Definition millisecond : Duration := 1000000.
Definition second : Duration := 1000000000.
Definition minute : Duration := 60 * second.

(** [t.Add(d)], [t.After(u)], [t.Equal(u)]. *)
Definition time_add (t : Time) (d : Duration) : Time := t + d.
Definition time_after (t u : Time) : bool := u <? t.
Definition time_equal (t u : Time) : bool := t =? u.

(** [t.Sub(u)] saturates at the bounds of [Duration]. *)
Definition time_sub (t u : Time) : Duration :=
  Z.max (- 2 ^ 63) (Z.min (2 ^ 63 - 1) (t - u)).

(** [t.Unix()]: whole seconds, rounded down. *)
Definition time_unix (t : Time) : Z := t / second.

(** ** Errors

    The values of Go's [error] interface the program distinguishes: the
    sentinels it compares by identity and the formatted ones. *)

Inductive error : Type :=
| ErrTaskNotFound                              (* model.ErrTaskNotFound *)
| ErrNoRows                                    (* database/sql.ErrNoRows *)
| ErrCanceled                                  (* context.Canceled *)
| ErrDeadlineExceeded                          (* context.DeadlineExceeded *)
| ErrorString (msg : string)                   (* errors.New, RemoteError *)
| WrapError (prefix : string) (inner : error). (* fmt.Errorf("prefix: %w", inner) *)

#[export] Instance error_eq_dec : EqDecision error.
Proof. solve_decision. Defined.

(** [err.Error()]. *)
Fixpoint Error (e : error) : string :=
  match e with
  | ErrTaskNotFound => "task not found"
  | ErrNoRows => "sql: no rows in result set"
  | ErrCanceled => "context canceled"
  | ErrDeadlineExceeded => "context deadline exceeded"
  | ErrorString msg => msg
  | WrapError p e => p +:+ ": " +:+ Error e
  end%string.

(** A Go function returning [(T, error)]. *)
Inductive result (A : Type) : Type :=
| Ok (a : A)
| Err (e : error).
Arguments Ok {A} a.
Arguments Err {A} e.

#[export] Instance result_eq_dec {A} `{EqDecision A} : EqDecision (result A).
Proof. solve_decision. Defined.

Definition is_ok {A} (r : result A) : bool :=
  match r with Ok _ => true | Err _ => false end.

(** ** Record update

    [r <| p := v |>] is [r] with field [p] set to [v].  A setter is obtained
    from the record's eta expansion by abstracting the projection. *)

Class Setter {R F : Type} (p : R → F) := setf : F → R → R.
Arguments setf {R F} p {_} _ _.
#[global] Hint Mode Setter ! ! ! : typeclass_instances.

Notation "r <| p := v |>" := (setf p v r)
  (at level 1, left associativity, p at level 9, v at level 200,
   format "r  <| p  :=  v |>") : go_scope.
#[global] Open Scope go_scope.

Ltac mk_setter eta p :=
  let v := fresh "v" in
  let r := fresh "r" in
  intros v r;
  let t := eval cbv beta delta [eta] in (eta r) in
  let t' := eval pattern (p r) in t in
  match t' with
  | ?f _ => let t'' := eval cbv beta in (f v) in exact t''
  end.

(** ** The state monad of the handlers

    A handler of the server is a computation over its state [W]; Go's
    [error] results are values, never exceptions. *)

Definition M (W A : Type) : Type := W → A * W.

#[global] Instance M_ret W : MRet (M W) := λ A a w, (a, w).
#[global] Instance M_bind W : MBind (M W) := λ A B f m w, f (m w).1 (m w).2.

Definition gets {W A} (f : W → A) : M W A := λ w, (f w, w).
Definition modify {W} (f : W → W) : M W unit := λ w, (tt, f w).
Definition action {W A} (f : W → A * W) : M W A := f.

(** [for _, x := range xs { body(x) }] *)
Fixpoint forM {W A} (xs : list A) (body : A → M W unit) : M W unit :=
  match xs with
  | [] => mret tt
  | x :: xs => body x ;; forM xs body
  end.

Definition hoare {W A} (P : W → Prop) (m : M W A) (Q : A → W → Prop) : Prop :=
  ∀ w, P w → Q (m w).1 (m w).2.

(** [m] keeps [I]. *)
Definition preserves {W A} (I : W → Prop) (m : M W A) : Prop :=
  hoare I m (λ _, I).

Create HintDb preserve discriminated.

Section hoare.
Context {W : Type}.
Implicit Types (P I : W → Prop).

Lemma hoare_ret {A} P (Q : A → W → Prop) (a : A) :
  (∀ w, P w → Q a w) → hoare P (mret a) Q.
Proof. intros H w HP. by apply H. Qed.

Lemma hoare_bind {A B} P (R : A → W → Prop) (Q : B → W → Prop)
    (m : M W A) (f : A → M W B) :
  hoare P m R → (∀ a, hoare (R a) (f a) Q) → hoare P (m ≫= f) Q.
Proof. intros Hm Hf w HP. apply Hf. by apply Hm. Qed.

Lemma hoare_conseq {A} P P' (Q Q' : A → W → Prop) (m : M W A) :
  (∀ w, P' w → P w) → (∀ a w, Q a w → Q' a w) → hoare P m Q → hoare P' m Q'.
Proof. intros HP HQ H w HP'. apply HQ, H, HP, HP'. Qed.

Lemma hoare_gets {A} P (f : W → A) : hoare P (gets f) (λ a w, a = f w ∧ P w).
Proof. by intros w HP. Qed.

Lemma hoare_modify P (Q : unit → W → Prop) (f : W → W) :
  (∀ w, P w → Q tt (f w)) → hoare P (modify f) Q.
Proof. intros H w HP. by apply H. Qed.

(** A precondition that does not mention the state moves to the context. *)
Lemma hoare_pure {A} (φ : Prop) P (Q : A → W → Prop) (m : M W A) :
  (φ → hoare P m Q) → hoare (λ w, φ ∧ P w) m Q.
Proof. intros H w [Hφ HP]. by apply H. Qed.

Lemma preserves_ret {A} I (a : A) : preserves I (mret a).
Proof. by apply hoare_ret. Qed.

Lemma preserves_bind {A B} I (m : M W A) (f : A → M W B) :
  preserves I m → (∀ a, preserves I (f a)) → preserves I (m ≫= f).
Proof. apply hoare_bind. Qed.

Lemma preserves_gets {A} I (f : W → A) : preserves I (gets f).
Proof. by intros w HP. Qed.

Lemma preserves_modify I (f : W → W) : (∀ w, I w → I (f w)) → preserves I (modify f).
Proof. apply (hoare_modify I (λ _, I)). Qed.

Lemma preserves_if {A} I (b : bool) (m1 m2 : M W A) :
  preserves I m1 → preserves I m2 → preserves I (if b then m1 else m2).
Proof. by destruct b. Qed.

Lemma preserves_forM {A} I (xs : list A) (body : A → M W unit) :
  (∀ x, x ∈ xs → preserves I (body x)) → preserves I (forM xs body).
Proof.
  induction xs as [|x xs IH]; intros H; simpl; [apply preserves_ret|].
  apply preserves_bind; [apply H; set_solver|]. intros _. apply IH.
  intros y Hy. apply H. set_solver.
Qed.
End hoare.

#[export] Hint Resolve preserves_ret preserves_bind preserves_gets preserves_if
  preserves_forM : preserve.
#[export] Hint Extern 4 (preserves _ (match ?x with _ => _ end)) =>
  destruct x : preserve.

(** ** Sorting

    What [sort.Slice], [sort.Strings] and SQL's [ORDER BY] promise: a
    permutation of the input, ordered when the comparison is a strict weak
    order.  The relative order of equivalent elements is left open, as it is
    by all three. *)

Class SortBy := sort_by : ∀ {A : Type}, (A → A → bool) → list A → list A.

Record strict_weak {A} (P : A → Prop) (lt : A → A → bool) : Prop := {
  sw_irrefl : ∀ x, P x → lt x x = false;
  sw_trans : ∀ x y z, P x → P y → P z → lt x y = true → lt y z = true → lt x z = true;
  sw_incomp : ∀ x y z, P x → P y → P z →
    lt y x = false → lt z y = false → lt z x = false }.

Class SortByOk `{SortBy} : Prop := {
  sort_by_perm {A} (lt : A → A → bool) l : sort_by lt l ≡ₚ l;
  sort_by_sorted {A} (lt : A → A → bool) l :
    strict_weak (.∈ l) lt → Sorted (λ x y, lt y x = false) (sort_by lt l) }.

Lemma strict_weak_impl {A} (P Q : A → Prop) lt :
  (∀ x, P x → Q x) → strict_weak Q lt → strict_weak P lt.
Proof. intros HPQ [Hi Ht Hn]. split; eauto. Qed.

(** Lexicographic combination of two strict weak orders. *)
Lemma strict_weak_lex {A B C} (P : A → Prop) (f : A → B) (g : A → C) ltb ltc :
  strict_weak (λ b, ∃ a, P a ∧ f a = b) ltb → strict_weak (λ c, ∃ a, P a ∧ g a = c) ltc →
  strict_weak P (λ a a', ltb (f a) (f a') || (negb (ltb (f a') (f a)) && ltc (g a) (g a'))).
Proof.
  intros [Bi Bt Bn] [Ci Ct Cn].
  assert (∀ a, P a → ∃ a', P a' ∧ f a' = f a) as HB by eauto.
  assert (∀ a, P a → ∃ a', P a' ∧ g a' = g a) as HC by eauto.
  split.
  - intros x Hx. rewrite Bi, Ci by auto. done.
  - intros x y z Hx Hy Hz.
    pose proof (Bt (f x) (f y) (f z) (HB x Hx) (HB y Hy) (HB z Hz)) as T1.
    pose proof (Bn (f x) (f y) (f z) (HB x Hx) (HB y Hy) (HB z Hz)) as N1.
    pose proof (Bn (f z) (f x) (f y) (HB z Hz) (HB x Hx) (HB y Hy)) as N2.
    pose proof (Bn (f y) (f z) (f x) (HB y Hy) (HB z Hz) (HB x Hx)) as N3.
    pose proof (Ct (g x) (g y) (g z) (HC x Hx) (HC y Hy) (HC z Hz)) as T2.
    destruct (ltb (f x) (f y)), (ltb (f y) (f z)), (ltb (f x) (f z)), (ltb (f z) (f x)),
      (ltb (f z) (f y)), (ltb (f y) (f x)); simpl in *; try done; try (by specialize (N1 eq_refl eq_refl)); naive_solver.
  - intros x y z Hx Hy Hz.
    pose proof (Bt (f z) (f x) (f y) (HB z Hz) (HB x Hx) (HB y Hy)) as T1.
    pose proof (Bt (f y) (f z) (f x) (HB y Hy) (HB z Hz) (HB x Hx)) as T3.
    pose proof (Bn (f x) (f y) (f z) (HB x Hx) (HB y Hy) (HB z Hz)) as N1.
    pose proof (Bn (f z) (f x) (f y) (HB z Hz) (HB x Hx) (HB y Hy)) as N2.
    pose proof (Bn (f y) (f z) (f x) (HB y Hy) (HB z Hz) (HB x Hx)) as N3.
    pose proof (Cn (g x) (g y) (g z) (HC x Hx) (HC y Hy) (HC z Hz)) as T2.
    destruct (ltb (f x) (f y)), (ltb (f y) (f z)), (ltb (f x) (f z)), (ltb (f z) (f x)),
      (ltb (f z) (f y)), (ltb (f y) (f x)); simpl in *; try done; naive_solver.
Qed.

(** The first element of a sorted list precedes or ties with the others. *)
Lemma sorted_head {A} (P : A → Prop) lt (x : A) l :
  strict_weak P lt → P x → Forall P l → Sorted (λ x y, lt y x = false) (x :: l) →
  Forall (λ y, lt y x = false) l.
Proof.
  intros Hlt Hx Hl. revert x Hx. induction Hl as [|y l Hy Hl IH]; intros x Hx Hs; [done|].
  apply Sorted_inv in Hs as [Hs Hyx%HdRel_inv]. constructor; [done|].
  specialize (IH y Hy Hs). rewrite Forall_forall in Hl, IH |- *. intros z Hz.
  apply (sw_incomp P lt Hlt x y z); auto.
Qed.

Lemma sort_by_head `{SortByOk} {A} (lt : A → A → bool) x l l' :
  strict_weak (.∈ l) lt → sort_by lt l = x :: l' →
  x ∈ l ∧ ∀ y, y ∈ l → y = x ∨ lt y x = false.
Proof.
  intros Hlt Hs. pose proof (sort_by_perm lt l) as Hp. rewrite Hs in Hp.
  assert (x ∈ l) as Hx by (rewrite <- Hp; set_solver).
  pose proof (sort_by_sorted lt l Hlt) as Hsort. rewrite Hs in Hsort.
  apply (sorted_head (.∈ l)) in Hsort; [|done..|].
  - split; [done|]. intros y Hy. rewrite <- Hp in Hy. apply elem_of_cons in Hy as [->|Hy]; [by left|].
    right. rewrite Forall_forall in Hsort. auto.
  - apply Forall_forall. intros y Hy. rewrite <- Hp. set_solver.
Qed.

Section insertion_sort.
Context {A : Type} (lt : A → A → bool).

(** [x] moves left past the elements it precedes. *)
Fixpoint insert_sorted (x : A) (l : list A) : list A :=
  match l with
  | [] => [x]
  | y :: l => if lt x y then x :: y :: l else y :: insert_sorted x l
  end.

Definition insertion_sort (l : list A) : list A :=
  foldl (λ acc x, insert_sorted x acc) [] l.

Lemma insert_sorted_perm x l : insert_sorted x l ≡ₚ x :: l.
Proof.
  induction l as [|y l IH]; simpl; [done|].
  destruct (lt x y); [done|]. rewrite IH. by apply Permutation_swap.
Qed.

Lemma insertion_sort_perm_aux l acc :
  foldl (λ acc x, insert_sorted x acc) acc l ≡ₚ acc ++ l.
Proof.
  revert acc. induction l as [|x l IH]; intros acc; simpl.
  - by rewrite app_nil_r.
  - rewrite IH, insert_sorted_perm. apply Permutation_middle.
Qed.

Lemma insertion_sort_perm l : insertion_sort l ≡ₚ l.
Proof. apply insertion_sort_perm_aux. Qed.

Lemma insert_sorted_sorted (P : A → Prop) x l :
  strict_weak P lt → P x → Forall P l →
  Sorted (λ x y, lt y x = false) l →
  Sorted (λ x y, lt y x = false) (insert_sorted x l).
Proof.
  intros Hlt Hx Hl Hs. induction Hs as [|y l Hs IH Hhd]; simpl.
  { repeat constructor. }
  apply Forall_cons_1 in Hl as [Hy Hl]. specialize (IH Hl).
  destruct (lt x y) eqn:Hxy.
  - constructor; [by constructor|]. constructor.
    destruct (lt y x) eqn:Hyx; [|done].
    rewrite <- (sw_irrefl P lt Hlt x Hx).
    symmetry. by apply (sw_trans P lt Hlt x y x).
  - constructor; [done|].
    destruct l as [|z l]; simpl in *; [by constructor|].
    apply HdRel_inv in Hhd. destruct (lt x z); by constructor.
Qed.

Lemma insertion_sort_sorted l :
  strict_weak (.∈ l) lt → Sorted (λ x y, lt y x = false) (insertion_sort l).
Proof.
  intros Hlt. unfold insertion_sort.
  assert (∀ l' acc, (∀ x, x ∈ l' → x ∈ l) → Forall (.∈ l) acc →
    Sorted (λ x y, lt y x = false) acc →
    Sorted (λ x y, lt y x = false) (foldl (λ acc x, insert_sorted x acc) acc l')) as H.
  { induction l' as [|x l' IH]; intros acc Hin Hacc Hs; simpl; [done|].
    apply IH; [set_solver| |].
    - rewrite insert_sorted_perm. constructor; [set_solver|done].
    - apply (insert_sorted_sorted (.∈ l)); set_solver. }
  apply H; [done|constructor|constructor].
Qed.
End insertion_sort.

Module InsertionSort.
#[export] Instance sort : SortBy := @insertion_sort.
#[export] Instance sort_ok : SortByOk.
Proof.
  split; intros; [apply insertion_sort_perm|by apply insertion_sort_sorted].
Qed.
End InsertionSort.

(** ** Ranging over a map

    [for k, v := range m] visits every entry once in an order the language
    leaves open; code that ranges over a map is parametrised by the order. *)

Class MapRange := map_range : ∀ {V : Type}, gmap string V → list (string * V).
Class MapRangeOk `{MapRange} : Prop :=
  map_range_perm : ∀ {V} (m : gmap string V), map_range m ≡ₚ map_to_list m.

Module CanonicalRange.
#[export] Instance range : MapRange := λ V, map_to_list.
#[export] Instance range_ok : MapRangeOk.
Proof. by intros V m. Qed.
End CanonicalRange.

Lemma elem_of_map_range `{MapRangeOk} {V} (m : gmap string V) k v :
  (k, v) ∈ map_range m ↔ m !! k = Some v.
Proof. by rewrite map_range_perm, elem_of_map_to_list. Qed.

Lemma NoDup_map_range `{MapRangeOk} {V} (m : gmap string V) :
  NoDup (map_range m).*1.
Proof. rewrite map_range_perm. apply NoDup_fst_map_to_list. Qed.

(** ** Lists and sums *)

Lemma Forall_filter_list {A} (P Q : A → Prop) `{∀ x, Decision (Q x)} l :
  Forall P l → Forall P (filter Q l).
Proof.
  rewrite !Forall_forall. intros HP x Hx. apply list_elem_of_filter in Hx as [_ Hx]. auto.
Qed.

Definition zsum (l : list Z) : Z := foldr Z.add 0 l.

#[export] Instance zsum_proper : Proper ((≡ₚ) ==> (=)) zsum.
Proof. induction 1; simpl; lia. Qed.

Lemma zsum_app l l' : zsum (l ++ l') = zsum l + zsum l'.
Proof. induction l; simpl; lia. Qed.

Lemma zsum_nonneg l : Forall (λ z, 0 <= z) l → 0 <= zsum l.
Proof. induction 1; simpl; lia. Qed.

Lemma zsum_cons z l : zsum (z :: l) = z + zsum l.
Proof. done. Qed.

Lemma zsum_zero {A} (f : A → Z) l : (∀ x, x ∈ l → f x = 0) → zsum (f <$> l) = 0.
Proof.
  induction l as [|x l IH]; intros H; [done|].
  rewrite fmap_cons, zsum_cons, IH, H; set_solver.
Qed.

(** Sums of two functions that differ at one element at least. *)
Lemma sum_list_with_le {A} (f g : A → nat) l :
  (∀ x, x ∈ l → (f x <= g x)%nat) → (sum_list_with f l <= sum_list_with g l)%nat.
Proof.
  induction l as [|x l IH]; intros Hle; [done|]. cbn. pose proof (Hle x ltac:(left)).
  assert (sum_list_with f l <= sum_list_with g l)%nat; [|lia]. apply IH. intros y Hy. apply Hle. by right.
Qed.

Lemma sum_list_with_lt {A} (f g : A → nat) l y :
  (∀ x, x ∈ l → (f x <= g x)%nat) → y ∈ l → (f y < g y)%nat → (sum_list_with f l < sum_list_with g l)%nat.
Proof.
  intros Hle Hy Hlt. apply list_elem_of_split in Hy as (l1 & l2 & ->).
  rewrite !sum_list_with_app. cbn.
  pose proof (sum_list_with_le f g l1 ltac:(intros x Hx; apply Hle, elem_of_app; by left)).
  pose proof (sum_list_with_le f g l2 ltac:(intros x Hx; apply Hle, elem_of_app; right; by right)). lia.
Qed.

(** The sum of [f] over the values of a map. *)
Definition msum {V} (f : V → Z) (m : gmap string V) : Z := zsum (f <$> (map_to_list m).*2).

Lemma msum_insert_None {V} (f : V → Z) (m : gmap string V) k v :
  m !! k = None → msum f (<[k := v]> m) = f v + msum f m.
Proof. intros Hk. unfold msum. by rewrite map_to_list_insert. Qed.

Lemma msum_delete {V} (f : V → Z) (m : gmap string V) k v :
  m !! k = Some v → msum f m = f v + msum f (delete k m).
Proof.
  intros Hk. rewrite <- (insert_delete_id m k v Hk) at 1.
  apply msum_insert_None, lookup_delete_eq.
Qed.

(** A value is at most the sum when none is negative. *)
Lemma msum_ge {V} (f : V → Z) (m : gmap string V) k v :
  m !! k = Some v → (∀ k v, m !! k = Some v → 0 <= f v) → f v <= msum f m.
Proof.
  intros Hk Hf. rewrite (msum_delete f m k v Hk). unfold msum.
  assert (0 <= zsum (f <$> (map_to_list (delete k m)).*2)); [|lia].
  apply zsum_nonneg, Forall_forall. intros z (x & -> & Hx)%list_elem_of_fmap.
  apply list_elem_of_fmap in Hx as ([k' x'] & -> & Hx). apply elem_of_map_to_list, lookup_delete_Some in Hx as [_ Hx].
  by eapply Hf.
Qed.

Lemma msum_alter {V} (f : V → Z) (g : V → V) (m : gmap string V) k v :
  m !! k = Some v → msum f (alter g k m) = msum f m - f v + f (g v).
Proof.
  intros Hk. rewrite (msum_delete f m k v Hk).
  rewrite (msum_delete f (alter g k m) k (g v)) by (by rewrite lookup_alter_eq, Hk).
  rewrite delete_alter_eq. lia.
Qed.

Lemma alter_None {V} (g : V → V) (m : gmap string V) k :
  m !! k = None → alter g k m = m.
Proof.
  intros Hk. apply map_eq. intros k'. destruct (decide (k = k')) as [<-|Hne].
  - by rewrite lookup_alter_eq, Hk.
  - by rewrite lookup_alter_ne.
Qed.

(** ** Inevitability

    [eventually R P s]: every run of [R] from [s] meets [P] after finitely
    many steps, and no run gets stuck before. *)

Inductive eventually {S : Type} (R : S → S → Prop) (P : S → Prop) (s : S) : Prop :=
| eventually_now : P s → eventually R P s
| eventually_later :
    (∃ s', R s s') → (∀ s', R s s' → eventually R P s') → eventually R P s.

Section eventually.
Context {S : Type} (R : S → S → Prop).

Lemma eventually_trans (P P' : S → Prop) s :
  eventually R P s → (∀ s', P s' → eventually R P' s') → eventually R P' s.
Proof.
  intros Hs Hnext. induction Hs as [s Hp|s Hex _ IH]; [by apply Hnext|].
  by apply eventually_later.
Qed.

(** A step relation that has only one way to go. *)
Lemma eventually_step (P : S → Prop) s s1 :
  R s s1 → (∀ s2, R s s2 → s2 = s1) → eventually R P s1 → eventually R P s.
Proof. intros Hs Hd Hp. apply eventually_later; [by exists s1|]. by intros s2 ->%Hd. Qed.

(** A measure that falls until the goal is met, under an invariant. *)
Lemma eventually_measure (I P : S → Prop) (f : S → nat) s :
  (∀ s, I s → P s ∨ ((∃ s', R s s') ∧ ∀ s', R s s' → I s' ∧ (f s' < f s)%nat)) → I s → eventually R P s.
Proof.
  intros Hf. remember (f s) as n eqn:Hn. revert s Hn.
  induction (lt_wf n) as [n _ IH]. intros s -> Hs.
  destruct (Hf s Hs) as [Hp|[Hex Hlt]]; [by apply eventually_now|].
  apply eventually_later; [done|]. intros s' [Hs' Hd]%Hlt. by apply (IH (f s')).
Qed.
End eventually.
