(* ===== verification/GoStrings.v ===== *)
(** * The string functions of Go's standard library the program uses

    A Go string is a sequence of bytes, a [string] of Rocq a sequence of
    eight-bit [ascii] characters.  Modelled: [strings.HasPrefix], [HasSuffix],
    [TrimPrefix], and [Split] and [SplitN] with a separator of one byte (the
    only ones used). *)

From S2P Require Import Prelude.
From Stdlib Require Import Ascii.


(** ** Prefixes and suffixes *)

Definition HasPrefix (s p : string) : bool := String.prefix p s.

Fixpoint drop_bytes (n : nat) (s : string) : string :=
  match n, s with
  | O, _ => s
  | S _, EmptyString => EmptyString
  | S n, String _ s => drop_bytes n s
  end.

Definition TrimPrefix (s p : string) : string :=
  if HasPrefix s p then drop_bytes (String.length p) s else s.

Definition HasSuffix (s p : string) : bool :=
  (String.length p <=? String.length s)%nat &&
  bool_decide (drop_bytes (String.length s - String.length p) s = p).

(** ** Splitting at a one-byte separator *)

Definition newline : ascii := "010".

Fixpoint contains_byte (c : ascii) (s : string) : bool :=
  match s with
  | EmptyString => false
  | String a s => Ascii.eqb a c || contains_byte c s
  end.

(** The text before the first [c] and, when there is one, the text after it. *)
Fixpoint cut_byte (c : ascii) (s : string) : string * option string :=
  match s with
  | EmptyString => (EmptyString, None)
  | String a s =>
      if Ascii.eqb a c then (EmptyString, Some s)
      else let '(before, after) := cut_byte c s in (String a before, after)
  end.

(** [strings.SplitN(s, c, 2)] *)
Definition SplitN2 (s : string) (c : ascii) : list string :=
  match cut_byte c s with
  | (before, None) => [before]
  | (before, Some after) => [before; after]
  end.

(** [strings.Split(s, c)] *)
Fixpoint Split (s : string) (c : ascii) : list string :=
  match s with
  | EmptyString => [EmptyString]
  | String a s =>
      if Ascii.eqb a c then EmptyString :: Split s c
      else match Split s c with
           | x :: xs => String a x :: xs
           | [] => [String a EmptyString]
           end
  end.

(** ** Facts *)

Lemma append_cons a s t : String a s +:+ t = String a (s +:+ t).
Proof. done. Qed.

Lemma append_nil_l s : EmptyString +:+ s = s.
Proof. done. Qed.

Lemma append_nil_r s : s +:+ EmptyString = s.
Proof. induction s as [|a s IH]; [done|]. by rewrite append_cons, IH. Qed.

Lemma append_assoc s t u : (s +:+ t) +:+ u = s +:+ (t +:+ u).
Proof.
  induction s as [|a s IH]; [done|]. by rewrite !append_cons, IH.
Qed.

Lemma drop_bytes_append p s : drop_bytes (String.length p) (p +:+ s) = s.
Proof. induction p as [|a p IH]; [done|]. by rewrite append_cons. Qed.

Lemma HasPrefix_append p s : HasPrefix (p +:+ s) p = true.
Proof.
  unfold HasPrefix. induction p as [|a p IH]; [by destruct s|].
  rewrite append_cons. simpl. by destruct (ascii_dec a a).
Qed.

Lemma TrimPrefix_append p s : TrimPrefix (p +:+ s) p = s.
Proof. unfold TrimPrefix. by rewrite HasPrefix_append, drop_bytes_append. Qed.

Lemma cut_byte_None c s b : cut_byte c s = (b, None) → b = s ∧ contains_byte c s = false.
Proof.
  revert b. induction s as [|a s IH]; intros b; simpl; [by intros [= <-]|].
  destruct (Ascii.eqb a c); [done|]. destruct (cut_byte c s) as [b' o].
  intros [= <- ->]. by destruct (IH b' eq_refl) as [-> ->].
Qed.

Lemma cut_byte_Some c s b t :
  cut_byte c s = (b, Some t) ↔ s = b +:+ String c t ∧ contains_byte c b = false.
Proof.
  revert b. induction s as [|a s IH]; intros b; simpl.
  { split; [done|]. intros [H _]. by destruct b. }
  destruct (Ascii.eqb_spec a c) as [->|Hne].
  - split; [by intros [= <- ->]|]. intros [H Hb]. destruct b as [|a' b].
    + by injection H as ->.
    + injection H as <- _. simpl in Hb. by rewrite Ascii.eqb_refl in Hb.
  - destruct (cut_byte c s) as [b' o] eqn:Hc. split.
    + intros [= <- ->]. destruct (proj1 (IH b') eq_refl) as [-> Hb].
      simpl. by rewrite (proj2 (Ascii.eqb_neq a c) Hne).
    + intros [H Hb]. destruct b as [|a' b].
      * injection H as <- _. done.
      * injection H as <- H. simpl in Hb. apply orb_false_iff in Hb as [_ Hb].
        by injection (proj2 (IH b) (conj H Hb)) as -> ->.
Qed.

Lemma SplitN2_pair s c k v :
  SplitN2 s c = [k; v] ↔ s = k +:+ String c v ∧ contains_byte c k = false.
Proof.
  unfold SplitN2. destruct (cut_byte c s) as [b [t|]] eqn:Hc.
  - rewrite <- cut_byte_Some, Hc. split; by intros [= -> ->].
  - split; [done|]. intros H. apply cut_byte_Some in H. congruence.
Qed.

Lemma SplitN2_nonempty s c : SplitN2 s c ≠ [].
Proof. unfold SplitN2. by destruct (cut_byte c s) as [? [?|]]. Qed.

(** The first part is the same however often the rest is split. *)
Lemma Split_head s c : head (Split s c) = head (SplitN2 s c).
Proof.
  unfold SplitN2. induction s as [|a s IH]; simpl; [done|].
  destruct (Ascii.eqb a c); [done|].
  destruct (cut_byte c s) as [b [t|]]; destruct (Split s c); simpl in *; congruence.
Qed.

Lemma SplitN2_no_sep s c : contains_byte c s = false → SplitN2 s c = [s].
Proof.
  intros H. unfold SplitN2. destruct (cut_byte c s) as [b [t|]] eqn:Hc.
  - apply cut_byte_Some in Hc as [-> Hb]. exfalso.
    induction b as [|a b IH]; simpl in *.
    + by rewrite Ascii.eqb_refl in H.
    + apply orb_false_iff in Hb as [_ Hb], H as [_ H]. by apply IH.
  - apply cut_byte_None in Hc as [-> _]. done.
Qed.

(** ** Splitting what was joined *)

Lemma Split_cons c s : ∃ x xs, Split s c = x :: xs.
Proof.
  induction s as [|a s (x & xs & IH)]; cbn [Split]; [by eauto|].
  destruct (Ascii.eqb a c); [by eauto|]. rewrite IH. eauto.
Qed.

Lemma Split_line c l s : contains_byte c l = false → Split (l +:+ String c s) c = l :: Split s c.
Proof.
  induction l as [|a l IH]; cbn [contains_byte]; intros Hl.
  - rewrite append_nil_l. cbn [Split]. by rewrite Ascii.eqb_refl.
  - apply orb_false_iff in Hl as [Ha Hl]. rewrite append_cons. cbn [Split].
    by rewrite Ha, IH.
Qed.

Lemma Split_none c l : contains_byte c l = false → Split l c = [l].
Proof.
  induction l as [|a l IH]; [done|]. cbn [contains_byte Split].
  intros [Ha Hl]%orb_false_iff. by rewrite Ha, IH.
Qed.

Lemma Split_app_head c l s x xs :
  contains_byte c l = false → Split s c = x :: xs → Split (l +:+ s) c = (l +:+ x) :: xs.
Proof.
  intros Hl Hs. induction l as [|a l IH]; cbn [contains_byte] in *; [done|].
  apply orb_false_iff in Hl as [Ha Hl]. rewrite !append_cons. cbn [Split]. by rewrite Ha, IH.
Qed.

(** [strings.Join(ls, c)] *)
Fixpoint Join (c : ascii) (ls : list string) : string :=
  match ls with
  | [] => EmptyString
  | [l] => l
  | l :: ls => l +:+ String c (Join c ls)
  end.

Lemma Split_Join c ls :
  ls ≠ [] → Forall (λ l, contains_byte c l = false) ls → Split (Join c ls) c = ls.
Proof.
  intros Hne Hls. induction Hls as [|l ls Hl Hls IH]; [done|]. destruct ls as [|l' ls].
  - by apply Split_none.
  - change (Join c (l :: l' :: ls)) with (l +:+ String c (Join c (l' :: ls))).
    rewrite Split_line by done. by rewrite IH.
Qed.

(** ** The byte order of strings, as [sort.Strings] compares them *)

Lemma string_ltb_leb s t : String.ltb s t = negb (String.leb t s).
Proof.
  unfold String.ltb, String.leb. rewrite (String.compare_antisym s t).
  by destruct (String.compare t s).
Qed.

Lemma string_ltb_false s t : String.ltb t s = false ↔ String.le s t.
Proof.
  rewrite string_ltb_leb, negb_false_iff. unfold String.le. by destruct (String.leb s t).
Qed.

Lemma string_ltb_strict_weak P : strict_weak P String.ltb.
Proof.
  split.
  - intros x _. by apply string_ltb_false.
  - intros x y z _ _ _. rewrite <- !not_false_iff_true, !string_ltb_false.
    intros Hxy Hyz Hzx. destruct (String.le_total y z); [|done].
    apply Hxy. by trans z.
  - intros x y z _ _ _. rewrite !string_ltb_false. intros ??. by trans y.
Qed.

Lemma sort_strings_sorted `{SortByOk} l : Sorted String.le (sort_by String.ltb l).
Proof.
  pose proof (sort_by_sorted _ l (string_ltb_strict_weak (.∈ l))) as Hs.
  induction Hs as [|x l' Hs IH Hhd]; constructor; [done|].
  destruct Hhd; constructor. by apply string_ltb_false.
Qed.

(** Sorting strings has one possible outcome. *)
Lemma sort_strings_unique (S1 S2 : SortBy) `{!@SortByOk S1, !@SortByOk S2} l1 l2 :
  l1 ≡ₚ l2 →
  @sort_by S1 _ String.ltb l1 = @sort_by S2 _ String.ltb l2.
Proof.
  intros Hp. apply (Sorted_unique String.le).
  - by apply sort_strings_sorted.
  - by apply sort_strings_sorted.
  - by rewrite !sort_by_perm.
Qed.
