(* ===== verification/GoFormat.v ===== *)
(** * Formatting and scanning ([fmt], [strconv], [time.Format])

    The conversions between numbers, dates and text the program uses:
    [strconv.Itoa] and [strconv.Atoi], [fmt.Sscanf] with the verb [%d], the
    date layout [2006-01-02], and [strings.TrimSpace]. *)

From S2P Require Import Prelude GoStrings.
From stdpp Require Import pretty.
From Stdlib Require Import Ascii.
#[local] Open Scope Z_scope.

(** [strconv.Itoa] and [strconv.FormatInt] in base ten. *)
Definition Itoa (z : Z) : string := pretty z.

Definition byte (a : ascii) : Z := Z.of_N (N_of_ascii a).

(** ** [fmt.Sscanf(s, "%d", &val)] *)

(** White space other than a newline, at most three bytes of UTF-8. *)
Definition is_space1 (b : Z) : bool := existsb (Z.eqb b) [9; 11; 12; 13; 32].
Definition is_space2 (b c : Z) : bool := (b =? 194) && ((c =? 133) || (c =? 160)).
Definition is_space3 (b c d : Z) : bool :=
  ((b =? 225) && (c =? 154) && (d =? 128)) ||
  ((b =? 226) && (c =? 128) && ((128 <=? d) && (d <=? 138) || existsb (Z.eqb d) [168; 169; 175])) ||
  ((b =? 226) && (c =? 129) && (d =? 159)) ||
  ((b =? 227) && (c =? 128) && (d =? 128)).

Fixpoint skip_space (s : string) : string :=
  match s with
  | String a s1 =>
      if is_space1 (byte a) then skip_space s1
      else match s1 with
           | String b s2 =>
               if is_space2 (byte a) (byte b) then skip_space s2
               else match s2 with
                    | String c s3 =>
                        if is_space3 (byte a) (byte b) (byte c) then skip_space s3 else s
                    | EmptyString => s
                    end
           | EmptyString => s
           end
  | EmptyString => EmptyString
  end.

Definition is_digit (a : ascii) : bool := (48 <=? byte a) && (byte a <=? 57).

(** The value of the leading digits and whether there is any. *)
Fixpoint scan_digits (acc : Z) (any : bool) (s : string) : Z * bool :=
  match s with
  | String a s => if is_digit a then scan_digits (10 * acc + (byte a - 48)) true s else (acc, any)
  | EmptyString => (acc, any)
  end.

(** [strconv.Atoi]: the value and whether there was no error.  A syntax error
    gives zero, a value outside [int] its nearest bound; digits are read from
    the left, so a number already too large for 64 bits is a range error
    whatever follows. *)
Definition max_uint64 : Z := 2 ^ 64 - 1.

Inductive scanned : Type :=
| Syntax
| Range
| Value (n : Z).

Fixpoint parse_uint (n : Z) (s : string) : scanned :=
  match s with
  | EmptyString => Value n
  | String a s =>
      if negb (is_digit a) then Syntax
      else
        let n' := 10 * n + (byte a - 48) in
        if max_uint64 <? n' then Range else parse_uint n' s
  end.

Definition Atoi (s : string) : Z * bool :=
  let '(neg, s) :=
    match s with
    | String a s' =>
        if byte a =? 45 then (true, s') else if byte a =? 43 then (false, s') else (false, s)
    | EmptyString => (false, s)
    end in
  match s with
  | EmptyString => (0, false)
  | _ =>
      let bound := if neg : bool then (- 2 ^ 63, false) else (2 ^ 63 - 1, false) in
      match parse_uint 0 s with
      | Syntax => (0, false)
      | Range => bound
      | Value n =>
          if neg then (if 2 ^ 63 <? n then bound else (- n, true))
          else (if 2 ^ 63 - 1 <? n then bound else (n, true))
      end
  end.

(** The variable keeps its initial zero when the scan fails: no digits, a
    newline first, or a value outside [int]. *)
Definition Sscanf_d (s : string) : Z :=
  let s := skip_space s in
  let '(neg, s) :=
    match s with
    | String a s' =>
        if byte a =? 45 then (true, s') else if byte a =? 43 then (false, s') else (false, s)
    | EmptyString => (false, s)
    end in
  let '(n, any) := scan_digits 0 false s in
  let z := if neg : bool then - n else n in
  if any && (- 2 ^ 63 <=? z) && (z <? 2 ^ 63) then z else 0.

Lemma Sscanf_d_range s : in_i64 (Sscanf_d s).
Proof.
  unfold Sscanf_d. destruct (match skip_space s with | EmptyString => _ | _ => _ end) as [neg s'].
  destruct (scan_digits 0 false s') as [n any].
  destruct (any && _ && _) eqn:H; [|int_lia].
  apply andb_true_iff in H as [[_ H1]%andb_true_iff H2].
  apply Z.leb_le in H1. apply Z.ltb_lt in H2. destruct neg; int_lia.
Qed.

Lemma parse_uint_range n s m : 0 <= n → parse_uint n s = Value m → 0 <= m.
Proof.
  revert n. induction s as [|a s IH]; intros n Hn; cbn [parse_uint].
  - by intros [= <-].
  - destruct (is_digit a) eqn:Hd; cbn [negb]; [|done].
    apply andb_true_iff in Hd as [H1%Z.leb_le _].
    destruct (max_uint64 <? 10 * n + (byte a - 48)); [done|]. apply IH. lia.
Qed.

Lemma Atoi_range s : in_i64 (Atoi s).1.
Proof.
  unfold Atoi. destruct (match s with EmptyString => _ | _ => _ end) as [neg s'].
  destruct s' as [|a s']; [cbn; int_lia|].
  destruct (parse_uint 0 (String a s')) as [| |n] eqn:Hp.
  - cbn. int_lia.
  - destruct neg; cbn; int_lia.
  - apply parse_uint_range in Hp; [|done].
    destruct neg; [destruct (Z.ltb_spec (2 ^ 63) n)|destruct (Z.ltb_spec (2 ^ 63 - 1) n)];
      cbn [fst]; int_lia.
Qed.

(** ** [fmt.Sscanf] with other formats

    A format of literal bytes, spaces and one verb, [%d] here; the result is the
    values scanned into the [int] arguments, in order, and whether there was no
    error.  An argument whose verb is not reached keeps its value. *)

Fixpoint drop_digits (s : string) : string :=
  match s with
  | String a s' => if is_digit a then drop_digits s' else s
  | EmptyString => EmptyString
  end.

(** [s.scanInt('d', 64)]: the value and the input left. *)
Definition scan_int (s : string) : option (Z * string) :=
  let s := skip_space s in
  let '(neg, s) :=
    match s with
    | String a s' =>
        if byte a =? 45 then (true, s') else if byte a =? 43 then (false, s') else (false, s)
    | EmptyString => (false, s)
    end in
  let '(n, any) := scan_digits 0 false s in
  let z := if neg : bool then - n else n in
  if any && (- 2 ^ 63 <=? z) && (z <? 2 ^ 63) then Some (z, drop_digits s) else None.

(** A space of the format matches at least one space of the input, or its end;
    a run of them counts as one.  All the verbs of a format are the same one,
    read by [scan]. *)
Section scanf.
Context {A : Type} (verb : ascii) (scan : string → option (A * string)).

Fixpoint scanf (format input : string) : list A * bool :=
  match format with
  | EmptyString => ([], true)
  | String a f =>
      if Ascii.eqb a "%" then
        match f with
        | String b f =>
            if Ascii.eqb b verb then
              match scan input with
              | Some (n, input) => let '(ns, ok) := scanf f input in (n :: ns, ok)
              | None => ([], false)
              end
            else ([], false)
        | EmptyString => ([], false)
        end
      else if Ascii.eqb a " " then
        if HasPrefix f " " then scanf f input
        else if bool_decide (input = EmptyString) || bool_decide (skip_space input ≠ input)
        then scanf f (skip_space input)
        else ([], false)
      else
        match input with
        | String b input => if Ascii.eqb a b then scanf f input else ([], false)
        | EmptyString => ([], false)
        end
  end.
End scanf.

Abbreviation Sscanf := (scanf "d" scan_int).

(** [fmt.Sscanf(s, "%d", &val)] with [val] of type [uint64]: no sign. *)
Definition Sscanf_uint (s : string) : option Z :=
  let '(n, any) := scan_digits 0 false (skip_space s) in
  if any && (n <=? max_uint64) then Some n else None.

(** The general scanner on the format of one verb. *)
Lemma Sscanf_d_scan s : Sscanf_d s = default 0 (head (Sscanf "%d" s).1).
Proof.
  cbn. unfold Sscanf_d, scan_int.
  destruct (match skip_space s with EmptyString => _ | String _ _ => _ end) as [neg s'].
  destruct (scan_digits 0 false s') as [n any]. by destruct (any && _ && _).
Qed.

Lemma scan_int_range s n rest : scan_int s = Some (n, rest) → in_i64 n.
Proof.
  unfold scan_int. destruct (match skip_space s with EmptyString => _ | String _ _ => _ end) as [neg s'].
  destruct (scan_digits 0 false s') as [m any]. destruct (any && _ && _) eqn:Hb; [|done].
  intros [= <- _]. apply andb_true_iff in Hb as [[_ H1%Z.leb_le]%andb_true_iff H2%Z.ltb_lt].
  destruct neg; int_lia.
Qed.

Lemma Sscanf_range format input : Forall (λ n, in_i64 n) (Sscanf format input).1.
Proof.
  assert (∀ k f input, (String.length f < k)%nat → Forall (λ n, in_i64 n) (Sscanf f input).1) as H;
    [|apply (H (S (String.length format))); lia].
  clear. induction k as [|k IH]; intros f input Hk; [lia|].
  destruct f as [|a f]; [constructor|]. cbn [scanf]. cbn in Hk.
  destruct (Ascii.eqb a "%").
  - destruct f as [|b f]; [constructor|]. destruct (Ascii.eqb b "d"); [|constructor].
    destruct (scan_int input) as [[n rest]|] eqn:Hn; [|constructor].
    apply scan_int_range in Hn. specialize (IH f rest ltac:(cbn in Hk; lia)).
    destruct (Sscanf f rest) as [ns ok]. by constructor.
  - destruct (Ascii.eqb a " ").
    + destruct (HasPrefix f " "); [apply IH; lia|].
      destruct (bool_decide _ || _); [apply IH; lia|constructor].
    + destruct input as [|b input]; [constructor|].
      destruct (Ascii.eqb a b); [apply IH; lia|constructor].
Qed.

(** ** [strings.TrimSpace] *)

Fixpoint TrimLeft (s : string) : string :=
  match s with
  | String a s1 =>
      if (byte a =? 10) || is_space1 (byte a) then TrimLeft s1
      else match s1 with
           | String b s2 =>
               if is_space2 (byte a) (byte b) then TrimLeft s2
               else match s2 with
                    | String c s3 =>
                        if is_space3 (byte a) (byte b) (byte c) then TrimLeft s3 else s
                    | EmptyString => s
                    end
           | EmptyString => s
           end
  | EmptyString => EmptyString
  end.

(** Without the longest suffix that is white space. *)
Fixpoint TrimRight (s : string) : string :=
  match s with
  | String a s' =>
      if bool_decide (TrimLeft s = EmptyString) then EmptyString else String a (TrimRight s')
  | EmptyString => EmptyString
  end.

Definition TrimSpace (s : string) : string := TrimRight (TrimLeft s).

Example TrimSpace_examples :
  TrimSpace "  gpu " = "gpu"%string ∧ TrimSpace " a b " = "a b"%string ∧ TrimSpace "   " = ""%string.
Proof. by vm_compute. Qed.

(** [strconv.Atoi] reads back what [strconv.Itoa] writes. *)
Lemma byte_digit d :
  (d < 10)%N → byte (pretty_N_char d) = 48 + Z.of_N d ∧ is_digit (pretty_N_char d) = true.
Proof.
  intros Hd. assert (d = 0 ∨ d = 1 ∨ d = 2 ∨ d = 3 ∨ d = 4 ∨ d = 5 ∨ d = 6 ∨ d = 7 ∨ d = 8 ∨ d = 9)%N
    as Hc by lia.
  repeat (destruct Hc as [->|Hc]; [done|]). by subst.
Qed.

Lemma parse_digits x s :
  Z.of_N x <= max_uint64 → parse_uint 0 (pretty_N_go x s) = parse_uint (Z.of_N x) s.
Proof.
  revert s. induction (N.lt_wf_0 x) as [x _ IH]. intros s Hx.
  destruct (decide (x = 0)%N) as [->|Hne]; [by rewrite pretty_N_go_0|].
  pose proof (N.div_mod x 10 ltac:(done)) as Hdm. pose proof (N.mod_lt x 10 ltac:(done)) as Hlt.
  assert (x / 10 < x)%N as Hdiv by (apply N.div_lt; lia).
  rewrite pretty_N_go_step by lia. rewrite IH by (done || lia). cbn [parse_uint].
  destruct (byte_digit (x mod 10) Hlt) as [-> ->]. cbn [negb].
  replace (10 * Z.of_N (x / 10) + (48 + Z.of_N (x mod 10) - 48)) with (Z.of_N x) by lia.
  destruct (Z.ltb_spec max_uint64 (Z.of_N x)); [lia|done].
Qed.

(** The first byte of a positive number is neither a sign nor missing. *)
Lemma pretty_head x s :
  (0 < x)%N → ∃ a s', pretty_N_go x s = String a s' ∧ is_digit a = true.
Proof.
  revert s. induction (N.lt_wf_0 x) as [x _ IH]. intros s Hx. rewrite pretty_N_go_step by done.
  destruct (decide (x / 10 = 0)%N) as [->|Hne].
  - rewrite pretty_N_go_0. eexists _, _. split; [done|]. by apply byte_digit, N.mod_lt.
  - apply IH; [apply N.div_lt; lia|by apply N.neq_0_lt_0].
Qed.

Lemma Atoi_Itoa z : in_i64 z → Atoi (Itoa z) = (z, true).
Proof.
  intros Hz. destruct z as [|p|p]; [done|..].
  - change (Itoa (Zpos p)) with (pretty_N_go (Npos p) EmptyString).
    destruct (pretty_head (Npos p) EmptyString) as (a & s & Hs & Ha); [done|].
    pose proof (parse_digits (Npos p) EmptyString ltac:(unfold max_uint64; cbn; int_lia)) as Hp.
    rewrite Hs in Hp |- *. unfold Atoi.
    assert ((byte a =? 45) = false ∧ (byte a =? 43) = false) as [-> ->].
    { unfold is_digit in Ha. apply andb_true_iff in Ha as [Ha%Z.leb_le _]. lia. }
    rewrite Hp. cbn [parse_uint]. change (Z.of_N (Npos p)) with (Zpos p).
    destruct (Z.ltb_spec (2 ^ 63 - 1) (Zpos p)); [int_lia|done].
  - change (Itoa (Zneg p)) with ("-" +:+ pretty_N_go (Npos p) EmptyString).
    destruct (pretty_head (Npos p) EmptyString) as (a & s & Hs & Ha); [done|].
    pose proof (parse_digits (Npos p) EmptyString ltac:(unfold max_uint64; cbn; int_lia)) as Hp.
    rewrite Hs in Hp |- *. change ("-" +:+ String a s) with (String "-" (String a s)).
    unfold Atoi. change (byte "-" =? 45) with true. cbv iota.
    rewrite Hp. cbn [parse_uint]. change (Z.of_N (Npos p)) with (Zpos p).
    destruct (Z.ltb_spec (2 ^ 63) (Zpos p)); [int_lia|done].
Qed.

(** [%d] reads back what [strconv.Itoa] writes. *)
Definition no_digit (s : string) : bool :=
  match s with String a _ => negb (is_digit a) | EmptyString => true end.

Lemma scan_digits_stop n any s : no_digit s = true → scan_digits n any s = (n, any).
Proof. destruct s as [|a s]; [done|]. cbn. by destruct (is_digit a). Qed.

Lemma drop_digits_stop s : no_digit s = true → drop_digits s = s.
Proof. destruct s as [|a s]; [done|]. cbn. by destruct (is_digit a). Qed.

Lemma scan_pretty x s any :
  scan_digits 0 any (pretty_N_go x s) =
    scan_digits (Z.of_N x) (if decide (x = 0)%N then any else true) s ∧
  drop_digits (pretty_N_go x s) = drop_digits s.
Proof.
  revert s. induction (N.lt_wf_0 x) as [x _ IH]. intros s.
  destruct (decide (x = 0)%N) as [->|Hne]; [by rewrite pretty_N_go_0|].
  pose proof (N.div_mod x 10 ltac:(done)) as Hdm. pose proof (N.mod_lt x 10 ltac:(done)) as Hlt.
  rewrite pretty_N_go_step by lia. destruct (IH (x / 10)%N ltac:(apply N.div_lt; lia)
    (String (pretty_N_char (x mod 10)) s)) as [-> ->].
  cbn [scan_digits drop_digits]. destruct (byte_digit (x mod 10) Hlt) as [-> ->].
  split; [|done]. f_equal. lia.
Qed.

Lemma skip_space_digit a s : is_digit a = true → skip_space (String a s) = String a s.
Proof.
  intros Ha. assert (∀ k, 57 < k ∨ k < 48 → (byte a =? k) = false) as E.
  { unfold is_digit in Ha. lia. }
  cbn [skip_space]. unfold is_space1, is_space2, is_space3. cbn [existsb].
  destruct s as [|b [|c s]]; by rewrite !E by lia.
Qed.

Lemma scan_int_digit a s :
  is_digit a = true →
  scan_int (String a s) =
    let n := (scan_digits 0 false (String a s)).1 in
    if n <? 2 ^ 63 then Some (n, drop_digits (String a s)) else None.
Proof.
  intros Ha. assert (48 <= byte a <= 57) as Hb.
  { unfold is_digit in Ha. apply andb_true_iff in Ha as [H1%Z.leb_le H2%Z.leb_le]. lia. }
  unfold scan_int. rewrite skip_space_digit by done.
  assert ((byte a =? 45) = false ∧ (byte a =? 43) = false) as [-> ->] by lia.
  assert (∀ s n, 0 <= n → 0 <= (scan_digits n true s).1 ∧ (scan_digits n true s).2 = true) as Hs.
  { clear. induction s as [|c s IH]; intros n Hn; [done|]. cbn. destruct (is_digit c) eqn:Hc; [|done].
    unfold is_digit in Hc. apply andb_true_iff in Hc as [H1%Z.leb_le H2%Z.leb_le]. apply IH. lia. }
  cbn [scan_digits]. rewrite Ha. destruct (Hs s (10 * 0 + (byte a - 48)) ltac:(lia)) as [Hn Hany].
  destruct (scan_digits _ true s) as [n any]. cbn [fst snd] in Hn, Hany |- *. rewrite Hany.
  assert ((- 2 ^ 63 <=? n) = true) as -> by lia. done.
Qed.

Lemma Itoa_head n rest : 0 <= n → ∃ a s, Itoa n +:+ rest = String a s ∧ is_digit a = true.
Proof.
  intros Hn. destruct n as [|p|p]; [by eexists _, _|..|lia].
  destruct (pretty_head (Npos p) EmptyString) as (a & s & Hs & Ha); [done|].
  change (Itoa (Zpos p)) with (pretty_N_go (Npos p) EmptyString). rewrite Hs. by eexists _, _.
Qed.

Lemma scan_int_Itoa n rest :
  0 <= n < 2 ^ 63 → no_digit rest = true → scan_int (Itoa n +:+ rest) = Some (n, rest).
Proof.
  intros Hn Hr. destruct n as [|p|p]; [|..|lia].
  - change (Itoa 0 +:+ rest) with (String "0" rest). rewrite scan_int_digit by done.
    cbn [scan_digits drop_digits]. change (is_digit "0") with true. cbv iota.
    by rewrite scan_digits_stop, drop_digits_stop.
  - change (Itoa (Zpos p) +:+ rest) with (pretty_N_go (Npos p) EmptyString +:+ rest).
    assert (∀ x s, pretty_N_go x s +:+ rest = pretty_N_go x (s +:+ rest)) as ->.
    { intros x. induction (N.lt_wf_0 x) as [x _ IH]. intros s.
      destruct (decide (x = 0)%N) as [->|Hne]; [by rewrite !pretty_N_go_0|].
      rewrite !(pretty_N_go_step x) by lia. apply IH, N.div_lt; lia. }
    rewrite append_nil_l. pose proof (scan_pretty (Npos p) rest false) as [Hd Hrest].
    rewrite decide_False, (scan_digits_stop (Z.of_N (Npos p))) in Hd by done.
    rewrite (drop_digits_stop rest) in Hrest by done.
    destruct (pretty_head (Npos p) rest) as (a & s & Hs & Ha); [done|].
    rewrite Hs in Hd, Hrest |- *. rewrite scan_int_digit by done. rewrite Hd, Hrest. cbv zeta. cbn [fst].
    change (Z.of_N (Npos p)) with (Zpos p).
    by destruct (Z.ltb_spec (Zpos p) (2 ^ 63)); [|lia].
Qed.

Example Atoi_examples :
  Atoi "42" = (42, true) ∧ Atoi "-7" = (-7, true) ∧ Atoi "" = (0, false) ∧ Atoi "4x" = (0, false) ∧
  Atoi "99999999999999999999" = (2 ^ 63 - 1, false) ∧ Atoi "-99999999999999999999" = (- 2 ^ 63, false).
Proof. by vm_compute. Qed.

Example Sscanf_d_examples :
  Sscanf_d " 12abc" = 12 ∧ Sscanf_d "-7" = -7 ∧ Sscanf_d "x" = 0 ∧
  Sscanf_d "9223372036854775808" = 0 ∧ Sscanf_d "+5" = 5.
Proof. repeat split; vm_compute; reflexivity. Qed.

(** ** [t.Format("2006-01-02")] *)

(** Year, month and day of a number of days since the epoch, in the
    proleptic Gregorian calendar; years are counted from March. *)
Definition civil (days : Z) : Z * Z * Z :=
  let z := days + 719468 in
  let era := z / 146097 in
  let doe := z mod 146097 in
  let yoe := (doe - doe / 1460 + doe / 36524 - doe / 146096) / 365 in
  let doy := doe - (365 * yoe + yoe / 4 - yoe / 100) in
  let mp := (5 * doy + 2) / 153 in
  let m := if mp <? 10 then mp + 3 else mp - 9 in
  (yoe + era * 400 + (if m <=? 2 then 1 else 0), m, doy - (153 * mp + 2) / 5 + 1).

Fixpoint pad (width : nat) (s : string) : string :=
  match width with
  | O => s
  | S w => if (String.length s <=? w)%nat then "0" +:+ pad w s else s
  end.

(** [offset]: the seconds the local time zone is ahead of UTC. *)
Definition format_date (offset : Z) (t : Time) : string :=
  let '(y, m, d) := civil ((time_unix t + offset) / 86400) in
  pad 4 (Itoa y) +:+ "-" +:+ pad 2 (Itoa m) +:+ "-" +:+ pad 2 (Itoa d).

Example format_date_examples :
  format_date 0 0 = "1970-01-01"%string ∧
  format_date 0 (951782400 * second) = "2000-02-29"%string ∧
  format_date 28800 (1735660800 * second) = "2025-01-01"%string.
Proof. repeat split; vm_compute; reflexivity. Qed.
