(* ===== verification/Float64.v ===== *)
(** * Go's [float64]

    The percentages and load averages of a node are IEEE 754 binary64
    numbers.  They are modelled by the Standard Library's executable
    specification of floating point ([SpecFloat], 53 bits of precision,
    maximal exponent 1024), so rounding, infinities and NaN behave as they do
    in the program; nothing here is an axiom. *)

From S2P Require Import Prelude.
From Stdlib Require Import Floats.SpecFloat.

Definition float64 := spec_float.

Definition f64_add : float64 → float64 → float64 := SFadd 53 1024.
Definition f64_mul : float64 → float64 → float64 := SFmul 53 1024.
Definition f64_div : float64 → float64 → float64 := SFdiv 53 1024.
Definition f64_lt : float64 → float64 → bool := SFltb.

(** [float64(z)], rounded to nearest, ties to even. *)
Definition f64_of_int (z : Z) : float64 := binary_normalize 53 1024 z 0 false.

(** [d.Seconds()] *)
Definition Seconds (d : Duration) : float64 :=
  f64_add (f64_of_int (Z.quot d second)) (f64_div (f64_of_int (Z.rem d second)) (f64_of_int second)).

Definition f64_zero : float64 := S754_zero false.

Definition is_nan (x : float64) : bool :=
  match x with S754_nan => true | _ => false end.

(** [int(x)]: truncation toward zero.  The language leaves the result open
    when it does not fit; the value is the one amd64 processors produce. *)
Definition f64_to_int (x : float64) : Z :=
  let out_of_range := (- 2 ^ 63)%Z in
  match x with
  | S754_zero _ => 0
  | S754_finite s m e =>
      let z := if e <? 0 then Z.pos m / 2 ^ (- e) else Z.shiftl (Z.pos m) e in
      let z := if s then - z else z in
      if (- 2 ^ 63 <=? z) && (z <? 2 ^ 63) then z else out_of_range
  | S754_infinity _ | S754_nan => out_of_range
  end.

#[export] Instance float64_eq_dec : EqDecision float64.
Proof. intros x y. unfold Decision. decide equality; (apply Z.eq_dec || apply Pos.eq_dec || apply Bool.bool_dec). Defined.

(** ** Comparison

    On numbers the comparison is the lexicographic order of a rank, hence a
    strict weak order; NaN is incomparable to everything and breaks it. *)

Definition f64_rank (x : float64) : Z * Z * Z :=
  match x with
  | S754_infinity true => (-2, 0, 0)
  | S754_finite true m e => (-1, - e, Z.neg m)
  | S754_zero _ | S754_nan => (0, 0, 0)
  | S754_finite false m e => (1, e, Z.pos m)
  | S754_infinity false => (2, 0, 0)
  end.

Definition lex3 (x y : Z * Z * Z) : Prop :=
  let '(a, b, c) := x in let '(a', b', c') := y in
  a < a' ∨ a = a' ∧ (b < b' ∨ b = b' ∧ c < c').

Lemma f64_lt_rank x y :
  is_nan x = false → is_nan y = false →
  f64_lt x y = true ↔ lex3 (f64_rank x) (f64_rank y).
Proof.
  unfold f64_lt, SFltb.
  destruct x as [[]|[]| |[] m e], y as [[]|[]| |[] m' e'];
    try discriminate; intros _ _; simpl;
    try (split; intros; done || lia).
  - destruct (Z.compare_spec e e') as [->|?|?]; simpl; [|split; intros; done || lia..].
    change (Pos.compare_cont Eq m m') with (Pos.compare m m').
    destruct (Pos.compare_spec m m'); simpl; split; intros; done || lia.
  - destruct (Z.compare_spec e e') as [->|?|?]; simpl; [|split; intros; done || lia..].
    change (Pos.compare_cont Eq m m') with (Pos.compare m m').
    destruct (Pos.compare_spec m m'); simpl; split; intros; done || lia.
Qed.

Lemma f64_lt_strict_weak : strict_weak (λ x, is_nan x = false) f64_lt.
Proof.
  split.
  - intros x Hx. apply not_true_iff_false. rewrite f64_lt_rank by done.
    destruct (f64_rank x) as [[a b] c]. simpl. lia.
  - intros x y z Hx Hy Hz. rewrite !f64_lt_rank by done.
    destruct (f64_rank x) as [[a b] c], (f64_rank y) as [[a' b'] c'],
      (f64_rank z) as [[a'' b''] c'']. simpl. lia.
  - intros x y z Hx Hy Hz. rewrite <- !not_true_iff_false, !f64_lt_rank by done.
    destruct (f64_rank x) as [[a b] c], (f64_rank y) as [[a' b'] c'],
      (f64_rank z) as [[a'' b''] c'']. simpl. lia.
Qed.

(** ** Integers below [2 ^ 53] are exact *)

Definition safe_int (z : Z) : Prop := - 2 ^ 53 < z < 2 ^ 53.

(** Binary digits of a positive number. *)
Definition digits (z : Z) : Z := Z.log2 z + 1.

(** The float of [p > 0] on 53 bits. *)
Definition exact_float (s : bool) (p : Z) : float64 :=
  S754_finite s (Z.to_pos (p * 2 ^ (53 - digits p))) (digits p - 53).

Lemma digits2_log2 p : Z.pos (digits2_pos p) = Z.log2 (Z.pos p) + 1.
Proof.
  induction p as [p IH|p IH|]; cbn [digits2_pos]; [..|done]; rewrite Pos2Z.inj_succ, IH.
  - rewrite (Pos2Z.inj_xI p), Z.log2_succ_double by lia. lia.
  - rewrite (Pos2Z.inj_xO p), Z.log2_double by lia. lia.
Qed.

Lemma Zdigits2_digits m : 0 < m → Zdigits2 m = digits m.
Proof. destruct m as [|p|p]; [lia| |lia]. intros _. apply digits2_log2. Qed.

Lemma digits_shift m k : 0 < m → 0 <= k → digits (m * 2 ^ k) = digits m + k.
Proof. intros Hm Hk. unfold digits. rewrite Z.log2_mul_pow2 by lia. lia. Qed.

Lemma digits_bound m w : 0 < m < 2 ^ w → 0 < digits m <= w.
Proof.
  intros [Hm Hw]. unfold digits. pose proof (Z.log2_nonneg m).
  apply Z.log2_lt_pow2 in Hw; lia.
Qed.

Lemma iter_xO d p : Z.pos (Pos.iter xO p d) = Z.pos p * 2 ^ Z.pos d.
Proof.
  induction d as [|d IH] using Pos.peano_ind; [simpl; lia|].
  rewrite Pos.iter_succ, Pos2Z.inj_succ, Z.pow_succ_r by lia.
  rewrite Pos2Z.inj_xO, IH. lia.
Qed.

(** Shifting out zeros loses nothing. *)
Lemma shr_1_even m : 0 < m → shr_1 (Build_shr_record (m * 2) false false) = Build_shr_record m false false.
Proof. destruct m as [|p|p]; [lia| |lia]. intros _. by rewrite Z.mul_comm. Qed.

Lemma iter_shr_1 n m :
  0 < m →
  iter_pos shr_1 n (Build_shr_record (m * 2 ^ Z.pos n) false false) = Build_shr_record m false false.
Proof.
  revert m. induction n as [n IH|n IH|]; intros m Hm; cbn [iter_pos].
  - replace (m * 2 ^ Z.pos n~1) with (m * 2 ^ Z.pos n * 2 ^ Z.pos n * 2).
    2: { rewrite (Pos2Z.inj_xI n), Z.pow_add_r, Z.mul_comm, Z.pow_mul_r, Z.pow_2_r, Z.pow_mul_l by lia. lia. }
    rewrite shr_1_even, !IH; [done|lia..].
  - replace (m * 2 ^ Z.pos n~0) with (m * 2 ^ Z.pos n * 2 ^ Z.pos n).
    2: { rewrite (Pos2Z.inj_xO n), Z.mul_comm, Z.pow_mul_r, Z.pow_2_r, Z.pow_mul_l by lia. lia. }
    rewrite !IH; [done|lia..].
  - by apply shr_1_even.
Qed.

Lemma shr_exact m e n :
  0 < m → 0 <= n →
  shr (Build_shr_record (m * 2 ^ n) false false) e n = (Build_shr_record m false false, e + n).
Proof.
  intros Hm Hn. destruct n as [|n|n]; [..|lia]; cbn [shr].
  - by rewrite Z.mul_1_r, Z.add_0_r.
  - by rewrite iter_shr_1.
Qed.

Lemma fexp_small e : - 1021 <= e → fexp 53 1024 e = e - 53.
Proof. unfold fexp, emin. lia. Qed.

Lemma shr_fexp_exact m n e :
  0 < m → 0 <= n → digits m = 53 → - 1074 <= e + n →
  shr_fexp 53 1024 (m * 2 ^ n) e loc_Exact = (Build_shr_record m false false, e + n).
Proof.
  intros Hm Hn Hd He. unfold shr_fexp.
  assert (0 < m * 2 ^ n) by (apply Z.mul_pos_pos; lia).
  rewrite Zdigits2_digits, digits_shift, fexp_small, Hd by lia.
  replace (53 + n + e - 53 - e) with n by lia. by apply shr_exact.
Qed.

Lemma round_aux_exact s m n e :
  0 < m → 0 <= n → digits m = 53 → - 1074 <= e + n <= 971 →
  binary_round_aux 53 1024 s (m * 2 ^ n) e loc_Exact = S754_finite s (Z.to_pos m) (e + n).
Proof.
  intros Hm Hn Hd He. unfold binary_round_aux. rewrite shr_fexp_exact by lia.
  cbn [shr_m loc_of_shr_record round_nearest_even].
  replace (shr_fexp 53 1024 m (e + n) loc_Exact) with (Build_shr_record m false false, e + n).
  2: { rewrite <- (Z.mul_1_r m) at 2. rewrite <- (Z.pow_0_r 2), shr_fexp_exact by lia.
       by rewrite Z.add_0_r. }
  cbn [shr_m]. destruct m as [|p|p]; [lia| |lia].
  destruct (Z.leb_spec (e + n) (1024 - 53)); [done|lia].
Qed.

Lemma binary_round_exact s p q k :
  0 < p < 2 ^ 53 → 0 <= k <= 1000 → Z.pos q = p * 2 ^ k →
  binary_round 53 1024 s q (- k) = exact_float s p.
Proof.
  intros Hp Hk Hq. pose proof (digits_bound p 53 Hp) as Hd.
  assert (Z.pos (digits2_pos q) = digits p + k) as Hdq.
  { rewrite digits2_log2, Hq. fold (digits (p * 2 ^ k)). by rewrite digits_shift by lia. }
  set (m := p * 2 ^ (53 - digits p)).
  assert (0 < m) by (apply Z.mul_pos_pos; lia).
  assert (digits m = 53) as Hm by (unfold m; rewrite digits_shift by lia; lia).
  unfold binary_round. rewrite Hdq, fexp_small by lia.
  replace (digits p + k + - k - 53) with (digits p - 53) by lia.
  unfold shl_align. destruct (digits p - 53 - - k) as [|n|n] eqn:Hn.
  - rewrite Hq. replace (p * 2 ^ k) with (m * 2 ^ 0) by (unfold m; rewrite Z.mul_1_r; do 2 f_equal; lia).
    rewrite round_aux_exact by lia. unfold exact_float. f_equal. lia.
  - rewrite Hq. replace (p * 2 ^ k) with (m * 2 ^ Z.pos n).
    2: { unfold m. rewrite <- Z.mul_assoc, <- Z.pow_add_r by lia. do 2 f_equal. lia. }
    rewrite round_aux_exact by lia. unfold exact_float. f_equal. lia.
  - rewrite iter_xO, Hq. replace (p * 2 ^ k * 2 ^ Z.pos n) with (m * 2 ^ 0).
    2: { unfold m. rewrite Z.mul_1_r, <- Z.mul_assoc, <- Z.pow_add_r by lia. do 2 f_equal. lia. }
    rewrite round_aux_exact by lia. unfold exact_float. f_equal. lia.
Qed.

Lemma f64_of_int_exact z :
  safe_int z →
  f64_of_int z = if z =? 0 then S754_zero false else exact_float (z <? 0) (Z.abs z).
Proof.
  unfold safe_int, f64_of_int, binary_normalize. intros Hz. destruct z as [|p|p]; [done|..]; simpl.
  - by apply (binary_round_exact false _ p 0); lia.
  - by apply (binary_round_exact true _ p 0); lia.
Qed.

Lemma f64_of_int_not_nan z : safe_int z → is_nan (f64_of_int z) = false.
Proof. intros Hz. rewrite f64_of_int_exact by done. by destruct (z =? 0). Qed.

Lemma digits_le a b : 0 < a → a <= b → digits a <= digits b.
Proof. intros Ha Hab. unfold digits. pose proof (Z.log2_le_mono a b Hab). lia. Qed.

Lemma exact_rank_lt a b :
  0 < a < 2 ^ 53 → 0 < b < 2 ^ 53 →
  (digits a - 53 < digits b - 53 ∨
   digits a - 53 = digits b - 53 ∧ a * 2 ^ (53 - digits a) < b * 2 ^ (53 - digits b))
  ↔ a < b.
Proof.
  intros Ha Hb. pose proof (digits_bound a 53 Ha). split.
  - intros [Hd|[Hd Hm]]; apply Znot_ge_lt; intros Hge.
    + pose proof (digits_le b a ltac:(lia) ltac:(lia)). lia.
    + replace (digits b) with (digits a) in Hm by lia.
      assert (b * 2 ^ (53 - digits a) <= a * 2 ^ (53 - digits a)); [|lia].
      apply Z.mul_le_mono_nonneg_r; [apply Z.pow_nonneg|]; lia.
  - intros Hab. destruct (Z.eq_dec (digits a) (digits b)) as [Hd|Hd].
    + right. split; [lia|]. rewrite <- Hd.
      apply Z.mul_lt_mono_pos_r; [apply Z.pow_pos_nonneg|]; lia.
    + left. pose proof (digits_le a b ltac:(lia) ltac:(lia)). lia.
Qed.

(** Converting to [float64] keeps the order of these integers. *)
Lemma f64_lt_of_int a b :
  safe_int a → safe_int b → f64_lt (f64_of_int a) (f64_of_int b) = (a <? b).
Proof.
  intros Ha Hb. apply eq_bool_prop_intro. rewrite !Is_true_true.
  rewrite f64_lt_rank by (by apply f64_of_int_not_nan). rewrite Z.ltb_lt.
  rewrite !f64_of_int_exact by done. unfold safe_int in *.
  assert (∀ z, 0 < z < 2 ^ 53 → 0 < z * 2 ^ (53 - digits z)) as Hpos.
  { intros z Hz. pose proof (digits_bound z 53 Hz). apply Z.mul_pos_pos; lia. }
  destruct (Z.eqb_spec a 0), (Z.eqb_spec b 0); cbn [f64_rank lex3];
    try (unfold exact_float; destruct (Z.ltb_spec a 0); destruct (Z.ltb_spec b 0));
    cbn [f64_rank lex3]; try lia.
  - pose proof (exact_rank_lt (Z.abs b) (Z.abs a)) as Hr.
    rewrite <- !Pos2Z.opp_pos, !Z2Pos.id by (apply Hpos; lia). lia.
  - pose proof (exact_rank_lt (Z.abs a) (Z.abs b)) as Hr.
    rewrite !Z2Pos.id by (apply Hpos; lia). lia.
Qed.

Lemma shl_align_exact p q e ez :
  0 < p → ez <= e → Z.pos q = p → Z.pos (shl_align q e ez).1 = p * 2 ^ (e - ez).
Proof.
  intros Hp He Hq. unfold shl_align. destruct (ez - e) as [|n|n] eqn:Hn; [..|].
  - replace (e - ez) with 0 by lia. cbn. lia.
  - lia.
  - cbn [fst]. rewrite iter_xO, Hq. do 2 f_equal. lia.
Qed.

Lemma normalize_exact z k :
  safe_int z → 0 <= k <= 1000 → binary_normalize 53 1024 (z * 2 ^ k) (- k) false = f64_of_int z.
Proof.
  intros Hz Hk. rewrite f64_of_int_exact by done. unfold safe_int in Hz.
  assert (0 < 2 ^ k) by (apply Z.pow_pos_nonneg; lia).
  destruct (Z.eqb_spec z 0) as [->|Hnz]; [done|]. unfold binary_normalize.
  destruct (z * 2 ^ k) as [|q|q] eqn:Hq; [nia|..].
  - replace (z <? 0) with false by (symmetry; apply Z.ltb_ge; nia).
    apply binary_round_exact; [nia..|]. rewrite <- Hq. f_equal. nia.
  - replace (z <? 0) with true by (symmetry; apply Z.ltb_lt; nia).
    apply binary_round_exact; [nia..|].
    replace (Z.abs z) with (- z) by nia. lia.
Qed.

(** Adding such integers is exact as long as the sum is one. *)
Lemma f64_add_of_int a b :
  safe_int a → safe_int b → safe_int (a + b) →
  f64_add (f64_of_int a) (f64_of_int b) = f64_of_int (a + b).
Proof.
  intros Ha Hb Hab. rewrite (f64_of_int_exact a), (f64_of_int_exact b) by done.
  unfold safe_int in *.
  destruct (Z.eqb_spec a 0) as [->|Hna], (Z.eqb_spec b 0) as [->|Hnb]; cbn [f64_add SFadd].
  - done.
  - rewrite Z.add_0_l, (f64_of_int_exact b) by done. by destruct (Z.eqb_spec b 0).
  - rewrite Z.add_0_r, (f64_of_int_exact a) by done. by destruct (Z.eqb_spec a 0).
  - unfold exact_float. set (da := digits (Z.abs a)). set (db := digits (Z.abs b)).
    pose proof (digits_bound (Z.abs a) 53 ltac:(lia)) as Hda.
    pose proof (digits_bound (Z.abs b) 53 ltac:(lia)) as Hdb. fold da in Hda. fold db in Hdb.
    unfold f64_add, SFadd. set (ez := Z.min (da - 53) (db - 53)).
    assert (∀ z d, 0 < Z.abs z → 0 <= 53 - d → ez <= d - 53 →
      cond_Zopp (z <? 0) (Z.pos (shl_align (Z.to_pos (Z.abs z * 2 ^ (53 - d))) (d - 53) ez).1)
        = z * 2 ^ (- ez)) as Hm.
    { intros z d Hz Hd He.
      assert (0 < Z.abs z * 2 ^ (53 - d)) by (apply Z.mul_pos_pos; [|apply Z.pow_pos_nonneg]; lia).
      rewrite (shl_align_exact (Z.abs z * 2 ^ (53 - d))) by (done || lia || by apply Z2Pos.id).
      rewrite <- Z.mul_assoc, <- Z.pow_add_r by lia.
      replace (53 - d + (d - 53 - ez)) with (- ez) by lia.
      unfold cond_Zopp. destruct (Z.ltb_spec z 0); [|f_equal; lia].
      rewrite <- Z.mul_opp_l. f_equal. lia. }
    rewrite !Hm by lia. rewrite <- Z.mul_add_distr_r.
    rewrite <- (Z.opp_involutive ez) at 2. apply normalize_exact; unfold safe_int; lia.
Qed.

Lemma Seconds_whole s : safe_int s → Seconds (s * second) = f64_of_int s.
Proof.
  intros Hs. unfold Seconds. rewrite Z.quot_mul, Z.rem_mul by done.
  change (f64_div (f64_of_int 0) (f64_of_int second)) with (f64_of_int 0).
  rewrite f64_add_of_int by (done || by rewrite Z.add_0_r). by rewrite Z.add_0_r.
Qed.

(** Small examples: 16 cores at 37.5 per cent use 6 of them. *)
Example f64_usage :
  f64_to_int (f64_div (f64_mul (f64_of_int 16) (f64_div (f64_of_int 75) (f64_of_int 2)))
                (f64_of_int 100)) = 6.
Proof. reflexivity. Qed.

Example f64_truncates : f64_to_int (f64_div (f64_of_int (-7)) (f64_of_int 2)) = -3.
Proof. reflexivity. Qed.
