(* ===== verification/FloatScan.v ===== *)
(** * Scanning floating-point numbers ([fmt], [strconv], [math])

    [fmt.Sscanf] with the verb [%f]: the token it accepts, and what
    [strconv.ParseFloat] makes of it, hexadecimal and underscored literals
    included; [math.Round]. *)

From S2P Require Import Prelude GoStrings GoFormat Float64.
From Stdlib Require Import Ascii Floats.SpecFloat.
#[local] Open Scope Z_scope.

(** ** The token ([floatToken] of [fmt]) *)

(** What has been accepted so far, and the input left. *)
Definition scan_state : Type := string * string.

Definition accept (set : string) (st : scan_state) : bool * scan_state :=
  match st.2 with
  | String a s => if contains_byte a set then (true, (st.1 +:+ String a EmptyString, s)) else (false, st)
  | EmptyString => (false, st)
  end.

Fixpoint accept_run (set buf s : string) : scan_state :=
  match s with
  | String a s' =>
      if contains_byte a set then accept_run set (buf +:+ String a EmptyString) s' else (buf, s)
  | EmptyString => (buf, EmptyString)
  end.

Definition accept_all (set : string) (st : scan_state) : scan_state := accept_run set st.1 st.2.

(** [s.accept(a) && s.accept(b) && s.accept(c)]; what was accepted before a
    failure stays accepted. *)
Definition accept3 (a b c : string) (st : scan_state) : bool * scan_state :=
  let '(ok, st) := accept a st in
  if ok then
    let '(ok, st) := accept b st in
    if ok then accept c st else (false, st)
  else (false, st).

Definition decimal_digits : string := "0123456789_".
Definition hexadecimal_digits : string := "0123456789aAbBcCdDeEfF_".

(** From the digits on. *)
Definition float_number (digits exp : string) (st : scan_state) : scan_state :=
  let st := accept_all digits st in
  let '(dot, st) := accept "." st in
  let st := if dot : bool then accept_all digits st else st in
  let '(e, st) := accept exp st in
  if e : bool then accept_all decimal_digits (accept "+-" st).2 else st.

Definition floatToken (s : string) : scan_state :=
  let '(nan, st) := accept3 "nN" "aA" "nN" (EmptyString, s) in
  if nan : bool then st else
  let st := (accept "+-" st).2 in
  let '(inf, st) := accept3 "iI" "nN" "fF" st in
  if inf : bool then st else
  let '(zero, st) := accept "0" st in
  let '(hex, st) := if zero : bool then accept "xX" st else (false, st) in
  if hex : bool then float_number hexadecimal_digits "pP" st else float_number decimal_digits "eEpP" st.

(** ** [strconv.ParseFloat] *)

(** The float nearest to [num / den], ties to even. *)
Definition f64_ratio (neg : bool) (num den : Z) : float64 :=
  let '(m, e, l) := SFdiv_core_binary 53 1024 num 0 den 0 in binary_round_aux 53 1024 neg m e l.

Definition digit_value (hex : bool) (a : ascii) : option Z :=
  let b := byte a in
  if (48 <=? b) && (b <=? 57) then Some (b - 48)
  else if hex && (97 <=? b) && (b <=? 102) then Some (b - 87)
  else if hex && (65 <=? b) && (b <=? 70) then Some (b - 55)
  else None.

(** The mantissa: its digits without the point, how many follow the point, and
    whether there is any; with what follows it. *)
Record Mantissa : Type := mkMantissa { mt_value : Z; mt_frac : Z; mt_dot : bool; mt_digits : bool }.

Fixpoint read_mantissa (hex : bool) (m : Mantissa) (s : string) : Mantissa * string :=
  match s with
  | EmptyString => (m, EmptyString)
  | String a s' =>
      if Ascii.eqb a "_" then read_mantissa hex m s'
      else if Ascii.eqb a "." then
        if mt_dot m then (m, s)
        else read_mantissa hex (mkMantissa (mt_value m) (mt_frac m) true (mt_digits m)) s'
      else
        match digit_value hex a with
        | Some d =>
            read_mantissa hex
              (mkMantissa ((if hex then 16 else 10) * mt_value m + d)
                 (if mt_dot m then mt_frac m + 1 else mt_frac m) (mt_dot m) true) s'
        | None => (m, s)
        end
  end.

(** The digits of the exponent, which stops growing at five of them. *)
Fixpoint read_exponent (e : Z) (s : string) : option Z :=
  match s with
  | EmptyString => Some e
  | String a s =>
      if Ascii.eqb a "_" then read_exponent e s
      else if is_digit a then read_exponent (if e <? 10000 then 10 * e + (byte a - 48) else e) s
      else None
  end.

(** The rest of the literal after the mantissa. *)
Definition read_scale (hex : bool) (s : string) : option Z :=
  match s with
  | EmptyString => if hex then None else Some 0
  | String a s =>
      if contains_byte a (if hex then "pP" else "eE") then
        let '(esign, s) :=
          match s with
          | String b s' => if Ascii.eqb b "+" then (1, s') else if Ascii.eqb b "-" then (-1, s') else (1, s)
          | EmptyString => (1, s)
          end in
        match s with
        | String b _ => if is_digit b then Z.mul esign <$> read_exponent 0 s else None
        | EmptyString => None
        end
      else None
  end.

Definition take_sign (s : string) : bool * string :=
  match s with
  | String a s' => if Ascii.eqb a "-" then (true, s') else if Ascii.eqb a "+" then (false, s') else (false, s)
  | EmptyString => (false, s)
  end.

(** [underscoreOK] after the sign; [saw] is what the last byte was. *)
Inductive saw : Type := Beginning | Digit | Underscore | Other.

Fixpoint underscores_ok (hex : bool) (last : saw) (s : string) : bool :=
  match s with
  | EmptyString => match last with Underscore => false | _ => true end
  | String a s =>
      if is_Some_dec (digit_value hex a) then underscores_ok hex Digit s
      else if Ascii.eqb a "_" then match last with Digit => underscores_ok hex Underscore s | _ => false end
      else match last with Underscore => false | _ => underscores_ok hex Other s end
  end.

Definition underscoreOK (s : string) : bool :=
  let s := (take_sign s).2 in
  match s with
  | String "0" (String b s') =>
      if contains_byte b "bBoOxX" then underscores_ok (contains_byte b "xX") Digit s'
      else underscores_ok false Beginning s
  | _ => underscores_ok false Beginning s
  end.

Definition lower_ascii (a : ascii) : ascii :=
  if (65 <=? byte a) && (byte a <=? 90) then ascii_of_N (Z.to_N (byte a + 32)) else a.

Fixpoint lower (s : string) : string :=
  match s with
  | String a s => String (lower_ascii a) (lower s)
  | EmptyString => EmptyString
  end.

(** [special]: infinities and NaN. *)
Definition special (s : string) : option float64 :=
  let '(neg, t) := take_sign (lower s) in
  if bool_decide (t = "inf"%string) || bool_decide (t = "infinity"%string) then Some (S754_infinity neg)
  else if bool_decide (lower s = "nan"%string) then Some S754_nan
  else None.

(** The value of a literal. *)
Definition scaled (neg hex : bool) (m : Mantissa) (e : Z) : float64 :=
  match mt_value m with
  | Zpos p =>
      if hex then binary_round 53 1024 neg p (e - 4 * mt_frac m)
      else if mt_frac m <=? e then f64_ratio neg (Zpos p * 10 ^ (e - mt_frac m)) 1
      else f64_ratio neg (Zpos p) (10 ^ (mt_frac m - e))
  | _ => S754_zero neg
  end.

(** [None] is an error: the syntax, or a value too large. *)
Definition ParseFloat (s : string) : option float64 :=
  match special s with
  | Some x => Some x
  | None =>
      let '(neg, t) := take_sign s in
      let '(hex, t) :=
        match t with
        | String "0" (String b (String c t')) =>
            if contains_byte b "xX" then (true, String c t') else (false, t)
        | _ => (false, t)
        end in
      let '(m, t) := read_mantissa hex (mkMantissa 0 0 false false) t in
      if negb (mt_digits m) then None
      else
        match read_scale hex t with
        | Some e =>
            if underscoreOK s then
              match scaled neg hex m e with
              | S754_infinity _ => None
              | x => Some x
              end
            else None
        | None => None
        end
  end.

(** [convertFloat]: a decimal mantissa with a binary exponent is [fmt]'s own. *)
Definition convertFloat (s : string) : option float64 :=
  match cut_byte "p" s with
  | (mant, Some exp) =>
      if contains_byte "x" s || contains_byte "X" s then ParseFloat s
      else
        match ParseFloat mant, Atoi exp with
        | Some f, (n, true) => Some (SFldexp 53 1024 f n)
        | _, _ => None
        end
  | (_, None) => ParseFloat s
  end.

(** The verb [%f]. *)
Definition scan_float (s : string) : option (float64 * string) :=
  let '(tok, rest) := floatToken (skip_space s) in
  match convertFloat tok with
  | Some x => Some (x, rest)
  | None => None
  end.

Definition Sscanf_f : string → string → list float64 * bool := scanf "f" scan_float.

(** ** [math.Round] *)

(** To the nearest integer, halves away from zero. *)
Definition f64_round (x : float64) : float64 :=
  match x with
  | S754_finite s m e =>
      if e <? 0 then
        let z := (Zpos m + 2 ^ (- e - 1)) / 2 ^ (- e) in
        binary_normalize 53 1024 (if s : bool then - z else z) 0 s
      else x
  | _ => x
  end.

(** ** Scanning stops at a blank *)

Section blank.
Context (rest : string).
Abbreviation blank := (String " " rest).

Lemma accept_blank set b s :
  contains_byte " " set = false →
  accept set (b, s +:+ blank) =
    let '(ok, (b, s)) := accept set (b, s) in (ok, (b, s +:+ blank)).
Proof.
  intros Hs. unfold accept. cbn [fst snd]. destruct s as [|a s]; [by rewrite append_nil_l, Hs|].
  rewrite append_cons. by destruct (contains_byte a set).
Qed.

Lemma accept_run_blank set b s :
  contains_byte " " set = false →
  accept_run set b (s +:+ blank) = let '(b, s) := accept_run set b s in (b, s +:+ blank).
Proof.
  intros Hs. revert b. induction s as [|a s IH]; intros b.
  - rewrite append_nil_l. cbn [accept_run]. by rewrite Hs.
  - rewrite append_cons. cbn [accept_run]. destruct (contains_byte a set); [apply IH|done].
Qed.

Lemma accept3_blank x y z b s :
  contains_byte " " x = false → contains_byte " " y = false → contains_byte " " z = false →
  accept3 x y z (b, s +:+ blank) =
    let '(ok, (b, s)) := accept3 x y z (b, s) in (ok, (b, s +:+ blank)).
Proof.
  intros Hx Hy Hz. unfold accept3. rewrite accept_blank by done.
  destruct (accept x (b, s)) as [[] [b1 s1]]; [|done]. rewrite accept_blank by done.
  destruct (accept y (b1, s1)) as [[] [b2 s2]]; [|done]. by apply accept_blank.
Qed.

Lemma float_number_blank ds exp b s :
  contains_byte " " ds = false → contains_byte " " exp = false →
  float_number ds exp (b, s +:+ blank) =
    let '(b, s) := float_number ds exp (b, s) in (b, s +:+ blank).
Proof.
  intros Hd He. unfold float_number, accept_all. cbn [fst snd]. rewrite accept_run_blank by done.
  destruct (accept_run ds b s) as [b1 s1]. rewrite accept_blank by done.
  destruct (accept "." (b1, s1)) as [[] [b2 s2]]; cbn [fst snd].
  - rewrite accept_run_blank by done. destruct (accept_run ds b2 s2) as [b3 s3]. rewrite accept_blank by done.
    destruct (accept exp (b3, s3)) as [[] [b4 s4]]; [|done]. rewrite accept_blank by done.
    destruct (accept "+-" (b4, s4)) as [ok [b5 s5]]. cbn [fst snd]. by rewrite accept_run_blank.
  - rewrite accept_blank by done.
    destruct (accept exp (b2, s2)) as [[] [b4 s4]]; [|done]. rewrite accept_blank by done.
    destruct (accept "+-" (b4, s4)) as [ok [b5 s5]]. cbn [fst snd]. by rewrite accept_run_blank.
Qed.

Lemma floatToken_blank s :
  floatToken (s +:+ blank) = let '(b, s) := floatToken s in (b, s +:+ blank).
Proof.
  unfold floatToken. rewrite accept3_blank by done.
  destruct (accept3 "nN" "aA" "nN" _) as [[] [b1 s1]]; [done|]. rewrite accept_blank by done.
  destruct (accept "+-" (b1, s1)) as [ok [b2 s2]]. cbn [fst snd]. rewrite accept3_blank by done.
  destruct (accept3 "iI" "nN" "fF" (b2, s2)) as [[] [b3 s3]]; [done|]. rewrite accept_blank by done.
  destruct (accept "0" (b3, s3)) as [[] [b4 s4]]; [|by apply float_number_blank].
  rewrite accept_blank by done. destruct (accept "xX" (b4, s4)) as [[] [b5 s5]]; by apply float_number_blank.
Qed.
End blank.

Example ParseFloat_examples :
  ParseFloat "0.5" = Some (S754_finite false (2 ^ 52) (- 53)) ∧
  ParseFloat "0x1p-1" = ParseFloat "5e-1" ∧ ParseFloat "1_0.0" = ParseFloat "10" ∧
  ParseFloat "1__0" = None ∧ ParseFloat "1e400" = None ∧ ParseFloat "." = None ∧
  ParseFloat "-Inf" = Some (S754_infinity true) ∧ convertFloat "1p4" = ParseFloat "16" ∧
  f64_round (f64_div (f64_of_int 5) (f64_of_int 2)) = f64_of_int 3.
Proof. vm_compute. repeat split. Qed.
