(* ===== verification/Sha256.v ===== *)
(** * SHA-256 and hexadecimal printing

    [crypto/sha256] and the verb [%x] of [fmt], as the idempotency key uses
    them: an executable definition of the hash (FIPS 180-4), checked on the
    standard's test vectors. *)

From S2P Require Import Prelude.
From Stdlib Require Import Ascii.

(** ** Words of 32 bits *)

Definition mask32 : Z := 2 ^ 32 - 1.
Definition w_add (a b : Z) : Z := Z.land (a + b) mask32.
Definition w_rotr (n a : Z) : Z :=
  Z.lor (Z.shiftr a n) (Z.land (Z.shiftl a (32 - n)) mask32).
Definition w_not (a : Z) : Z := Z.lxor a mask32.

Definition big_sigma0 (a : Z) : Z := Z.lxor (Z.lxor (w_rotr 2 a) (w_rotr 13 a)) (w_rotr 22 a).
Definition big_sigma1 (a : Z) : Z := Z.lxor (Z.lxor (w_rotr 6 a) (w_rotr 11 a)) (w_rotr 25 a).
Definition small_sigma0 (a : Z) : Z :=
  Z.lxor (Z.lxor (w_rotr 7 a) (w_rotr 18 a)) (Z.shiftr a 3).
Definition small_sigma1 (a : Z) : Z :=
  Z.lxor (Z.lxor (w_rotr 17 a) (w_rotr 19 a)) (Z.shiftr a 10).
Definition choose (x y z : Z) : Z := Z.lxor (Z.land x y) (Z.land (w_not x) z).
Definition majority (x y z : Z) : Z :=
  Z.lxor (Z.lxor (Z.land x y) (Z.land x z)) (Z.land y z).

(** The first 32 fractional bits of the cube roots of the first 64 primes. *)
Definition round_constants : list Z :=
  [
    1116352408; 1899447441; 3049323471; 3921009573; 961987163; 1508970993;
    2453635748; 2870763221; 3624381080; 310598401; 607225278; 1426881987;
    1925078388; 2162078206; 2614888103; 3248222580; 3835390401; 4022224774;
    264347078; 604807628; 770255983; 1249150122; 1555081692; 1996064986;
    2554220882; 2821834349; 2952996808; 3210313671; 3336571891; 3584528711;
    113926993; 338241895; 666307205; 773529912; 1294757372; 1396182291;
    1695183700; 1986661051; 2177026350; 2456956037; 2730485921; 2820302411;
    3259730800; 3345764771; 3516065817; 3600352804; 4094571909; 275423344;
    430227734; 506948616; 659060556; 883997877; 958139571; 1322822218;
    1537002063; 1747873779; 1955562222; 2024104815; 2227730452; 2361852424;
    2428436474; 2756734187; 3204031479; 3329325298 ].

(** The first 32 fractional bits of the square roots of the first 8 primes. *)
Definition initial_hash : list Z :=
  [
    1779033703; 3144134277; 1013904242; 2773480762; 1359893119; 2600822924;
    528734635; 1541459225 ].

(** ** Padding *)

Definition bytes_of_string (s : string) : list Z :=
  (λ a, Z.of_N (N_of_ascii a)) <$> list_ascii_of_string s.

Definition be_bytes (n : nat) (z : Z) : list Z :=
  (λ i, Z.land (Z.shiftr z (8 * Z.of_nat i)) 255) <$> reverse (seq 0 n).

Definition pad (m : list Z) : list Z :=
  let len := Z.of_nat (length m) in
  m ++ [128] ++ replicate (Z.to_nat ((55 - len) mod 64)) 0 ++ be_bytes 8 (8 * len).

Fixpoint words_of_bytes (fuel : nat) (bs : list Z) : list Z :=
  match fuel, bs with
  | S fuel, b0 :: b1 :: b2 :: b3 :: bs =>
      (Z.shiftl b0 24 + Z.shiftl b1 16 + Z.shiftl b2 8 + b3) :: words_of_bytes fuel bs
  | _, _ => []
  end.

(** ** Compression *)

(** The message schedule, most recent word first. *)
Fixpoint extend_schedule (n : nat) (rev_w : list Z) : list Z :=
  match n with
  | O => rev_w
  | S n =>
      let at_ i := default 0 (rev_w !! i) in
      extend_schedule n
        (w_add (w_add (small_sigma1 (at_ 1%nat)) (at_ 6%nat))
               (w_add (small_sigma0 (at_ 14%nat)) (at_ 15%nat)) :: rev_w)
  end.

Definition compress_round (st : list Z) (kw : Z * Z) : list Z :=
  match st with
  | [a; b; c; d; e; f; g; h] =>
      let t1 := w_add (w_add h (big_sigma1 e))
                      (w_add (choose e f g) (w_add kw.1 kw.2)) in
      let t2 := w_add (big_sigma0 a) (majority a b c) in
      [w_add t1 t2; a; b; c; w_add d t1; e; f; g]
  | _ => st
  end.

Definition compress (st block : list Z) : list Z :=
  let w := reverse (extend_schedule 48 (reverse block)) in
  zip_with w_add st (foldl compress_round st (zip round_constants w)).

Fixpoint hash_blocks (fuel : nat) (st ws : list Z) : list Z :=
  match fuel, ws with
  | S fuel, _ :: _ => hash_blocks fuel (compress st (take 16 ws)) (drop 16 ws)
  | _, _ => st
  end.

Definition sha256_bytes (m : list Z) : list Z :=
  let p := pad m in
  let ws := words_of_bytes (length p) p in
  mjoin (be_bytes 4 <$> hash_blocks (length ws) initial_hash ws).

(** [sha256.New] followed by writes whose concatenation is [s], and
    [Sum(nil)]. *)
Definition sha256 (s : string) : list Z := sha256_bytes (bytes_of_string s).

(** ** Hexadecimal *)

Definition hex_digit (d : Z) : ascii :=
  ascii_of_N (Z.to_N (if d <? 10 then 48 + d else 87 + d)).

(** [fmt.Sprintf("%x", bytes)]: two lower-case digits a byte. *)
Fixpoint hex (bs : list Z) : string :=
  match bs with
  | [] => EmptyString
  | b :: bs => String (hex_digit (Z.shiftr b 4)) (String (hex_digit (Z.land b 15)) (hex bs))
  end.

(** [s[:n]] *)
Definition take_bytes (n : nat) (s : string) : string := String.substring 0 n s.

(** ** The standard's test vectors *)

Example sha256_abc :
  hex (sha256 "abc") =
  "ba7816bf8f01cfea414140de5dae2223b00361a396177a9cb410ff61f20015ad"%string.
Proof. vm_compute. reflexivity. Qed.

Example sha256_empty :
  hex (sha256 EmptyString) =
  "e3b0c44298fc1c149afbf4c8996fb92427ae41e4649b934ca495991b7852b855"%string.
Proof. vm_compute. reflexivity. Qed.

Example sha256_two_blocks :
  hex (sha256 "abcdbcdecdefdefgefghfghighijhijkijkljklmklmnlmnomnopnopq") =
  "248d6a61d20638b8e5c026930c3e6039a33ce45964ff2167f6ecedd419db06c1"%string.
Proof. vm_compute. reflexivity. Qed.

(** ** Facts *)

Lemma hex_length bs : String.length (hex bs) = (2 * length bs)%nat.
Proof. induction bs as [|b bs IH]; simpl; [done|]. rewrite IH. lia. Qed.

Lemma length_be_bytes n z : length (be_bytes n z) = n.
Proof. unfold be_bytes. by rewrite length_fmap, length_reverse, length_seq. Qed.

Lemma length_compress st block :
  length st = 8%nat → length (compress st block) = 8%nat.
Proof.
  intros Hst. unfold compress. rewrite length_zip_with.
  assert (∀ kws st, length st = 8%nat → length (foldl compress_round st kws) = 8%nat) as H.
  { induction kws as [|kw kws IH]; intros st' Hst'; simpl; [done|].
    apply IH. by do 9 (destruct st' as [|? st']; try discriminate). }
  rewrite H; lia.
Qed.

Lemma sha256_length s : length (sha256 s) = 32%nat.
Proof.
  unfold sha256, sha256_bytes.
  set (p := pad _). set (ws := words_of_bytes _ _). clearbody ws.
  assert (∀ fuel st ws, length st = 8%nat → length (hash_blocks fuel st ws) = 8%nat) as H.
  { induction fuel as [|fuel IH]; intros st ws' Hst; simpl; [done|].
    destruct ws'; [done|]. by apply IH, length_compress. }
  specialize (H (length ws) initial_hash ws eq_refl).
  remember (hash_blocks _ _ _) as l eqn:Hl. clear Hl.
  do 9 (destruct l as [|? l]; try discriminate).
  cbn [fmap list_fmap mjoin list_join]. by rewrite !length_app, !length_be_bytes.
Qed.
