(* ===== verification/Model.v ===== *)
(** * Tasks and nodes ([internal/model])

    The two structs of the data model, their constructors, and the methods
    of a task: the status state machine ([TransitionTo]), the retry guard and
    the idempotency key. *)

From S2P Require Import Prelude GoStrings Float64 Sha256.


(** ** Task status ([task.go])

    [TaskStatus] is a string type: a row of the database can hold any text,
    so the state machine is a table of strings and not an enumeration. *)

Definition TaskStatus := string.

Definition TaskStatusCreated : TaskStatus := "created".
Definition TaskStatusPending : TaskStatus := "pending".
Definition TaskStatusRunning : TaskStatus := "running".
Definition TaskStatusSuccess : TaskStatus := "success".
Definition TaskStatusFailed : TaskStatus := "failed".
Definition TaskStatusCanceled : TaskStatus := "canceled".

Definition IsTerminal (s : TaskStatus) : bool :=
  bool_decide (s = TaskStatusSuccess) || bool_decide (s = TaskStatusFailed) ||
  bool_decide (s = TaskStatusCanceled).

Definition validTransitions : gmap TaskStatus (gmap TaskStatus bool) :=
  {[ TaskStatusCreated := {[ TaskStatusPending := true; TaskStatusCanceled := true ]};
     TaskStatusPending := {[ TaskStatusRunning := true; TaskStatusCanceled := true ]};
     TaskStatusRunning := {[ TaskStatusSuccess := true; TaskStatusFailed := true;
                             TaskStatusCanceled := true ]};
     TaskStatusSuccess := ∅;
     TaskStatusFailed := ∅;
     TaskStatusCanceled := ∅ ]}.

(** ** The task struct *)

Record Task : Type := mkTask {
  ID : Z;
  TaskUID : string;
  Name : string;
  Command : string;
  Workdir : string;
  Env : gmap string string;
  CPULimit : Z;
  MemoryLimit : Z;
  TimeoutSec : Z;
  Priority : Z;
  MaxRetries : Z;
  RetryCount : Z;
  RetryIntervalSec : Z;
  IdempotencyKey : string;
  NodeSelector : gmap string string;
  AssignedNodeID : string;
  Status : TaskStatus;
  ExitCode : option Z;
  Stdout : string;
  Stderr : string;
  ErrorMessage : string;
  PID : option Z;
  StartedAt : option Time;
  FinishedAt : option Time;
  CreatedAt : Time;
  UpdatedAt : Time;
}.

Definition eta_Task (t : Task) : Task :=
  mkTask (ID t) (TaskUID t) (Name t) (Command t) (Workdir t) (Env t) (CPULimit t)
    (MemoryLimit t) (TimeoutSec t) (Priority t) (MaxRetries t) (RetryCount t)
    (RetryIntervalSec t) (IdempotencyKey t) (NodeSelector t) (AssignedNodeID t)
    (Status t) (ExitCode t) (Stdout t) (Stderr t) (ErrorMessage t) (PID t)
    (StartedAt t) (FinishedAt t) (CreatedAt t) (UpdatedAt t).

#[export] Instance set_ID : Setter ID := ltac:(mk_setter eta_Task ID).
#[export] Instance set_TaskUID : Setter TaskUID := ltac:(mk_setter eta_Task TaskUID).
#[export] Instance set_Command : Setter Command := ltac:(mk_setter eta_Task Command).
#[export] Instance set_Workdir : Setter Workdir := ltac:(mk_setter eta_Task Workdir).
#[export] Instance set_Env : Setter Env := ltac:(mk_setter eta_Task Env).
#[export] Instance set_CPULimit : Setter CPULimit := ltac:(mk_setter eta_Task CPULimit).
#[export] Instance set_MemoryLimit : Setter MemoryLimit := ltac:(mk_setter eta_Task MemoryLimit).
#[export] Instance set_TimeoutSec : Setter TimeoutSec := ltac:(mk_setter eta_Task TimeoutSec).
#[export] Instance set_Priority : Setter Priority := ltac:(mk_setter eta_Task Priority).
#[export] Instance set_RetryCount : Setter RetryCount := ltac:(mk_setter eta_Task RetryCount).
#[export] Instance set_IdempotencyKey : Setter IdempotencyKey :=
  ltac:(mk_setter eta_Task IdempotencyKey).
#[export] Instance set_NodeSelector : Setter NodeSelector :=
  ltac:(mk_setter eta_Task NodeSelector).
#[export] Instance set_AssignedNodeID : Setter AssignedNodeID :=
  ltac:(mk_setter eta_Task AssignedNodeID).
#[export] Instance set_Status : Setter Status := ltac:(mk_setter eta_Task Status).
#[export] Instance set_ExitCode : Setter ExitCode := ltac:(mk_setter eta_Task ExitCode).
#[export] Instance set_Stdout : Setter Stdout := ltac:(mk_setter eta_Task Stdout).
#[export] Instance set_Stderr : Setter Stderr := ltac:(mk_setter eta_Task Stderr).
#[export] Instance set_ErrorMessage : Setter ErrorMessage :=
  ltac:(mk_setter eta_Task ErrorMessage).
#[export] Instance set_StartedAt : Setter StartedAt := ltac:(mk_setter eta_Task StartedAt).
#[export] Instance set_FinishedAt : Setter FinishedAt := ltac:(mk_setter eta_Task FinishedAt).
#[export] Instance set_CreatedAt : Setter CreatedAt := ltac:(mk_setter eta_Task CreatedAt).
#[export] Instance set_UpdatedAt : Setter UpdatedAt := ltac:(mk_setter eta_Task UpdatedAt).

(** [NewTask]: [uid] is the generated UUID and [now] the clock reading. *)
Definition NewTask (uid : string) (now : Time) (name command : string) : Task := {|
  ID := 0; TaskUID := uid; Name := name; Command := command;
  Workdir := "/tmp"; Env := ∅; CPULimit := 0; MemoryLimit := 0;
  TimeoutSec := 300; Priority := 0; MaxRetries := 3; RetryCount := 0;
  RetryIntervalSec := 1; IdempotencyKey := EmptyString; NodeSelector := ∅;
  AssignedNodeID := EmptyString; Status := TaskStatusCreated; ExitCode := None;
  Stdout := EmptyString; Stderr := EmptyString; ErrorMessage := EmptyString;
  PID := None; StartedAt := None; FinishedAt := None;
  CreatedAt := now; UpdatedAt := now |}.

#[export] Instance task_inhabited : Inhabited Task :=
  populate (NewTask EmptyString 0 EmptyString EmptyString).

(** ** Methods of a task *)

Definition CanRetry (t : Task) : bool := RetryCount t <? MaxRetries t.

(** [allowed, ok := validTransitions[t.Status]; !ok || !allowed[target]] *)
Definition transition_allowed (from to : TaskStatus) : bool :=
  match validTransitions !! from with
  | None => false
  | Some allowed => default false (allowed !! to)
  end.

Definition TransitionTo (now : Time) (target : TaskStatus) (t : Task) : option error * Task :=
  if negb (transition_allowed (Status t) target) then
    (Some (ErrorString ("invalid status transition: " +:+ Status t +:+ " -> " +:+ target)), t)
  else (None, t <| Status := target |> <| UpdatedAt := now |>).

Section idempotency.
Context `{SortBy} `{MapRange}.

(** The bytes the hash is fed: the command, the working directory, and the
    environment's keys in sorted order, each followed by its value. *)
Definition idempotency_input (t : Task) : string :=
  let keys := sort_by String.ltb (map_range (Env t)).*1 in
  Command t +:+ (Workdir t +:+
    foldr (λ k acc, k +:+ (default EmptyString (Env t !! k) +:+ acc)) EmptyString keys).

Definition SetIdempotencyKey (t : Task) : Task :=
  t <| IdempotencyKey := take_bytes 16 (hex (sha256 (idempotency_input t))) |>.
End idempotency.

(** ** Nodes ([node.go]) *)

Definition NodeStatus := string.

Definition NodeStatusOnline : NodeStatus := "online".
Definition NodeStatusOffline : NodeStatus := "offline".
Definition NodeStatusDrain : NodeStatus := "drain".
Definition NodeStatusCordon : NodeStatus := "cordon".

Record Node : Type := mkNode {
  NID : Z;
  NodeID : string;
  Hostname : string;
  IP : string;
  Version : string;
  NStatus : NodeStatus;
  TotalCPU : Z;
  TotalMemoryMB : Z;
  TotalDiskMB : Z;
  CPUUsagePct : float64;
  MemoryUsedMB : Z;
  DiskUsedMB : Z;
  LoadAvg1m : float64;
  RunningTasks : Z;
  Labels : list string;
  LastHeartbeatAt : option Time;
  RegisteredAt : Time;
  NCreatedAt : Time;
  NUpdatedAt : Time;
}.

Definition eta_Node (n : Node) : Node :=
  mkNode (NID n) (NodeID n) (Hostname n) (IP n) (Version n) (NStatus n) (TotalCPU n)
    (TotalMemoryMB n) (TotalDiskMB n) (CPUUsagePct n) (MemoryUsedMB n) (DiskUsedMB n)
    (LoadAvg1m n) (RunningTasks n) (Labels n) (LastHeartbeatAt n) (RegisteredAt n)
    (NCreatedAt n) (NUpdatedAt n).

#[export] Instance set_NID : Setter NID := ltac:(mk_setter eta_Node NID).
#[export] Instance set_Version : Setter Version := ltac:(mk_setter eta_Node Version).
#[export] Instance set_NStatus : Setter NStatus := ltac:(mk_setter eta_Node NStatus).
#[export] Instance set_CPUUsagePct : Setter CPUUsagePct := ltac:(mk_setter eta_Node CPUUsagePct).
#[export] Instance set_MemoryUsedMB : Setter MemoryUsedMB :=
  ltac:(mk_setter eta_Node MemoryUsedMB).
#[export] Instance set_DiskUsedMB : Setter DiskUsedMB := ltac:(mk_setter eta_Node DiskUsedMB).
#[export] Instance set_LoadAvg1m : Setter LoadAvg1m := ltac:(mk_setter eta_Node LoadAvg1m).
#[export] Instance set_RunningTasks : Setter RunningTasks :=
  ltac:(mk_setter eta_Node RunningTasks).
#[export] Instance set_LastHeartbeatAt : Setter LastHeartbeatAt :=
  ltac:(mk_setter eta_Node LastHeartbeatAt).
#[export] Instance set_NUpdatedAt : Setter NUpdatedAt := ltac:(mk_setter eta_Node NUpdatedAt).

Definition NewNode (id : string) (now : Time) (hostname ip version : string)
    (totalCPU totalMemMB totalDiskMB : Z) (labels : list string) : Node := {|
  NID := 0; NodeID := id; Hostname := hostname; IP := ip; Version := version;
  NStatus := NodeStatusOnline; TotalCPU := totalCPU; TotalMemoryMB := totalMemMB;
  TotalDiskMB := totalDiskMB; CPUUsagePct := f64_zero; MemoryUsedMB := 0;
  DiskUsedMB := 0; LoadAvg1m := f64_zero; RunningTasks := 0; Labels := labels;
  LastHeartbeatAt := None; RegisteredAt := now; NCreatedAt := now; NUpdatedAt := now |}.

Definition IsSchedulable (n : Node) : bool := bool_decide (NStatus n = NodeStatusOnline).

(** [HasLabel] loops over the labels and returns at the first match. *)
Definition HasLabel (n : Node) (label : string) : bool :=
  existsb (λ l, bool_decide (l = label)) (Labels n).

(** ** The status state machine *)

Definition known_statuses : list TaskStatus :=
  [TaskStatusCreated; TaskStatusPending; TaskStatusRunning; TaskStatusSuccess;
   TaskStatusFailed; TaskStatusCanceled].

Definition transition_edges : list (TaskStatus * TaskStatus) :=
  [(TaskStatusCreated, TaskStatusPending); (TaskStatusCreated, TaskStatusCanceled);
   (TaskStatusPending, TaskStatusRunning); (TaskStatusPending, TaskStatusCanceled);
   (TaskStatusRunning, TaskStatusSuccess); (TaskStatusRunning, TaskStatusFailed);
   (TaskStatusRunning, TaskStatusCanceled)].

(** A sequence of accepted calls of [TransitionTo], with the statuses it
    passes through. *)
Inductive transitions : TaskStatus → list TaskStatus → TaskStatus → Prop :=
| transitions_nil s : transitions s [] s
| transitions_cons s s' l s'' :
    transition_allowed s s' = true → transitions s' l s'' → transitions s (s' :: l) s''.

(** How many transitions a status can still make. *)
Definition status_rank (s : TaskStatus) : nat :=
  if bool_decide (s = TaskStatusCreated) then 3%nat
  else if bool_decide (s = TaskStatusPending) then 2%nat
  else if bool_decide (s = TaskStatusRunning) then 1%nat
  else 0%nat.

(** One goal per edge. *)
Ltac by_edges H :=
  unfold transition_edges in H;
  repeat (apply elem_of_cons in H as [H|H];
          [injection H; clear H; intros; subst|]);
  [..|by apply elem_of_nil in H].

Lemma transition_allowed_edges from to :
  transition_allowed from to = true ↔ (from, to) ∈ transition_edges.
Proof.
  unfold transition_allowed, validTransitions. split.
  - intros Hd. rewrite !lookup_insert, lookup_singleton in Hd.
    repeat (case_decide; simplify_eq/=);
      rewrite ?lookup_insert, ?lookup_singleton, ?lookup_empty in Hd;
      repeat (case_decide; simplify_eq/=);
      unfold transition_edges; set_solver.
  - intros H. by_edges H; vm_compute; reflexivity.
Qed.

Lemma transition_allowed_rank from to :
  transition_allowed from to = true → (status_rank to < status_rank from)%nat.
Proof.
  rewrite transition_allowed_edges. intros H. by_edges H; vm_compute; lia.
Qed.

Lemma terminal_rank s : IsTerminal s = true → status_rank s = 0%nat.
Proof.
  unfold IsTerminal. rewrite !orb_true_iff, !bool_decide_eq_true.
  intros [[-> | ->]| ->]; reflexivity.
Qed.

Lemma terminal_no_exit s to : IsTerminal s = true → transition_allowed s to = false.
Proof.
  intros Hs. apply not_true_iff_false. intros H%transition_allowed_rank.
  rewrite (terminal_rank s Hs) in H. lia.
Qed.

(** Every status that is not terminal can be canceled. *)
Lemma cancelable s :
  s ∈ known_statuses → IsTerminal s = false → transition_allowed s TaskStatusCanceled = true.
Proof.
  revert s. apply (proj1 (Forall_forall
    (λ s, IsTerminal s = false → transition_allowed s TaskStatusCanceled = true) known_statuses)).
  apply (bool_decide_unpack _). vm_compute. exact I.
Qed.

Lemma TransitionTo_ok now target t :
  transition_allowed (Status t) target = true →
  TransitionTo now target t = (None, t <| Status := target |> <| UpdatedAt := now |>).
Proof. intros H. unfold TransitionTo. by rewrite H. Qed.

Lemma TransitionTo_err now target t e t' :
  TransitionTo now target t = (Some e, t') →
  transition_allowed (Status t) target = false ∧ t' = t.
Proof.
  unfold TransitionTo. destruct (transition_allowed _ _); simpl; [done|].
  by intros [= _ <-].
Qed.

(** [TransitionTo] touches the status and the update time only. *)
Lemma TransitionTo_frame now target t :
  let t' := (TransitionTo now target t).2 in
  t' = t ∨ t' = t <| Status := target |> <| UpdatedAt := now |>.
Proof. unfold TransitionTo. destruct (negb _); auto. Qed.

(** *** Properties *)

(** [TransitionTo] succeeds exactly on the seven edges of the lifecycle
    (created to pending or canceled, pending to running or canceled, running
    to success, failed or canceled); a success changes the status and the
    update time and nothing else, a refusal returns an error naming both
    statuses and leaves the task as it was, whatever text the status holds. *)
Lemma TransitionTo_spec (now : Time) (target : TaskStatus) (t : Task) :
  TransitionTo now target t =
    if decide ((Status t, target) ∈ transition_edges)
    then (None, t <| Status := target |> <| UpdatedAt := now |>)
    else (Some (ErrorString ("invalid status transition: " +:+ Status t +:+ " -> "
                             +:+ target)), t).
Proof.
  unfold TransitionTo. case_decide as Hd.
  - apply transition_allowed_edges in Hd. by rewrite Hd.
  - rewrite <- transition_allowed_edges in Hd. apply not_true_iff_false in Hd. by rewrite Hd.
Qed.

(** The lifecycle terminates: from any status a task makes at most three
    accepted transitions, a known status is terminal (success, failed or
    canceled) exactly when no transition out of it is accepted, and a run that
    ends in a terminal status cannot be extended. *)
Lemma lifecycle_terminates (s s' : TaskStatus) (l : list TaskStatus) :
  transitions s l s' →
  (length l ≤ 3)%nat ∧
  (s' ∈ known_statuses → IsTerminal s' = true ↔ ∀ to, transition_allowed s' to = false) ∧
  (IsTerminal s' = true → ∀ l' s'', transitions s' l' s'' → l' = [] ∧ s'' = s').
Proof.
  intros Hrun. split; [|split].
  - assert (length l + status_rank s' ≤ status_rank s)%nat as Hr.
    { clear -Hrun. induction Hrun as [|s s1 l s2 Hstep Hrun IH]; simpl; [lia|].
      apply transition_allowed_rank in Hstep. lia. }
    assert (status_rank s ≤ 3)%nat as H3.
    { unfold status_rank. repeat case_bool_decide; lia. }
    lia.
  - intros Hk. split; [intros Ht to; by apply terminal_no_exit|]. intros Hno.
    unfold known_statuses in Hk. rewrite !elem_of_cons in Hk.
    destruct Hk as [->|[->|[->|[->|[->|[->|Hk]]]]]]; try reflexivity.
    + discriminate (Hno TaskStatusPending).
    + discriminate (Hno TaskStatusRunning).
    + discriminate (Hno TaskStatusSuccess).
    + by apply elem_of_nil in Hk.
  - intros Ht l' s'' Hrun'. destruct Hrun' as [|s1 s2 l' s3 Hstep _]; [done|].
    by rewrite terminal_no_exit in Hstep.
Qed.

Lemma lifecycle_terminates_witness :
  transitions TaskStatusCreated [TaskStatusPending; TaskStatusRunning; TaskStatusSuccess]
    TaskStatusSuccess ∧
  (∀ to, transition_allowed TaskStatusSuccess to = false).
Proof.
  assert (transitions TaskStatusCreated
            [TaskStatusPending; TaskStatusRunning; TaskStatusSuccess] TaskStatusSuccess) as H.
  { repeat (eapply transitions_cons; [vm_compute; reflexivity|]). apply transitions_nil. }
  split; [exact H|].
  apply (lifecycle_terminates _ _ _ H); [|vm_compute; reflexivity].
  unfold known_statuses. set_solver.
Defined.

(** *** The idempotency key *)

Lemma substring_length n s : (n ≤ String.length s)%nat → String.length (take_bytes n s) = n.
Proof.
  unfold take_bytes. revert n. induction s as [|a s IH]; intros [|n] H; simpl in *; try lia.
  rewrite IH; lia.
Qed.

(** The idempotency key is well defined and 16 bytes long: whatever order
    the environment map is ranged over in and whichever sort is used, the same
    task gets the same key. *)
Lemma idempotency_key_deterministic (S1 S2 : SortBy) (R1 R2 : MapRange) (t : Task) :
  @SortByOk S1 → @SortByOk S2 → @MapRangeOk R1 → @MapRangeOk R2 →
  @SetIdempotencyKey S1 R1 t = @SetIdempotencyKey S2 R2 t ∧
  String.length (IdempotencyKey (@SetIdempotencyKey S1 R1 t)) = 16%nat.
Proof.
  intros HS1 HS2 HR1 HR2. split.
  - unfold SetIdempotencyKey. f_equal. unfold idempotency_input.
    rewrite (sort_strings_unique S1 S2 _ (@map_range R2 _ (Env t)).*1); [done|].
    by rewrite (@map_range_perm R1), (@map_range_perm R2).
  - apply substring_length. rewrite hex_length, sha256_length. lia.
Qed.

Lemma idempotency_key_deterministic_witness :
  let t := (NewTask "u" 0 "n" "ls") <| Env := {[ "B" := "2"; "A" := "1" ]} |> in
  let rev_range : MapRange := λ V m, reverse (map_to_list m) in
  @SetIdempotencyKey InsertionSort.sort CanonicalRange.range t =
  @SetIdempotencyKey InsertionSort.sort rev_range t.
Proof.
  intros t rev_range.
  apply (idempotency_key_deterministic InsertionSort.sort InsertionSort.sort
           CanonicalRange.range rev_range t).
  - apply InsertionSort.sort_ok.
  - apply InsertionSort.sort_ok.
  - apply CanonicalRange.range_ok.
  - intros V m. apply reverse_Permutation.
Defined.

(** The hash separates neither the command from the working directory nor
    a variable from its value: moving bytes across the boundary gives two
    different tasks the same key, so the second one is refused as a duplicate
    of the first. *)
Lemma idempotency_key_ambiguous `{SortBy} `{MapRange} (t : Task) (a b c : string) :
  IdempotencyKey (SetIdempotencyKey (t <| Command := a +:+ b |> <| Workdir := c |>)) =
  IdempotencyKey (SetIdempotencyKey (t <| Command := a |> <| Workdir := b +:+ c |>)).
Proof.
  unfold SetIdempotencyKey, idempotency_input. cbn. by rewrite !append_assoc.
Qed.
