(* ===== verification/Heap.v ===== *)
(** * [container/heap]

    The binary heap of Go's standard library, on the list that backs the
    priority queue.  An element's key is read through [key]; [Less] compares
    keys the way the program's [priorityQueue] does, the larger key first.
    [up] and [down] are the library's loops; a loop that would index out of
    range in Go stops here, which the length conditions of the lemmas rule
    out. *)

From S2P Require Import Prelude.

Section heap.
Context {A : Type} (key : A → Z).
Implicit Types (h : list A) (i j n : nat).

(** ** The operations *)

(** [priorityQueue.Less]: [pq[i].Priority > pq[j].Priority]. *)
Definition Less h i j : bool :=
  match h !! i, h !! j with
  | Some x, Some y => key y <? key x
  | _, _ => false
  end.

(** [priorityQueue.Swap] *)
Definition Swap h i j : list A :=
  match h !! i, h !! j with
  | Some x, Some y => <[i := y]> (<[j := x]> h)
  | _, _ => h
  end.

(** [(j - 1) / 2]; for [j = 0] Go's division truncates to 0 as well. *)
Definition parent j : nat := ((j - 1) / 2)%nat.

Fixpoint up (fuel : nat) h j : list A :=
  match fuel with
  | O => h
  | S fuel =>
      let i := parent j in
      if (i =? j)%nat || negb (Less h j i) then h
      else up fuel (Swap h i j) i
  end.

Fixpoint down (fuel : nat) h i n : list A :=
  match fuel with
  | O => h
  | S fuel =>
      let j1 := (2 * i + 1)%nat in
      if (n <=? j1)%nat then h
      else
        let j2 := (j1 + 1)%nat in
        let j := if (j2 <? n)%nat && Less h j2 j1 then j2 else j1 in
        if negb (Less h j i) then h
        else down fuel (Swap h i j) j n
  end.

(** [heap.Push]: append, then sift the last element up. *)
Definition heap_Push h (x : A) : list A :=
  let h := h ++ [x] in up (length h) h (length h - 1).

(** [heap.Pop]: swap the root with the last element, sift the new root down
    in the shorter heap, cut the last element off and return it. *)
Definition heap_Pop h : option A * list A :=
  let n := (length h - 1)%nat in
  let h := Swap h 0 n in
  let h := down n h 0 n in
  (h !! n, take n h).

(** ** The invariant *)

(** The key at an index; 0 out of range. *)
Definition key_at h i : Z := from_option key 0 (h !! i).

(** Within the first [n] elements no element has a larger key than its
    parent. *)
Definition heap_ok h n : Prop :=
  ∀ i, (0 < i < n)%nat → key_at h i ≤ key_at h (parent i).

(** *** Swapping *)

Lemma insert_Permutation h i x y :
  h !! i = Some x → x :: <[i := y]> h ≡ₚ y :: h.
Proof.
  intros Hi. assert (<[i := y]> h !! i = Some y) as Hi'.
  { apply list_lookup_insert_eq. by eapply lookup_lt_Some. }
  etrans; [apply perm_skip, (delete_Permutation _ i y Hi')|].
  assert (delete i (<[i := y]> h) = delete i h) as ->.
  { clear. revert i. induction h as [|z h IH]; intros [|i]; simpl; [done..|]. by rewrite IH. }
  etrans; [apply Permutation_swap|]. symmetry. by apply perm_skip, delete_Permutation.
Qed.

Lemma Swap_Permutation h i j : Swap h i j ≡ₚ h.
Proof.
  unfold Swap. destruct (h !! i) as [x|] eqn:Hi, (h !! j) as [y|] eqn:Hj; try done.
  apply (Permutation_cons_inv (a := x)).
  rewrite insert_Permutation; [by apply insert_Permutation|].
  destruct (decide (i = j)) as [->|Hne].
  - apply list_lookup_insert_eq. by eapply lookup_lt_Some.
  - by rewrite list_lookup_insert_ne.
Qed.

Lemma length_Swap h i j : length (Swap h i j) = length h.
Proof. by rewrite Swap_Permutation. Qed.

Lemma lookup_Swap h i j k :
  (i < length h)%nat → (j < length h)%nat →
  Swap h i j !! k = if decide (k = i) then h !! j else if decide (k = j) then h !! i else h !! k.
Proof.
  intros Hi Hj. unfold Swap.
  destruct (lookup_lt_is_Some_2 h i Hi) as [x Hx], (lookup_lt_is_Some_2 h j Hj) as [y Hy].
  rewrite Hx, Hy. case_decide as Hki; [subst k|case_decide as Hkj; [subst k|]].
  - by rewrite list_lookup_insert_eq by (by rewrite length_insert).
  - by rewrite list_lookup_insert_ne, list_lookup_insert_eq.
  - by rewrite !list_lookup_insert_ne.
Qed.

Lemma key_at_Swap h i j k :
  (i < length h)%nat → (j < length h)%nat →
  key_at (Swap h i j) k =
    if decide (k = i) then key_at h j else if decide (k = j) then key_at h i else key_at h k.
Proof.
  intros Hi Hj. unfold key_at. rewrite lookup_Swap by done. by repeat case_decide.
Qed.

Lemma Less_key_at h i j :
  (i < length h)%nat → (j < length h)%nat → Less h i j = (key_at h j <? key_at h i).
Proof.
  intros Hi Hj. unfold Less, key_at.
  destruct (lookup_lt_is_Some_2 h i Hi) as [x ->], (lookup_lt_is_Some_2 h j Hj) as [y ->].
  done.
Qed.

Lemma parent_spec i j : (0 < i)%nat → parent i = j ↔ (i = 2 * j + 1 ∨ i = 2 * j + 2)%nat.
Proof.
  unfold parent. pose proof (Nat.div_mod_eq (i - 1) 2).
  pose proof (Nat.mod_upper_bound (i - 1) 2). lia.
Qed.

Lemma parent_lt i : (0 < i)%nat → (parent i < i)%nat.
Proof. intros Hi. pose proof (proj1 (parent_spec i (parent i) Hi)). lia. Qed.

(** Case analysis on which of the swapped indices each key is read at. *)
Ltac swap_cases :=
  repeat case_decide; subst; try lia; try congruence;
  repeat match goal with
  | E : parent ?a = _, H : context [key_at _ (parent ?a)] |- _ => rewrite E in H
  | E : parent ?a = _ |- context [key_at _ (parent ?a)] => rewrite E
  end; lia.

(** *** Sifting up *)

(** The heap order, but for the link between [j] and its parent. *)
Definition up_inv h j n : Prop :=
  (∀ i, (0 < i < n)%nat → i ≠ j → key_at h i ≤ key_at h (parent i)) ∧
  (∀ c, (0 < c < n)%nat → parent c = j → (0 < j)%nat → key_at h c ≤ key_at h (parent j)).

Lemma up_step h j n :
  (0 < j < n)%nat → (n ≤ length h)%nat →
  up_inv h j n → key_at h (parent j) < key_at h j →
  up_inv (Swap h (parent j) j) (parent j) n.
Proof.
  intros Hj Hn [H1 H2] Hlt. pose proof (parent_lt j) as Hpj.
  split.
  - intros i Hi Hne. rewrite !key_at_Swap by lia.
    pose proof (H1 i Hi). pose proof (H2 i Hi). pose proof (parent_lt i).
    swap_cases.
  - intros c Hc Hpc Hp. rewrite !key_at_Swap by lia.
    pose proof (H1 c Hc). pose proof (H1 (parent j)). pose proof (parent_lt c).
    pose proof (parent_lt (parent j)). rewrite Hpc in *.
    swap_cases.
Qed.

Lemma up_heap fuel h j :
  (j < fuel)%nat → (j < length h)%nat → up_inv h j (length h) →
  heap_ok (up fuel h j) (length h).
Proof.
  revert h j. induction fuel as [|fuel IH]; intros h j Hf Hj Hinv; [lia|]. simpl.
  destruct (Nat.eqb_spec (parent j) j) as [Heq|Hne]; simpl.
  { intros i Hi. apply Hinv; [done|]. pose proof (parent_lt j). lia. }
  assert (0 < j)%nat as H0. { unfold parent in Hne. destruct j; simpl in *; lia. }
  pose proof (parent_lt j H0) as Hp. rewrite Less_key_at by lia.
  destruct (Z.ltb_spec (key_at h (parent j)) (key_at h j)) as [Hlt|Hge]; simpl.
  - rewrite <- (length_Swap h (parent j) j). apply IH; rewrite ?length_Swap; try lia.
    apply up_step; try lia; done.
  - intros i Hi. destruct (decide (i = j)) as [->|]; [done|]. by apply Hinv.
Qed.

Lemma up_Permutation fuel h j : up fuel h j ≡ₚ h.
Proof.
  revert h j. induction fuel as [|fuel IH]; intros h j; simpl; [done|].
  destruct (_ || _); [done|]. by rewrite IH, Swap_Permutation.
Qed.

(** *** Sifting down *)

(** The heap order, but for the links between [i] and its children. *)
Definition down_inv h i n : Prop :=
  (∀ c, (0 < c < n)%nat → parent c ≠ i → key_at h c ≤ key_at h (parent c)) ∧
  (∀ c, (0 < c < n)%nat → parent c = i → (0 < i)%nat → key_at h c ≤ key_at h (parent i)).

Lemma down_step h i j n :
  (0 < j < n)%nat → (n ≤ length h)%nat → parent j = i →
  (∀ c, (0 < c < n)%nat → parent c = i → key_at h c ≤ key_at h j) →
  down_inv h i n → key_at h i < key_at h j →
  down_inv (Swap h i j) j n.
Proof.
  intros Hj Hn Hp Hmax [H1 H2] Hlt. pose proof (parent_lt j) as Hpj.
  split.
  - intros c Hc Hne. rewrite !key_at_Swap by lia.
    pose proof (H1 c Hc). pose proof (H2 c Hc). pose proof (Hmax c Hc).
    pose proof (parent_lt c). pose proof (H2 j Hj).
    swap_cases.
  - intros c Hc Hpc _. rewrite !key_at_Swap by lia.
    pose proof (H1 c Hc). pose proof (parent_lt c).
    swap_cases.
Qed.

(** The child [down] compares with is a child, and one with the largest key. *)
Lemma larger_child h i n j1 j :
  j1 = (2 * i + 1)%nat → (j1 < n)%nat → (n ≤ length h)%nat →
  j = (if (j1 + 1 <? n)%nat && Less h (j1 + 1) j1 then j1 + 1 else j1)%nat →
  (i < j < n)%nat ∧ parent j = i ∧
  ∀ c, (0 < c < n)%nat → parent c = i → key_at h c ≤ key_at h j.
Proof.
  intros Hj1 Hlt Hn Hj.
  assert (j = j1 ∨ j = j1 + 1)%nat as Hor by (subst j; destruct (_ && _); lia).
  assert ((j < n)%nat ∧ key_at h j1 ≤ key_at h j ∧
          ((j1 + 1 < n)%nat → key_at h (j1 + 1) ≤ key_at h j)) as (Hjn & H1 & H2).
  { subst j. destruct (Nat.ltb_spec (j1 + 1) n); simpl; [|lia].
    rewrite Less_key_at by lia.
    destruct (Z.ltb_spec (key_at h j1) (key_at h (j1 + 1))); lia. }
  split; [lia|]. split; [apply parent_spec; lia|].
  intros c Hc Hpc. apply parent_spec in Hpc; [|lia].
  assert (c = j1 ∨ c = j1 + 1)%nat as [-> | ->] by lia; [lia|]. apply H2. lia.
Qed.

Lemma down_heap fuel h i n :
  (n ≤ fuel + i)%nat → (n ≤ length h)%nat → down_inv h i n →
  heap_ok (down fuel h i n) n.
Proof.
  revert h i. induction fuel as [|fuel IH]; intros h i Hf Hn Hinv; simpl.
  { intros c Hc. apply Hinv; [done|]. pose proof (parent_lt c). lia. }
  replace (i + (i + 0) + 1)%nat with (2 * i + 1)%nat by lia.
  destruct (Nat.leb_spec n (2 * i + 1)) as [Hle|Hgt].
  { intros c Hc. apply Hinv; [done|]. pose proof (proj1 (parent_spec c i (proj1 Hc))). lia. }
  set (j := if _ && _ then _ else _).
  destruct (larger_child h i n (2 * i + 1) j) as (Hj & Hp & Hmax);
    [lia|lia|lia|reflexivity|].
  clearbody j. rewrite Less_key_at by lia.
  destruct (Z.ltb_spec (key_at h i) (key_at h j)) as [Hlt|Hge]; simpl.
  - apply IH; rewrite ?length_Swap; try lia. apply down_step; try done. lia.
  - intros c Hc. destruct (decide (parent c = i)) as [Hpc|Hpc]; [|by apply Hinv].
    rewrite Hpc. specialize (Hmax c Hc Hpc). lia.
Qed.

Lemma down_Permutation fuel h i n : down fuel h i n ≡ₚ h.
Proof.
  revert h i. induction fuel as [|fuel IH]; intros h i; simpl; [done|].
  destruct (_ <=? _)%nat; [done|]. set (j := if _ && _ then _ else _). clearbody j.
  destruct (negb _); [done|]. by rewrite IH, Swap_Permutation.
Qed.

(** [down] leaves what lies beyond the bound alone. *)
Lemma down_lookup_ge fuel h i n k :
  (i < n ≤ length h)%nat → (n ≤ k)%nat → down fuel h i n !! k = h !! k.
Proof.
  revert h i. induction fuel as [|fuel IH]; intros h i Hi Hk; simpl; [done|].
  destruct (Nat.leb_spec n (i + (i + 0) + 1)) as [Hle|Hgt]; [done|].
  set (j := if _ && _ then _ else _).
  assert (j < n)%nat as Hj.
  { unfold j. destruct (Nat.ltb_spec (i + (i + 0) + 1 + 1) n), (Less _ _ _); simpl; lia. }
  clearbody j. destruct (negb _); [done|].
  rewrite IH by (rewrite ?length_Swap; lia). rewrite lookup_Swap by lia.
  rewrite !decide_False by lia. done.
Qed.

(** ** What the operations promise *)

Lemma heap_root_max h n i : heap_ok h n → (i < n)%nat → key_at h i ≤ key_at h 0.
Proof.
  intros Hh. induction (lt_wf i) as [i _ IH]. intros Hi.
  destruct (decide (i = 0%nat)) as [->|Hne]; [done|].
  pose proof (parent_lt i). pose proof (Hh i). specialize (IH (parent i)). lia.
Qed.

Lemma heap_Push_Permutation h x : heap_Push h x ≡ₚ x :: h.
Proof. unfold heap_Push. by rewrite up_Permutation, (comm (++)). Qed.

Lemma heap_Push_ok h x :
  heap_ok h (length h) → heap_ok (heap_Push h x) (length (heap_Push h x)).
Proof.
  intros Hh. assert (length (heap_Push h x) = length (h ++ [x])) as ->.
  { by unfold heap_Push; rewrite up_Permutation. }
  unfold heap_Push.
  assert (∀ i, (i < length h)%nat → key_at (h ++ [x]) i = key_at h i) as Hk.
  { intros i Hi. unfold key_at. by rewrite lookup_app_l. }
  apply up_heap; rewrite ?length_app; simpl; try lia.
  split; intros i Hi; pose proof (parent_lt i); [intros Hne|intros Hp H0]; [|lia].
  rewrite !Hk by lia. apply Hh. lia.
Qed.

(** Popping a non-empty list returns its first element and a permutation of
    the rest, heap or not. *)
Lemma heap_Pop_Permutation h x :
  h !! 0%nat = Some x → ∃ h', heap_Pop h = (Some x, h') ∧ h ≡ₚ x :: h'.
Proof.
  intros H0. pose proof (lookup_lt_Some _ _ _ H0) as Hlt.
  unfold heap_Pop. set (n := (length h - 1)%nat).
  set (h1 := Swap h 0 n). set (h2 := down n h1 0 n).
  assert (h2 ≡ₚ h) as Hperm by (unfold h2, h1; by rewrite down_Permutation, Swap_Permutation).
  assert (length h2 = S n) as Hlen2 by (rewrite Hperm; lia).
  assert (h2 !! n = Some x) as Hlast.
  { unfold h2. destruct (decide (n = 0%nat)) as [Hn0|Hn0].
    - unfold h1. rewrite Hn0. simpl. rewrite lookup_Swap by lia. by rewrite decide_True.
    - rewrite down_lookup_ge by (unfold h1; rewrite ?length_Swap; lia).
      unfold h1. rewrite lookup_Swap by lia. by rewrite decide_False, decide_True by lia. }
  exists (take n h2). split; [by rewrite Hlast|].
  rewrite <- Hperm, <- (take_drop n h2) at 1.
  rewrite (drop_S h2 x n Hlast), drop_ge by lia. symmetry. apply Permutation_cons_append.
Qed.

Lemma heap_Pop_ok h :
  heap_ok h (length h) → heap_ok (heap_Pop h).2 (length h - 1).
Proof.
  intros Hh. unfold heap_Pop. simpl. set (n := (length h - 1)%nat).
  assert (heap_ok (down n (Swap h 0 n) 0 n) n) as Hok.
  { apply down_heap; [lia|rewrite length_Swap; lia|].
    split; intros c Hc Hpc; [|lia]. pose proof (parent_lt c).
    rewrite !key_at_Swap by lia. rewrite !decide_False by lia. apply Hh. lia. }
  intros i Hi. pose proof (parent_lt i). unfold key_at.
  rewrite !lookup_take_lt by lia. by apply Hok.
Qed.

(** On a heap the popped element is one with the largest key, and what is
    left is a heap again. *)
Lemma heap_Pop_spec h :
  heap_ok h (length h) → h ≠ [] →
  ∃ x h', heap_Pop h = (Some x, h') ∧ h ≡ₚ x :: h' ∧
    (∀ y, y ∈ h → key y ≤ key x) ∧ heap_ok h' (length h').
Proof.
  intros Hh Hne. destruct (h !! 0%nat) as [x|] eqn:H0; [|by destruct h].
  destruct (heap_Pop_Permutation h x H0) as (h' & Hpop & Hp).
  exists x, h'. split; [done|]. split; [done|]. split.
  - intros y Hy. apply list_elem_of_lookup in Hy as [i Hi].
    pose proof (heap_root_max h (length h) i Hh (lookup_lt_Some _ _ _ Hi)) as Hk.
    unfold key_at in Hk. by rewrite Hi, H0 in Hk.
  - pose proof (heap_Pop_ok h Hh) as Hok. rewrite Hpop, Hp in Hok. simpl in Hok.
    by rewrite Nat.sub_0_r in Hok.
Qed.
End heap.

(** ** The keys of the elements decide

    Popping reads the keys of the elements of the heap only. *)

Section ext.
Context {A : Type} (key key' : A → Z).
Implicit Types (h : list A).

Definition same_keys h : Prop := ∀ x, x ∈ h → key x = key' x.

Lemma same_keys_perm h h' : h ≡ₚ h' → same_keys h → same_keys h'.
Proof. intros Hp Hh x Hx. apply Hh. by rewrite Hp. Qed.

Lemma Less_ext h i j : same_keys h → Less key h i j = Less key' h i j.
Proof.
  intros Hh. unfold Less. destruct (h !! i) as [x|] eqn:Hi, (h !! j) as [y|] eqn:Hj; try done.
  by rewrite !Hh by (by eapply list_elem_of_lookup_2).
Qed.

Lemma down_ext fuel h i n : same_keys h → down key fuel h i n = down key' fuel h i n.
Proof.
  revert h i. induction fuel as [|fuel IH]; intros h i Hh; [done|]. cbn [down].
  rewrite !(Less_ext h) by done. destruct (n <=? _)%nat; [done|].
  destruct (negb _); [done|]. apply IH. eapply same_keys_perm; [symmetry; apply Swap_Permutation|done].
Qed.

Lemma heap_Pop_ext h : same_keys h → heap_Pop key h = heap_Pop key' h.
Proof.
  intros Hh. unfold heap_Pop. rewrite down_ext; [done|].
  eapply same_keys_perm; [symmetry; apply Swap_Permutation|done].
Qed.
End ext.
