(* ===== verification/TaskQueue.v ===== *)
(** * The object store and the queue interface ([internal/queue/queue.go])

    Tasks are shared by pointer: the service, the queue and the goroutines of
    the scheduler all hold [*model.Task] values and mutate the struct behind
    them.  The objects live in a store indexed by location, and allocation
    appends to it.

    [TaskQueue] is the Go interface of the same name as a type class; the
    scheduler and the service are written against it.  [TaskQueueOk] is what
    they rely on: a queue hands back only tasks with the properties of those
    put in, and every task popped leaves fewer ready ones. *)

From S2P Require Import Prelude Model.

Definition loc := nat.
Bind Scope nat_scope with loc.
Abbreviation Mem := (list Task).

(** [*p]; every pointer the program holds is allocated. *)
Definition deref (m : Mem) (l : loc) : Task := m !!! l.

(** [&model.Task{...}] *)
Definition alloc (t : Task) (m : Mem) : loc * Mem := (length m, m ++ [t]).

Class TaskQueue (Q : Type) := {
  (** Each operation may read the objects behind the pointers; those that take
      a [Time] read the clock once.  [q_Pop] polls: it is given the stream of
      clock readings it will see and returns how many it consumed, and may
      allocate the task it returns. *)
  q_Push : Mem → loc → Q → option error * Q;
  q_Pop : (nat → Time) → Duration → Mem → Q → result (option loc) * nat * Mem * Q;
  q_PushPriority : Mem → loc → Q → option error * Q;
  q_PushDelayed : Time → Mem → loc → Duration → Q → option error * Q;
  q_Ack : string → Q → option error * Q;
  q_Size : Q → result Z;
  q_Close : Q → option error * Q;
  (** One tick of the background goroutine that moves due tasks. *)
  q_background : Time → Q → Q;
}.

Class TaskQueueOk (Q : Type) `{TaskQueue Q} := {
  (** Every task held satisfies the predicate. *)
  q_inv : (Task → Prop) → Mem → Q → Prop;
  (** How many tasks [q_Pop] can return before waiting. *)
  q_ready : Q → nat;

  (** Changing or adding objects that satisfy the predicate is harmless. *)
  q_inv_mono P m m' q :
    q_inv P m q → (length m ≤ length m')%nat → Forall P m' → q_inv P m' q;
  q_Push_inv P m l q :
    q_inv P m q → Forall P m → (l < length m)%nat → q_inv P m (q_Push m l q).2;
  q_PushPriority_inv P m l q :
    q_inv P m q → Forall P m → (l < length m)%nat → q_inv P m (q_PushPriority m l q).2;
  q_PushDelayed_inv P now m l d q :
    q_inv P m q → Forall P m → (l < length m)%nat →
    q_inv P m (q_PushDelayed now m l d q).2;
  q_Pop_inv P clk timeout m q r k m' q' :
    q_inv P m q → Forall P m → q_Pop clk timeout m q = (r, k, m', q') →
    q_inv P m' q' ∧ Forall P m' ∧ m `prefix_of` m' ∧
    (∀ l, r = Ok (Some l) → (l < length m')%nat);

  q_background_inv P now m q : q_inv P m q → q_inv P m (q_background now q);

  q_Pop_ready clk timeout m q l k m' q' :
    q_Pop clk timeout m q = (Ok (Some l), k, m', q') → (q_ready q' < q_ready q)%nat;
  q_PushDelayed_ready now m l d q :
    q_ready (q_PushDelayed now m l d q).2 = q_ready q;
}.

(** ** Facts about the store *)

Lemma deref_lookup (m : Mem) l t : m !! l = Some t → deref m l = t.
Proof. intros H. unfold deref. by apply list_lookup_total_correct. Qed.

Lemma deref_alloc (t : Task) (m : Mem) :
  deref (alloc t m).2 (alloc t m).1 = t.
Proof.
  apply deref_lookup. simpl. rewrite lookup_app_r, Nat.sub_diag by lia. done.
Qed.

Lemma deref_last (m : Mem) t : deref (m ++ [t]) (length m) = t.
Proof. apply (deref_alloc t m). Qed.

Lemma deref_app (m m' : Mem) l : (l < length m)%nat → deref (m ++ m') l = deref m l.
Proof.
  intros Hl. unfold deref. by rewrite !list_lookup_total_alt, lookup_app_l.
Qed.

Lemma deref_insert (m : Mem) l t : (l < length m)%nat → deref (<[l := t]> m) l = t.
Proof. intros Hl. by apply deref_lookup, list_lookup_insert_eq. Qed.

Lemma deref_insert_ne (m : Mem) l l' t : l ≠ l' → deref (<[l := t]> m) l' = deref m l'.
Proof. intros Hl. unfold deref. by rewrite !list_lookup_total_alt, list_lookup_insert_ne. Qed.

Lemma Forall_deref (P : Task → Prop) (m : Mem) l :
  Forall P m → (l < length m)%nat → P (deref m l).
Proof.
  intros HP Hl. destruct (lookup_lt_is_Some_2 m l Hl) as [t Ht].
  rewrite (deref_lookup _ _ _ Ht). by eapply Forall_lookup_1.
Qed.
