(* ===== verification/InMemQueue.v ===== *)
(** * The in-memory queue ([internal/queue/inmem.go])

    A FIFO list, a binary heap ordered by priority and a list of delayed
    tasks, all of pointers.  The two mutexes make each operation atomic; the
    background goroutine is the operation [drainDelayed], one call per tick of
    its ticker.

    The specification is a queue of two bags and a list ([AbsQueue]);
    [InMem_refines] shows that every operation implements it. *)

From S2P Require Import Prelude Model Heap TaskQueue.

Record InMemQueue : Type := mkInMem {
  items : list loc;                (* ordinary tasks, FIFO *)
  pq : list loc;                   (* the heap, largest priority first *)
  closed : bool;
  delayed : list (loc * Time);     (* delayedItem: task, due *)
}.

Definition eta_InMem (q : InMemQueue) := mkInMem (items q) (pq q) (closed q) (delayed q).
#[export] Instance set_items : Setter items := ltac:(mk_setter eta_InMem items).
#[export] Instance set_pq : Setter pq := ltac:(mk_setter eta_InMem pq).
#[export] Instance set_closed : Setter closed := ltac:(mk_setter eta_InMem closed).
#[export] Instance set_delayed : Setter delayed := ltac:(mk_setter eta_InMem delayed).

Definition NewInMemQueue : InMemQueue := mkInMem [] [] false [].

(** The key of the heap: the priority of the object a pointer refers to. *)
Definition prio (m : Mem) (l : loc) : Z := Priority (deref m l).

(** ** The operations *)

Definition Push (m : Mem) (l : loc) (q : InMemQueue) : option error * InMemQueue :=
  (None, q <| items := items q ++ [l] |>).

Definition PushPriority (m : Mem) (l : loc) (q : InMemQueue) : option error * InMemQueue :=
  (None, q <| pq := heap_Push (prio m) (pq q) l |>).

Definition PushDelayed (now : Time) (m : Mem) (l : loc) (delay : Duration) (q : InMemQueue)
  : option error * InMemQueue :=
  (None, q <| delayed := delayed q ++ [(l, time_add now delay)] |>).

Definition popInternal (m : Mem) (q : InMemQueue) : option loc * InMemQueue :=
  if (0 <? length (pq q))%nat then
    let '(task, h) := heap_Pop (prio m) (pq q) in (task, q <| pq := h |>)
  else
    match items q with
    | task :: rest => (Some task, q <| items := rest |>)
    | [] => (None, q)
    end.

(** The sleep between two polls: what is left until the deadline, at most
    10 ms. *)
Definition poll_sleep (now deadline : Time) : Duration :=
  let remaining := time_sub deadline now in
  if 10 * millisecond <? remaining then 10 * millisecond else remaining.

(** The polling loop of [Pop].  Reading [k] of the clock is the test against
    the deadline, reading [k + 1] the computation of the sleep. *)
Fixpoint pop_loop (fuel : nat) (clk : nat → Time) (k : nat) (deadline : Time)
    (m : Mem) (q : InMemQueue) : option (option loc * nat * InMemQueue) :=
  match fuel with
  | O => None
  | S fuel =>
      match popInternal m q with
      | (Some task, q) => Some (Some task, k, q)
      | (None, q) =>
          if time_after (clk k) deadline then Some (None, S k, q)
          else pop_loop fuel clk (S (S k)) deadline m q
      end
  end.

(** Enough polls for a clock on which sleeping takes time ([Pop_terminates]). *)
Definition pop_fuel (timeout : Duration) : nat :=
  (Z.to_nat (timeout / (10 * millisecond)) + 4)%nat.

Definition Pop (clk : nat → Time) (timeout : Duration) (m : Mem) (q : InMemQueue)
  : result (option loc) * nat * Mem * InMemQueue :=
  let deadline := time_add (clk 0%nat) timeout in
  match pop_loop (pop_fuel timeout) clk 1 deadline m q with
  | Some (r, k, q) => (Ok r, k, m, q)
  | None => (Ok None, 1%nat, m, q)
  end.

Definition Ack (taskUID : string) (q : InMemQueue) : option error * InMemQueue := (None, q).

Definition Size (q : InMemQueue) : result Z :=
  let total := Z.of_nat (length (items q) + length (pq q)) in
  Ok (wrap64 (total + Z.of_nat (length (delayed q)))).

Definition Close (q : InMemQueue) : option error * InMemQueue :=
  if closed q then (None, q) else (None, q <| closed := true |>).

Definition is_due (now due : Time) : bool := time_after now due || time_equal now due.

(** One tick of [drainDelayedLoop]: the loop over [q.delayed]. *)
Definition drain_items (now : Time) (ds : list (loc * Time)) (st : list loc * list (loc * Time))
  : list loc * list (loc * Time) :=
  foldl (λ st d, if is_due now d.2 then (st.1 ++ [d.1], st.2) else (st.1, st.2 ++ [d])) st ds.

(** The goroutine has exited once [stopCh] is closed. *)
Definition drainDelayed (now : Time) (q : InMemQueue) : InMemQueue :=
  if closed q then q
  else
    let '(its, remaining) := drain_items now (delayed q) (items q, []) in
    q <| items := its |> <| delayed := remaining |>.

#[export] Instance InMem_TaskQueue : TaskQueue InMemQueue := {|
  q_Push := Push; q_Pop := Pop; q_PushPriority := PushPriority;
  q_PushDelayed := PushDelayed; q_Ack := Ack; q_Size := Size; q_Close := Close;
  q_background := drainDelayed |}.

(** ** The specification *)

Record AbsQueue : Type := mkAbs {
  a_prio : list loc;            (* a bag: order is irrelevant *)
  a_fifo : list loc;
  a_delayed : list (loc * Time);  (* a bag *)
}.

(** Two abstract queues are the same when their bags are. *)
#[export] Instance AbsQueue_equiv : Equiv AbsQueue := λ a b,
  a_prio a ≡ₚ a_prio b ∧ a_fifo a = a_fifo b ∧ a_delayed a ≡ₚ a_delayed b.

#[export] Instance AbsQueue_equivalence : Equivalence (≡@{AbsQueue}).
Proof.
  split.
  - by intros a.
  - intros a b (H1 & H2 & H3). by split_and!; symmetry.
  - intros a b c (H1 & H2 & H3) (H4 & H5 & H6). split_and!; by etrans.
Qed.

(** What a pop may return: a task of largest priority if the bag has any, else
    the oldest ordinary task, else nothing. *)
Inductive abs_pop (p : loc → Z) : AbsQueue → option loc → AbsQueue → Prop :=
| abs_pop_priority a b l :
    a_prio a ≡ₚ l :: a_prio b → (∀ y, y ∈ a_prio a → p y ≤ p l) →
    a_fifo b = a_fifo a → a_delayed b ≡ₚ a_delayed a → abs_pop p a (Some l) b
| abs_pop_fifo a b l :
    a_prio a = [] → a_prio b = [] → a_fifo a = l :: a_fifo b →
    a_delayed b ≡ₚ a_delayed a → abs_pop p a (Some l) b
| abs_pop_empty a b : a_prio a = [] → a_fifo a = [] → a ≡ b → abs_pop p a None b.

#[export] Instance abs_pop_proper p :
  Proper ((≡) ==> (=) ==> (≡) ==> iff) (abs_pop p).
Proof.
  assert (∀ a a' o b b', a ≡ a' → b ≡ b' → abs_pop p a o b → abs_pop p a' o b') as H.
  { intros a a' o b b' (A1 & A2 & A3) (B1 & B2 & B3) Hpop. symmetry in A1, A3.
    destruct Hpop as [a b l P1 P2 P3 P4|a b l P1 P2 P3 P4|a b P1 P2 (P3 & P4 & P5)].
    - apply abs_pop_priority.
      + etrans; [exact A1|]. etrans; [exact P1|]. by apply perm_skip.
      + intros y. rewrite A1. apply P2.
      + congruence.
      + etrans; [symmetry; exact B3|]. etrans; [exact P4|]. by symmetry.
    - rewrite P1 in A1. rewrite P2 in B1. apply Permutation_nil_r in A1.
      apply Permutation_nil_l in B1.
      apply abs_pop_fifo; [done..|congruence|].
      etrans; [symmetry; exact B3|]. etrans; [exact P4|]. by symmetry.
    - rewrite P1 in A1. apply Permutation_nil_r in A1.
      apply abs_pop_empty; [done|congruence|]. split_and!.
      + rewrite A1, <- P1. by etrans.
      + congruence.
      + etrans; [exact A3|]. by etrans. }
  intros a a' Ha o ? <- b b' Hb. split; apply H; done || by symmetry.
Qed.

(** The abstraction: the heap is the bag of its elements. *)
Definition abs (q : InMemQueue) : AbsQueue := mkAbs (pq q) (items q) (delayed q).

(** The well-formedness of the concrete queue. *)
Definition queue_ok (m : Mem) (q : InMemQueue) : Prop :=
  heap_ok (prio m) (pq q) (length (pq q)).

(** ** Facts *)

Lemma drain_items_spec now ds its rem :
  drain_items now ds (its, rem) =
    (its ++ (filter (λ d, is_due now d.2 = true) ds).*1,
     rem ++ filter (λ d, is_due now d.2 = false) ds).
Proof.
  revert its rem. induction ds as [|d ds IH]; intros its rem; simpl.
  { by rewrite !app_nil_r. }
  unfold drain_items in *. simpl. rewrite !filter_cons.
  destruct (is_due now d.2); simpl; rewrite IH; simpl; by rewrite <- app_assoc.
Qed.

Lemma is_due_iff now due : is_due now due = true ↔ due <= now.
Proof.
  unfold is_due, time_after, time_equal.
  rewrite orb_true_iff, Z.ltb_lt, Z.eqb_eq. lia.
Qed.

Lemma PushPriority_ok m l q : queue_ok m q → queue_ok m (PushPriority m l q).2.
Proof. apply heap_Push_ok. Qed.

Lemma popInternal_refines m q r q' :
  queue_ok m q → popInternal m q = (r, q') →
  abs_pop (prio m) (abs q) r (abs q') ∧ queue_ok m q' ∧
  closed q' = closed q ∧ delayed q' = delayed q.
Proof.
  intros Hok. unfold popInternal. destruct (Nat.ltb_spec 0 (length (pq q))) as [Hlt|Hge].
  - destruct (heap_Pop_spec (prio m) (pq q) Hok) as (x & h' & -> & Hp & Hmax & Hok').
    { intros H. rewrite H in Hlt. simpl in Hlt. lia. }
    intros [= <- <-]. split_and!; [|done..]. by apply abs_pop_priority.
  - assert (pq q = []) as Hnil by (destruct (pq q); simpl in *; [done|lia]).
    destruct (items q) as [|l its] eqn:Hits; intros [= <- <-].
    + split_and!; [|done..]. by apply abs_pop_empty.
    + split_and!; [|done..]. by apply abs_pop_fifo.
Qed.

Lemma popInternal_None m q q' : popInternal m q = (None, q') → q' = q.
Proof.
  intros Hp. unfold popInternal in Hp.
  destruct (Nat.ltb_spec 0 (length (pq q))) as [Hlt|Hge].
  - destruct (lookup_lt_is_Some_2 _ _ Hlt) as [x H0].
    destruct (heap_Pop_Permutation (prio m) (pq q) x H0) as (h' & He & _).
    by rewrite He in Hp.
  - destruct (items q); by simplify_eq.
Qed.

(** *** Properties *)

(** C19 The in-memory queue implements its specification.  Up to the order of
    the two bags, [Push] appends to the FIFO part, [PushPriority] adds to the
    priority bag, [PushDelayed] records the task with due time [now + delay];
    [popInternal] removes a task of largest priority if there is any, else the
    oldest ordinary task, and reports an empty queue only when both parts are
    empty; a tick of the drain loop moves exactly the tasks due, in the order
    they were delayed, behind the ordinary ones.  Every operation keeps the
    heap order. *)
Theorem InMem_refines (m : Mem) (q : InMemQueue) (l : loc) (now : Time) (d : Duration) :
  queue_ok m q →
  (queue_ok m (Push m l q).2 ∧
   abs (Push m l q).2 ≡ mkAbs (a_prio (abs q)) (a_fifo (abs q) ++ [l]) (a_delayed (abs q))) ∧
  (queue_ok m (PushPriority m l q).2 ∧
   abs (PushPriority m l q).2 ≡ mkAbs (l :: a_prio (abs q)) (a_fifo (abs q)) (a_delayed (abs q))) ∧
  (queue_ok m (PushDelayed now m l d q).2 ∧
   abs (PushDelayed now m l d q).2 ≡
     mkAbs (a_prio (abs q)) (a_fifo (abs q)) ((l, now + d) :: a_delayed (abs q))) ∧
  (queue_ok m (popInternal m q).2 ∧
   abs_pop (prio m) (abs q) (popInternal m q).1 (abs (popInternal m q).2)) ∧
  (queue_ok m (drainDelayed now q) ∧
   (closed q = false →
    abs (drainDelayed now q) ≡
      mkAbs (a_prio (abs q))
        (a_fifo (abs q) ++ (filter (λ x, x.2 <= now) (a_delayed (abs q))).*1)
        (filter (λ x, now < x.2) (a_delayed (abs q))))).
Proof.
  intros Hok. split_and!; try done.
  - by apply PushPriority_ok.
  - split; [apply heap_Push_Permutation|done].
  - split; [done|]. split; [done|]. symmetry. apply Permutation_cons_append.
  - destruct (popInternal m q) as [r q'] eqn:Hp. by apply (popInternal_refines m q r q').
  - destruct (popInternal m q) as [r q'] eqn:Hp. by apply (popInternal_refines m q r q').
  - unfold drainDelayed. destruct (closed q); [done|]. by destruct (drain_items _ _ _).
  - intros Hc. unfold drainDelayed. rewrite Hc, drain_items_spec. split; [done|]. split.
    + cbn. f_equal. f_equal. apply list_filter_iff. intros x. apply is_due_iff.
    + cbn. erewrite list_filter_iff; [reflexivity|]. intros x.
      rewrite <- not_true_iff_false, is_due_iff. apply Z.nle_gt.
Qed.

Lemma InMem_refines_witness :
  let m := [(NewTask "a" 0 "n" "c") <| Priority := 1 |>; (NewTask "b" 0 "n" "c") <| Priority := 7 |>;
            NewTask "c" 0 "n" "c"] in
  let q := (PushPriority m 1%nat (PushPriority m 0%nat (Push m 2%nat NewInMemQueue).2).2).2 in
  queue_ok m q ∧ (popInternal m q).1 = Some 1%nat ∧
  abs_pop (prio m) (abs q) (popInternal m q).1 (abs (popInternal m q).2).
Proof.
  intros m q.
  assert (queue_ok m q) as Hok.
  { apply PushPriority_ok, PushPriority_ok. intros i Hi. simpl in Hi. lia. }
  split; [exact Hok|]. split; [vm_compute; reflexivity|].
  apply (InMem_refines m q 0%nat 0 0 Hok).
Defined.

(** Emptying the queue. *)
Fixpoint pop_all (fuel : nat) (m : Mem) (q : InMemQueue) : list loc :=
  match fuel with
  | O => []
  | S fuel =>
      match popInternal m q with
      | (Some l, q) => l :: pop_all fuel m q
      | (None, _) => []
      end
  end.

(** Order of service: emptying the ready part of the queue yields first all
    priority tasks in non-increasing priority, then the ordinary tasks in the
    order they were pushed; no task is lost or returned twice. *)
Lemma pop_all_order (m : Mem) (q : InMemQueue) (fuel : nat) :
  queue_ok m q → (length (pq q) + length (items q) ≤ fuel)%nat →
  ∃ ps, pop_all fuel m q = ps ++ items q ∧ ps ≡ₚ pq q ∧
        Sorted (λ x y, prio m y <= prio m x) ps.
Proof.
  revert q. induction fuel as [|fuel IH]; intros q Hok Hf; simpl.
  { exists []. destruct (pq q), (items q); simpl in *; try lia. split_and!; [done..|constructor]. }
  destruct (popInternal m q) as [r q'] eqn:Hp.
  destruct (popInternal_refines m q r q' Hok Hp) as (Hpop & Hok' & _).
  inversion Hpop as [a b l P1 P2 P3 P4|a b l P1 P2 P3 P4|a b P1 P2 P3]; subst; simpl in *.
  - destruct (IH q' Hok') as (ps & Hall & Hps & Hs).
    { rewrite P1 in Hf. simpl in Hf. rewrite P3. lia. }
    exists (l :: ps). split_and!.
    + by rewrite Hall, P3.
    + by rewrite Hps, P1.
    + constructor; [done|]. destruct ps as [|y ps]; constructor. apply P2.
      rewrite P1, <- Hps. set_solver.
  - destruct (IH q' Hok') as (ps & Hall & Hps & Hs).
    { rewrite P1, P3 in Hf. rewrite P2. simpl in *. lia. }
    exists []. rewrite P2 in Hps. apply Permutation_nil_r in Hps. subst ps.
    rewrite P1, P3, Hall. split_and!; [done..|constructor].
  - exists []. rewrite P1, P2. split_and!; [done..|constructor].
Qed.

Lemma pop_all_order_witness :
  let m := [(NewTask "a" 0 "n" "c") <| Priority := 1 |>; (NewTask "b" 0 "n" "c") <| Priority := 7 |>;
            NewTask "c" 0 "n" "c"; NewTask "d" 0 "n" "c"] in
  let q := (PushPriority m 1%nat (PushPriority m 0%nat
              (Push m 3%nat (Push m 2%nat NewInMemQueue).2).2).2).2 in
  pop_all 4 m q = [1; 0; 2; 3]%nat ∧
  ∃ ps, pop_all 4 m q = ps ++ items q ∧ ps ≡ₚ pq q ∧ Sorted (λ x y, prio m y <= prio m x) ps.
Proof.
  intros m q. split; [vm_compute; reflexivity|].
  apply (pop_all_order m q 4).
  - apply PushPriority_ok, PushPriority_ok. intros i Hi. simpl in Hi. lia.
  - vm_compute. lia.
Defined.

(** *** Polling *)

(** A clock on which every reading is later than the one before and a sleep
    lasts at least as long as asked: what [time.Now] and [time.Sleep] promise
    for the readings of one call of [Pop]. *)
Definition sleeping_clock (clk : nat → Time) (deadline : Time) : Prop :=
  (∀ k, clk k < clk (S k)) ∧
  (∀ i, let k := (2 * i + 2)%nat in clk k + poll_sleep (clk k) deadline <= clk (S k)).

Lemma poll_sleep_cases now deadline :
  (10 * millisecond <= deadline - now ∧ poll_sleep now deadline = 10 * millisecond) ∨
  (0 <= deadline - now < 10 * millisecond ∧ poll_sleep now deadline = deadline - now) ∨
  deadline < now.
Proof.
  unfold poll_sleep, time_sub, millisecond.
  destruct (Z.ltb_spec (10 * 1000000)
    (Z.max (- 2 ^ 63) (Z.min (2 ^ 63 - 1) (deadline - now)))); lia.
Qed.

Lemma pop_loop_Some fuel clk k deadline m q l q' :
  popInternal m q = (Some l, q') → (0 < fuel)%nat →
  pop_loop fuel clk k deadline m q = Some (Some l, k, q').
Proof. intros Hp Hf. destruct fuel; [lia|]. simpl. by rewrite Hp. Qed.

Lemma pop_loop_empty clk deadline m q fuel i :
  sleeping_clock clk deadline → popInternal m q = (None, q) →
  ((2 <= fuel)%nat ∧ deadline - clk (2 * i + 1)%nat <= 10 * millisecond * (Z.of_nat fuel - 2)
   ∨ (1 <= fuel)%nat ∧ deadline < clk (2 * i + 1)%nat) →
  ∃ k, pop_loop fuel clk (2 * i + 1) deadline m q = Some (None, S k, q) ∧ deadline < clk k.
Proof.
  intros [Hmono Hsleep] Hp. revert i. induction fuel as [|fuel IH]; intros i Hf; [lia|].
  cbn [pop_loop]. rewrite Hp. unfold time_after.
  destruct (Z.ltb_spec deadline (clk (2 * i + 1)%nat)) as [Hlt|Hge]; [by eexists|].
  replace (S (S (2 * i + 1))) with (2 * S i + 1)%nat by lia. apply IH.
  pose proof (Hmono (2 * i + 1)%nat) as H1. pose proof (Hsleep i) as H2. cbv zeta in H2.
  pose proof (Hmono (2 * i + 2)%nat) as H3.
  replace (S (2 * i + 1)) with (2 * i + 2)%nat in H1 by lia.
  replace (S (2 * i + 2)) with (2 * S i + 1)%nat in H2, H3 by lia.
  pose proof (poll_sleep_cases (clk (2 * i + 2)%nat) deadline) as Hc.
  unfold millisecond in *. lia.
Qed.

(** C20 [Pop] terminates: on a clock that advances, [pop_fuel timeout] polls are
    enough.  A task that is ready is returned at the first poll; from an empty
    queue [Pop] returns nil without error, only after the deadline has passed,
    and leaves the queue as it was. *)
Theorem Pop_terminates (clk : nat → Time) (timeout : Duration) (m : Mem) (q : InMemQueue) :
  sleeping_clock clk (clk 0%nat + timeout) →
  match popInternal m q with
  | (Some l, q') => Pop clk timeout m q = (Ok (Some l), 1%nat, m, q')
  | (None, _) => ∃ k, pop_loop (pop_fuel timeout) clk 1 (clk 0%nat + timeout) m q
                        = Some (None, S k, q) ∧
                      Pop clk timeout m q = (Ok None, S k, m, q) ∧ clk 0%nat + timeout < clk k
  end.
Proof.
  intros Hclk. unfold Pop, time_add. destruct (popInternal m q) as [[l|] q'] eqn:Hp.
  - rewrite (pop_loop_Some _ clk 1 _ m q l q' Hp) by (unfold pop_fuel; lia). done.
  - rewrite (popInternal_None m q q' Hp) in Hp.
    destruct (pop_loop_empty clk (clk 0%nat + timeout) m q (pop_fuel timeout) 0 Hclk Hp)
      as (k & Hl & Hk).
    { left. destruct Hclk as [Hmono _]. pose proof (Hmono 0%nat). unfold pop_fuel, millisecond.
      pose proof (Z.div_mod timeout (10 * 1000000)). 
      pose proof (Z.mod_pos_bound timeout (10 * 1000000)). simpl. lia. }
    exists k. change (2 * 0 + 1)%nat with 1%nat in Hl. by rewrite Hl.
Qed.

Lemma Pop_terminates_witness :
  let clk := λ k, Z.of_nat k * (20 * millisecond) in
  ∃ k, Pop clk (100 * millisecond) [] NewInMemQueue = (Ok None, S k, [], NewInMemQueue) ∧
       clk 0%nat + 100 * millisecond < clk k.
Proof.
  intros clk.
  destruct (Pop_terminates clk (100 * millisecond) [] NewInMemQueue) as (k & _ & H).
  - split.
    + intros k. unfold clk, millisecond. lia.
    + intros i k. pose proof (poll_sleep_cases (clk k) (clk 0%nat + 100 * millisecond)).
      unfold poll_sleep, time_sub, clk, millisecond in *. 
      destruct (_ <? _); lia.
  - exists k. exact H.
Defined.

(** ** The queue as a [TaskQueue] *)

Definition pointers (q : InMemQueue) : list loc := items q ++ pq q ++ (delayed q).*1.

Lemma popInternal_pointers m q r q' :
  popInternal m q = (r, q') →
  match r with
  | Some l => pointers q ≡ₚ l :: pointers q' ∧
              length (items q') + length (pq q') < length (items q) + length (pq q)
  | None => True
  end%nat.
Proof.
  unfold popInternal, pointers. destruct (Nat.ltb_spec 0 (length (pq q))) as [Hlt|Hge].
  - destruct (pq q !! 0%nat) as [x|] eqn:H0.
    + destruct (heap_Pop_Permutation (prio m) (pq q) x H0) as (h' & -> & Hp).
      intros [= <- <-]. cbn. split.
      * rewrite Hp. simpl. symmetry. apply Permutation_middle.
      * rewrite Hp. simpl. lia.
    + apply lookup_ge_None in H0. lia.
  - destruct (items q) as [|l its]; intros [= <- <-]; cbn; [done|]. split; [done|lia].
Qed.

Lemma pop_loop_result fuel clk k deadline m q r k' q' :
  pop_loop fuel clk k deadline m q = Some (r, k', q') →
  popInternal m q = (r, q').
Proof.
  revert k. induction fuel as [|fuel IH]; intros k; [done|]. cbn [pop_loop]. intros Hl.
  destruct (popInternal m q) as [[l|] q1] eqn:Hp; [by simplify_eq|].
  pose proof (popInternal_None m q q1 Hp) as ->.
  destruct (time_after _ _); [by simplify_eq|]. by eapply IH.
Qed.

Lemma pop_loop_timeout fuel clk k deadline m q :
  pop_loop fuel clk k deadline m q = None → fuel = 0%nat ∨ (popInternal m q).1 = None.
Proof.
  destruct fuel as [|fuel]; [by left|]. cbn [pop_loop].
  destruct (popInternal m q) as [[l|] q1]; [done|]. by right.
Qed.

(** [Pop] changes the queue the way one [popInternal] does, on any clock. *)
Lemma Pop_popInternal clk timeout m q r k m' q' :
  Pop clk timeout m q = (r, k, m', q') →
  m' = m ∧ ∃ o, r = Ok o ∧ popInternal m q = (o, q').
Proof.
  unfold Pop. destruct (pop_loop _ _ _ _ _ _) as [[[o k0] q0]|] eqn:Hl; intros [= <- _ <- <-].
  - split; [done|]. exists o. split; [done|]. by eapply pop_loop_result.
  - split; [done|]. exists None. split; [done|].
    apply pop_loop_timeout in Hl as [H|H]; [unfold pop_fuel in H; lia|].
    destruct (popInternal m q) as [o q1] eqn:Hp. simpl in H. subst o.
    by rewrite (popInternal_None m q q1 Hp).
Qed.

(** A property of the pointers that holds of what is put in holds of what the
    queue keeps and hands back. *)
Section pointers.
Context (P : loc → Prop).
Abbreviation holds q := (Forall P (pointers q)).

Lemma Push_pointers m l q : holds q → P l → holds (Push m l q).2.
Proof.
  intros Hq Hl. unfold pointers, Push in *. cbn.
  rewrite <- app_assoc. simpl. rewrite <- Permutation_middle. by constructor.
Qed.

Lemma PushPriority_pointers m l q : holds q → P l → holds (PushPriority m l q).2.
Proof.
  intros Hq Hl. unfold pointers, PushPriority in *. cbn.
  rewrite heap_Push_Permutation. simpl. rewrite <- Permutation_middle. by constructor.
Qed.

Lemma PushDelayed_pointers now m l d q : holds q → P l → holds (PushDelayed now m l d q).2.
Proof.
  intros Hq Hl. unfold pointers, PushDelayed in *. cbn.
  rewrite fmap_app, !app_assoc. apply Forall_app. split; [|by constructor].
  by rewrite <- app_assoc.
Qed.

Lemma Pop_pointers clk timeout m q r k m' q' :
  holds q → Pop clk timeout m q = (r, k, m', q') →
  m' = m ∧ holds q' ∧ ∀ l, r = Ok (Some l) → P l.
Proof.
  intros Hq Hpop. apply Pop_popInternal in Hpop as (-> & o & -> & Hp). split; [done|].
  destruct o as [l|].
  - apply popInternal_pointers in Hp as [Hp _]. rewrite Hp in Hq.
    apply Forall_cons_1 in Hq as [Hl Hq]. split; [done|]. by intros ? [= <-].
  - by rewrite (popInternal_None m q q' Hp).
Qed.

Lemma drainDelayed_pointers now q : holds q → holds (drainDelayed now q).
Proof.
  intros Hq. unfold drainDelayed. destruct (closed q); [done|].
  rewrite drain_items_spec. unfold pointers in *. cbn.
  rewrite !Forall_app in Hq. destruct Hq as (Hi & Hp & Hd). rewrite Forall_fmap in Hd.
  rewrite !Forall_app, !Forall_fmap. split_and!; [done| |done|]; apply Forall_filter_list; exact Hd.
Qed.
End pointers.

Definition pointers_ok (m : Mem) (q : InMemQueue) : Prop :=
  Forall (λ l, l < length m)%nat (pointers q).

#[export] Program Instance InMem_TaskQueueOk : TaskQueueOk InMemQueue := {|
  q_inv P m q := pointers_ok m q;
  q_ready q := (length (items q) + length (pq q))%nat |}.
Next Obligation.
  intros P m m' q Hq Hle _. eapply Forall_impl; [exact Hq|]. simpl. intros l. lia.
Qed.
Next Obligation. intros P m l q Hq _ Hl. by apply Push_pointers. Qed.
Next Obligation. intros P m l q Hq _ Hl. by apply PushPriority_pointers. Qed.
Next Obligation. intros P now m l d q Hq _ Hl. by apply PushDelayed_pointers. Qed.
Next Obligation.
  intros P clk timeout m q r k m' q' Hq HP Hpop.
  apply (Pop_pointers _ _ _ _ _ _ _ _ _ Hq) in Hpop as (-> & ? & ?). by split_and!.
Qed.
Next Obligation. intros P now m q. apply drainDelayed_pointers. Qed.
Next Obligation.
  intros clk timeout m q l k m' q' Hpop.
  apply Pop_popInternal in Hpop as (-> & o & [= <-] & Hp).
  apply popInternal_pointers in Hp as [_ Hp]. exact Hp.
Qed.
Next Obligation. done. Qed.
