(* ===== verification/RedisQueue.v ===== *)
(** * The Redis queue ([internal/queue/redis.go])

    The queue the server uses when Redis is configured: a list for ordinary
    tasks, a sorted set for priority tasks, a sorted set for delayed ones, and
    one key per task that holds its JSON for a day.

    Redis itself is a parameter.  [RedisServer] is the client, one method per
    command type; [RedisServerOk] says that a command that is answered had the
    documented effect ([run]) and that one that failed either was or was not
    executed; a key with a time to live may be gone at any time.  The value of
    a task key is the struct its JSON decodes to: every field of [model.Task]
    is serialised, and its text has passed PostgreSQL, which accepts only the
    UTF-8 that JSON keeps. *)

From Stdlib Require Import Ascii.
From S2P Require Import Prelude GoStrings Float64 Model TaskQueue.

(** ** The server *)

Inductive command : Type → Type :=
| SetEx (key : string) (value : Task) (ttl : Duration) : command unit
| Get (key : string) : command (option Task)                (* None: redis.Nil *)
| LPush (key member : string) : command unit
| BRPop (timeout : Duration) (key : string) : command (option string)
| ZAdd (key : string) (score : float64) (member : string) : command unit
| ZPopMin (key : string) : command (list string)            (* count 1 *)
| ZRangeByScore (key : string) (min max : float64) : command (list string)
| ZRem (key member : string) : command unit
| LLen (key : string) : command Z
| ZCard (key : string) : command Z
| Quit : command unit.                                      (* client.Close *)

Record RData : Type := mkRData {
  vals : gmap string Task;
  lists : gmap string (list string);
  zsets : gmap string (gmap string float64);
}.

Definition eta_RData (d : RData) := mkRData (vals d) (lists d) (zsets d).
#[export] Instance set_vals : Setter vals := ltac:(mk_setter eta_RData vals).
#[export] Instance set_lists : Setter lists := ltac:(mk_setter eta_RData lists).
#[export] Instance set_zsets : Setter zsets := ltac:(mk_setter eta_RData zsets).

(** Sorted sets are ordered by score, then by member. *)
Definition zlt (a b : string * float64) : bool :=
  f64_lt a.2 b.2 || (negb (f64_lt b.2 a.2) && String.ltb a.1 b.1).

Definition zsorted (z : gmap string float64) : list (string * float64) :=
  insertion_sort zlt (map_to_list z).

Definition in_range (lo hi score : float64) : bool :=
  negb (f64_lt score lo) && negb (f64_lt hi score).

(** What each command does, on a server that runs it. *)
Definition run {A} (c : command A) (d : RData) : A * RData :=
  match c in command A return A * RData with
  | SetEx k t _ => (tt, d <| vals := <[k := t]> (vals d) |>)
  | Get k => (vals d !! k, d)
  | LPush k m => (tt, d <| lists := <[k := m :: lists d !!! k]> (lists d) |>)
  | BRPop _ k =>
      match last (lists d !!! k) with
      | None => (None, d)
      | Some m => (Some m, d <| lists := <[k := removelast (lists d !!! k)]> (lists d) |>)
      end
  | ZAdd k s m => (tt, d <| zsets := <[k := <[m := s]> (zsets d !!! k)]> (zsets d) |>)
  | ZPopMin k =>
      match zsorted (zsets d !!! k) with
      | [] => ([], d)
      | (m, _) :: _ => ([m], d <| zsets := <[k := delete m (zsets d !!! k)]> (zsets d) |>)
      end
  | ZRangeByScore k lo hi =>
      ((filter (λ x, in_range lo hi x.2 = true) (zsorted (zsets d !!! k))).*1, d)
  | ZRem k m => (tt, d <| zsets := <[k := delete m (zsets d !!! k)]> (zsets d) |>)
  | LLen k => (Z.of_nat (length (lists d !!! k)), d)
  | ZCard k => (Z.of_nat (size (zsets d !!! k)), d)
  | Quit => (tt, d)
  end.

Class RedisServer (D : Type) := do : ∀ {A : Type}, command A → D → result A * D.

(** Task keys may expire. *)
Definition expires (v v' : RData) : Prop :=
  vals v' ⊆ vals v ∧ lists v' = lists v ∧ zsets v' = zsets v.

Class RedisServerOk (D : Type) `{RedisServer D} := {
  view : D → RData;
  do_ok {A} (c : command A) s r s' :
    do c s = (r, s') →
    ∃ v, expires (view s) v ∧
      match r with
      | Ok a => run c v = (a, view s')
      | Err _ => view s' = v ∨ view s' = (run c v).2
      end }.

(** ** The queue *)

Module RedisQueue.

Definition task_key (uid : string) : string := "tasks:task:" +:+ uid.
Definition redisPendingKey : string := "tasks:queue:pending".
Definition redisPriorityKey : string := "tasks:queue:priority".
Definition redisDelayedKey : string := "tasks:queue:delayed".
#[global] Arguments redisPendingKey : simpl never.
#[global] Arguments redisPriorityKey : simpl never.
#[global] Arguments redisDelayedKey : simpl never.
Definition taskTTL : Duration := 24 * 60 * minute.

Record RedisQueue (D : Type) : Type := mkRQ { rdb : D; closed : bool }.
Arguments mkRQ {D} rdb closed.
Arguments rdb {D} q : rename.
Arguments closed {D} q : rename.

Definition NewRedisQueue {D} (rdb : D) : RedisQueue D := mkRQ rdb false.

Definition err_of {A} (r : result A) : option error :=
  match r with Ok _ => None | Err e => Some e end.

Section queue.
Context {D : Type} `{RedisServer D}.
Abbreviation Q := (RedisQueue D).

Definition send {A} (c : command A) : M Q (result A) := λ q,
  let '(r, d) := do c (rdb q) in (r, mkRQ d (closed q)).

Definition storeTask (task : Task) : M Q (option error) :=
  r ← send (SetEx (task_key (TaskUID task)) task taskTTL);
  mret (err_of r).

Definition getTask (uid : string) : M Q (result (option Task)) :=
  r ← send (Get (task_key uid));
  mret (match r with Ok o => Ok o | Err e => Err (WrapError "get task" e) end).

Definition Push (task : Task) : M Q (option error) :=
  err ← storeTask task;
  match err with
  | Some e => mret (Some e)
  | None => r ← send (LPush redisPendingKey (TaskUID task)); mret (err_of r)
  end.

Definition Pop (timeout : Duration) : M Q (result (option Task)) :=
  results ← send (ZPopMin redisPriorityKey);
  match results with
  | Err e => mret (Err e)
  | Ok (uid :: _) => getTask uid
  | Ok [] =>
      r ← send (BRPop timeout redisPendingKey);
      match r with
      | Err e => mret (Err e)
      | Ok None => mret (Ok None)
      | Ok (Some uid) => getTask uid
      end
  end.

Definition PushPriority (task : Task) : M Q (option error) :=
  err ← storeTask task;
  match err with
  | Some e => mret (Some e)
  | None =>
      r ← send (ZAdd redisPriorityKey (f64_of_int (sub64 0 (Priority task))) (TaskUID task));
      mret (err_of r)
  end.

Definition delayed_score (now : Time) (delay : Duration) : float64 :=
  f64_add (f64_of_int (time_unix now)) (Seconds delay).

Definition PushDelayed (now : Time) (task : Task) (delay : Duration) : M Q (option error) :=
  err ← storeTask task;
  match err with
  | Some e => mret (Some e)
  | None =>
      r ← send (ZAdd redisDelayedKey (delayed_score now delay) (TaskUID task));
      mret (err_of r)
  end.

Definition move_one (uid : string) : M Q unit :=
  r ← send (LPush redisPendingKey uid);
  match r with
  | Err _ => mret tt
  | Ok _ => send (ZRem redisDelayedKey uid) ;; mret tt
  end.

Definition moveDueDelayed (now : Time) : M Q unit :=
  taskUIDs ← send (ZRangeByScore redisDelayedKey (f64_of_int 0) (f64_of_int (time_unix now)));
  match taskUIDs with
  | Err _ => mret tt
  | Ok uids => forM uids move_one
  end.

(** One tick of [processDelayedLoop], which ends when the queue is closed. *)
Definition processDelayed (now : Time) (q : Q) : Q :=
  if closed q then q else (moveDueDelayed now q).2.

Definition Ack (taskUID : string) : M Q (option error) := mret None.

Definition Size : M Q (result Z) :=
  pending ← send (LLen redisPendingKey);
  match pending with
  | Err e => mret (Err e)
  | Ok pending =>
      priority ← send (ZCard redisPriorityKey);
      match priority with
      | Err e => mret (Err e)
      | Ok priority =>
          delayed ← send (ZCard redisDelayedKey);
          mret (match delayed with
                | Err e => Err e
                | Ok delayed => Ok (add64 (add64 pending priority) delayed)
                end)
      end
  end.

Definition Close : M Q (option error) := λ q,
  if closed q then (None, q)
  else let '(r, q') := send Quit (mkRQ (rdb q) true) in (err_of r, q').

(** A popped task is a new object. *)
Definition Pop_object (timeout : Duration) (m : Mem) (q : Q)
  : result (option loc) * nat * Mem * Q :=
  let '(r, q) := Pop timeout q in
  match r with
  | Ok (Some t) => let '(l, m) := alloc t m in (Ok (Some l), 0%nat, m, q)
  | Ok None => (Ok None, 0%nat, m, q)
  | Err e => (Err e, 0%nat, m, q)
  end.

#[export] Instance Redis_TaskQueue : TaskQueue Q := {|
  q_Push m l := Push (deref m l);
  q_Pop _ := Pop_object;
  q_PushPriority m l := PushPriority (deref m l);
  q_PushDelayed now m l := PushDelayed now (deref m l);
  q_Ack := Ack;
  q_Size q := (Size q).1;
  q_Close := Close;
  q_background := processDelayed |}.
End queue.

(** *** The parts of the queue in the server's data *)

Definition pending (v : RData) : list string := lists v !!! redisPendingKey.
Definition priority (v : RData) : gmap string float64 := zsets v !!! redisPriorityKey.
Definition late (v : RData) : gmap string float64 := zsets v !!! redisDelayedKey.

(** Ordinary tasks, the oldest first. *)
Definition fifo (v : RData) : list string := reverse (pending v).

Definition ready (v : RData) : nat := (length (pending v) + size (priority v))%nat.

Lemma expires_refl v : expires v v.
Proof. by split_and!. Qed.

Lemma expires_parts v v' :
  expires v v' →
  pending v' = pending v ∧ priority v' = priority v ∧ late v' = late v ∧
  ∀ k t, vals v' !! k = Some t → vals v !! k = Some t.
Proof.
  intros (Hv & Hl & Hz). unfold pending, priority, late. rewrite Hl, Hz.
  split_and!; try done. intros k t Hk. by eapply lookup_weaken.
Qed.

Lemma zsorted_perm z : zsorted z ≡ₚ map_to_list z.
Proof. apply insertion_sort_perm. Qed.

Lemma zsorted_nil z : zsorted z = [] ↔ z = ∅.
Proof.
  split; [|by intros ->]. intros Hz. apply map_to_list_empty_iff, Permutation_nil_r.
  by rewrite <- zsorted_perm, Hz.
Qed.

(** Every score of the priority set is a negated priority, exactly. *)
Definition prio_ok (v : RData) : Prop :=
  map_Forall (λ _ s, ∃ p, safe_int p ∧ s = f64_of_int (- p)) (priority v).

(** [uid] is the entry a pop removes: one of highest priority if there is any,
    else the oldest ordinary one. *)
Definition taken (v v' : RData) (uid : string) : Prop :=
  (∃ p, safe_int p ∧ priority v !! uid = Some (f64_of_int (- p)) ∧
        priority v' = delete uid (priority v) ∧ fifo v' = fifo v ∧
        ∀ uid' p', safe_int p' → priority v !! uid' = Some (f64_of_int (- p')) → p' <= p) ∨
  (priority v = ∅ ∧ priority v' = ∅ ∧ fifo v = uid :: fifo v').

Lemma zlt_strict_weak : strict_weak (λ x, is_nan x.2 = false) zlt.
Proof.
  apply (strict_weak_lex _ snd fst); [|apply string_ltb_strict_weak].
  eapply strict_weak_impl, f64_lt_strict_weak. by intros s ([m s'] & Hs & <-).
Qed.

Lemma prio_ok_head v m s l :
  prio_ok v → zsorted (priority v) = (m, s) :: l →
  ∃ p, safe_int p ∧ s = f64_of_int (- p) ∧ priority v !! m = Some s ∧
       ∀ uid' p', safe_int p' → priority v !! uid' = Some (f64_of_int (- p')) → p' <= p.
Proof.
  intros Hok Hz.
  assert (∀ z, safe_int z → safe_int (- z)) as Hopp by (unfold safe_int; lia).
  assert (strict_weak (.∈ map_to_list (priority v)) zlt) as Hsw.
  { eapply strict_weak_impl, zlt_strict_weak. intros [k x] Hk%elem_of_map_to_list.
    destruct (Hok k x Hk) as (p & Hp & ->). by apply f64_of_int_not_nan, Hopp. }
  destruct (@sort_by_head InsertionSort.sort InsertionSort.sort_ok _ zlt _ _ _ Hsw Hz) as [Hin Hmin].
  apply elem_of_map_to_list in Hin as Hm. destruct (Hok m s Hm) as (p & Hp & ->).
  exists p. split_and!; try done. intros uid' p' Hp' Hu%elem_of_map_to_list.
  destruct (Hmin _ Hu) as [[= _ Heq]|Hlt].
  - assert (f64_lt (f64_of_int (- p')) (f64_of_int (- p)) = false) as H1.
    { rewrite Heq. apply (sw_irrefl _ _ f64_lt_strict_weak), f64_of_int_not_nan, Hopp, Hp. }
    rewrite f64_lt_of_int, Z.ltb_ge in H1 by auto. lia.
  - apply orb_false_iff in Hlt as [H1 _]. cbn in H1.
    rewrite f64_lt_of_int, Z.ltb_ge in H1 by auto. lia.
Qed.

(** The values are among the earlier ones and the one stored. *)
Definition stored (t : Task) (v v' : RData) : Prop :=
  ∀ k x, vals v' !! k = Some x → <[task_key (TaskUID t) := t]> (vals v) !! k = Some x.

Section facts.
Context {D : Type} `{RedisServerOk D}.
Abbreviation Q := (RedisQueue D).

Definition data (q : Q) : RData := view (rdb q).

Lemma send_spec {A} (c : command A) q :
  let '(r, q') := send c q in
  closed q' = closed q ∧
  ∃ v, expires (data q) v ∧
    match r with
    | Ok a => run c v = (a, data q')
    | Err _ => data q' = v ∨ data q' = (run c v).2
    end.
Proof.
  unfold send. destruct (do c (rdb q)) as [r s'] eqn:Hdo. split; [done|]. by apply do_ok in Hdo.
Qed.

(** A property of the data that survives expiry and the command survives the
    call, answered or not. *)
Lemma send_preserves {A} (I : RData → Prop) (c : command A) :
  (∀ v v', expires v v' → I v → I v') → (∀ v, I v → I (run c v).2) →
  preserves (λ q, I (data q)) (send c).
Proof.
  intros Hexp Hrun q Hq. pose proof (send_spec c q) as Hs. destruct (send c q) as [r q'].
  destruct Hs as (_ & v & Hv & Hr). cbn [fst snd]. specialize (Hexp _ _ Hv Hq).
  destruct r as [a|e]; [by specialize (Hrun v Hexp); rewrite Hr in Hrun|].
  destruct Hr as [->| ->]; auto.
Qed.

(** **** The interface *)

Definition holds (P : Task → Prop) (q : Q) : Prop := map_Forall (λ _, P) (vals (data q)).

Lemma expires_holds (P : Task → Prop) v v' :
  expires v v' → map_Forall (λ _, P) (vals v) → map_Forall (λ _, P) (vals v').
Proof. intros Hv HP k t Hk. apply expires_parts in Hv as (_ & _ & _ & Hv). eapply HP, Hv, Hk. Qed.

Lemma storeTask_holds P t : P t → preserves (holds P) (storeTask t).
Proof.
  intros Ht. unfold storeTask. apply preserves_bind; [|intros; apply preserves_ret].
  apply (send_preserves (λ v, map_Forall (λ _, P) (vals v))); [apply expires_holds|].
  intros v Hv. cbn. by apply map_Forall_insert_2.
Qed.

Lemma send_holds {A} P (c : command A) :
  (∀ v, vals (run c v).2 = vals v) → preserves (holds P) (send c).
Proof.
  intros Hc. apply (send_preserves (λ v, map_Forall (λ _, P) (vals v))); [apply expires_holds|].
  intros v Hv. by rewrite Hc.
Qed.

Lemma getTask_holds P uid :
  hoare (holds P) (getTask uid) (λ r q, holds P q ∧ ∀ t, r = Ok (Some t) → P t).
Proof.
  intros q Hq. unfold getTask, mbind, M_bind, mret, M_ret.
  pose proof (send_spec (Get (task_key uid)) q) as Hs. destruct (send _ q) as [r q'].
  destruct Hs as (_ & v & Hv & Hr). cbn [fst snd]. unfold holds in *.
  pose proof (expires_holds P _ _ Hv Hq) as HPv. destruct r as [o|e].
  - injection Hr as <- <-. split; [done|]. intros t [= Ht]. by eapply HPv.
  - split; [|done]. by destruct Hr as [-> | ->].
Qed.

Lemma Pop_holds P timeout :
  hoare (holds P) (Pop timeout) (λ r q, holds P q ∧ ∀ t, r = Ok (Some t) → P t).
Proof.
  apply (hoare_bind _ (λ _, holds P)).
  { apply send_holds. intros v. cbn. by destruct (zsorted _) as [|[m s] l]. }
  intros [[|uid us]|e]; [|apply getTask_holds|by apply hoare_ret].
  apply (hoare_bind _ (λ _, holds P)).
  { apply send_holds. intros v. cbn. by destruct (last _). }
  intros [[uid|]|e]; [apply getTask_holds|by apply hoare_ret..].
Qed.

Lemma push_holds P t (k : option error → M Q (option error)) :
  P t → (∀ e, preserves (holds P) (k e)) → preserves (holds P) (storeTask t ≫= k).
Proof. intros Ht Hk. apply preserves_bind; [by apply storeTask_holds|done]. Qed.

Lemma moveDueDelayed_holds P now : preserves (holds P) (moveDueDelayed now).
Proof.
  apply preserves_bind; [by apply send_holds|]. intros [uids|e]; [|apply preserves_ret].
  apply preserves_forM. intros uid _. apply preserves_bind; [by apply send_holds|].
  intros [r|e]; [|apply preserves_ret].
  apply preserves_bind; [by apply send_holds|intros; apply preserves_ret].
Qed.

(** Commands that leave the ordinary list and the priority set alone. *)
Lemma send_ready {A} n (c : command A) :
  (∀ v, ready (run c v).2 = ready v) → preserves (λ q, ready (data q) = n) (send c).
Proof.
  intros Hc. apply (send_preserves (λ v, ready v = n)); [|intros v Hv; by rewrite Hc].
  intros v v' Hv. apply expires_parts in Hv as (Hp & Hz & _). unfold ready. by rewrite Hp, Hz.
Qed.

Lemma delayed_ready now t d n :
  preserves (λ q, ready (data q) = n) (PushDelayed now t d).
Proof.
  apply preserves_bind.
  { apply preserves_bind; [by apply send_ready|intros; apply preserves_ret]. }
  intros [e|]; [apply preserves_ret|].
  apply preserves_bind; [|intros; apply preserves_ret].
  apply send_ready. intros v. unfold ready, pending, priority. cbn.
  by rewrite lookup_total_insert_ne.
Qed.

(** What a popped head leaves behind. *)
Lemma zpop_size z m s l : zsorted z = (m, s) :: l → z !! m = Some s ∧ size z = S (size (delete m z)).
Proof.
  intros Hz. assert ((m, s) ∈ map_to_list z) as Hm by (rewrite <- zsorted_perm, Hz; set_solver).
  apply elem_of_map_to_list in Hm. split; [done|].
  rewrite map_size_delete_Some by eauto.
  destruct (decide (z = ∅)) as [->|Hne]; [by rewrite lookup_empty in Hm|].
  apply map_size_non_empty_iff in Hne. destruct (size z); [done|reflexivity].
Qed.

Lemma last_removelast {A} (l : list A) x : last l = Some x → l = removelast l ++ [x].
Proof.
  intros Hl. apply last_Some in Hl as [l' ->]. by rewrite removelast_last.
Qed.

Lemma getTask_ready uid n : preserves (λ q, ready (data q) = n) (getTask uid).
Proof. apply preserves_bind; [by apply send_ready|intros; apply preserves_ret]. Qed.

Lemma Pop_ready timeout n :
  hoare (λ q, ready (data q) = n) (Pop timeout)
    (λ r q, ∀ t, r = Ok (Some t) → (ready (data q) < n)%nat).
Proof.
  apply (hoare_bind _ (λ r q, match r with
    | Ok (_ :: _) => (ready (data q) < n)%nat
    | Ok [] => ready (data q) = n
    | Err _ => True end)).
  { intros q Hq. pose proof (send_spec (ZPopMin redisPriorityKey) q) as Hs.
    destruct (send _ q) as [r q']. destruct Hs as (_ & v & Hv & Hr). cbn [fst snd].
    apply expires_parts in Hv as (Hp & Hz & _). destruct r as [us|e]; [|done]. cbn in Hr.
    fold (priority v) in Hr. unfold ready in *.
    destruct (zsorted (priority v)) as [|[m s] l] eqn:Hzs; injection Hr as <- <-.
    - by rewrite Hp, Hz.
    - apply zpop_size in Hzs as [_ Hsz]. unfold pending, priority in *. cbn.
      rewrite lookup_total_insert_eq. rewrite Hp, <- Hz in *. lia. }
  assert (∀ uid, hoare (λ q, (ready (data q) < n)%nat) (getTask uid)
    (λ r q, ∀ t, r = Ok (Some t) → (ready (data q) < n)%nat)) as Hget.
  { intros uid q Hq t _. by rewrite (getTask_ready uid (ready (data q)) q eq_refl). }
  intros [[|uid us]|e]; [|apply Hget|by apply hoare_ret].
  apply (hoare_bind _ (λ r q, match r with Ok (Some _) => (ready (data q) < n)%nat | _ => True end)).
  { intros q Hq. pose proof (send_spec (BRPop timeout redisPendingKey) q) as Hs.
    destruct (send _ q) as [r q']. destruct Hs as (_ & v & Hv & Hr). cbn [fst snd].
    apply expires_parts in Hv as (Hp & Hz & _). destruct r as [[uid|]|e]; [|done..].
    cbn in Hr. fold (pending v) in Hr. unfold ready in *.
    destruct (last (pending v)) as [m|] eqn:Hl; [|done]. injection Hr as -> <-.
    apply last_removelast in Hl. apply (f_equal length) in Hl. rewrite length_app in Hl. cbn in Hl.
    rewrite <- Hp, <- Hz in Hq. cbn. unfold pending, priority in *. cbn.
    rewrite lookup_total_insert_eq. lia. }
  intros [[uid|]|e]; [apply Hget|by apply hoare_ret..].
Qed.

#[export] Program Instance Redis_TaskQueueOk : TaskQueueOk Q := {|
  q_inv P m q := holds P q;
  q_ready q := ready (data q) |}.
Next Obligation. done. Qed.
Next Obligation.
  intros P m l q Hq HP Hl. cbn. apply push_holds; [by apply Forall_deref| |done].
  intros [e|]; [apply preserves_ret|].
  apply preserves_bind; [by apply send_holds|intros; apply preserves_ret].
Qed.
Next Obligation.
  intros P m l q Hq HP Hl. cbn. apply push_holds; [by apply Forall_deref| |done].
  intros [e|]; [apply preserves_ret|].
  apply preserves_bind; [by apply send_holds|intros; apply preserves_ret].
Qed.
Next Obligation.
  intros P now m l d q Hq HP Hl. cbn. apply push_holds; [by apply Forall_deref| |done].
  intros [e|]; [apply preserves_ret|].
  apply preserves_bind; [by apply send_holds|intros; apply preserves_ret].
Qed.
Next Obligation.
  intros P clk timeout m q r k m' q' Hq HP. cbn. unfold Pop_object.
  pose proof (Pop_holds P timeout q Hq) as [Hh Ht]. destruct (Pop timeout q) as [r0 q0].
  cbn [fst snd] in *. destruct r0 as [[t|]|e]; cbn; intros [= <- <- <- <-].
  - split_and!; [done| |by apply prefix_app_r|].
    + apply Forall_app. split; [done|]. constructor; [by apply Ht|constructor].
    + intros l [= <-]. rewrite length_app. cbn. lia.
  - by split_and!.
  - by split_and!.
Qed.
Next Obligation.
  intros P now m q Hq. cbn in *. unfold processDelayed. destruct (closed q); [done|].
  by apply moveDueDelayed_holds.
Qed.
Next Obligation.
  intros clk timeout m q l k m' q'. cbn. unfold Pop_object.
  pose proof (Pop_ready timeout _ q eq_refl) as Hr. destruct (Pop timeout q) as [r0 q0].
  cbn [fst snd] in *. destruct r0 as [[t|]|e]; cbn; intros [= <- <- <- <-]. by eapply Hr.
Qed.
Next Obligation. intros now m l d q. cbn. by apply (delayed_ready now (deref m l) d). Qed.

(** **** What the operations do when Redis answers *)

Lemma send_ok {A} (c : command A) q a q' :
  send c q = (Ok a, q') → ∃ v, expires (data q) v ∧ run c v = (a, data q').
Proof. intros Hs. pose proof (send_spec c q) as H1. rewrite Hs in H1. by destruct H1. Qed.

Lemma storeTask_ok t q q' :
  storeTask t q = (None, q') →
  pending (data q') = pending (data q) ∧ priority (data q') = priority (data q) ∧
  late (data q') = late (data q) ∧ stored t (data q) (data q').
Proof.
  unfold storeTask, mbind, M_bind, mret, M_ret. destruct (send _ q) as [[[]|e] q1] eqn:Hs; [|done].
  cbn. intros [= <-]. apply send_ok in Hs as (v & Hv & [= <-]).
  apply expires_parts in Hv as (Hp & Hz & Hl & Hv). split_and!; [exact Hp|exact Hz|exact Hl|].
  intros k x. cbn. destruct (decide (k = task_key (TaskUID t))) as [->|Hne].
  - by rewrite !lookup_insert_eq.
  - rewrite !lookup_insert_ne by done. apply Hv.
Qed.

Lemma stored_expires t v v1 v2 : stored t v v1 → expires v1 v2 → stored t v v2.
Proof. intros Hs (_ & _ & _ & Hv)%expires_parts k x Hk. auto. Qed.

(** Store the task, then one more command. *)
Lemma push_ok t (c : command unit) q q' :
  (storeTask t ≫= λ err, match err with
     | Some e => mret (Some e)
     | None => r ← send c; mret (err_of r) end) q = (None, q') →
  ∃ v, pending v = pending (data q) ∧ priority v = priority (data q) ∧ late v = late (data q) ∧
       stored t (data q) v ∧ data q' = (run c v).2.
Proof.
  unfold mbind at 1, M_bind at 1. destruct (storeTask t q) as [[e|] q1] eqn:Hs; cbn [fst snd]; [done|].
  apply storeTask_ok in Hs as (Hp & Hz & Hl & Hv).
  unfold mbind, M_bind, mret, M_ret. destruct (send c q1) as [[[]|e] q2] eqn:Hc; cbn; [|done].
  intros [= <-]. apply send_ok in Hc as (v & Hexp & Hr).
  exists v. pose proof (stored_expires _ _ _ _ Hv Hexp) as Hst.
  apply expires_parts in Hexp as (Hp' & Hz' & Hl' & _).
  rewrite Hp', Hz', Hl', Hp, Hz, Hl, Hr. by split_and!.
Qed.

Lemma getTask_ok uid q o q' :
  getTask uid q = (Ok o, q') →
  pending (data q') = pending (data q) ∧ priority (data q') = priority (data q) ∧
  late (data q') = late (data q) ∧ o = vals (data q') !! task_key uid ∧
  ∀ k t, vals (data q') !! k = Some t → vals (data q) !! k = Some t.
Proof.
  unfold getTask, mbind, M_bind, mret, M_ret. destruct (send _ q) as [[x|e] q1] eqn:Hs; [|done].
  cbn. intros [= <- <-]. apply send_ok in Hs as (v & Hv & [= <- <-]).
  apply expires_parts in Hv as (Hp & Hz & Hl & Hv). by split_and!.
Qed.

Lemma Pop_ok timeout q o q' :
  prio_ok (data q) → Pop timeout q = (Ok o, q') →
  late (data q') = late (data q) ∧
  (∀ k t, vals (data q') !! k = Some t → vals (data q) !! k = Some t) ∧
  ((o = None ∧ priority (data q) = ∅ ∧ fifo (data q) = [] ∧
    priority (data q') = ∅ ∧ fifo (data q') = []) ∨
   ∃ uid, taken (data q) (data q') uid ∧ o = vals (data q') !! task_key uid).
Proof.
  intros Hok. unfold Pop. unfold mbind at 1, M_bind at 1.
  destruct (send (ZPopMin _) q) as [[us|e] q1] eqn:Hs; cbn [fst snd]; [|done].
  apply send_ok in Hs as (v & Hexp & Hr). cbn in Hr. fold (priority v) in Hr.
  apply expires_parts in Hexp as (Hp & Hz & Hl & Hv). rewrite Hz in Hr.
  destruct (zsorted (priority (data q))) as [|[m s] l] eqn:Hzs.
  - apply zsorted_nil in Hzs. injection Hr as <- Hd. unfold mbind at 1, M_bind at 1.
    destruct (send (BRPop _ _) q1) as [[ou|e] q2] eqn:Hs2; cbn [fst snd]; [|done].
    apply send_ok in Hs2 as (v2 & Hexp2 & Hr2). cbn in Hr2. fold (pending v2) in Hr2.
    apply expires_parts in Hexp2 as (Hp2 & Hz2 & Hl2 & Hv2). rewrite <- Hd in Hp2, Hz2, Hl2, Hv2.
    rewrite Hp2, Hp in Hr2.
    destruct (last (pending (data q))) as [m|] eqn:Hlast; injection Hr2 as <- Hd2.
    + intros (Hp3 & Hz3 & Hl3 & Ho & Hv3)%getTask_ok. rewrite <- Hd2 in Hp3, Hz3, Hl3, Hv3.
      split; [rewrite Hl3; unfold late at 1; cbn; fold (late v2); congruence|].
      split; [intros k t Hk; apply Hv, Hv2, Hv3, Hk|]. right. exists m. split; [|done]. right.
      split; [done|]. split.
      { rewrite Hz3. unfold priority at 1. cbn. fold (priority v2). congruence. }
      unfold fifo. rewrite Hp3. unfold pending at 2. cbn. rewrite lookup_total_insert_eq.
      rewrite (last_removelast _ _ Hlast) at 1. by rewrite reverse_snoc.
    + intros [= <- <-]. rewrite <- Hd2. split; [congruence|].
      split; [intros k t Hk; apply Hv, Hv2, Hk|]. left.
      apply last_None in Hlast. unfold fifo. rewrite Hp2, Hp, Hlast. split_and!; try done. congruence.
  - destruct (prio_ok_head _ _ _ _ Hok Hzs) as (p & Hsp & -> & Hm & Hmax).
    injection Hr as <- Hd. intros (Hp3 & Hz3 & Hl3 & Ho & Hv3)%getTask_ok.
    rewrite <- Hd in Hp3, Hz3, Hl3, Hv3.
    split; [rewrite Hl3; unfold late at 1; cbn; by rewrite lookup_total_insert_ne|].
    split; [intros k t Hk; apply Hv, Hv3, Hk|]. right. exists m. split; [|done]. left.
    exists p. split_and!; try done.
    + rewrite Hz3. unfold priority at 1. cbn. by rewrite lookup_total_insert_eq.
    + unfold fifo. rewrite Hp3. unfold pending at 1. cbn.
      change (reverse (pending v) = reverse (pending (data q))). congruence.
Qed.

(** **** The delay loop *)

Definition answers : Prop := ∀ A (c : command A) s, is_ok (do c s).1 = true.

(** The delayed entries whose score has come, in the order of the scores. *)
Definition due (now : Time) (v : RData) : list string :=
  (filter (λ x, in_range (f64_of_int 0) (f64_of_int (time_unix now)) x.2 = true) (zsorted (late v))).*1.

Lemma send_answers {A} (c : command A) q :
  answers → ∃ v, expires (data q) v ∧ send c q = (Ok (run c v).1, (send c q).2) ∧
                 data (send c q).2 = (run c v).2 ∧ closed (send c q).2 = closed q.
Proof.
  intros Ha. pose proof (send_spec c q) as Hs. specialize (Ha A c (rdb q)).
  unfold send in *. destruct (do c (rdb q)) as [[a|e] d]; [|done].
  destruct Hs as (_ & v & Hv & Hr). exists v. cbn [snd]. by rewrite Hr.
Qed.

Lemma pending_LPush uid v : pending (run (LPush redisPendingKey uid) v).2 = uid :: pending v.
Proof. unfold pending. cbn. by rewrite lookup_total_insert_eq. Qed.

Lemma late_ZRem uid v : late (run (ZRem redisDelayedKey uid) v).2 = delete uid (late v).
Proof. unfold late. cbn. by rewrite lookup_total_insert_eq. Qed.

Lemma move_one_ok uid q :
  answers → let q' := (move_one uid q).2 in
  fifo (data q') = fifo (data q) ++ [uid] ∧ late (data q') = delete uid (late (data q)) ∧
  priority (data q') = priority (data q).
Proof.
  intros Ha. unfold move_one, mbind, M_bind, mret, M_ret.
  destruct (send_answers (LPush redisPendingKey uid) q Ha) as (v & Hv & Hs & Hd & _).
  rewrite Hs. cbn [fst snd].
  destruct (send_answers (ZRem redisDelayedKey uid) (send (LPush redisPendingKey uid) q).2 Ha)
    as (v2 & Hv2 & _ & Hd2 & _). cbn [snd].
  apply expires_parts in Hv as (Hp & Hz & Hl & _). apply expires_parts in Hv2 as (Hp2 & Hz2 & Hl2 & _).
  rewrite Hd in Hp2, Hz2, Hl2. rewrite Hd2.
  rewrite (pending_LPush uid v) in Hp2. change (priority v2 = priority v) in Hz2.
  change (late v2 = late v) in Hl2.
  split; [|split].
  - change (reverse (pending v2) = reverse (pending (data q)) ++ [uid]).
    by rewrite Hp2, Hp, reverse_cons.
  - rewrite (late_ZRem uid v2). congruence.
  - unfold priority at 1. cbn. rewrite lookup_total_insert_ne by done.
    change (priority v2 = priority (data q)). congruence.
Qed.

Lemma move_all_ok uids q :
  answers → let q' := (forM uids move_one q).2 in
  fifo (data q') = fifo (data q) ++ uids ∧ priority (data q') = priority (data q) ∧
  ∀ uid, late (data q') !! uid = if decide (uid ∈ uids) then None else late (data q) !! uid.
Proof.
  intros Ha. revert q. induction uids as [|uid uids IH]; intros q; cbn [forM].
  { split; [by rewrite app_nil_r|]. split; [done|]. intros uid. by rewrite decide_False by set_solver. }
  unfold mbind, M_bind. destruct (move_one_ok uid q Ha) as (Hf & Hl & Hp).
  destruct (IH (move_one uid q).2) as (Hf' & Hp' & Hl').
  split; [by rewrite Hf', Hf, <- app_assoc|]. split; [congruence|].
  intros uid'. rewrite Hl', Hl. destruct (decide (uid' ∈ uids)) as [Hin|Hin].
  - by rewrite decide_True by set_solver.
  - destruct (decide (uid' = uid)) as [->|Hne].
    + rewrite decide_True by set_solver. apply lookup_delete_eq.
    + rewrite decide_False by set_solver. by apply lookup_delete_ne.
Qed.

Lemma elem_of_due now v uid :
  uid ∈ due now v ↔
  ∃ s, late v !! uid = Some s ∧ in_range (f64_of_int 0) (f64_of_int (time_unix now)) s = true.
Proof.
  unfold due. rewrite list_elem_of_fmap. split.
  - intros ([m s] & -> & [Hr Hin]%list_elem_of_filter). exists s. cbn. split; [|done].
    apply elem_of_map_to_list. by rewrite <- zsorted_perm.
  - intros (s & Hs & Hr). exists (uid, s). split; [done|]. apply list_elem_of_filter. split; [done|].
    by rewrite zsorted_perm, elem_of_map_to_list.
Qed.

Lemma moveDueDelayed_ok now q :
  answers → let q' := (moveDueDelayed now q).2 in
  fifo (data q') = fifo (data q) ++ due now (data q) ∧ priority (data q') = priority (data q) ∧
  ∀ uid, late (data q') !! uid =
         if decide (uid ∈ due now (data q)) then None else late (data q) !! uid.
Proof.
  intros Ha. unfold moveDueDelayed. unfold mbind at 1 2 3, M_bind.
  destruct (send_answers (ZRangeByScore redisDelayedKey (f64_of_int 0) (f64_of_int (time_unix now))) q Ha)
    as (v & Hv & Hs & Hd & _). rewrite Hs. cbn [fst snd].
  apply expires_parts in Hv as (Hp & Hz & Hl & _). cbn [run fst snd] in *.
  match goal with |- context [forM ?uids move_one ?q1] =>
    destruct (move_all_ok uids q1 Ha) as (Hf & Hp' & Hl') end.
  assert ((filter (λ x, in_range (f64_of_int 0) (f64_of_int (time_unix now)) x.2 = true)
             (zsorted (zsets v !!! redisDelayedKey))).*1 = due now (data q)) as Hdue.
  { unfold due. by rewrite <- Hl. }
  rewrite Hd, Hdue in Hf, Hl'. rewrite Hd in Hp'. rewrite Hdue.
  split; [rewrite Hf; unfold fifo; congruence|]. split; [congruence|].
  intros uid. rewrite Hl'. destruct (decide _); [done|congruence].
Qed.

(** When a delayed entry is moved, on the scale of seconds Redis sees. *)
Lemma delayed_in_range (now s n : Z) :
  0 <= now → 0 <= s → 0 <= n → safe_int (time_unix now + s) → safe_int (time_unix n) →
  in_range (f64_of_int 0) (f64_of_int (time_unix n)) (delayed_score now (s * second))
    = (time_unix now + s <=? time_unix n).
Proof.
  intros Hnow Hs Hn Hsafe Hsn.
  assert (0 <= time_unix now) by (unfold time_unix; apply Z.div_pos; [lia|done]).
  assert (safe_int (time_unix now) ∧ safe_int s ∧ safe_int 0) as (? & ? & ?)
    by (unfold safe_int in *; lia).
  unfold in_range, delayed_score. rewrite Seconds_whole, f64_add_of_int, !f64_lt_of_int by done.
  replace (time_unix now + s <? 0) with false by (symmetry; apply Z.ltb_ge; lia). cbn [negb andb].
  by rewrite Z.leb_antisym.
Qed.

End facts.

(** *** Properties *)

(** C21 The Redis queue implements the queue's contract, whatever the server
    does within the documented behaviour of Redis.  A push that reports no
    error has stored the task under its UID and entered the UID behind the
    ordinary ones, with the negated priority in the priority set, or with its
    due time in the delayed set, and changed nothing else.  A pop that reports
    no error takes an entry of highest priority if there is any, else the
    oldest ordinary one, and answers the task last stored under that UID; it
    answers nothing only when both parts are empty or the task's data has
    expired, and then the entry is lost. *)
Theorem Redis_refines {D} `{RedisServerOk D} (q : RedisQueue D) (t : Task) (now : Time)
    (delay timeout : Duration) :
  prio_ok (data q) →
  (∀ q', Push t q = (None, q') →
     fifo (data q') = fifo (data q) ++ [TaskUID t] ∧ priority (data q') = priority (data q) ∧
     late (data q') = late (data q) ∧ stored t (data q) (data q')) ∧
  (∀ q', PushPriority t q = (None, q') →
     fifo (data q') = fifo (data q) ∧ late (data q') = late (data q) ∧
     priority (data q') = <[TaskUID t := f64_of_int (sub64 0 (Priority t))]> (priority (data q)) ∧
     stored t (data q) (data q') ∧
     (safe_int (Priority t) → prio_ok (data q'))) ∧
  (∀ q', PushDelayed now t delay q = (None, q') →
     fifo (data q') = fifo (data q) ∧ priority (data q') = priority (data q) ∧
     late (data q') = <[TaskUID t := delayed_score now delay]> (late (data q)) ∧
     stored t (data q) (data q')) ∧
  (∀ o q', Pop timeout q = (Ok o, q') →
     late (data q') = late (data q) ∧
     (∀ k x, vals (data q') !! k = Some x → vals (data q) !! k = Some x) ∧
     ((o = None ∧ priority (data q) = ∅ ∧ fifo (data q) = [] ∧
       priority (data q') = ∅ ∧ fifo (data q') = []) ∨
      ∃ uid, taken (data q) (data q') uid ∧ o = vals (data q') !! task_key uid)).
Proof.
  intros Hok. split; [|split; [|split]].
  - intros q' (v & Hp & Hz & Hl & Hst & Hd)%push_ok. rewrite Hd. split_and!; try done.
    unfold fifo. by rewrite pending_LPush, Hp, reverse_cons.
  - intros q' (v & Hp & Hz & Hl & Hst & Hd)%push_ok. rewrite Hd.
    assert (priority (run (ZAdd redisPriorityKey (f64_of_int (sub64 0 (Priority t))) (TaskUID t)) v).2
      = <[TaskUID t := f64_of_int (sub64 0 (Priority t))]> (priority (data q))) as Hprio.
    { unfold priority at 1. cbn. rewrite lookup_total_insert_eq. fold (priority v). by rewrite Hz. }
    split_and!; try done.
    + unfold fifo. by rewrite <- Hp.
    + unfold late at 1. cbn. by rewrite lookup_total_insert_ne.
    + intros Hs. unfold prio_ok. rewrite Hprio. apply map_Forall_insert_2; [|done].
      exists (Priority t). split; [done|]. rewrite sub64_id; [done|].
      unfold safe_int in Hs. int_lia.
  - intros q' (v & Hp & Hz & Hl & Hst & Hd)%push_ok. rewrite Hd. split_and!; try done.
    + unfold fifo. by rewrite <- Hp.
    + unfold priority at 1. cbn. by rewrite lookup_total_insert_ne.
    + unfold late at 1. cbn. rewrite lookup_total_insert_eq. fold (late v). by rewrite Hl.
  - intros o q'. by apply Pop_ok.
Qed.

(** C22 Delays in the Redis queue, on a server that answers.  A task delayed by
    whole seconds is moved behind the ordinary tasks by every pass of the delay
    loop from its due time on, never more than one second before it, and stays
    delayed until then; a pass moves exactly the entries whose score has come,
    in the order of the scores, and leaves the priority set alone. *)
Theorem Redis_delays {D} `{RedisServerOk D} (q q1 : RedisQueue D) (t : Task) (now n s : Z) :
  answers → 0 <= now → 0 <= s → 0 <= n → safe_int (time_unix now + s) → safe_int (time_unix n) →
  PushDelayed now t (s * second) q = (None, q1) →
  let q2 := processDelayed n q1 in
  closed q1 = false →
  (now + s * second <= n → TaskUID t ∈ fifo (data q2) ∧ late (data q2) !! TaskUID t = None) ∧
  (n <= now + (s - 1) * second →
     late (data q2) !! TaskUID t = Some (delayed_score now (s * second))) ∧
  fifo (data q2) = fifo (data q1) ++ due n (data q1) ∧ priority (data q2) = priority (data q1) ∧
  ∀ uid, late (data q2) !! uid = if decide (uid ∈ due n (data q1)) then None else late (data q1) !! uid.
Proof.
  intros Ha Hnow Hs Hn Hsafe Hsn (v & Hp & Hz & Hl & _ & Hd)%push_ok q2 Hopen.
  assert (late (data q1) = <[TaskUID t := delayed_score now (s * second)]> (late (data q))) as Hlate.
  { rewrite Hd. unfold late at 1. cbn. rewrite lookup_total_insert_eq. fold (late v). by rewrite Hl. }
  destruct (moveDueDelayed_ok n q1 Ha) as (Hf2 & Hz2 & Hl2).
  subst q2. unfold processDelayed. rewrite Hopen.
  assert (TaskUID t ∈ due n (data q1) ↔ time_unix now + s <= time_unix n) as Hin.
  { rewrite elem_of_due, Hlate, lookup_insert_eq, <- Z.leb_le.
    rewrite <- (delayed_in_range now s n) by done. naive_solver. }
  assert (∀ a, a * second <= n - now → time_unix now + a <= time_unix n) as Hup.
  { intros a Ha'. unfold time_unix. rewrite <- Z.div_add by done. apply Z.div_le_mono; [done|lia]. }
  split; [|split; [|by split]].
  - intros Hdue. assert (TaskUID t ∈ due n (data q1)) as Ht by (apply Hin, Hup; lia).
    rewrite Hf2, Hl2, decide_True by done. split; [|done]. apply elem_of_app. by right.
  - intros Hearly. rewrite Hl2, decide_False, Hlate; [apply lookup_insert_eq|].
    rewrite Hin. unfold time_unix.
    assert (n / second <= (now + (s - 1) * second) / second) as Hle by (by apply Z.div_le_mono).
    rewrite Z.div_add in Hle by done. lia.
Qed.

End RedisQueue.

(** ** A concrete server: every command is answered and nothing expires *)

#[export] Instance simple_server : RedisServer RData := λ A c d, let '(a, d') := run c d in (Ok a, d').

#[export] Program Instance simple_server_ok : RedisServerOk RData := {| view d := d |}.
Next Obligation.
  intros A c s r s'. unfold do, simple_server. destruct (run c s) as [a d] eqn:Hr. intros [= <- <-].
  exists s. split; [by split_and!|done].
Qed.

Lemma simple_answers : @RedisQueue.answers RData simple_server.
Proof. intros A c s. unfold do, simple_server. by destruct (run c s). Qed.

(** ** Witnesses: an ordinary task and two priority tasks *)

Definition empty_server : RData := mkRData ∅ ∅ ∅.
Definition sample_task (uid : string) (prio : Z) : Task :=
  (NewTask uid 0 "t" "true") <| Priority := prio |>.

Definition filled : RedisQueue.RedisQueue RData :=
  ((RedisQueue.Push (sample_task "a" 0) ≫= λ _,
    RedisQueue.PushPriority (sample_task "b" 2) ≫= λ _,
    RedisQueue.PushPriority (sample_task "c" 9)) (RedisQueue.NewRedisQueue empty_server)).2.

Lemma filled_ok : RedisQueue.prio_ok (RedisQueue.data filled).
Proof.
  assert (RedisQueue.priority (RedisQueue.data filled)
          = <["c" := f64_of_int (- 9)]> (<["b" := f64_of_int (- 2)]> ∅)) as Hp
    by (vm_compute; reflexivity).
  unfold RedisQueue.prio_ok. rewrite Hp.
  apply map_Forall_insert_2; [by exists 9|]. apply map_Forall_insert_2; [by exists 2|].
  apply map_Forall_empty.
Qed.

Lemma Redis_refines_witness :
  ∃ q', RedisQueue.Pop (100 * millisecond) filled = (Ok (Some (sample_task "c" 9)), q') ∧
        RedisQueue.fifo (RedisQueue.data q') = ["a"] ∧
        RedisQueue.late (RedisQueue.data q') = RedisQueue.late (RedisQueue.data filled).
Proof.
  destruct (RedisQueue.Redis_refines filled (sample_task "d" 0) 0 second (100 * millisecond) filled_ok)
    as (_ & _ & _ & Hpop).
  exists (RedisQueue.Pop (100 * millisecond) filled).2. split; [vm_compute; reflexivity|].
  split; [vm_compute; reflexivity|].
  refine (proj1 (Hpop (Some (sample_task "c" 9)) _ _)). vm_compute. reflexivity.
Defined.

Lemma Redis_delays_witness :
  let q1 := (RedisQueue.PushDelayed (10 * second) (sample_task "d" 0) (2 * second) filled).2 in
  "d" ∈ RedisQueue.fifo (RedisQueue.data (RedisQueue.processDelayed (12 * second) q1)).
Proof.
  intros q1.
  assert (∀ z, 0 <= z <= 100 → safe_int z) as Hs by (unfold safe_int; lia).
  refine (proj1 (proj1 (RedisQueue.Redis_delays filled q1 (sample_task "d" 0) (10 * second) (12 * second) 2
    simple_answers _ _ _ _ _ _ _) _)).
  1, 2, 3: done.
  1, 2: by apply Hs.
  1, 2: by vm_compute.
  done.
Defined.
