(* ===== verification/TaskStore.v ===== *)
(** * The task table ([internal/store/task_store.go], [migrations/])

    The SQL statements of the store on a table keyed by [task_uid]: a row with
    its nullable columns, the columns each statement writes, the conversion of
    a row back into a task ([scanTask]), and the ordered, paged queries.

    A statement can fail for reasons outside the program (connection,
    constraint, context): each operation takes the error the driver reports,
    if any.  PostgreSQL stores timestamps with microseconds; [pg_time] is that
    rounding. *)

From S2P Require Import Prelude Model.

Class PgTime := pg_time : Time → Time.
Class PgTimeOk `{PgTime} : Prop := pg_time_idemp t : pg_time (pg_time t) = pg_time t.

Module Microseconds.
#[export] Instance micro : PgTime := λ t, (t + 500) / 1000 * 1000.
#[export] Instance micro_ok : PgTimeOk.
Proof.
  intros t. unfold pg_time, micro. f_equal.
  rewrite Z.div_add_l by lia. change (500 / 1000) with 0. lia.
Qed.
End Microseconds.

(** A JSONB column: a map of strings, or a value [json.Unmarshal] rejects. *)
Inductive jsonb : Type :=
| JObject (m : gmap string string)
| JOther.

Record TaskRow : Type := mkTaskRow {
  c_id : Z;
  c_task_uid : string;
  c_name : string;
  c_command : string;
  c_workdir : string;
  c_env : option jsonb;
  c_cpu_limit : Z;
  c_memory_limit : Z;
  c_timeout_sec : Z;
  c_priority : Z;
  c_max_retries : Z;
  c_retry_count : Z;
  c_retry_interval_sec : Z;
  c_idempotency_key : option string;
  c_node_selector : option jsonb;
  c_assigned_node_id : option string;
  c_status : string;
  c_exit_code : option Z;
  c_stdout : option string;
  c_stderr : option string;
  c_error_message : option string;
  c_pid : option Z;
  c_started_at : option Time;
  c_finished_at : option Time;
  c_created_at : Time;
  c_updated_at : Time;
}.

Record TaskTable : Type := mkTaskTable {
  rows : gmap string TaskRow;
  next_id : Z;                  (* the BIGSERIAL sequence *)
}.

Definition empty_table : TaskTable := mkTaskTable ∅ 1.

Section store.
Context `{PgTime} `{SortBy}.

(** ** Statements *)

(** The row [INSERT] creates: the columns it does not list are NULL. *)
Definition insert_row (id : Z) (t : Task) : TaskRow := {|
  c_id := id; c_task_uid := TaskUID t; c_name := Name t; c_command := Command t;
  c_workdir := Workdir t; c_env := Some (JObject (Env t)); c_cpu_limit := CPULimit t;
  c_memory_limit := MemoryLimit t; c_timeout_sec := TimeoutSec t;
  c_priority := Priority t; c_max_retries := MaxRetries t;
  c_retry_count := RetryCount t; c_retry_interval_sec := RetryIntervalSec t;
  c_idempotency_key := Some (IdempotencyKey t);
  c_node_selector := Some (JObject (NodeSelector t));
  c_assigned_node_id := Some (AssignedNodeID t); c_status := Status t;
  c_exit_code := None; c_stdout := None; c_stderr := None; c_error_message := None;
  c_pid := None; c_started_at := None; c_finished_at := None;
  c_created_at := pg_time (CreatedAt t); c_updated_at := pg_time (UpdatedAt t) |}.

(** [Create]; on success the generated id is written into the task. *)
Definition Create (fault : option error) (t : Task) (tbl : TaskTable)
  : option error * Task * TaskTable :=
  match fault with
  | Some e => (Some e, t, tbl)
  | None =>
      match rows tbl !! TaskUID t with
      | Some _ => (Some (ErrorString "pq: duplicate key value violates unique constraint"), t, tbl)
      | None =>
          let id := next_id tbl in
          (None, t <| ID := id |>,
           mkTaskTable (<[TaskUID t := insert_row id t]> (rows tbl)) (id + 1))
      end
  end.

(** The row after [UPDATE]: the statement leaves [id], [task_uid] and
    [created_at] alone. *)
Definition update_row (t : Task) (r : TaskRow) : TaskRow := {|
  c_id := c_id r; c_task_uid := c_task_uid r; c_name := Name t; c_command := Command t;
  c_workdir := Workdir t; c_env := Some (JObject (Env t)); c_cpu_limit := CPULimit t;
  c_memory_limit := MemoryLimit t; c_timeout_sec := TimeoutSec t;
  c_priority := Priority t; c_max_retries := MaxRetries t;
  c_retry_count := RetryCount t; c_retry_interval_sec := RetryIntervalSec t;
  c_idempotency_key := Some (IdempotencyKey t);
  c_node_selector := Some (JObject (NodeSelector t));
  c_assigned_node_id := Some (AssignedNodeID t); c_status := Status t;
  c_exit_code := ExitCode t; c_stdout := Some (Stdout t); c_stderr := Some (Stderr t);
  c_error_message := Some (ErrorMessage t); c_pid := PID t;
  c_started_at := pg_time <$> StartedAt t; c_finished_at := pg_time <$> FinishedAt t;
  c_created_at := c_created_at r; c_updated_at := pg_time (UpdatedAt t) |}.

(** [Update]: the update time is set on the task before the statement runs;
    a statement that matches no row is not an error. *)
Definition Update (fault : option error) (now : Time) (t : Task) (tbl : TaskTable)
  : option error * Task * TaskTable :=
  let t := t <| UpdatedAt := now |> in
  match fault with
  | Some e => (Some e, t, tbl)
  | None => (None, t, mkTaskTable (alter (update_row t) (TaskUID t) (rows tbl)) (next_id tbl))
  end.

(** ** Reading rows *)

(** [len(envJSON) > 0] and [json.Unmarshal] succeeding. *)
Definition scan_map (c : option jsonb) : gmap string string :=
  match c with
  | Some (JObject m) => m
  | Some JOther | None => ∅
  end.

Definition scanTask (r : TaskRow) : Task := {|
  ID := c_id r; TaskUID := c_task_uid r; Name := c_name r; Command := c_command r;
  Workdir := c_workdir r; Env := scan_map (c_env r); CPULimit := c_cpu_limit r;
  MemoryLimit := c_memory_limit r; TimeoutSec := c_timeout_sec r;
  Priority := c_priority r; MaxRetries := c_max_retries r;
  RetryCount := c_retry_count r; RetryIntervalSec := c_retry_interval_sec r;
  IdempotencyKey := default EmptyString (c_idempotency_key r);
  NodeSelector := scan_map (c_node_selector r);
  AssignedNodeID := default EmptyString (c_assigned_node_id r); Status := c_status r;
  ExitCode := c_exit_code r; Stdout := default EmptyString (c_stdout r);
  Stderr := default EmptyString (c_stderr r);
  ErrorMessage := default EmptyString (c_error_message r); PID := c_pid r;
  StartedAt := c_started_at r; FinishedAt := c_finished_at r;
  CreatedAt := c_created_at r; UpdatedAt := c_updated_at r |}.

Definition GetByUID (fault : option error) (uid : string) (tbl : TaskTable) : result Task :=
  match fault with
  | Some e => Err e
  | None =>
      match rows tbl !! uid with
      | Some r => Ok (scanTask r)
      | None => Err ErrNoRows
      end
  end.

(** ORDER BY priority DESC, created_at ASC *)
Definition row_before (a b : TaskRow) : bool :=
  (c_priority b <? c_priority a) ||
  ((c_priority a =? c_priority b) && (c_created_at a <? c_created_at b)).

(** SELECT ... WHERE status=$1 (all rows when [status] is empty) ORDER BY ... *)
Definition select (status : string) (tbl : TaskTable) : list TaskRow :=
  sort_by row_before
    (filter (λ r, status = EmptyString ∨ c_status r = status) (map_to_list (rows tbl)).*2).

Definition GetByStatus (status : TaskStatus) (fault : option error) (tbl : TaskTable)
  : result (list Task) :=
  match fault with
  | Some e => Err e
  | None => Ok (scanTask <$> select status tbl)
  end.

Definition GetPendingTasks := GetByStatus TaskStatusPending.
Definition GetRunningTasks := GetByStatus TaskStatusRunning.
Definition GetCreatedTasks := GetByStatus TaskStatusCreated.

(** [List]: the count, then one page; PostgreSQL rejects a negative LIMIT or
    OFFSET. *)
Definition List (fault_count fault_rows : option error) (status : string) (page size : Z)
    (tbl : TaskTable) : result (list Task * Z) :=
  match fault_count with
  | Some e => Err e
  | None =>
      let count := Z.of_nat (length (select status tbl)) in
      let offset := (page -64 1) *64 size in
      match fault_rows with
      | Some e => Err e
      | None =>
          if (size <? 0) || (offset <? 0)
          then Err (ErrorString "pq: LIMIT or OFFSET must not be negative")
          else Ok (scanTask <$> take (Z.to_nat size) (drop (Z.to_nat offset) (select status tbl)),
                   count)
      end
  end.
End store.

(** ** Facts *)

Section facts.
Context `{PgTimeOk} `{SortByOk}.

Lemma row_before_strict_weak P : strict_weak P row_before.
Proof.
  unfold row_before. split.
  - intros x _. rewrite Z.ltb_irrefl, Z.eqb_refl, Z.ltb_irrefl. done.
  - intros x y z _ _ _. rewrite !orb_true_iff, !andb_true_iff, !Z.ltb_lt, !Z.eqb_eq. lia.
  - intros x y z _ _ _.
    rewrite !orb_false_iff, !andb_false_iff, !Z.ltb_ge, !Z.eqb_neq. lia.
Qed.

Lemma elem_of_select status tbl r :
  status ≠ EmptyString →
  r ∈ select status tbl ↔ c_status r = status ∧ ∃ uid, rows tbl !! uid = Some r.
Proof.
  intros Hs. unfold select. rewrite sort_by_perm, list_elem_of_filter, list_elem_of_fmap.
  split.
  - intros ([?|?] & [uid r'] & -> & Hin); [done|].
    apply elem_of_map_to_list in Hin. eauto.
  - intros [Hr [uid Hin]]. split; [by right|].
    exists (uid, r). by rewrite elem_of_map_to_list.
Qed.

Lemma select_sorted status tbl :
  Sorted (λ a b, row_before b a = false) (select status tbl).
Proof. apply sort_by_sorted, row_before_strict_weak. Qed.
End facts.

(** ** Properties *)

(** A task as [INSERT] leaves it behind: the columns the statement does not
    list hold their zero values. *)
Definition insertable (t : Task) : Prop :=
  ExitCode t = None ∧ Stdout t = EmptyString ∧ Stderr t = EmptyString ∧
  ErrorMessage t = EmptyString ∧ PID t = None ∧ StartedAt t = None ∧ FinishedAt t = None.

Section properties.
Context `{PgTime} `{SortBy}.

Lemma Update_rows fault now t tbl e t' tbl' :
  Update fault now t tbl = (e, t', tbl') →
  t' = t <| UpdatedAt := now |> ∧
  (tbl' = tbl ∧ is_Some e ∨
   e = None ∧ rows tbl' = alter (update_row (t <| UpdatedAt := now |>)) (TaskUID t) (rows tbl)).
Proof.
  unfold Update. destruct fault as [f|]; intros [= <- <- <-]; split; try done; [left|right]; eauto.
Qed.

(** C37 Round trip through the table.  After [Create] of a task just made,
    under a fresh UID, [GetByUID] returns that task with the generated id and
    its times at the database's precision; after [Update] of a task that has
    a row, it returns the task as it was written, except that id and creation
    time are the row's.  Neither statement changes what any other UID
    reads. *)
Theorem store_roundtrip (t : Task) (now : Time) (tbl : TaskTable) (r : TaskRow) :
  insertable t →
  (rows tbl !! TaskUID t = None →
   let '(e, t1, tbl1) := Create None t tbl in
   e = None ∧ t1 = t <| ID := next_id tbl |> ∧
   GetByUID None (TaskUID t) tbl1 =
     Ok (t1 <| CreatedAt := pg_time (CreatedAt t) |> <| UpdatedAt := pg_time (UpdatedAt t) |>) ∧
   ∀ uid, uid ≠ TaskUID t → GetByUID None uid tbl1 = GetByUID None uid tbl) ∧
  (∀ t : Task, rows tbl !! TaskUID t = Some r → c_task_uid r = TaskUID t →
   let '(e, t2, tbl2) := Update None now t tbl in
   e = None ∧ t2 = t <| UpdatedAt := now |> ∧
   GetByUID None (TaskUID t) tbl2 =
     Ok (t <| ID := c_id r |> <| CreatedAt := c_created_at r |> <| UpdatedAt := pg_time now |>
           <| StartedAt := pg_time <$> StartedAt t |>
           <| FinishedAt := pg_time <$> FinishedAt t |>) ∧
   ∀ uid, uid ≠ TaskUID t → GetByUID None uid tbl2 = GetByUID None uid tbl).
Proof.
  intros (H1 & H2 & H3 & H4 & H5 & H6 & H7). split.
  - intros Hnew. unfold Create. rewrite Hnew. split_and!; try done.
    + unfold GetByUID. cbn. rewrite lookup_insert_eq. unfold scanTask. cbn.
      destruct t; cbn in *. by subst.
    + intros uid Huid. unfold GetByUID. cbn. by rewrite lookup_insert_ne.
  - clear dependent t. intros t Hr Huid. unfold Update. split_and!; try done.
    + unfold GetByUID. cbn. rewrite lookup_alter_eq, Hr. cbn. unfold scanTask. cbn.
      rewrite Huid. by destruct t.
    + intros uid Hne. unfold GetByUID. cbn. by rewrite lookup_alter_ne.
Qed.

Lemma page_offset (i : nat) (size : Z) :
  0 < size → in_i64 ((Z.of_nat i + 1) * size) →
  (Z.of_nat (S i) -64 1) *64 size = Z.of_nat i * size.
Proof.
  intros Hs Hr. assert (0 <= Z.of_nat i * size) by nia.
  assert (Z.of_nat i * 1 <= Z.of_nat i * size) by nia.
  rewrite sub64_id by int_lia. replace (Z.of_nat (S i) - 1) with (Z.of_nat i) by lia.
  apply mul64_id. int_lia.
Qed.
End properties.

Lemma store_roundtrip_witness :
  let _ := Microseconds.micro in
  let t := NewTask "u1" 1500 "n" "ls" in
  let tbl1 := (Create None t empty_table).2 in
  GetByUID None "u1" tbl1 =
    Ok (t <| ID := 1 |> <| CreatedAt := 2000 |> <| UpdatedAt := 2000 |>) ∧
  GetByUID None "u1" (Update None 9000 (t <| Status := TaskStatusPending |>) tbl1).2 =
    Ok (t <| ID := 1 |> <| CreatedAt := 2000 |> <| UpdatedAt := 9000 |>
          <| Status := TaskStatusPending |>).
Proof.
  intros pg t tbl1.
  assert (insertable t) as Ht by (vm_compute; repeat split).
  split.
  - destruct (proj1 (store_roundtrip t 0 empty_table (insert_row 1 t) Ht) eq_refl)
      as (_ & _ & H & _). exact H.
  - destruct (proj2 (store_roundtrip t 9000 tbl1 (insert_row 1 t) Ht)
                (t <| Status := TaskStatusPending |>)) as (_ & _ & H & _).
    + vm_compute. reflexivity.
    + vm_compute. reflexivity.
    + exact H.
Defined.

(** Paging covers the result: with a positive page size, pages 1 to [n] of
    [List], put one after the other, are the first [n * size] tasks of the
    query's result, each page has at most [size] tasks, and the count is that
    of all matching rows.  The result itself is a permutation of the matching
    rows, higher priority first and older first within a priority. *)
Lemma List_pages `{PgTimeOk} `{SortByOk} (status : string) (size : Z) (n : nat) (tbl : TaskTable) :
  0 < size → in_i64 ((Z.of_nat n + 1) * size) →
  (∃ pages : list (list Task),
     length pages = n ∧
     (∀ i p, pages !! i = Some p →
        List None None status (Z.of_nat (S i)) size tbl =
          Ok (p, Z.of_nat (length (select status tbl))) ∧ Z.of_nat (length p) <= size) ∧
     concat pages = take (n * Z.to_nat size) (scanTask <$> select status tbl)) ∧
  Sorted (λ a b, row_before b a = false) (select status tbl) ∧
  select status tbl ≡ₚ
    filter (λ r, status = EmptyString ∨ c_status r = status) (map_to_list (rows tbl)).*2.
Proof.
  intros Hs Hr. split; [|split; [apply select_sorted|apply sort_by_perm]].
  set (l := select status tbl). set (k := Z.to_nat size).
  exists ((λ i, scanTask <$> take k (drop (i * k) l)) <$> seq 0 n). split_and!.
  - by rewrite length_fmap, length_seq.
  - intros i p Hp. rewrite list_lookup_fmap in Hp.
    apply fmap_Some in Hp as (j & Hj & ->). apply lookup_seq in Hj as [-> Hi].
    cbn [plus]. unfold List. rewrite page_offset; [|done|].
    + assert (0 <= Z.of_nat i * size) by nia.
      destruct (Z.ltb_spec size 0); [lia|]. destruct (Z.ltb_spec (Z.of_nat i * size) 0); [lia|].
      cbn [orb]. fold l k. split.
      * do 3 f_equal. f_equal. f_equal. unfold k. lia.
      * rewrite length_fmap, length_take. unfold k. lia.
    + assert ((Z.of_nat i + 1) * size <= (Z.of_nat n + 1) * size) by nia.
      assert (0 <= (Z.of_nat i + 1) * size) by nia. int_lia.
  - clear Hr. induction n as [|n IH]; [by rewrite take_0|].
    rewrite seq_S, fmap_app, concat_app, IH. simpl. rewrite app_nil_r, <- !fmap_take, <- fmap_app.
    f_equal. replace (k + n * k)%nat with (n * k + k)%nat by lia. apply take_take_drop.
Qed.

Lemma List_pages_witness :
  let _ := Microseconds.micro in
  let _ := InsertionSort.sort in
  let add uid p tbl := (Create None ((NewTask uid 0 "n" "c") <| Priority := p |>) tbl).2 in
  let tbl := add "c"%string 5 (add "b"%string 9 (add "a"%string 1 empty_table)) in
  TaskUID <$> (scanTask <$> select EmptyString tbl) = ["b"; "c"; "a"]%string ∧
  Sorted (λ a b, row_before b a = false) (select EmptyString tbl).
Proof.
  intros pg so add tbl. split; [vm_compute; reflexivity|].
  apply (List_pages (H := pg) (H0 := Microseconds.micro_ok) (H1 := so)
           (H2 := InsertionSort.sort_ok) EmptyString 2 2 tbl); [lia|int_lia].
Defined.
