(* ===== verification/NodeStore.v ===== *)
(** * The node table ([internal/store/node_store.go], [migrations/000003])

    As for the task table: the statements on a table keyed by [node_id], with
    the error the driver reports, if any, as an argument.  The columns are
    those of [Node]; only [last_heartbeat_at] and [labels] are nullable, and a
    NULL array is read back as an empty one. *)

From S2P Require Import Prelude Float64 Model TaskStore.

Record NodeTable : Type := mkNodeTable {
  node_rows : gmap string Node;
  next_node_id : Z;
}.

Definition empty_nodes : NodeTable := mkNodeTable ∅ 1.

Module NodeStore.
Section store.
Context `{PgTime} `{SortBy}.

(** The [INSERT] does not list [last_heartbeat_at]. *)
Definition Create (fault : option error) (n : Node) (tbl : NodeTable)
: option error * Node * NodeTable :=
match fault with
| Some e => (Some e, n, tbl)
| None =>
    match node_rows tbl !! NodeID n with
    | Some _ => (Some (ErrorString "pq: duplicate key value violates unique constraint"), n, tbl)
    | None =>
        let id := next_node_id tbl in
        let row :=
          mkNode id (NodeID n) (Hostname n) (IP n) (Version n) (NStatus n) (TotalCPU n)
            (TotalMemoryMB n) (TotalDiskMB n) (CPUUsagePct n) (MemoryUsedMB n)
            (DiskUsedMB n) (LoadAvg1m n) (RunningTasks n) (Labels n) None
            (pg_time (RegisteredAt n)) (pg_time (NCreatedAt n)) (pg_time (NUpdatedAt n)) in
        (None, n <| NID := id |>, mkNodeTable (<[NodeID n := row]> (node_rows tbl)) (id + 1))
    end
end.

(** [UPDATE] leaves [id], [node_id], [registered_at] and [created_at] alone. *)
Definition update_row (n : Node) (r : Node) : Node :=
mkNode (NID r) (NodeID r) (Hostname n) (IP n) (Version n) (NStatus n) (TotalCPU n)
  (TotalMemoryMB n) (TotalDiskMB n) (CPUUsagePct n) (MemoryUsedMB n) (DiskUsedMB n)
  (LoadAvg1m n) (RunningTasks n) (Labels n) (pg_time <$> LastHeartbeatAt n)
  (RegisteredAt r) (NCreatedAt r) (pg_time (NUpdatedAt n)).

Definition Update (fault : option error) (now : Time) (n : Node) (tbl : NodeTable)
: option error * Node * NodeTable :=
let n := n <| NUpdatedAt := now |> in
match fault with
| Some e => (Some e, n, tbl)
| None =>
    (None, n, mkNodeTable (alter (update_row n) (NodeID n) (node_rows tbl)) (next_node_id tbl))
end.

Definition GetByNodeID (fault : option error) (nodeID : string) (tbl : NodeTable) : result Node :=
match fault with
| Some e => Err e
| None =>
    match node_rows tbl !! nodeID with
    | Some r => Ok r
    | None => Err ErrNoRows
    end
end.

(** By the serial id; the column is unique. *)
Definition GetByID (fault : option error) (id : Z) (tbl : NodeTable) : result Node :=
match fault with
| Some e => Err e
| None =>
    match filter (λ r, NID r = id) (map_to_list (node_rows tbl)).*2 with
    | r :: _ => Ok r
    | [] => Err ErrNoRows
    end
end.

(** ORDER BY registered_at DESC *)
Definition List (fault : option error) (status : string) (tbl : NodeTable) : result (list Node) :=
match fault with
| Some e => Err e
| None =>
    Ok (sort_by (λ a b, RegisteredAt b <? RegisteredAt a)
          (filter (λ n, status = EmptyString ∨ NStatus n = status)
             (map_to_list (node_rows tbl)).*2))
end.

Definition GetOnlineNodes (fault : option error) (tbl : NodeTable) : result (list Node) :=
List fault NodeStatusOnline tbl.

Definition heartbeat_row (now : Time) (cpuPct : float64) (memUsedMB diskUsedMB : Z)
  (loadAvg : float64) (runningTasks : Z) (r : Node) : Node :=
r <| CPUUsagePct := cpuPct |> <| MemoryUsedMB := memUsedMB |>
  <| DiskUsedMB := diskUsedMB |> <| LoadAvg1m := loadAvg |>
  <| RunningTasks := runningTasks |> <| LastHeartbeatAt := Some (pg_time now) |>
  <| NUpdatedAt := pg_time now |>.

Definition UpdateHeartbeat (fault : option error) (now : Time) (nodeID : string)
  (cpuPct : float64) (memUsedMB diskUsedMB : Z) (loadAvg : float64) (runningTasks : Z)
  (tbl : NodeTable) : option error * NodeTable :=
match fault with
| Some e => (Some e, tbl)
| None =>
    (None,
     mkNodeTable
       (alter (heartbeat_row now cpuPct memUsedMB diskUsedMB loadAvg runningTasks)
          nodeID (node_rows tbl))
       (next_node_id tbl))
end.
End store.
End NodeStore.
