(* ===== verification/NodeManager.v ===== *)
(** * The node manager ([internal/nodemanager/manager.go])

    Registration, heartbeats, offline detection, draining and label matching
    over the cache of online nodes and the node table.  The cache maps node
    ids to node structs that only the manager mutates, so it is a map of
    values.

    etcd is outside the program: an operation is given the replies to the
    calls it makes ([EtcdReplies], absent when no client is configured) and
    records the calls.  Database errors and clock readings are streams read in
    the order of the calls. *)

From S2P Require Import Prelude GoStrings Float64 Model TaskStore NodeStore.
From Stdlib Require Import Ascii.

(** ** Messages ([pkg/proto]) *)

Record RegisterRequest : Type := {
  rr_hostname : string; rr_ip : string; rr_version : string;
  rr_total_cpu : Z; rr_total_memory_mb : Z; rr_total_disk_mb : Z;
  rr_labels : list string }.

Record RegisterResponse : Type := { rs_node_id : string; rs_accepted : bool }.

Record NodeResource : Type := {
  nr_cpu_usage_percent : float64; nr_memory_used_mb : Z; nr_memory_total_mb : Z;
  nr_disk_used_mb : Z; nr_disk_total_mb : Z; nr_load_avg_1m : float64;
  nr_running_tasks : Z }.

Record HeartbeatRequest : Type := {
  hb_node_id : string; hb_version : string; hb_resources : option NodeResource }.

(** ** etcd *)

Record EtcdReplies : Type := {
  grant : result Z;              (* Grant: the lease id *)
  put : option error;            (* Put *)
  keepalive : option error;      (* KeepAliveOnce *)
}.

Inductive etcd_call : Type :=
| CallGrant (ttl : Z)
| CallPut (key : string) (value : Node) (lease : Z)   (* value: the node as JSON *)
| CallKeepAliveOnce (lease : Z).

(** ** State *)

Record NodeManager : Type := mkNM {
  onlineNodes : gmap string Node;
  watchers : gmap string Z;
  offlineAfter : Duration;
  nodes_tbl : NodeTable;
  etcd_calls : list etcd_call;
}.

Definition eta_NM (s : NodeManager) :=
  mkNM (onlineNodes s) (watchers s) (offlineAfter s) (nodes_tbl s) (etcd_calls s).
#[export] Instance set_onlineNodes : Setter onlineNodes := ltac:(mk_setter eta_NM onlineNodes).
#[export] Instance set_watchers : Setter watchers := ltac:(mk_setter eta_NM watchers).
#[export] Instance set_nodes_tbl : Setter nodes_tbl := ltac:(mk_setter eta_NM nodes_tbl).
#[export] Instance set_etcd_calls : Setter etcd_calls := ltac:(mk_setter eta_NM etcd_calls).

Definition NewNodeManager : NodeManager := mkNM ∅ ∅ (30 * second) empty_nodes [].

Definition log_call (c : etcd_call) (s : NodeManager) : NodeManager :=
  s <| etcd_calls := etcd_calls s ++ [c] |>.

(** ** Keys *)

Definition nodeKey (nodeID : string) : string := "/nodes/" +:+ nodeID +:+ "/status".

Definition extractNodeID (key : string) : string :=
  let trimmed := TrimPrefix key "/nodes/" in
  let parts := SplitN2 trimmed "/" in
  match parts with
  | p :: _ => if bool_decide (p = EmptyString) then EmptyString else p
  | [] => EmptyString
  end.

(** ** Label matching *)

Definition splitLabel (label : string) : list string := SplitN2 label "=".

(** The inner loop over the labels of a node. *)
Definition found_by_split (n : Node) (k v : string) : bool :=
  existsb (λ label,
    match splitLabel label with
    | [p0; p1] => bool_decide (p0 = k) && bool_decide (p1 = v)
    | _ => false
    end || bool_decide (label = v)) (Labels n).

Definition label_match (n : Node) (k v : string) : bool :=
  HasLabel n (k +:+ "=" +:+ v) || HasLabel n v || HasLabel n k || found_by_split n k v.

Section manager.
Context `{PgTime} `{SortBy} `{MapRange}.

Definition FindByLabels (selector : gmap string string) (s : NodeManager) : list Node :=
  filter (λ n, IsSchedulable n &&
               forallb (λ kv, label_match n kv.1 kv.2) (map_range selector))
         (map_range (onlineNodes s)).*2.

Definition GetOnlineNodes (s : NodeManager) : list Node :=
  filter (λ n, IsSchedulable n) (map_range (onlineNodes s)).*2.

Definition ListNodes (fault : option error) (status : string) (s : NodeManager)
  : result (list Node) := NodeStore.List fault status (nodes_tbl s).

Definition GetNode (fault : option error) (nodeID : string) (s : NodeManager) : result Node :=
  NodeStore.GetByNodeID fault nodeID (nodes_tbl s).

(** ** Registration *)

Definition Register (etcd : option EtcdReplies) (fault : option error) (uuid : string)
    (now : Time) (req : RegisterRequest) (s : NodeManager)
  : result RegisterResponse * NodeManager :=
  let node := NewNode uuid now (rr_hostname req) (rr_ip req) (rr_version req)
                (rr_total_cpu req) (rr_total_memory_mb req) (rr_total_disk_mb req)
                (rr_labels req) in
  let '(err, node, tbl) := NodeStore.Create fault node (nodes_tbl s) in
  let s := s <| nodes_tbl := tbl |> in
  match err with
  | Some e => (Err e, s)
  | None =>
      let online s :=
        (Ok {| rs_node_id := NodeID node; rs_accepted := true |},
         s <| onlineNodes := <[NodeID node := node]> (onlineNodes s) |>) in
      match etcd with
      | None => online s
      | Some r =>
          let s := log_call (CallGrant 30) s in
          match grant r with
          | Err e => (Err (WrapError "etcd lease grant" e), s)
          | Ok lease =>
              let s := log_call (CallPut (nodeKey (NodeID node)) node lease) s in
              match put r with
              | Some e => (Err (WrapError "etcd put" e), s)
              | None => online (s <| watchers := <[NodeID node := lease]> (watchers s) |>)
              end
          end
      end
  end.

(** ** Heartbeats *)

(** The resource arguments of [UpdateHeartbeat], zeros when the request has
    none. *)
Definition store_heartbeat (fault : option error) (now : Time) (req : HeartbeatRequest)
    (s : NodeManager) : option error * NodeManager :=
  let '(err, tbl) :=
    match hb_resources req with
    | Some r => NodeStore.UpdateHeartbeat fault now (hb_node_id req) (nr_cpu_usage_percent r)
                  (nr_memory_used_mb r) (nr_disk_used_mb r) (nr_load_avg_1m r)
                  (nr_running_tasks r) (nodes_tbl s)
    | None => NodeStore.UpdateHeartbeat fault now (hb_node_id req) f64_zero 0 0 f64_zero 0
                (nodes_tbl s)
    end in
  (err, s <| nodes_tbl := tbl |>).

Definition refresh (now : Time) (req : HeartbeatRequest) (node : Node) : Node :=
  let node :=
    match hb_resources req with
    | Some r => node <| CPUUsagePct := nr_cpu_usage_percent r |>
                     <| MemoryUsedMB := nr_memory_used_mb r |>
                     <| DiskUsedMB := nr_disk_used_mb r |>
                     <| LoadAvg1m := nr_load_avg_1m r |>
                     <| RunningTasks := nr_running_tasks r |>
    | None => node
    end in
  node <| Version := hb_version req |> <| LastHeartbeatAt := Some now |>
       <| NStatus := NodeStatusOnline |>.

Definition Heartbeat (etcd : option EtcdReplies) (fault : nat → option error)
    (clk : nat → Time) (req : HeartbeatRequest) (s : NodeManager)
  : option error * NodeManager :=
  let id := hb_node_id req in
  match onlineNodes s !! id with
  | Some node =>
      let s := s <| onlineNodes := <[id := refresh (clk 0%nat) req node]> (onlineNodes s) |> in
      match etcd with
      | None => store_heartbeat (fault 0%nat) (clk 1%nat) req s
      | Some r =>
          let keep leaseID s :=
            let s := log_call (CallKeepAliveOnce leaseID) s in
            match keepalive r with
            | Some _ => store_heartbeat (fault 0%nat) (clk 1%nat) req s
            | None => (None, s)
            end in
          match watchers s !! id with
          | Some leaseID => keep leaseID s
          | None =>
              let s := log_call (CallGrant 30) s in
              match grant r with
              | Err e => (Some (WrapError "etcd lease re-grant" e), s)
              | Ok lease => keep lease (s <| watchers := <[id := lease]> (watchers s) |>)
              end
          end
      end
  | None =>
      match NodeStore.GetByNodeID (fault 0%nat) id (nodes_tbl s) with
      | Err e => (Some e, s)
      | Ok node =>
          store_heartbeat (fault 1%nat) (clk 0%nat) req
            (s <| onlineNodes := <[id := node]> (onlineNodes s) |>)
      end
  end.

(** ** Going offline *)

Definition markOffline (fault : nat → option error) (now : Time) (nodeID : string)
    (s : NodeManager) : NodeManager :=
  match onlineNodes s !! nodeID with
  | Some node =>
      let '(_, _, tbl) :=
        NodeStore.Update (fault 0%nat) now (node <| NStatus := NodeStatusOffline |>) (nodes_tbl s) in
      s <| nodes_tbl := tbl |> <| onlineNodes := delete nodeID (onlineNodes s) |>
        <| watchers := delete nodeID (watchers s) |>
  | None =>
      match NodeStore.GetByNodeID (fault 0%nat) nodeID (nodes_tbl s) with
      | Err _ => s
      | Ok node =>
          let '(_, _, tbl) :=
            NodeStore.Update (fault 1%nat) now (node <| NStatus := NodeStatusOffline |>)
              (nodes_tbl s) in
          s <| nodes_tbl := tbl |>
      end
  end.

(** One deletion event of the watch in [StartNodeWatcher]. *)
Definition node_watch_delete (fault : nat → option error) (now : Time) (key : string)
    (s : NodeManager) : NodeManager :=
  let nodeID := extractNodeID key in
  if bool_decide (nodeID = EmptyString) then s else markOffline fault now nodeID s.

Definition is_stale (now : Time) (after : Duration) (n : Node) : bool :=
  match LastHeartbeatAt n with
  | Some t => after <? time_sub now t
  | None => false
  end.

(** The loop of [checkOfflineNodes]; [fault] and [clk] are indexed by the
    position in the iteration, [now] is read before it. *)
Fixpoint offline_loop (fault : nat → option error) (clk : nat → Time) (now : Time) (i : nat)
    (entries : list (string * Node)) (s : NodeManager) : NodeManager :=
  match entries with
  | [] => s
  | (id, node) :: entries =>
      let s :=
        if is_stale now (offlineAfter s) node then
          let '(_, _, tbl) :=
            NodeStore.Update (fault i) (clk i) (node <| NStatus := NodeStatusOffline |>)
              (nodes_tbl s) in
          s <| nodes_tbl := tbl |> <| onlineNodes := delete id (onlineNodes s) |>
        else s in
      offline_loop fault clk now (S i) entries s
  end.

Definition checkOfflineNodes (fault : nat → option error) (clk : nat → Time) (now : Time)
    (s : NodeManager) : NodeManager :=
  offline_loop fault clk now 0 (map_range (onlineNodes s)) s.

(** One tick of [StartOfflineChecker]: with an etcd client the goroutine has
    returned at once and the watch does its work. *)
Definition offline_checker_tick (etcd : bool) (fault : nat → option error) (clk : nat → Time)
    (now : Time) (s : NodeManager) : NodeManager :=
  if etcd then s else checkOfflineNodes fault clk now s.

(** One event of the goroutine of [StartNodeWatcher]. *)
Definition node_watch_event (deleted : bool) (fault : nat → option error) (now : Time) (key : string)
    (s : NodeManager) : NodeManager :=
  if deleted then node_watch_delete fault now key s else s.

(** ** Draining *)

Definition set_node_status (status : NodeStatus) (fault : nat → option error) (now : Time)
    (nodeID : string) (s : NodeManager) : option error * NodeManager :=
  match onlineNodes s !! nodeID with
  | Some node =>
      let '(err, node, tbl) :=
        NodeStore.Update (fault 0%nat) now (node <| NStatus := status |>) (nodes_tbl s) in
      (err, s <| nodes_tbl := tbl |> <| onlineNodes := <[nodeID := node]> (onlineNodes s) |>)
  | None =>
      match NodeStore.GetByNodeID (fault 0%nat) nodeID (nodes_tbl s) with
      | Err e => (Some e, s)
      | Ok node =>
          let '(err, _, tbl) :=
            NodeStore.Update (fault 1%nat) now (node <| NStatus := status |>) (nodes_tbl s) in
          (err, s <| nodes_tbl := tbl |>)
      end
  end.

Definition DrainNode := set_node_status NodeStatusDrain.
Definition UncordonNode := set_node_status NodeStatusOnline.
End manager.

(** ** Facts *)

Lemma HasLabel_spec n l : HasLabel n l = true ↔ l ∈ Labels n.
Proof.
  unfold HasLabel. rewrite existsb_exists. setoid_rewrite bool_decide_eq_true.
  split; [intros (x & Hx & ->); by apply list_elem_of_In|].
  intros Hl. exists l. by rewrite <- list_elem_of_In.
Qed.

Lemma found_by_split_spec n k v :
  found_by_split n k v = true →
  HasLabel n (k +:+ "=" +:+ v) = true ∨ HasLabel n v = true.
Proof.
  unfold found_by_split. rewrite existsb_exists, !HasLabel_spec.
  intros (l & Hl%list_elem_of_In & Hm). apply orb_true_iff in Hm as [Hm|Hm].
  - left. destruct (splitLabel l) as [|p0 [|p1 [|]]] eqn:Hs; try discriminate.
    apply andb_true_iff in Hm as [->%bool_decide_eq_true ->%bool_decide_eq_true].
    apply SplitN2_pair in Hs as [-> _]. done.
  - right. by apply bool_decide_eq_true in Hm as ->.
Qed.

Lemma label_match_spec n k v :
  label_match n k v = true ↔
  k +:+ "=" +:+ v ∈ Labels n ∨ v ∈ Labels n ∨ k ∈ Labels n.
Proof.
  unfold label_match. rewrite !orb_true_iff, !HasLabel_spec. split.
  - intros [[[?|?]|?]|Hf]; auto. apply found_by_split_spec in Hf.
    rewrite !HasLabel_spec in Hf. tauto.
  - tauto.
Qed.

Lemma elem_of_range_values `{MapRangeOk} {V} (m : gmap string V) x :
  x ∈ (map_range m).*2 ↔ ∃ k, m !! k = Some x.
Proof.
  rewrite list_elem_of_fmap. split.
  - intros ([k v] & -> & Hin). exists k. by apply elem_of_map_range.
  - intros [k Hk]. exists (k, x). by rewrite elem_of_map_range.
Qed.

Lemma elem_of_FindByLabels `{MapRangeOk} sel s n :
  n ∈ FindByLabels sel s ↔
  (∃ id, onlineNodes s !! id = Some n) ∧ NStatus n = NodeStatusOnline ∧
  (∀ k v, sel !! k = Some v →
     k +:+ "=" +:+ v ∈ Labels n ∨ v ∈ Labels n ∨ k ∈ Labels n).
Proof.
  unfold FindByLabels. rewrite list_elem_of_filter, elem_of_range_values, Is_true_true.
  rewrite andb_true_iff, forallb_forall. unfold IsSchedulable. rewrite bool_decide_eq_true.
  assert ((∀ x, In x (map_range sel) → label_match n x.1 x.2 = true) ↔
          (∀ k v, sel !! k = Some v → label_match n k v = true)) as ->.
  { split.
    - intros Hall k v Hkv. apply (Hall (k, v)), list_elem_of_In. by apply elem_of_map_range.
    - intros Hall [k v] Hin%list_elem_of_In. apply Hall. by apply elem_of_map_range. }
  setoid_rewrite label_match_spec. tauto.
Qed.

(** Every cached node is filed under its own id, and so is every row. *)
Definition ids_ok (m : gmap string Node) : Prop := ∀ id n, m !! id = Some n → NodeID n = id.

Definition manager_ok (s : NodeManager) : Prop :=
  ids_ok (onlineNodes s) ∧ ids_ok (node_rows (nodes_tbl s)).

Lemma ids_ok_insert m id n : ids_ok m → NodeID n = id → ids_ok (<[id := n]> m).
Proof. intros Hm Hn id' n'. rewrite lookup_insert_Some. intros [[<- <-]|[_ ?]]; auto. Qed.

Lemma ids_ok_delete m id : ids_ok m → ids_ok (delete id m).
Proof. intros Hm id' n' [_ ?]%lookup_delete_Some. auto. Qed.

Lemma ids_ok_alter m id (f : Node → Node) :
  ids_ok m → (∀ n, NodeID (f n) = NodeID n) → ids_ok (alter f id m).
Proof.
  intros Hm Hf id' n'. rewrite lookup_alter_Some. intros [(<- & n & Hn & ->)|[_ ?]]; [|auto].
  rewrite Hf. auto.
Qed.

Create HintDb nodes discriminated.
#[export] Hint Resolve ids_ok_insert ids_ok_delete ids_ok_alter : nodes.

Lemma NewNodeManager_ok : manager_ok NewNodeManager.
Proof. split; intros id n Hn; discriminate. Qed.

Section manager_facts.
Context `{PgTime} `{SortBy} `{MapRangeOk}.

Lemma NodeStore_Update_spec fault now n tbl e n' tbl' :
  NodeStore.Update fault now n tbl = (e, n', tbl') →
  n' = n <| NUpdatedAt := now |> ∧
  (fault = None → e = None ∧
     node_rows tbl' = alter (NodeStore.update_row n') (NodeID n) (node_rows tbl)) ∧
  (fault ≠ None → tbl' = tbl ∧ e = fault).
Proof. unfold NodeStore.Update. destruct fault; intros [= <- <- <-]; naive_solver. Qed.

Lemma NodeStore_Update_ids fault now n tbl e n' tbl' :
  NodeStore.Update fault now n tbl = (e, n', tbl') → ids_ok (node_rows tbl) →
  ids_ok (node_rows tbl') ∧ NodeID n' = NodeID n.
Proof.
  intros HU Hok. destruct (NodeStore_Update_spec _ _ _ _ _ _ _ HU) as (-> & Hnone & Hsome).
  split; [|done]. destruct fault as [f|].
  - by destruct Hsome as [-> _].
  - destruct Hnone as [_ ->]; [done|]. by apply ids_ok_alter.
Qed.

Lemma store_heartbeat_spec fault now req s e s' :
  store_heartbeat fault now req s = (e, s') →
  onlineNodes s' = onlineNodes s ∧ watchers s' = watchers s ∧
  offlineAfter s' = offlineAfter s ∧
  (ids_ok (node_rows (nodes_tbl s)) → ids_ok (node_rows (nodes_tbl s'))).
Proof.
  unfold store_heartbeat, NodeStore.UpdateHeartbeat.
  destruct (hb_resources req), fault; intros [= <- <-]; split_and!; try done;
    cbn; intros Hok; by apply ids_ok_alter.
Qed.

Lemma GetByNodeID_ok fault id tbl n :
  NodeStore.GetByNodeID fault id tbl = Ok n → node_rows tbl !! id = Some n.
Proof.
  unfold NodeStore.GetByNodeID. destruct fault; [done|].
  destruct (node_rows tbl !! id); congruence.
Qed.

Lemma refresh_id now req n : NodeID (refresh now req n) = NodeID n.
Proof. unfold refresh. by destruct (hb_resources req). Qed.

Lemma Register_ok etcd fault uuid now req s :
  manager_ok s → manager_ok (Register etcd fault uuid now req s).2.
Proof.
  intros [Hc Ht]. unfold Register, NodeStore.Create.
  destruct fault as [f|]; [by destruct etcd|].
  destruct (node_rows (nodes_tbl s) !! _); [by destruct etcd|].
  destruct etcd as [r|]; [destruct (grant r); [destruct (put r)|]|];
    split; cbn; auto with nodes.
Qed.

Lemma Heartbeat_ok etcd fault clk req s :
  manager_ok s → manager_ok (Heartbeat etcd fault clk req s).2.
Proof.
  intros [Hc Ht]. unfold Heartbeat.
  destruct (onlineNodes s !! hb_node_id req) as [node|] eqn:Hn.
  - assert (ids_ok (<[hb_node_id req := refresh (clk 0%nat) req node]> (onlineNodes s))) as Hc'.
    { apply ids_ok_insert; [done|]. rewrite refresh_id. auto. }
    assert (∀ f t s', onlineNodes s' = <[hb_node_id req := refresh (clk 0%nat) req node]>
        (onlineNodes s) → nodes_tbl s' = nodes_tbl s →
      manager_ok (store_heartbeat f t req s').2) as Hsh.
    { intros f t s' Ho Htb. destruct (store_heartbeat f t req s') as [e s2] eqn:Hst.
      apply store_heartbeat_spec in Hst as (Ho2 & _ & _ & Hids). split; cbn.
      - by rewrite Ho2, Ho.
      - apply Hids. by rewrite Htb. }
    destruct etcd as [r|]; [|by apply Hsh].
    cbn. destruct (watchers s !! hb_node_id req); [|destruct (grant r); [|by split]];
      (destruct (keepalive r); [by apply Hsh|by split]).
  - destruct (NodeStore.GetByNodeID _ _ _) as [node|e] eqn:Hg; [|by split].
    apply GetByNodeID_ok in Hg.
    destruct (store_heartbeat _ _ _ _) as [e s2] eqn:Hst.
    apply store_heartbeat_spec in Hst as (Ho2 & _ & _ & Hids). split; cbn.
    + rewrite Ho2. cbn. apply ids_ok_insert; auto.
    + by apply Hids.
Qed.

Lemma markOffline_ok fault now id s : manager_ok s → manager_ok (markOffline fault now id s).
Proof.
  intros [Hc Ht]. unfold markOffline. destruct (onlineNodes s !! id).
  - destruct (NodeStore.Update _ _ _ _) as [[e n'] tbl] eqn:HU.
    apply NodeStore_Update_ids in HU as [? _]; [|done]. split; cbn; auto with nodes.
  - destruct (NodeStore.GetByNodeID _ _ _); [|by split].
    destruct (NodeStore.Update _ _ _ _) as [[e' n'] tbl] eqn:HU.
    apply NodeStore_Update_ids in HU as [? _]; [|done]. by split.
Qed.

Lemma offline_loop_ok fault clk now i entries s :
  manager_ok s → manager_ok (offline_loop fault clk now i entries s).
Proof.
  revert i s. induction entries as [|[id n] es IH]; intros i s Hs; [done|]. cbn [offline_loop].
  apply IH. destruct (is_stale _ _ _); [|done].
  destruct (NodeStore.Update _ _ _ _) as [[e n'] tbl] eqn:HU. destruct Hs as [Hc Ht].
  apply NodeStore_Update_ids in HU as [? _]; [|done]. split; cbn; auto with nodes.
Qed.

Lemma set_node_status_ok st fault now id s :
  manager_ok s → manager_ok (set_node_status st fault now id s).2.
Proof.
  intros [Hc Ht]. unfold set_node_status. destruct (onlineNodes s !! id) as [n|] eqn:Hn.
  - destruct (NodeStore.Update _ _ _ _) as [[e n'] tbl] eqn:HU.
    apply NodeStore_Update_ids in HU as [? Hid]; [|done]. split; cbn; [|done].
    apply ids_ok_insert; [done|]. rewrite Hid. cbn. auto.
  - destruct (NodeStore.GetByNodeID _ _ _); [|by split].
    destruct (NodeStore.Update _ _ _ _) as [[e' n'] tbl] eqn:HU.
    apply NodeStore_Update_ids in HU as [? _]; [|done]. by split.
Qed.
End manager_facts.

Section offline.
Context `{PgTime} `{SortBy} `{MapRangeOk}.

Lemma offline_loop_after fault clk now i entries s :
  offlineAfter (offline_loop fault clk now i entries s) = offlineAfter s.
Proof.
  revert i s. induction entries as [|[id n] es IH]; intros i s; [done|].
  cbn [offline_loop]. rewrite IH. destruct (is_stale _ _ _); [|done].
  by destruct (NodeStore.Update _ _ _ _) as [[? ?] ?].
Qed.

Lemma offline_loop_cache fault clk now i entries s id :
  onlineNodes (offline_loop fault clk now i entries s) !! id =
    if existsb (λ e, bool_decide (e.1 = id) && is_stale now (offlineAfter s) e.2) entries
    then None else onlineNodes s !! id.
Proof.
  revert i s. induction entries as [|[id' n] es IH]; intros i s; [done|].
  cbn [offline_loop existsb fst snd]. rewrite IH.
  destruct (is_stale now (offlineAfter s) n); cycle 1.
  { by rewrite andb_false_r. }
  destruct (NodeStore.Update _ _ _ _) as [[? ?] ?]. cbn. rewrite andb_true_r.
  destruct (existsb _ es); [by rewrite orb_true_r|]. rewrite orb_false_r.
  case_bool_decide as Hid; [subst; apply lookup_delete_eq|by apply lookup_delete_ne].
Qed.

(** A row is touched only by the entry with its id. *)
Lemma offline_loop_row_ne fault clk now i entries s id :
  id ∉ entries.*1 → (∀ k n, (k, n) ∈ entries → NodeID n = k) →
  node_rows (nodes_tbl (offline_loop fault clk now i entries s)) !! id =
  node_rows (nodes_tbl s) !! id.
Proof.
  revert i s. induction entries as [|[id' n] es IH]; intros i s Hid Hes; [done|].
  cbn [offline_loop]. rewrite fmap_cons in Hid. apply not_elem_of_cons in Hid as [Hne Hid].
  rewrite IH; [|done|set_solver]. destruct (is_stale _ _ _); [|done].
  destruct (NodeStore.Update _ _ _ _) as [[e n'] tbl] eqn:HU.
  destruct (NodeStore_Update_spec _ _ _ _ _ _ _ HU) as (_ & Hnone & Hsome). cbn.
  destruct (fault i) as [f|].
  - by destruct Hsome as [-> _].
  - destruct Hnone as [_ ->]; [done|]. cbn. rewrite (Hes id' n) by set_solver.
    by rewrite lookup_alter_ne.
Qed.

Lemma offline_loop_row fault clk now i entries s id n r :
  (∀ j, fault j = None) → NoDup entries.*1 → (∀ k n, (k, n) ∈ entries → NodeID n = k) →
  (id, n) ∈ entries → is_stale now (offlineAfter s) n = true →
  node_rows (nodes_tbl s) !! id = Some r →
  ∃ r', node_rows (nodes_tbl (offline_loop fault clk now i entries s)) !! id = Some r' ∧
        NStatus r' = NodeStatusOffline.
Proof.
  intros Hf. revert i s. induction entries as [|[id' n'] es IH]; intros i s Hnd Hes Hin Hst Hr.
  { by apply elem_of_nil in Hin. }
  cbn [offline_loop]. rewrite fmap_cons in Hnd. apply NoDup_cons in Hnd as [Hni Hnd].
  apply elem_of_cons in Hin as [[= <- <-]|Hin].
  - rewrite offline_loop_row_ne by set_solver. rewrite Hst.
    destruct (NodeStore.Update _ _ _ _) as [[e n1] tbl] eqn:HU.
    destruct (NodeStore_Update_spec _ _ _ _ _ _ _ HU) as (-> & Hnone & _).
    pose proof (proj2 (Hnone (Hf i))) as Hrows. cbn [nodes_tbl setf set_nodes_tbl set_onlineNodes].
    rewrite Hrows. cbn. rewrite (Hes id n) by set_solver. rewrite lookup_alter_eq, Hr.
    by eexists.
  - assert (id' ≠ id).
    { intros ->. apply Hni, list_elem_of_fmap. by exists (id, n). }
    apply IH; [done|set_solver|done| |].
    + destruct (is_stale now (offlineAfter s) n'); [|done].
      by destruct (NodeStore.Update _ _ _ _) as [[? ?] ?].
    + destruct (is_stale now (offlineAfter s) n'); [|done].
      destruct (NodeStore.Update _ _ _ _) as [[e n1] tbl] eqn:HU.
      destruct (NodeStore_Update_spec _ _ _ _ _ _ _ HU) as (_ & Hnone & _).
      pose proof (proj2 (Hnone (Hf i))) as Hrows. cbn [nodes_tbl setf set_nodes_tbl set_onlineNodes].
      rewrite Hrows. cbn. rewrite (Hes id' n') by set_solver. by rewrite lookup_alter_ne.
Qed.
End offline.

(** ** Properties *)

(** Every operation of the node manager (registration, heartbeat, expiry of a
    lease, the periodic offline check, drain and uncordon) keeps its invariant:
    each cached node and each row of the table is filed under its own node id,
    whatever the database and etcd reply. *)
Lemma manager_invariant `{PgTime} `{MapRange} (s : NodeManager)
    (etcd : option EtcdReplies) (fault : nat → option error) (clk : nat → Time) (now : Time)
    (uuid id key : string) (reg : RegisterRequest) (hb : HeartbeatRequest) :
  manager_ok s →
  manager_ok (Register etcd (fault 0%nat) uuid now reg s).2 ∧
  manager_ok (Heartbeat etcd fault clk hb s).2 ∧
  manager_ok (node_watch_delete fault now key s) ∧
  manager_ok (checkOfflineNodes fault clk now s) ∧
  manager_ok (DrainNode fault now id s).2 ∧
  manager_ok (UncordonNode fault now id s).2.
Proof.
  intros Hs. split_and!.
  - by apply Register_ok.
  - by apply Heartbeat_ok.
  - unfold node_watch_delete. case_bool_decide; [done|]. by apply markOffline_ok.
  - by apply offline_loop_ok.
  - by apply set_node_status_ok.
  - by apply set_node_status_ok.
Qed.

Definition sample_register : RegisterRequest := {|
  rr_hostname := "h"; rr_ip := "10.0.0.1"; rr_version := "0.3.0"; rr_total_cpu := 8;
  rr_total_memory_mb := 16384; rr_total_disk_mb := 1000; rr_labels := ["zone=a"; "gpu"] |}.

Definition sample_heartbeat : HeartbeatRequest := {|
  hb_node_id := "n1"; hb_version := "0.3.0"; hb_resources := None |}.

Lemma manager_invariant_witness :
  let _ := Microseconds.micro in
  let _ := CanonicalRange.range in
  let s := (Register None None "n1" 5 sample_register NewNodeManager).2 in
  manager_ok NewNodeManager ∧ manager_ok s.
Proof.
  intros pg mr s.
  pose proof NewNodeManager_ok as H0. split; [exact H0|].
  apply (manager_invariant NewNodeManager None (λ _, None) (λ _, 0) 5 "n1" "n1" "k"
           sample_register sample_heartbeat H0).
Defined.

(** Label matching: [FindByLabels] returns, in some order, exactly the cached
    nodes whose status is online and which carry, for every pair of the
    selector, the label [k=v], the bare value or the bare key.  The inner loop
    that splits each label at the equals sign never changes the answer. *)
Lemma FindByLabels_reference `{MapRangeOk} (sel : gmap string string) (s : NodeManager) :
  FindByLabels sel s ≡ₚ
    filter (λ n, NStatus n = NodeStatusOnline ∧
                 Forall (λ kv, kv.1 +:+ "=" +:+ kv.2 ∈ Labels n ∨ kv.2 ∈ Labels n ∨ kv.1 ∈ Labels n)
                   (map_to_list sel))
           (map_to_list (onlineNodes s)).*2.
Proof.
  unfold FindByLabels. rewrite (map_range_perm (onlineNodes s)).
  erewrite list_filter_iff; [reflexivity|]. intros n. cbn beta.
  rewrite Is_true_true, andb_true_iff. unfold IsSchedulable. rewrite bool_decide_eq_true.
  f_equiv. rewrite forallb_forall, Forall_forall.
  split; intros Hall x Hx.
  - apply label_match_spec, Hall, list_elem_of_In. by rewrite map_range_perm.
  - apply label_match_spec, Hall. rewrite <- map_range_perm. by apply list_elem_of_In.
Qed.

Lemma FindByLabels_reference_witness :
  let _ := CanonicalRange.range in
  let _ := Microseconds.micro in
  let s := (Register None None "n1" 5 sample_register NewNodeManager).2 in
  NodeID <$> FindByLabels {[ "zone" := "a"; "gpu" := "yes" ]} s = ["n1"]%string ∧
  NodeID <$> FindByLabels {[ "zone" := "b" ]} s = [] ∧
  FindByLabels {[ "zone" := "a" ]} s ≡ₚ
    filter (λ n, NStatus n = NodeStatusOnline ∧
                 Forall (λ kv, kv.1 +:+ "=" +:+ kv.2 ∈ Labels n ∨ kv.2 ∈ Labels n ∨ kv.1 ∈ Labels n)
                   (map_to_list {[ "zone" := "a" ]}))
           (map_to_list (onlineNodes s)).*2.
Proof.
  intros mr pg s. split; [vm_compute; reflexivity|]. split; [vm_compute; reflexivity|].
  apply (FindByLabels_reference (H := mr) (H0 := CanonicalRange.range_ok)).
Defined.

Lemma extract_nodeKey id :
  id ≠ EmptyString → contains_byte "/" id = false → extractNodeID (nodeKey id) = id.
Proof.
  intros Hid Hslash. unfold extractNodeID, nodeKey. rewrite TrimPrefix_append.
  assert (SplitN2 (id +:+ "/status") "/" = [id; "status"%string]) as -> by by apply SplitN2_pair.
  by rewrite bool_decide_eq_false_2.
Qed.

(** The etcd key of a node leads back to the node: for an id that is not empty
    and has no slash, the id extracted from [nodeKey id] is [id], so the deletion
    event of an expired lease marks that node and no other.  Afterwards the node
    is out of the cache and of every selection, and, when the database accepts
    the statement, its row is offline. *)
Lemma lease_expiry_marks_node `{PgTime} `{MapRangeOk} (s : NodeManager) (id : string)
    (fault : nat → option error) (now : Time) (sel : gmap string string) :
  id ≠ EmptyString → contains_byte "/" id = false → manager_ok s → (∀ i, fault i = None) →
  let s' := node_watch_delete fault now (nodeKey id) s in
  extractNodeID (nodeKey id) = id ∧
  onlineNodes s' = delete id (onlineNodes s) ∧
  (∀ n, n ∈ FindByLabels sel s' → NodeID n ≠ id) ∧
  (∀ r, node_rows (nodes_tbl s) !! id = Some r →
     ∃ r', node_rows (nodes_tbl s') !! id = Some r' ∧ NStatus r' = NodeStatusOffline) ∧
  (∀ id', id' ≠ id → node_rows (nodes_tbl s') !! id' = node_rows (nodes_tbl s) !! id').
Proof.
  intros Hid Hslash [Hc Ht] Hf s'.
  pose proof (extract_nodeKey id Hid Hslash) as Hext.
  assert (onlineNodes s' = delete id (onlineNodes s) ∧
    (∀ r, node_rows (nodes_tbl s) !! id = Some r →
       ∃ r', node_rows (nodes_tbl s') !! id = Some r' ∧ NStatus r' = NodeStatusOffline) ∧
    (∀ id', id' ≠ id → node_rows (nodes_tbl s') !! id' = node_rows (nodes_tbl s) !! id'))
    as (Hon & Hrow & Hne).
  { unfold s', node_watch_delete. rewrite Hext, bool_decide_eq_false_2 by done.
    unfold markOffline, NodeStore.Update, NodeStore.GetByNodeID. rewrite !Hf.
    destruct (onlineNodes s !! id) as [n|] eqn:Hn.
    - cbn. rewrite (Hc _ _ Hn). split; [done|]. split.
      + intros r Hr. rewrite lookup_alter_eq, Hr. by eexists.
      + intros id' Hne. by rewrite lookup_alter_ne.
    - rewrite delete_id by done. destruct (node_rows (nodes_tbl s) !! id) as [n|] eqn:Hr.
      + cbn. rewrite (Ht _ _ Hr). split; [done|]. split.
        * intros r _. rewrite lookup_alter_eq, Hr. by eexists.
        * intros id' Hne. by rewrite lookup_alter_ne.
      + split; [done|]. split; [by rewrite Hr|done]. }
  split_and!; try done. intros n Hn. apply elem_of_FindByLabels in Hn as ([k Hk] & _ & _).
  rewrite Hon in Hk. apply lookup_delete_Some in Hk as [Hne' Hk]. by rewrite (Hc _ _ Hk).
Qed.

Lemma lease_expiry_marks_node_witness :
  let _ := CanonicalRange.range in
  let _ := Microseconds.micro in
  let s := (Register None None "n1" 5 sample_register NewNodeManager).2 in
  let s' := node_watch_delete (λ _, None) 9 (nodeKey "n1") s in
  onlineNodes s' = delete "n1"%string (onlineNodes s) ∧
  ∃ r', node_rows (nodes_tbl s') !! "n1"%string = Some r' ∧ NStatus r' = NodeStatusOffline.
Proof.
  intros mr pg s s'.
  assert (manager_ok s) as Hs.
  { apply Register_ok, NewNodeManager_ok. }
  destruct (lease_expiry_marks_node (H0 := mr) (H1 := CanonicalRange.range_ok) s "n1"
              (λ _, None) 9 ∅ ltac:(done) eq_refl Hs (λ _, eq_refl)) as (_ & H1 & _ & H2 & _).
  split; [exact H1|]. eapply H2. vm_compute. reflexivity.
Defined.

(** The periodic check takes out of the cache exactly the nodes whose last
    heartbeat is older than [offlineAfter]; with a database that accepts the
    statements their rows become offline, and rows of other nodes do not
    change. *)
Lemma checkOfflineNodes_exact `{PgTime} `{MapRangeOk} (s : NodeManager)
    (fault : nat → option error) (clk : nat → Time) (now : Time) :
  manager_ok s →
  let s' := checkOfflineNodes fault clk now s in
  (∀ id n, onlineNodes s' !! id = Some n ↔
     onlineNodes s !! id = Some n ∧ is_stale now (offlineAfter s) n = false) ∧
  (∀ id n r, onlineNodes s !! id = Some n → is_stale now (offlineAfter s) n = true →
     (∀ j, fault j = None) → node_rows (nodes_tbl s) !! id = Some r →
     ∃ r', node_rows (nodes_tbl s') !! id = Some r' ∧ NStatus r' = NodeStatusOffline) ∧
  (∀ id, onlineNodes s !! id = None →
     node_rows (nodes_tbl s') !! id = node_rows (nodes_tbl s) !! id).
Proof.
  intros [Hc Ht] s'.
  assert (∀ k n, (k, n) ∈ map_range (onlineNodes s) → NodeID n = k) as Hent.
  { intros k n Hkn%elem_of_map_range. by apply Hc. }
  split_and!.
  - intros id n. unfold s', checkOfflineNodes. rewrite offline_loop_cache.
    destruct (existsb _ _) eqn:Hex.
    + split; [done|]. intros [Hn Hst]. apply existsb_exists in Hex as ([k n'] & Hin & He).
      apply list_elem_of_In, elem_of_map_range in Hin. cbn in He.
      apply andb_true_iff in He as [->%bool_decide_eq_true He]. congruence.
    + split; [|by intros [? _]]. intros Hn. split; [done|].
      destruct (is_stale now (offlineAfter s) n) eqn:Hst; [|done].
      rewrite <- not_true_iff_false, existsb_exists in Hex. destruct Hex.
      exists (id, n). split; [by apply list_elem_of_In, elem_of_map_range|].
      cbn. by rewrite Hst, bool_decide_eq_true_2.
  - intros id n r Hn Hst Hf Hr. apply (offline_loop_row _ _ _ _ _ _ id n r); try done.
    + apply NoDup_map_range.
    + by apply elem_of_map_range.
  - intros id Hn. apply offline_loop_row_ne; [|done]. intros Hin.
    apply list_elem_of_fmap in Hin as ([k n'] & -> & Hin). apply elem_of_map_range in Hin.
    cbn in Hn. congruence.
Qed.

Lemma checkOfflineNodes_exact_witness :
  let _ := CanonicalRange.range in
  let _ := Microseconds.micro in
  let s0 := (Register None None "n1" 5 sample_register NewNodeManager).2 in
  let s := (Heartbeat None (λ _, None) (λ _, 10) sample_heartbeat s0).2 in
  let s' := checkOfflineNodes (λ _, None) (λ _, 0) (31 * second) s in
  (onlineNodes s !! "n1"%string) ≠ None ∧
  ∀ id n, onlineNodes s' !! id = Some n ↔
    onlineNodes s !! id = Some n ∧ is_stale (31 * second) (offlineAfter s) n = false.
Proof.
  intros mr pg s0 s s'. split; [vm_compute; congruence|].
  apply (checkOfflineNodes_exact (H0 := mr) (H1 := CanonicalRange.range_ok)).
  apply Heartbeat_ok, Register_ok, NewNodeManager_ok.
Defined.

(** A node that registers and never sends a heartbeat is never marked offline
    by the periodic check: its [LastHeartbeatAt] stays nil, so however late the
    check runs the node remains in the cache and selectable. *)
Lemma silent_node_stays_online `{PgTime} `{MapRangeOk} (s : NodeManager) (uuid : string)
    (now late : Time) (req : RegisterRequest) (fault : nat → option error) (clk : nat → Time) :
  manager_ok s → node_rows (nodes_tbl s) !! uuid = None →
  let s1 := (Register None None uuid now req s).2 in
  let s2 := checkOfflineNodes fault clk late s1 in
  ∃ n, onlineNodes s2 !! uuid = Some n ∧ n ∈ FindByLabels ∅ s2.
Proof.
  intros Hs Hnew s1 s2.
  assert (∃ n, onlineNodes s1 !! uuid = Some n ∧ LastHeartbeatAt n = None ∧
               NStatus n = NodeStatusOnline) as (n & Hn & Hh & Hst).
  { unfold s1, Register, NodeStore.Create. cbn. rewrite Hnew. cbn.
    eexists. by rewrite lookup_insert_eq. }
  assert (onlineNodes s2 !! uuid = Some n) as Hn2.
  { unfold s2, checkOfflineNodes. rewrite offline_loop_cache.
    destruct (existsb _ _) eqn:Hex; [|done].
    apply existsb_exists in Hex as ([k n'] & Hin & He).
    apply list_elem_of_In, elem_of_map_range in Hin.
    apply andb_true_iff in He as [Hk%bool_decide_eq_true He]. cbn in Hk, He. subst k.
    rewrite Hn in Hin. injection Hin as <-. unfold is_stale in He. by rewrite Hh in He. }
  exists n. split; [done|]. apply elem_of_FindByLabels. split_and!; [by exists uuid|done|].
  intros k v Hkv. by rewrite lookup_empty in Hkv.
Qed.

Lemma silent_node_stays_online_witness :
  let _ := CanonicalRange.range in
  let _ := Microseconds.micro in
  let s1 := (Register None None "n1" 5 sample_register NewNodeManager).2 in
  ∃ n, onlineNodes (checkOfflineNodes (λ _, None) (λ _, 0) (1000000 * second) s1)
         !! "n1"%string = Some n ∧
       n ∈ FindByLabels ∅ (checkOfflineNodes (λ _, None) (λ _, 0) (1000000 * second) s1).
Proof.
  intros mr pg s1.
  apply (silent_node_stays_online (H0 := mr) (H1 := CanonicalRange.range_ok) NewNodeManager "n1" 5
           (1000000 * second) sample_register (λ _, None) (λ _, 0)); [|reflexivity].
  apply NewNodeManager_ok.
Defined.

(** Draining works until the next heartbeat.  After [DrainNode] on a cached
    node no selection returns it; but the first heartbeat of the node, with any
    etcd replies and any database state, sets it back to online, and it is
    selectable again although nobody uncordoned it. *)
Lemma heartbeat_undoes_drain `{PgTime} `{MapRangeOk} (s : NodeManager) (n : Node)
    (fault fault' : nat → option error) (now : Time) (clk : nat → Time)
    (etcd : option EtcdReplies) (req : HeartbeatRequest) :
  manager_ok s → onlineNodes s !! hb_node_id req = Some n →
  let s1 := (DrainNode fault now (hb_node_id req) s).2 in
  let s2 := (Heartbeat etcd fault' clk req s1).2 in
  (∀ sel x, x ∈ FindByLabels sel s1 → NodeID x ≠ hb_node_id req) ∧
  ∃ n', onlineNodes s2 !! hb_node_id req = Some n' ∧ n' ∈ FindByLabels ∅ s2.
Proof.
  intros [Hc Ht] Hn s1 s2.
  assert (∃ n1, onlineNodes s1 = <[hb_node_id req := n1]> (onlineNodes s) ∧
                NStatus n1 = NodeStatusDrain) as (n1 & Hs1 & Hd).
  { unfold s1, DrainNode, set_node_status. rewrite Hn.
    destruct (NodeStore.Update _ _ _ _) as [[e n'] tbl] eqn:HU.
    destruct (NodeStore_Update_spec _ _ _ _ _ _ _ HU) as (-> & _). by eexists. }
  assert (∃ n2, onlineNodes s2 !! hb_node_id req = Some n2 ∧
                NStatus n2 = NodeStatusOnline) as (n2 & Hs2 & Ho).
  { exists (refresh (clk 0%nat) req n1). split; [|by destruct req as [? ? []]].
    assert (∀ f t s', onlineNodes (store_heartbeat f t req s').2 = onlineNodes s') as Hsh.
    { intros f t s'. destruct (store_heartbeat f t req s') eqn:Hst.
      by apply store_heartbeat_spec in Hst as [Ho _]. }
    unfold s2, Heartbeat. rewrite Hs1, lookup_insert_eq.
    destruct etcd as [r|]; [|rewrite Hsh; apply lookup_insert_eq].
    cbn. destruct (watchers s1 !! hb_node_id req); [|destruct (grant r); [|apply lookup_insert_eq]];
      (destruct (keepalive r); [rewrite Hsh; apply lookup_insert_eq|apply lookup_insert_eq]). }
  split.
  - intros sel x Hx. apply elem_of_FindByLabels in Hx as ([k Hk] & Hst & _).
    rewrite Hs1 in Hk. apply lookup_insert_Some in Hk as [[<- <-]|[Hne Hk]]; [by rewrite Hd in Hst|].
    rewrite (Hc _ _ Hk). done.
  - exists n2. split; [done|]. apply elem_of_FindByLabels. split_and!; [by eexists|done|].
    intros k v Hkv. by rewrite lookup_empty in Hkv.
Qed.

Lemma heartbeat_undoes_drain_witness :
  let _ := CanonicalRange.range in
  let _ := Microseconds.micro in
  let s := (Register None None "n1" 5 sample_register NewNodeManager).2 in
  let s1 := (DrainNode (λ _, None) 9 "n1" s).2 in
  FindByLabels ∅ s1 = [] ∧
  ∃ n', onlineNodes (Heartbeat None (λ _, None) (λ _, 10) sample_heartbeat s1).2
          !! "n1"%string = Some n' ∧
        n' ∈ FindByLabels ∅ (Heartbeat None (λ _, None) (λ _, 10) sample_heartbeat s1).2.
Proof.
  intros mr pg s s1. split; [vm_compute; reflexivity|].
  assert (manager_ok s) as Hs.
  { apply Register_ok, NewNodeManager_ok. }
  destruct (onlineNodes s !! "n1"%string) as [n|] eqn:Hn; [|vm_compute in Hn; discriminate].
  apply (heartbeat_undoes_drain (H0 := mr) (H1 := CanonicalRange.range_ok) s n (λ _, None)
           (λ _, None) 9 (λ _, 10) None sample_heartbeat Hs Hn).
Defined.
