(* ===== verification/Machine.v ===== *)
(** * The agent's machine ([cmd/agent/main.go])

    What the agent reads of the machine it runs on and of its command line: the
    labels, the memory, the disk, and the two requests it sends with them.  The
    operating system is a parameter: what the system calls return and what the
    files of [/proc] hold. *)

From S2P Require Import Prelude GoStrings GoFormat Float64 FloatScan Model TaskStore NodeStore NodeManager.
From Stdlib Require Import Ascii.

(** ** Labels *)

(** [main], lines 45 to 53. *)
Definition parse_labels (labels : string) : list string :=
  if bool_decide (labels = EmptyString) then []
  else filter (λ l, l ≠ EmptyString) (TrimSpace <$> Split labels ",").

(** ** Memory *)

(** [int(memBytes / 1024 / 1024)], at type [uint64]. *)
Definition to_mb (bytes : Z) : Z := bytes / 1024 / 1024.

Definition detectMemorySysctl (raw : result string) : Z :=
  match raw with
  | Err _ => 0
  | Ok raw => match Sscanf_uint raw with Some memBytes => to_mb memBytes | None => 0 end
  end.

(** The loop over the lines returns at the first one that can be scanned. *)
Fixpoint find_total (lines : list string) : Z :=
  match lines with
  | [] => 0
  | line :: lines =>
      if HasPrefix line "MemTotal:" then
        match Sscanf "MemTotal: %d kB" line with
        | ([kb], true) => Z.quot kb 1024
        | _ => find_total lines
        end
      else find_total lines
  end.

Definition detectMemoryProc (meminfo : result string) : Z :=
  match meminfo with
  | Err _ => 0
  | Ok data => find_total (Split data newline)
  end.

Definition detectMemory (sysctl meminfo : result string) : Z :=
  let memMB := detectMemorySysctl sysctl in
  if 0 <? memMB then memMB
  else
    let memMB := detectMemoryProc meminfo in
    if 0 <? memMB then memMB else 8192.

(** The three variables of [getMemoryUsed]. *)
Record MemInfo : Type := mkMemInfo { memTotal : Z; memAvailable : Z; memFree : Z }.

(** [fmt.Sscanf(line, format, &v)] with its error ignored. *)
Definition scan_into (format line : string) (v : Z) : Z := default v (head (Sscanf format line).1).

Definition meminfo_line (m : MemInfo) (line : string) : MemInfo :=
  let m :=
    if HasPrefix line "MemTotal:"
    then mkMemInfo (scan_into "MemTotal: %d kB" line (memTotal m)) (memAvailable m) (memFree m)
    else m in
  let m :=
    if HasPrefix line "MemAvailable:"
    then mkMemInfo (memTotal m) (scan_into "MemAvailable: %d kB" line (memAvailable m)) (memFree m)
    else m in
  if HasPrefix line "MemFree:" && (memAvailable m =? 0)
  then mkMemInfo (memTotal m) (memAvailable m) (scan_into "MemFree: %d kB" line (memFree m))
  else m.

Definition getMemoryUsed (meminfo : result string) : Z :=
  match meminfo with
  | Err _ => 0
  | Ok data =>
      let m := foldl meminfo_line (mkMemInfo 0 0 0) (Split data newline) in
      if 0 <? memAvailable m then Z.quot (memTotal m -64 memAvailable m)%go 1024
      else if 0 <? memFree m then Z.quot (memTotal m -64 memFree m)%go 1024
      else 0
  end.

(** ** Disk *)

(** [syscall.Statfs_t], the fields read; [Bsize] as converted to [uint64]. *)
Record Statfs_t : Type := mkStatfs { Blocks : Z; Bfree : Z; Bsize : Z }.

Definition mul_u64 (a b : Z) : Z := (a * b) mod 2 ^ 64.
Definition sub_u64 (a b : Z) : Z := (a - b) mod 2 ^ 64.

Definition detectDisk (fs : result Statfs_t) : Z :=
  match fs with
  | Err _ => 102400
  | Ok fs => to_mb (mul_u64 (Blocks fs) (Bsize fs))
  end.

Definition getDiskUsed (fs : result Statfs_t) : Z :=
  match fs with
  | Err _ => 0
  | Ok fs => to_mb (sub_u64 (mul_u64 (Blocks fs) (Bsize fs)) (mul_u64 (Bfree fs) (Bsize fs)))
  end.

(** ** Load *)

(** [math.Round(load1*100) / 100] *)
Definition round_load (load1 : float64) : float64 :=
  f64_div (f64_round (f64_mul load1 (f64_of_int 100))) (f64_of_int 100).

Definition getLoadAvg (sysctl loadavg : result string) : float64 :=
  match sysctl with
  | Err _ =>
      match loadavg with
      | Err _ => f64_zero
      | Ok data =>
          match Sscanf_f "%f %f %f" data with
          | (load1 :: _, true) => round_load load1
          | _ => f64_zero
          end
      end
  | Ok raw =>
      match Sscanf_f "{ %f" raw with
      | (load1 :: _, true) => round_load load1
      | _ => f64_zero
      end
  end.

(** ** The machine and the requests *)

Record Machine : Type := mkMachine {
  m_hostname : result string;        (* os.Hostname *)
  m_outbound : result string;        (* the local address of the UDP connection *)
  m_cpus : Z;                        (* runtime.NumCPU *)
  m_memsize : result string;         (* syscall.Sysctl("hw.memsize") *)
  m_meminfo : result string;         (* /proc/meminfo *)
  m_statfs : result Statfs_t;        (* syscall.Statfs("/") *)
  m_vmload : result string;          (* syscall.Sysctl("vm.loadavg") *)
  m_loadavg : result string;         (* /proc/loadavg *)
}.

Definition detectCPU (m : Machine) : Z := m_cpus m.
Definition getCPUUsage : float64 := f64_zero.
Definition countRunningTasks : Z := 0.
Definition getOutboundIP (m : Machine) : string :=
  match m_outbound m with Ok ip => ip | Err _ => "127.0.0.1" end.

Definition version : string := "0.3.0".

Definition register_request (labels : string) (m : Machine) : RegisterRequest := {|
  rr_hostname := match m_hostname m with Ok h => h | Err _ => "unknown"%string end;
  rr_ip := getOutboundIP m;
  rr_version := version;
  rr_total_cpu := detectCPU m;
  rr_total_memory_mb := detectMemory (m_memsize m) (m_meminfo m);
  rr_total_disk_mb := detectDisk (m_statfs m);
  rr_labels := parse_labels labels |}.

Definition collectResources (m : Machine) : NodeResource := {|
  nr_cpu_usage_percent := getCPUUsage;
  nr_memory_used_mb := getMemoryUsed (m_meminfo m);
  nr_memory_total_mb := detectMemory (m_memsize m) (m_meminfo m);
  nr_disk_used_mb := getDiskUsed (m_statfs m);
  nr_disk_total_mb := detectDisk (m_statfs m);
  nr_load_avg_1m := getLoadAvg (m_vmload m) (m_loadavg m);
  nr_running_tasks := countRunningTasks |}.

Definition heartbeat_request (nodeID : string) (m : Machine) : HeartbeatRequest := {|
  hb_node_id := nodeID; hb_version := version; hb_resources := Some (collectResources m) |}.

(** ** Facts *)

(** Without commas in the parts, the labels are the trimmed parts that are not
    empty, in order. *)
Lemma parse_labels_join (parts : list string) :
  Forall (λ l, contains_byte "," l = false) parts →
  parse_labels (Join "," parts) = filter (λ l, l ≠ EmptyString) (TrimSpace <$> parts).
Proof.
  intros Hparts. unfold parse_labels. destruct parts as [|l parts]; [done|].
  case_bool_decide as He; [|by rewrite Split_Join].
  destruct parts as [|l' parts].
  - cbn in He. by subst.
  - change (Join "," (l :: l' :: parts)) with (l +:+ String "," (Join "," (l' :: parts))) in He.
    by destruct l.
Qed.

Lemma to_mb_bounds n : 0 <= n < 2 ^ 64 → 0 <= to_mb n < 2 ^ 44.
Proof.
  intros Hn. unfold to_mb. rewrite Z.div_div by lia.
  split; [apply Z.div_pos; lia|apply Z.div_lt_upper_bound; lia].
Qed.

Lemma to_mb_mono a b : a <= b → to_mb a <= to_mb b.
Proof. intros Hab. unfold to_mb. do 2 (apply Z.div_le_mono; [lia|]). done. Qed.

Lemma scan_digits_nonneg s n any : 0 <= n → 0 <= (scan_digits n any s).1.
Proof.
  revert n any. induction s as [|c s IH]; intros n any Hn; [done|]. cbn. destruct (is_digit c) eqn:Hc; [|done].
  apply IH. unfold is_digit in Hc. lia.
Qed.

Lemma detectMemorySysctl_bounds raw : 0 <= detectMemorySysctl raw < 2 ^ 44.
Proof.
  unfold detectMemorySysctl. destruct raw as [raw|]; [|lia].
  unfold Sscanf_uint. pose proof (scan_digits_nonneg (skip_space raw) 0 false ltac:(lia)) as Hn.
  destruct (scan_digits 0 false (skip_space raw)) as [n any].
  destruct any; [|cbn; lia]. cbn [andb fst] in *. destruct (Z.leb_spec n max_uint64) as [Hm|]; [|lia].
  apply to_mb_bounds. unfold max_uint64 in Hm. lia.
Qed.

Lemma find_total_bound lines : find_total lines < 2 ^ 53.
Proof.
  induction lines as [|line lines IH]; cbn [find_total]; [lia|].
  destruct (HasPrefix line "MemTotal:"); [|done].
  pose proof (Sscanf_range "MemTotal: %d kB" line) as Hr.
  destruct (Sscanf "MemTotal: %d kB" line) as [[|kb [|]] []]; try done.
  cbn in Hr. apply Forall_cons in Hr as [Hkb _].
  assert (Z.quot kb 1024 <= Z.quot (2 ^ 63 - 1) 1024) as Hq; [|by eapply Z.le_lt_trans].
  apply Z.quot_le_mono; int_lia.
Qed.

Lemma detectMemory_bounds sysctl meminfo : 0 < detectMemory sysctl meminfo < 2 ^ 53.
Proof.
  unfold detectMemory. pose proof (detectMemorySysctl_bounds sysctl).
  assert (detectMemoryProc meminfo < 2 ^ 53).
  { destruct meminfo as [data|]; [apply find_total_bound|cbn; lia]. }
  destruct (Z.ltb_spec 0 (detectMemorySysctl sysctl)); [lia|].
  destruct (Z.ltb_spec 0 (detectMemoryProc meminfo)); lia.
Qed.

(** *** The file [/proc/meminfo] *)

Fixpoint blanks (n : nat) : string :=
  match n with O => EmptyString | S n => String " " (blanks n) end.

(** A line as the kernel writes it. *)
Definition kb_line (name : string) (pad : nat) (kb : Z) : string :=
  name +:+ blanks (S pad) +:+ Itoa kb +:+ " kB".

Lemma skip_blanks n kb rest : 0 <= kb → skip_space (blanks n +:+ Itoa kb +:+ rest) = Itoa kb +:+ rest.
Proof.
  intros Hkb. induction n as [|n IH]; [|exact IH].
  rewrite append_nil_l. destruct (Itoa_head kb rest Hkb) as (a & s & -> & Ha).
  by apply skip_space_digit.
Qed.

Lemma Sscanf_kb n kb :
  0 <= kb < 2 ^ 63 → Sscanf " %d kB" (blanks (S n) +:+ Itoa kb +:+ " kB") = ([kb], true).
Proof.
  intros Hkb. cbn [scanf]. change (Ascii.eqb " " "%") with false. cbv iota.
  change (Ascii.eqb " " " ") with true. change (HasPrefix "%d kB" " ") with false. cbv iota.
  rewrite skip_blanks by lia. rewrite (bool_decide_eq_true_2 (_ ≠ _)), orb_true_r; cycle 1.
  { destruct (Itoa_head kb " kB" ltac:(lia)) as (a & s & -> & Ha). cbn [blanks]. rewrite append_cons.
    intros [= -> _]. by vm_compute in Ha. }
  change (Ascii.eqb "%" "%") with true. change (Ascii.eqb "d" "d") with true. cbv iota.
  by rewrite scan_int_Itoa.
Qed.

(** Literal bytes of the format match themselves. *)
Lemma Sscanf_literal lit f input :
  Forall (λ a, a ≠ "%"%char ∧ a ≠ " "%char) (list_ascii_of_string lit) →
  Sscanf (lit +:+ f) (lit +:+ input) = Sscanf f input.
Proof.
  induction lit as [|a lit IH]; intros Hl; [done|]. cbn in Hl. apply Forall_cons in Hl as [[H1 H2] Hl].
  rewrite !append_cons. cbn [scanf].
  rewrite (proj2 (Ascii.eqb_neq a "%") H1), (proj2 (Ascii.eqb_neq a " ") H2), Ascii.eqb_refl. by apply IH.
Qed.

Lemma Sscanf_kb_line name pad kb :
  Forall (λ a, a ≠ "%"%char ∧ a ≠ " "%char) (list_ascii_of_string name) → 0 <= kb < 2 ^ 63 →
  Sscanf (name +:+ " %d kB") (kb_line name pad kb) = ([kb], true).
Proof. intros Hn Hkb. unfold kb_line. by rewrite Sscanf_literal, Sscanf_kb. Qed.

(** A file that begins as the one of the kernel does. *)
Definition meminfo_of (data : string) (total free avail : Z) : Prop :=
  ∃ p1 p2 p3 rest,
    Split data newline =
      kb_line "MemTotal:" p1 total :: kb_line "MemFree:" p2 free ::
      kb_line "MemAvailable:" p3 avail :: rest ∧
    Forall (λ l, HasPrefix l "MemTotal:" = false ∧ HasPrefix l "MemFree:" = false ∧
                 HasPrefix l "MemAvailable:" = false) rest.

Lemma other_lines m rest :
  Forall (λ l, HasPrefix l "MemTotal:" = false ∧ HasPrefix l "MemFree:" = false ∧
               HasPrefix l "MemAvailable:" = false) rest →
  foldl meminfo_line m rest = m.
Proof.
  induction 1 as [|l rest (H1 & H2 & H3) _ IH]; [done|]. cbn [foldl].
  unfold meminfo_line at 2. by rewrite H1, H2, H3.
Qed.

Lemma HasPrefix_kb name pad kb : HasPrefix (kb_line name pad kb) name = true.
Proof. apply HasPrefix_append. Qed.

(** Each of the three lines sets its variable. *)
Lemma meminfo_lines m p kb :
  0 <= kb < 2 ^ 63 →
  meminfo_line m (kb_line "MemTotal:" p kb) = mkMemInfo kb (memAvailable m) (memFree m) ∧
  meminfo_line m (kb_line "MemAvailable:" p kb) = mkMemInfo (memTotal m) kb (memFree m) ∧
  meminfo_line m (kb_line "MemFree:" p kb) =
    mkMemInfo (memTotal m) (memAvailable m) (if memAvailable m =? 0 then kb else memFree m).
Proof.
  intros Hkb.
  assert (∀ name, Forall (λ a, a ≠ "%"%char ∧ a ≠ " "%char) (list_ascii_of_string name) →
    ∀ v, scan_into (name +:+ " %d kB") (kb_line name p kb) v = kb) as Hscan.
  { intros name Hn v. unfold scan_into. by rewrite Sscanf_kb_line. }
  pose proof (Hscan "MemTotal:" ltac:(repeat constructor; done)) as Ht.
  pose proof (Hscan "MemAvailable:" ltac:(repeat constructor; done)) as Ha.
  pose proof (Hscan "MemFree:" ltac:(repeat constructor; done)) as Hf.
  change ("MemTotal:" +:+ " %d kB") with "MemTotal: %d kB" in Ht.
  change ("MemAvailable:" +:+ " %d kB") with "MemAvailable: %d kB" in Ha.
  change ("MemFree:" +:+ " %d kB") with "MemFree: %d kB" in Hf.
  split_and!.
  - unfold meminfo_line. rewrite HasPrefix_kb, Ht.
    assert (HasPrefix (kb_line "MemTotal:" p kb) "MemAvailable:" = false) as -> by reflexivity.
    assert (HasPrefix (kb_line "MemTotal:" p kb) "MemFree:" = false) as -> by reflexivity. done.
  - unfold meminfo_line. rewrite HasPrefix_kb, Ha.
    assert (HasPrefix (kb_line "MemAvailable:" p kb) "MemTotal:" = false) as -> by reflexivity.
    assert (HasPrefix (kb_line "MemAvailable:" p kb) "MemFree:" = false) as -> by reflexivity. done.
  - unfold meminfo_line. rewrite HasPrefix_kb, Hf.
    assert (HasPrefix (kb_line "MemFree:" p kb) "MemTotal:" = false) as -> by reflexivity.
    assert (HasPrefix (kb_line "MemFree:" p kb) "MemAvailable:" = false) as -> by reflexivity.
    cbn [andb]. by destruct (memAvailable m =? 0), m.
Qed.

Lemma meminfo_read data total free avail :
  meminfo_of data total free avail →
  0 <= total < 2 ^ 63 → 0 <= free < 2 ^ 63 → 0 <= avail < 2 ^ 63 →
  find_total (Split data newline) = Z.quot total 1024 ∧
  foldl meminfo_line (mkMemInfo 0 0 0) (Split data newline) = mkMemInfo total avail free.
Proof.
  intros (p1 & p2 & p3 & rest & -> & Hrest) Ht Hf Ha. cbn [find_total foldl]. split.
  - rewrite HasPrefix_kb. change "MemTotal: %d kB" with ("MemTotal:" +:+ " %d kB").
    by rewrite Sscanf_kb_line by (done || (repeat constructor; done)).
  - destruct (meminfo_lines (mkMemInfo 0 0 0) p1 total Ht) as (-> & _ & _).
    destruct (meminfo_lines (mkMemInfo total 0 0) p2 free Hf) as (_ & _ & Hfree).
    cbn [memAvailable memFree memTotal Z.eqb] in Hfree |- *. rewrite Hfree.
    destruct (meminfo_lines (mkMemInfo total 0 free) p3 avail Ha) as (_ & -> & _).
    by rewrite other_lines.
Qed.

(** *** The file [/proc/loadavg] *)

Definition digit_ascii (d : Z) : ascii := ascii_of_N (Z.to_N (48 + d)).

(** A load of [n] hundredths as the kernel writes it, [%lu.%02lu]. *)
Definition load_text (n : Z) : string :=
  Itoa (n / 100) +:+
  String "." (String (digit_ascii (n / 10 mod 10)) (String (digit_ascii (n mod 10)) EmptyString)).

(** Its scan gives the whole text, and the rounding finds the hundredths again. *)
Definition load_ok (n : Z) : bool :=
  let '(tok, rest) := floatToken (load_text n) in
  bool_decide (rest = EmptyString) &&
  match convertFloat tok with
  | Some x => bool_decide (f64_round (f64_mul x (f64_of_int 100)) = f64_of_int n)
  | None => false
  end.

Lemma loads_ok n : 0 <= n < 2000 → load_ok n = true.
Proof.
  assert (forallb load_ok (Z.of_nat <$> seq 0 2000) = true) as Hall by (vm_compute; reflexivity).
  intros Hn. rewrite forallb_forall in Hall. apply Hall, list_elem_of_In, list_elem_of_fmap.
  exists (Z.to_nat n). rewrite elem_of_seq. lia.
Qed.

Lemma skip_load n rest : 0 <= n → skip_space (load_text n +:+ rest) = load_text n +:+ rest.
Proof.
  intros Hn. unfold load_text. rewrite append_assoc.
  destruct (Itoa_head (n / 100) (String "." (String (digit_ascii (n / 10 mod 10))
    (String (digit_ascii (n mod 10)) EmptyString)) +:+ rest)) as (a & s & -> & Ha).
  { apply Z.div_pos; lia. }
  by apply skip_space_digit.
Qed.

Lemma scan_load n rest :
  0 <= n < 2000 →
  ∃ x, scan_float (load_text n +:+ String " " rest) = Some (x, String " " rest) ∧
       round_load x = f64_div (f64_of_int n) (f64_of_int 100).
Proof.
  intros Hn. pose proof (loads_ok n Hn) as Hok. unfold load_ok in Hok. unfold scan_float.
  rewrite skip_load, floatToken_blank by lia. destruct (floatToken (load_text n)) as [tok r].
  apply andb_true_iff in Hok as [Hr Hx]. apply bool_decide_eq_true_1 in Hr as ->.
  destruct (convertFloat tok) as [x|]; [|done]. apply bool_decide_eq_true_1 in Hx.
  exists x. split; [done|]. unfold round_load. by rewrite Hx.
Qed.

Lemma scanf_space {A} verb (scan : string → option (A * string)) f s :
  HasPrefix f " " = false → skip_space s = s →
  scanf verb scan (String " " f) (String " " s) = scanf verb scan f s.
Proof.
  intros Hf Hs. cbn [scanf]. change (Ascii.eqb " " "%") with false. change (Ascii.eqb " " " ") with true.
  cbv iota. rewrite Hf. change (skip_space (String " " s)) with (skip_space s). rewrite Hs.
  rewrite (bool_decide_eq_true_2 (s ≠ _)), orb_true_r; [done|].
  intros Heq. apply (f_equal String.length) in Heq. cbn in Heq. lia.
Qed.

(** The file holds the averages of one, five and fifteen minutes, and more. *)
Definition loadavg_of (data : string) (n1 n2 n3 : Z) : Prop :=
  ∃ rest, data = load_text n1 +:+ String " " (load_text n2 +:+ String " " (load_text n3 +:+ String " " rest)).

Lemma getLoadAvg_linux e data n1 n2 n3 :
  loadavg_of data n1 n2 n3 → 0 <= n1 < 2000 → 0 <= n2 < 2000 → 0 <= n3 < 2000 →
  getLoadAvg (Err e) (Ok data) = f64_div (f64_of_int n1) (f64_of_int 100).
Proof.
  intros [rest ->] Hn1 Hn2 Hn3. cbn [getLoadAvg].
  destruct (scan_load n1 (load_text n2 +:+ String " " (load_text n3 +:+ String " " rest)) Hn1) as (x & E1 & Hx).
  destruct (scan_load n2 (load_text n3 +:+ String " " rest) Hn2) as (y & E2 & _).
  destruct (scan_load n3 rest Hn3) as (z & E3 & _).
  assert (Sscanf_f "%f %f %f" (load_text n1 +:+ String " " (load_text n2 +:+ String " " (load_text n3 +:+ String " " rest)))
    = ([x; y; z], true)) as ->; [|done].
  assert (∀ f s v r, scan_float s = Some (v, r) →
    Sscanf_f (String "%" (String "f" f)) s = let '(vs, ok) := Sscanf_f f r in (v :: vs, ok)) as Hverb.
  { intros f s v r Hs. unfold Sscanf_f. cbn [scanf]. by rewrite Hs. }
  rewrite (Hverb _ _ _ _ E1). unfold Sscanf_f at 1. rewrite scanf_space by (done || apply skip_load; lia).
  fold (Sscanf_f "%f %f"). rewrite (Hverb _ _ _ _ E2). unfold Sscanf_f at 1.
  rewrite scanf_space by (done || apply skip_load; lia).
  fold (Sscanf_f "%f"). by rewrite (Hverb _ _ _ _ E3).
Qed.

Lemma getLoadAvg_sysctl raw loadavg : HasPrefix raw "{" = false → getLoadAvg (Ok raw) loadavg = f64_zero.
Proof.
  intros Hr. cbn [getLoadAvg]. unfold Sscanf_f. cbn [scanf]. change (Ascii.eqb "{" "%") with false.
  change (Ascii.eqb "{" " ") with false. cbv iota. destruct raw as [|b raw]; [done|].
  destruct (Ascii.eqb_spec "{" b) as [<-|]; [|done]. by destruct raw.
Qed.

(** [syscall.Sysctl] gives the bytes of a number, the lowest first, without a
    last byte that is zero. *)
Fixpoint le_bytes (k : nat) (n : N) : string :=
  match k with
  | O => EmptyString
  | S k => String (ascii_of_N (n mod 256)) (le_bytes k (n / 256))
  end.

Definition darwin_sysctl (n : N) : string :=
  if (n <? 2 ^ 56)%N then le_bytes 7 n else le_bytes 8 n.

Lemma darwin_unreadable n : (n mod 256 = 0)%N → detectMemorySysctl (Ok (darwin_sysctl n)) = 0.
Proof.
  intros Hn. unfold detectMemorySysctl, darwin_sysctl.
  assert (∀ k, Sscanf_uint (le_bytes (S k) n) = None) as Hk; [|by destruct (n <? 2 ^ 56)%N; rewrite Hk].
  intros k. unfold le_bytes. fold le_bytes. rewrite Hn. unfold Sscanf_uint.
  assert (∀ s, skip_space (String "000" s) = String "000" s) as Hskip; [|by rewrite Hskip].
  by intros [|b [|c s]].
Qed.

(** ** Properties *)

(** C38 What an agent reports about its machine.  The total memory is always
    positive, so an agent never registers as one that fits nothing.  On Linux
    it is the [MemTotal] of [/proc/meminfo], and the used memory lies between
    zero and it.  Where the size is only known through [sysctl], it is never
    read: the call answers the bytes of the number, whose first is zero, and
    the decimal scan fails, so every such machine registers with 8192 MB.  The
    disk numbers are those of the file system when its size fits 64 bits.  The
    load of [/proc/loadavg] (below 20) is reported as the float nearest to the
    number printed there, so rounding to hundredths changes nothing; where
    [sysctl] answers, and not with a text that begins with a brace, the load
    reported is always zero. *)
Theorem detected_resources (m : Machine) :
  let r := collectResources m in
  (0 < nr_memory_total_mb r < 2 ^ 53 ∧ 0 <= nr_disk_total_mb r < 2 ^ 44 ∧ 0 <= nr_disk_used_mb r < 2 ^ 44) ∧
  (∀ data total free avail,
     m_meminfo m = Ok data → meminfo_of data total free avail →
     1024 <= total < 2 ^ 63 → 0 <= free <= total → 0 <= avail <= total →
     (is_ok (m_memsize m) = false → nr_memory_total_mb r = Z.quot total 1024) ∧
     nr_memory_used_mb r =
       (if 0 <? avail then Z.quot (total - avail) 1024
        else if 0 <? free then Z.quot (total - free) 1024 else 0) ∧
     0 <= nr_memory_used_mb r <= Z.quot total 1024) ∧
  (∀ bytes, (bytes mod 256 = 0)%N → m_memsize m = Ok (darwin_sysctl bytes) →
     is_ok (m_meminfo m) = false → nr_memory_total_mb r = 8192 ∧ nr_memory_used_mb r = 0) ∧
  (∀ fs, m_statfs m = Ok fs → 0 <= Bfree fs <= Blocks fs → 0 <= Bsize fs →
     Blocks fs * Bsize fs < 2 ^ 64 →
     nr_disk_total_mb r = to_mb (Blocks fs * Bsize fs) ∧
     nr_disk_used_mb r = to_mb ((Blocks fs - Bfree fs) * Bsize fs) ∧
     nr_disk_used_mb r <= nr_disk_total_mb r) ∧
  (∀ data n1 n2 n3,
     is_ok (m_vmload m) = false → m_loadavg m = Ok data → loadavg_of data n1 n2 n3 →
     0 <= n1 < 2000 → 0 <= n2 < 2000 → 0 <= n3 < 2000 →
     nr_load_avg_1m r = f64_div (f64_of_int n1) (f64_of_int 100)) ∧
  (∀ raw, m_vmload m = Ok raw → HasPrefix raw "{" = false → nr_load_avg_1m r = f64_zero).
Proof.
  cbv zeta. cbn [collectResources nr_memory_total_mb nr_memory_used_mb nr_disk_total_mb nr_disk_used_mb nr_load_avg_1m].
  split_and!; try apply detectMemory_bounds.
  - unfold detectDisk. destruct (m_statfs m); [apply to_mb_bounds, Z.mod_pos_bound|]; lia.
  - unfold detectDisk. destruct (m_statfs m); [apply to_mb_bounds, Z.mod_pos_bound|]; lia.
  - unfold getDiskUsed. destruct (m_statfs m); [apply to_mb_bounds, Z.mod_pos_bound|]; lia.
  - unfold getDiskUsed. destruct (m_statfs m); [apply to_mb_bounds, Z.mod_pos_bound|]; lia.
  - intros data total free avail Hm Hinfo Ht Hf Ha.
    destruct (meminfo_read data total free avail Hinfo) as [Htot Hmem]; [lia..|].
    rewrite Hm. cbn [getMemoryUsed]. rewrite Hmem. cbn [memTotal memAvailable memFree].
    rewrite !sub64_id by int_lia. split.
    + intros Hs. unfold detectMemory, detectMemoryProc. rewrite Htot.
      destruct (m_memsize m); [done|]. cbn [detectMemorySysctl]. change (0 <? 0) with false. cbv iota.
      destruct (Z.ltb_spec 0 (Z.quot total 1024)) as [|Hle]; [done|].
      pose proof (Z.quot_le_mono 1024 total 1024 ltac:(lia) ltac:(lia)) as Hq.
      change (Z.quot 1024 1024) with 1 in Hq. lia.
    + assert (∀ x, 0 <= x <= total → 0 <= Z.quot (total - x) 1024 <= Z.quot total 1024) as Hb.
      { intros x Hx. split; [apply Z.quot_pos; lia|apply Z.quot_le_mono; lia]. }
      split; [done|]. destruct (Z.ltb_spec 0 avail); [by apply Hb|].
      destruct (Z.ltb_spec 0 free); [by apply Hb|]. split; [done|apply Z.quot_pos; lia].
  - intros bytes Hb Hs Hno. unfold detectMemory. rewrite Hs, darwin_unreadable by done.
    by destruct (m_meminfo m).
  - intros fs Hfs Hfree Hsize Hfit. rewrite Hfs. cbn [detectDisk getDiskUsed]. unfold sub_u64, mul_u64.
    assert (0 <= Bfree fs * Bsize fs <= Blocks fs * Bsize fs) as Hle.
    { split; [apply Z.mul_nonneg_nonneg; lia|apply Z.mul_le_mono_nonneg_r; lia]. }
    rewrite !(Z.mod_small (_ * _)) by lia. rewrite <- Z.mul_sub_distr_r.
    rewrite Z.mod_small by lia. split_and!; [done..|]. apply to_mb_mono. lia.
  - intros data n1 n2 n3 Hv Hd Hof H1 H2 H3. destruct (m_vmload m) as [|e]; [done|]. rewrite Hd.
    by eapply getLoadAvg_linux.
  - intros raw Hv Hr. rewrite Hv. by apply getLoadAvg_sysctl.
Qed.

(** ** Witness: a Linux machine *)

Definition demo_meminfo : string :=
  Join newline [kb_line "MemTotal:" 7 16384000; kb_line "MemFree:" 8 2048000;
                kb_line "MemAvailable:" 3 8192000; kb_line "Buffers:" 8 1024; EmptyString].

Definition demo_machine : Machine := {|
  m_hostname := Ok "worker"%string; m_outbound := Err (ErrorString "network is unreachable");
  m_cpus := 8; m_memsize := Err (ErrorString "not supported"); m_meminfo := Ok demo_meminfo;
  m_statfs := Ok (mkStatfs 26214400 13107200 4096); m_vmload := Err (ErrorString "not supported");
  m_loadavg := Ok (load_text 152 +:+ String " " (load_text 98 +:+ String " "
    (load_text 7 +:+ String " " "2/389 12345"))) |}.

Lemma detected_resources_witness :
  nr_memory_total_mb (collectResources demo_machine) = 16000 ∧
  nr_memory_used_mb (collectResources demo_machine) = 8000 ∧
  nr_disk_total_mb (collectResources demo_machine) = 102400 ∧
  nr_disk_used_mb (collectResources demo_machine) = 51200 ∧
  nr_load_avg_1m (collectResources demo_machine) = f64_div (f64_of_int 152) (f64_of_int 100).
Proof.
  destruct (detected_resources demo_machine) as (_ & Hmem & _ & Hdisk & Hload & _).
  destruct (Hmem demo_meminfo 16384000 2048000 8192000) as (Ht & Hu & _); [reflexivity| |lia..|].
  - exists 7%nat, 8%nat, 3%nat, [kb_line "Buffers:" 8 1024; EmptyString]. split; [by vm_compute|].
    repeat constructor.
  - destruct (Hdisk (mkStatfs 26214400 13107200 4096)) as (Hd & Hu' & _); [reflexivity|cbn; lia..|].
    split; [exact (Ht eq_refl)|]. split; [exact Hu|]. split; [exact Hd|]. split; [exact Hu'|].
    eapply (Hload _ 152 98 7); [reflexivity|reflexivity| |lia..]. by exists "2/389 12345"%string.
Defined.
