(* ===== verification/Discovery.v ===== *)
(** * Service discovery ([internal/discovery/discovery.go])

    A cache of the node entries in etcd, fed by an initial load and by watch
    events, and bounded channels of change notifications.  A channel is the
    list of its buffered events; what etcd delivers is the argument. *)

From Stdlib Require Import Ascii.
From S2P Require Import Prelude GoStrings NodeManager.

Inductive NodeEventType : Type := NodeAdded | NodeUpdated | NodeRemoved.

#[export] Instance NodeEventType_eq_dec : EqDecision NodeEventType.
Proof. solve_decision. Defined.

Record NodeEvent : Type := mkNodeEvent {
  ev_Type : NodeEventType;
  ev_NodeID : string;
  ev_Key : string;
  ev_Value : option string;      (* the bytes; None: nil *)
}.

Record ServiceDiscovery : Type := mkSD {
  nodes : gmap string string;
  listeners : list (list NodeEvent);
}.

Definition eta_SD (sd : ServiceDiscovery) := mkSD (nodes sd) (listeners sd).
#[export] Instance set_nodes : Setter nodes := ltac:(mk_setter eta_SD nodes).
#[export] Instance set_listeners : Setter listeners := ltac:(mk_setter eta_SD listeners).

Definition NewServiceDiscovery : ServiceDiscovery := mkSD ∅ [].

(** [strings.Split(...)[0]]; a split is never empty. *)
Definition extractNodeID (key : string) : string :=
  let parts := Split (TrimPrefix key "/nodes/") "/" in
  match parts with
  | p :: _ => if bool_decide (p = EmptyString) then EmptyString else p
  | [] => EmptyString
  end.

(** [make(chan NodeEvent, 100)] *)
Definition listener_capacity : nat := 100.

(** A send that does not block: a full listener misses the event. *)
Definition emit (evt : NodeEvent) (sd : ServiceDiscovery) : ServiceDiscovery :=
  sd <| listeners :=
    (λ ch, if (length ch <? listener_capacity)%nat then ch ++ [evt] else ch) <$> listeners sd |>.

Definition Subscribe (sd : ServiceDiscovery) : ServiceDiscovery :=
  sd <| listeners := listeners sd ++ [[]] |>.

(** One entry of the initial load. *)
Definition load_entry (sd : ServiceDiscovery) (kv : string * string) : ServiceDiscovery :=
  let nodeID := extractNodeID kv.1 in
  if bool_decide (nodeID = EmptyString) then sd
  else emit (mkNodeEvent NodeAdded nodeID kv.1 (Some kv.2))
         (sd <| nodes := <[nodeID := kv.2]> (nodes sd) |>).

Inductive watch_event : Type :=
| EventTypePut (key value : string)
| EventTypeDelete (key : string).

Definition handle_event (sd : ServiceDiscovery) (ev : watch_event) : ServiceDiscovery :=
  match ev with
  | EventTypePut key value =>
      let nodeID := extractNodeID key in
      if bool_decide (nodeID = EmptyString) then sd
      else
        let existed := bool_decide (is_Some (nodes sd !! nodeID)) in
        emit (mkNodeEvent (if existed then NodeUpdated else NodeAdded) nodeID key (Some value))
          (sd <| nodes := <[nodeID := value]> (nodes sd) |>)
  | EventTypeDelete key =>
      let nodeID := extractNodeID key in
      if bool_decide (nodeID = EmptyString) then sd
      else emit (mkNodeEvent NodeRemoved nodeID key None)
             (sd <| nodes := delete nodeID (nodes sd) |>)
  end.

(** [StartWatching]: the load, skipped when it failed, then the events. *)
Definition StartWatching (kvs : result (list (string * string))) (evs : list watch_event)
    (sd : ServiceDiscovery) : ServiceDiscovery :=
  let sd := match kvs with Ok kvs => foldl load_entry sd kvs | Err _ => sd end in
  foldl handle_event sd evs.

Definition GetOnlineNodeIDs `{MapRange} (sd : ServiceDiscovery) : list string :=
  (map_range (nodes sd)).*1.

Definition GetNodeInfo (nodeID : string) (sd : ServiceDiscovery) : option string * bool :=
  match nodes sd !! nodeID with
  | Some val => (Some val, true)
  | None => (None, false)
  end.

(** ** Reference: the last event of a node decides *)

Definition event_node (ev : watch_event) : string :=
  match ev with EventTypePut key _ | EventTypeDelete key => extractNodeID key end.

Definition event_value (ev : watch_event) : option string :=
  match ev with EventTypePut _ value => Some value | EventTypeDelete _ => None end.

(** The history: entries of the load count as puts. *)
Definition history (kvs : result (list (string * string))) (evs : list watch_event)
  : list watch_event :=
  match kvs with Ok kvs => (λ kv, EventTypePut kv.1 kv.2) <$> kvs | Err _ => [] end ++ evs.

Definition last_value (nodeID : string) (h : list watch_event) : option string :=
  match last (filter (λ ev, event_node ev = nodeID) h) with
  | Some ev => event_value ev
  | None => None
  end.

(** ** Facts *)

Lemma foldl_nodes {A} (step : ServiceDiscovery → A → ServiceDiscovery) (ev : A → watch_event) sd xs nodeID :
  nodeID ≠ EmptyString →
  (∀ sd x, nodes (step sd x) !! nodeID =
     if decide (event_node (ev x) = nodeID) then event_value (ev x) else nodes sd !! nodeID) →
  nodes (foldl step sd xs) !! nodeID =
    match last (filter (λ e, event_node e = nodeID) (ev <$> xs)) with
    | Some e => event_value e
    | None => nodes sd !! nodeID
    end.
Proof.
  intros Hid Hstep. induction xs as [|x xs IH] using rev_ind; [done|].
  rewrite foldl_app. cbn [foldl]. rewrite Hstep, fmap_app, filter_app, last_app.
  change (ev <$> [x]) with [ev x].
  rewrite filter_cons, filter_nil. case_decide; [done|]. cbn. rewrite IH. by destruct (last _).
Qed.

Lemma handle_event_nodes sd ev nodeID :
  nodeID ≠ EmptyString →
  nodes (handle_event sd ev) !! nodeID =
    if decide (event_node ev = nodeID) then event_value ev else nodes sd !! nodeID.
Proof.
  intros Hid. destruct ev as [key value|key]; cbn; case_bool_decide as Hk.
  - rewrite Hk, decide_False by congruence. done.
  - cbn. case_decide as Hd; [by rewrite Hd, lookup_insert_eq|by rewrite lookup_insert_ne].
  - rewrite Hk, decide_False by congruence. done.
  - cbn. case_decide as Hd; [by rewrite Hd, lookup_delete_eq|by rewrite lookup_delete_ne].
Qed.

Lemma load_entry_nodes sd kv nodeID :
  nodeID ≠ EmptyString →
  nodes (load_entry sd kv) !! nodeID =
    if decide (event_node (EventTypePut kv.1 kv.2) = nodeID) then Some kv.2 else nodes sd !! nodeID.
Proof.
  intros Hid. unfold load_entry. cbn. case_bool_decide as Hk.
  - rewrite Hk, decide_False by congruence. done.
  - cbn. case_decide as Hd; [by rewrite Hd, lookup_insert_eq|by rewrite lookup_insert_ne].
Qed.

(** What one event adds to a channel with room. *)
Definition notification (sd : ServiceDiscovery) (ev : watch_event) : list NodeEvent :=
  if bool_decide (event_node ev = EmptyString) then []
  else [match ev with
        | EventTypePut key value =>
            mkNodeEvent (if bool_decide (is_Some (nodes sd !! event_node ev))
                         then NodeUpdated else NodeAdded) (event_node ev) key (Some value)
        | EventTypeDelete key => mkNodeEvent NodeRemoved (event_node ev) key None
        end].

Fixpoint notifications (sd : ServiceDiscovery) (evs : list watch_event) : list NodeEvent :=
  match evs with
  | [] => []
  | ev :: evs => notification sd ev ++ notifications (handle_event sd ev) evs
  end.

Lemma handle_event_listeners sd ev :
  Forall (λ ch, length ch ≤ 100)%nat (listeners sd) →
  listeners (handle_event sd ev) = (λ ch, take 100 (ch ++ notification sd ev)) <$> listeners sd.
Proof.
  intros Hcap. apply list_eq. intros i. rewrite list_lookup_fmap.
  assert (∀ evt sd', listeners (emit evt sd') !! i =
            (λ ch, take 100 (ch ++ [evt])) <$> (listeners sd' !! i) ∨
            ∃ ch, listeners sd' !! i = Some ch ∧ (100 < length ch)%nat) as Hemit.
  { intros evt sd'. unfold emit. cbn [listeners setf set_listeners]. rewrite list_lookup_fmap.
    destruct (listeners sd' !! i) as [ch|] eqn:Hch; [|by left].
    cbn [fmap option_fmap option_map]. unfold listener_capacity.
    destruct (Nat.ltb_spec (length ch) 100) as [Hlt|Hge].
    - left. rewrite (take_ge (ch ++ _)); [done|]. rewrite length_app. simpl. lia.
    - destruct (decide (length ch = 100%nat)) as [He|Hne].
      + left. by rewrite take_app_le, take_ge by lia.
      + right. exists ch. split; [done|lia]. }
  assert (∀ evt sd', listeners sd' = listeners sd →
            listeners (emit evt sd') !! i = (λ ch, take 100 (ch ++ [evt])) <$> (listeners sd !! i)) as Hemit'.
  { intros evt sd' Hsd. destruct (Hemit evt sd') as [->|(ch & Hch & Hlen)]; [by rewrite Hsd|].
    rewrite Hsd in Hch. apply (Forall_lookup_1 _ _ _ _ Hcap) in Hch. lia. }
  unfold handle_event, notification, event_node. destruct ev as [key value|key]; case_bool_decide.
  1, 3: destruct (listeners sd !! i) as [ch|] eqn:Hch; [|done]; cbn; rewrite app_nil_r, take_ge; [done|];
    by apply (Forall_lookup_1 _ _ _ _ Hcap Hch).
  all: by apply Hemit'.
Qed.

(** ** Properties *)

(** Both definitions of [extractNodeID], the one here and the one of the node
    manager, agree on every key, although one splits the key at every slash
    and the other at the first. *)
Lemma extractNodeID_agree (key : string) : extractNodeID key = NodeManager.extractNodeID key.
Proof.
  unfold extractNodeID, NodeManager.extractNodeID.
  pose proof (Split_head (TrimPrefix key "/nodes/") "/") as H.
  destruct (Split _ _), (SplitN2 _ _); simpl in H; try discriminate; [done|].
  by injection H as ->.
Qed.

(** C40 The cache is the state of the registry.  After the initial load and any
    sequence of watch events, the cache holds for every node the value of the
    last event about it, and nothing for a node whose last event is a deletion
    or that has none; keys without a node ID are ignored.  The IDs listed are
    exactly those with a value, once each. *)
Theorem discovery_reference `{MapRangeOk} (kvs : result (list (string * string)))
    (evs : list watch_event) :
  let sd := StartWatching kvs evs NewServiceDiscovery in
  (∀ nodeID, nodeID ≠ EmptyString →
     (GetNodeInfo nodeID sd).1 = last_value nodeID (history kvs evs) ∧
     (GetNodeInfo nodeID sd).2 = bool_decide (is_Some (last_value nodeID (history kvs evs)))) ∧
  NoDup (GetOnlineNodeIDs sd) ∧
  ∀ nodeID, nodeID ∈ GetOnlineNodeIDs sd ↔ is_Some (nodes sd !! nodeID).
Proof.
  intros sd. split; [|split].
  - intros nodeID Hid. assert (nodes sd !! nodeID = last_value nodeID (history kvs evs)) as Hsd.
    { unfold sd, StartWatching, last_value, history.
      rewrite (foldl_nodes handle_event id) by (done || (intros; by apply handle_event_nodes)).
      rewrite list_fmap_id, filter_app, last_app.
      destruct (last (filter _ evs)) as [e|]; [done|]. destruct kvs as [kvs|e]; [|done].
      rewrite (foldl_nodes load_entry (λ kv, EventTypePut kv.1 kv.2)) by
        (done || (intros; by apply load_entry_nodes)).
      by destruct (last _). }
    unfold GetNodeInfo. rewrite <- Hsd. by destruct (nodes sd !! nodeID).
  - apply NoDup_map_range.
  - intros nodeID. unfold GetOnlineNodeIDs. rewrite list_elem_of_fmap. split.
    + intros ([k v] & -> & Hin). apply elem_of_map_range in Hin. by eexists.
    + intros [v Hv]. exists (nodeID, v). by rewrite elem_of_map_range.
Qed.

Lemma discovery_reference_witness :
  let _ := CanonicalRange.range in
  let sd := StartWatching (Ok [("/nodes/a/status", "1"); ("/nodes/b/status", "2")]%string)
              [EventTypePut "/nodes/c/status" "3"; EventTypeDelete "/nodes/a/status";
               EventTypePut "/nodes/b/status" "4"]%string NewServiceDiscovery in
  (GetNodeInfo "b" sd).1 = Some "4"%string ∧ (GetNodeInfo "a" sd).1 = None.
Proof.
  intros rg sd.
  destruct (discovery_reference (H := rg) (H0 := CanonicalRange.range_ok)
    (Ok [("/nodes/a/status", "1"); ("/nodes/b/status", "2")]%string)
    [EventTypePut "/nodes/c/status" "3"; EventTypeDelete "/nodes/a/status";
     EventTypePut "/nodes/b/status" "4"]%string) as [H _].
  split.
  - destruct (H "b"%string) as [Hb _]; [discriminate|]. exact Hb.
  - destruct (H "a"%string) as [Ha _]; [discriminate|]. exact Ha.
Defined.

(** A subscriber that does not read sees the first hundred changes: whatever
    events arrive, every channel holds its earlier contents followed by the
    notifications of the events in order, cut at one hundred, and no event
    blocks or reorders another.  A put of an unknown node is announced as an
    addition, of a known one as an update, a deletion as a removal. *)
Lemma subscriber_buffer (sd : ServiceDiscovery) (evs : list watch_event) :
  Forall (λ ch, length ch ≤ 100)%nat (listeners sd) →
  listeners (foldl handle_event sd evs) =
    (λ ch, take 100 (ch ++ notifications sd evs)) <$> listeners sd.
Proof.
  revert sd. induction evs as [|ev evs IH]; intros sd Hcap; cbn [foldl notifications].
  - apply list_eq. intros i. rewrite list_lookup_fmap.
    destruct (listeners sd !! i) as [ch|] eqn:Hch; [|done]. cbn. rewrite app_nil_r, take_ge; [done|].
    by apply (Forall_lookup_1 _ _ _ _ Hcap Hch).
  - rewrite IH.
    + rewrite handle_event_listeners by done. rewrite <- list_fmap_compose. apply list_fmap_ext.
      intros i ch _. unfold compose.
      rewrite app_assoc. set (x := ch ++ notification sd ev). set (y := notifications _ evs).
      destruct (Nat.le_gt_cases (length x) 100).
      * by rewrite (take_ge x) by done.
      * rewrite !take_app_le, take_take by (rewrite ?length_take; lia). by rewrite Nat.min_id.
    + rewrite handle_event_listeners by done. apply Forall_fmap. eapply Forall_impl; [exact Hcap|].
      intros ch _. cbn. rewrite length_take. lia.
  Qed.

Lemma subscriber_buffer_witness :
  let sd := Subscribe NewServiceDiscovery in
  listeners (foldl handle_event sd [EventTypePut "/nodes/a" "1"; EventTypePut "/nodes/a" "2"]%string) =
    [[mkNodeEvent NodeAdded "a" "/nodes/a" (Some "1"); mkNodeEvent NodeUpdated "a" "/nodes/a" (Some "2")]]%string.
Proof.
  intros sd. rewrite subscriber_buffer; [vm_compute; reflexivity|].
  vm_compute. repeat constructor.
Defined.
