(* ===== verification/RateLimit.v ===== *)
(** * Rate limiting ([internal/middleware/ratelimit.go])

    A counter per client address in Redis, with a lifetime of one minute set
    when it is created.  The middleware either passes the request on, with the
    headers it sets, or answers 429 and aborts. *)

From S2P Require Import Prelude GoFormat.

(** The Redis commands on counters.  [c_TTL] is the reply as a duration, its
    error dropped as [Val] drops it. *)
Class RedisCounter (C : Type) := {
  c_Incr (key : string) : C → result Z * C;
  c_Expire (key : string) (ttl : Duration) : C → C;
  c_TTL (key : string) : C → Duration * C;
}.

(** INCR adds one to the key, which counts as zero when absent; setting a
    lifetime and asking for it leave the counters as they are.  (A counter
    disappears between commands when its time is up.) *)
Class RedisCounterOk (C : Type) `{RedisCounter C} := {
  c_count : string → C → Z;
  c_Incr_ok k s n s' : c_Incr k s = (Ok n, s') →
    n = c_count k s + 1 ∧ c_count k s' = n ∧ ∀ k', k' ≠ k → c_count k' s' = c_count k' s;
  c_Expire_count k k' d s : c_count k' (c_Expire k d s) = c_count k' s;
  c_TTL_count k k' s : c_count k' (c_TTL k s).2 = c_count k' s;
}.

Definition header : Type := string * string.

(** What the middleware does with the request. *)
Inductive outcome : Type :=
| Next (headers : list header)
| TooManyRequests (headers : list header).

Definition passes (o : outcome) : bool := match o with Next _ => true | TooManyRequests _ => false end.

Section ratelimit.
Context {C : Type} `{RedisCounter C}.

Definition ratelimit_key (clientIP : string) : string := "ratelimit:" +:+ clientIP.

(** [int64(ttl.Seconds())]: the fraction is cut off. *)
Definition whole_seconds (d : Duration) : Z := Z.quot d second.

Definition RateLimit (enabled : bool) (requestsPerMinute : Z) (clientIP : string) (now : Time)
  : M C outcome :=
  if negb enabled then mret (Next [])
  else
    let key := ratelimit_key clientIP in
    count ← action (c_Incr key);
    match count with
    | Err _ => mret (Next [])
    | Ok count =>
        (if count =? 1 then modify (c_Expire key minute) else mret tt) ;;
        if requestsPerMinute <? count then
          ttl ← action (c_TTL key);
          mret (TooManyRequests
            [("X-RateLimit-Limit", Itoa requestsPerMinute); ("X-RateLimit-Remaining", "0");
             ("X-RateLimit-Reset", Itoa (time_unix (time_add now ttl)));
             ("Retry-After", Itoa (whole_seconds ttl))])%string
        else
          mret (Next [("X-RateLimit-Limit", Itoa requestsPerMinute);
                      ("X-RateLimit-Remaining", Itoa (requestsPerMinute -64 count))])%string
    end.

(** Requests one after the other: each with its address and time. *)
Fixpoint serve (enabled : bool) (limit : Z) (reqs : list (string * Time)) : M C (list outcome) :=
  match reqs with
  | [] => mret []
  | (ip, now) :: reqs =>
      o ← RateLimit enabled limit ip now;
      os ← serve enabled limit reqs;
      mret (o :: os)
  end.

(** The requests among [reqs] that come from [ip] and were passed on. *)
Definition passed (ip : string) (reqs : list (string * Time)) (os : list outcome) : list outcome :=
  (filter (λ x, x.1.1 = ip ∧ passes x.2 = true) (zip reqs os)).*2.
End ratelimit.

(** ** Facts *)

Section facts.
Context {C : Type} `{RedisCounterOk C}.

Lemma ratelimit_key_inj a b : ratelimit_key a = ratelimit_key b → a = b.
Proof. unfold ratelimit_key. apply (inj (String.append _)). Qed.

(** One request that Redis answers. *)
Lemma RateLimit_result limit ip now s n s1 :
  c_Incr (ratelimit_key ip) s = (Ok n, s1) →
  let '(o, s') := RateLimit true limit ip now s in
  passes o = negb (limit <? n) ∧ n = c_count (ratelimit_key ip) s + 1 ∧
  c_count (ratelimit_key ip) s' = n ∧
  ∀ ip', ip' ≠ ip → c_count (ratelimit_key ip') s' = c_count (ratelimit_key ip') s.
Proof.
  intros Hi. apply c_Incr_ok in Hi as Hc. destruct Hc as (Hn & Hc & Hne).
  unfold RateLimit, mbind, M_bind, action. cbn [negb]. rewrite Hi. cbn [fst snd].
  set (s2 := ((if n =? 1 then modify (c_Expire (ratelimit_key ip) minute) else mret tt : M C unit) s1).2).
  assert (∀ k, c_count k s2 = c_count k s1) as Hs2.
  { intros k. unfold s2. destruct (n =? 1); [apply c_Expire_count|done]. }
  destruct (limit <? n).
  - pose proof (c_TTL_count (ratelimit_key ip)) as Ht.
    destruct (c_TTL (ratelimit_key ip) s2) as [ttl s3] eqn:Hs3. cbn.
    assert (∀ k, c_count k s3 = c_count k s1) as Hs3'.
    { intros k. rewrite <- Hs2. specialize (Ht k s2). by rewrite Hs3 in Ht. }
    rewrite Hs3'. split_and!; try done. intros ip' Hip. rewrite Hs3'. apply Hne.
    by intros ?%ratelimit_key_inj.
  - cbn. rewrite Hs2. split_and!; try done. intros ip' Hip. rewrite Hs2. apply Hne.
    by intros ?%ratelimit_key_inj.
Qed.

(** Redis answers every increment. *)
Definition always_up : Prop := ∀ k s, is_ok (c_Incr k s).1 = true.

Lemma serve_passed limit ip reqs s :
  always_up → c_count (ratelimit_key ip) s <= limit →
  let '(os, s') := serve true limit reqs s in
  length os = length reqs ∧
  Z.of_nat (length (passed ip reqs os)) =
    Z.min (limit - c_count (ratelimit_key ip) s)
          (Z.of_nat (length (filter (λ r, r.1 = ip) reqs))).
Proof.
  intros Hup. assert (∀ s, 
    let '(os, s') := serve true limit reqs s in
    length os = length reqs ∧
    Z.of_nat (length (passed ip reqs os)) =
      Z.min (Z.max 0 (limit - c_count (ratelimit_key ip) s))
            (Z.of_nat (length (filter (λ r, r.1 = ip) reqs)))) as Hall.
  { clear s. induction reqs as [|[ip' now] reqs IH]; intros s; [cbn; split; [done|lia]|].
    cbn [serve]. unfold mbind, M_bind.
    destruct (c_Incr (ratelimit_key ip') s) as [r s1] eqn:Hi.
    pose proof (Hup (ratelimit_key ip') s) as Hr. rewrite Hi in Hr. destruct r as [n|]; [|done].
    pose proof (RateLimit_result limit ip' now s n s1 Hi) as Hres.
    destruct (RateLimit true limit ip' now s) as [o s'].
    destruct Hres as (Hp & Hn & Hc & Hne). cbn [fst snd]. specialize (IH s').
    destruct (serve true limit reqs s') as [os s'']. destruct IH as [Hlen IH].
    cbn [fst snd mret M_ret]. split; [cbn; by rewrite Hlen|].
    unfold passed in *. cbn [zip_with]. rewrite !filter_cons. cbn [fst snd].
    destruct (decide (ip' = ip)) as [->|Hip].
    - rewrite Hc in IH. destruct (Z.ltb_spec limit n) as [Hlt|Hge]; cbn in Hp.
      + rewrite decide_False by (intros [_ ?]; congruence). rewrite IH. cbn. lia.
      + rewrite decide_True by done. cbn [fmap list_fmap length]. rewrite Nat2Z.inj_succ, IH. lia.
    - rewrite decide_False by (by intros [? _]). rewrite IH, Hne by congruence. done. }
  intros Hle. specialize (Hall s). destruct (serve _ _ _ s) as [os s']. destruct Hall as [Hlen Hall].
  split; [done|]. rewrite Hall. lia.
Qed.
End facts.

(** *** Properties *)

(** C39 The limit is exact.  Within a window (no counter expires) and with Redis
    answering, of the requests of any clients, in any order, those of one
    client are passed on until its counter reaches the limit and refused from
    then on: starting from zero, exactly the first [limit] go through,
    independently of the other clients. *)
Theorem RateLimit_exact {C} `{RedisCounterOk C} (limit : Z) (ip : string)
    (reqs : list (string * Time)) (s : C) :
  always_up → c_count (ratelimit_key ip) s = 0 → 0 <= limit →
  let '(os, s') := serve true limit reqs s in
  Z.of_nat (length (passed ip reqs os)) =
    Z.min limit (Z.of_nat (length (filter (λ r, r.1 = ip) reqs))).
Proof.
  intros Hup Hs Hl. pose proof (serve_passed limit ip reqs s Hup) as H'.
  destruct (serve true limit reqs s) as [os s']. destruct H' as [_ H']; [lia|]. rewrite H'. lia.
Qed.

(** A Redis whose counters never expire. *)
#[local] Instance map_counter : RedisCounter (gmap string Z) := {|
  c_Incr k s := let n := default 0 (s !! k) + 1 in (Ok n, <[k := n]> s);
  c_Expire _ _ s := s; c_TTL _ s := (minute, s) |}.

#[local] Program Instance map_counter_ok : RedisCounterOk (gmap string Z) := {|
  c_count k s := default 0 (s !! k) |}.
Next Obligation.
  intros k s n s' [= <- <-]. split_and!; [done| |].
  - unfold c_count. change (default 0 (<[k := default 0 (s !! k) + 1]> s !! k) = default 0 (s !! k) + 1).
    by rewrite lookup_insert_eq.
  - intros k' Hk. change (default 0 (<[k := default 0 (s !! k) + 1]> s !! k') = default 0 (s !! k')).
    by rewrite lookup_insert_ne.
Qed.
Next Obligation. done. Qed.
Next Obligation. done. Qed.

Lemma RateLimit_exact_witness :
  let reqs := [("a", 0); ("b", 1); ("a", 2); ("a", 3)]%string in
  passes <$> (serve true 2 reqs (∅ : gmap string Z)).1 = [true; true; true; false] ∧
  Z.of_nat (length (passed "a" reqs (serve true 2 reqs (∅ : gmap string Z)).1)) = 2.
Proof.
  intros reqs. split; [vm_compute; reflexivity|].
  assert (0 <= 2) as Hl by lia. assert (@always_up (gmap string Z) _) as Hup by (intros k s; reflexivity).
  pose proof (RateLimit_exact 2 "a" reqs (∅ : gmap string Z) Hup eq_refl Hl) as H.
  destruct (serve true 2 reqs (∅ : gmap string Z)) as [os s']. exact H.
Defined.
