(* ===== verification/Pool.v ===== *)
(** * The pool of connections to the agents ([internal/grpcclient/pool.go])

    The two maps of the pool, under a lock, and the connections of the process.
    [GetOrCreate] takes the lock twice and dials in between, so it is three
    steps that interleave with those of other goroutines; [Remove], [Close] and
    [Len] hold the lock throughout and are one step each.  Dialling is gRPC's:
    it fails or gives a connection that was not there before. *)

From stdpp Require Import relations fin_maps.
From S2P Require Import Prelude.

(** A connection; a client is a thin wrapper of the connection it was made
    from, [proto.NewAgentServiceClient(conn)]. *)
Definition conn := nat.
Definition client := conn.

Record Pool : Type := mkPool {
  clients : gmap string client;
  conns : gmap string conn;
}.

Definition NewPool : Pool := mkPool ∅ ∅.

(** The first critical section of [GetOrCreate]: a client to return. *)
Definition lookup_client (nodeID : string) (p : Pool) : option client := clients p !! nodeID.

(** [fmt.Errorf("dial agent %s at %s: %w", nodeID, addr, err)] *)
Definition dial_error (nodeID addr : string) (err : error) : error :=
  WrapError ("dial agent " +:+ nodeID +:+ " at " +:+ addr) err.

(** The second critical section, with the dialled connection: the client to
    return, the connections to close, and the pool. *)
Definition add_client (nodeID : string) (c : conn) (p : Pool) : client * list conn * Pool :=
  match clients p !! nodeID with
  | Some existing => (existing, [c], p)
  | None => (c, [], mkPool (<[nodeID := c]> (clients p)) (<[nodeID := c]> (conns p)))
  end.

Definition Remove (nodeID : string) (p : Pool) : list conn * Pool :=
  match conns p !! nodeID with
  | Some c => ([c], mkPool (delete nodeID (clients p)) (delete nodeID (conns p)))
  | None => ([], mkPool (delete nodeID (clients p)) (conns p))
  end.

Definition Close (p : Pool) : list conn * Pool := ((map_to_list (conns p)).*2, mkPool ∅ ∅).

Definition Len (p : Pool) : Z := Z.of_nat (size (clients p)).

(** ** Interleaving *)

(** The process: the pool, the open connections, and the calls of
    [GetOrCreate] that are dialling or have dialled. *)
Record Proc : Type := mkProc {
  pool : Pool;
  opened : gset conn;
  dialling : list string;
  dialled : list (string * conn);
}.

Definition close_all (cs : list conn) (o : gset conn) : gset conn := o ∖ list_to_set cs.

(** What a goroutine sees when a call of [GetOrCreate] returns. *)
Inductive outcome : Type :=
| Returns (nodeID : string) (c : client)
| Fails (nodeID : string) (err : error)
| Silent.

Inductive pool_step (x : Proc) : outcome → Proc → Prop :=
| get_hit n c :
    lookup_client n (pool x) = Some c → pool_step x (Returns n c) x
| get_miss n :
    lookup_client n (pool x) = None →
    pool_step x Silent (mkProc (pool x) (opened x) (n :: dialling x) (dialled x))
| dial_failed n addr err d :
    dialling x ≡ₚ n :: d →
    pool_step x (Fails n (dial_error n addr err)) (mkProc (pool x) (opened x) d (dialled x))
| dial_done n d c :
    dialling x ≡ₚ n :: d → c ∉ opened x →
    pool_step x Silent (mkProc (pool x) ({[ c ]} ∪ opened x) d ((n, c) :: dialled x))
| get_added n c d r cs p :
    dialled x ≡ₚ (n, c) :: d → add_client n c (pool x) = (r, cs, p) →
    pool_step x (Returns n r) (mkProc p (close_all cs (opened x)) (dialling x) d)
| pool_remove n cs p :
    Remove n (pool x) = (cs, p) →
    pool_step x Silent (mkProc p (close_all cs (opened x)) (dialling x) (dialled x))
| pool_close cs p :
    Close (pool x) = (cs, p) →
    pool_step x Silent (mkProc p (close_all cs (opened x)) (dialling x) (dialled x)).

Definition no_calls : Proc := mkProc NewPool ∅ [] [].

Definition pool_reachable (x : Proc) : Prop := rtc (λ a b, ∃ o, pool_step a o b) no_calls x.

(** ** The invariant *)

(** Client and connection go together; the open connections are exactly those
    of the pool and of the calls in between, each held once. *)
Record pool_ok (x : Proc) : Prop := {
  po_same : clients (pool x) = conns (pool x);
  po_open c : c ∈ opened x ↔ (∃ n, conns (pool x) !! n = Some c) ∨ (∃ n, (n, c) ∈ dialled x);
  po_pool n n' c : conns (pool x) !! n = Some c → conns (pool x) !! n' = Some c → n = n';
  po_dialled : NoDup (dialled x).*2;
  po_apart n n' c : conns (pool x) !! n = Some c → (n', c) ∉ dialled x }.

Lemma elem_of_snds (ds : list (string * conn)) c : c ∈ ds.*2 ↔ ∃ n, (n, c) ∈ ds.
Proof.
  rewrite list_elem_of_fmap. split.
  - intros ([n c'] & -> & Hin). by exists n.
  - intros [n Hin]. by exists (n, c).
Qed.

Lemma dialled_ok x n d c :
  c ∉ opened x → pool_ok x →
  pool_ok (mkProc (pool x) ({[ c ]} ∪ opened x) d ((n, c) :: dialled x)).
Proof.
  intros Hc [Hsame Hopen Hpool Hdial Hapart].
  assert (∀ n, (n, c) ∉ dialled x) as Hnew by (intros n' Hin; apply Hc, Hopen; eauto).
  split; cbn; [done| |done|..].
  - intros c'. rewrite elem_of_union, elem_of_singleton, Hopen. setoid_rewrite elem_of_cons.
    naive_solver.
  - constructor; [|done]. rewrite elem_of_snds. naive_solver.
  - intros n1 n2 c1 H1. rewrite not_elem_of_cons. split; [|by eapply Hapart].
    intros [= -> ->]. apply Hc, Hopen. eauto.
Qed.

Lemma added_ok x n c d r cs p :
  dialled x ≡ₚ (n, c) :: d → add_client n c (pool x) = (r, cs, p) → pool_ok x →
  pool_ok (mkProc p (close_all cs (opened x)) (dialling x) d).
Proof.
  intros Hd Ha [Hsame Hopen Hpool Hdial Hapart].
  rewrite Hd in Hdial. cbn in Hdial. apply NoDup_cons in Hdial as [Hcd Hdial].
  assert (∀ q, q ∈ dialled x ↔ q = (n, c) ∨ q ∈ d) as Hin by (intros q; by rewrite Hd, elem_of_cons).
  assert (∀ n', (n', c) ∉ d) as Hcd' by (intros n' Hn'; apply Hcd, elem_of_snds; eauto).
  assert (∀ n', conns (pool x) !! n' ≠ Some c) as Hcp.
  { intros n' Hn'. apply (Hapart n' n c Hn'), Hin. by left. }
  unfold add_client in Ha. destruct (clients (pool x) !! n) as [e|] eqn:He; injection Ha as <- <- <-.
  - split; cbn; [done| |done|done|].
    + intros c'. unfold close_all. rewrite elem_of_difference, list_to_set_singleton,
        elem_of_singleton, Hopen. setoid_rewrite Hin. split; [naive_solver|].
      intros [[n' Hn']|[n' Hn']]; (split; [eauto|]); intros ->; naive_solver.
    + intros n1 n2 c1 H1 H2. apply (Hapart n1 n2 c1 H1), Hin. by right.
  - rewrite Hsame in He. split; cbn; [by rewrite Hsame| | |done|].
    + intros c'. unfold close_all. cbn. rewrite difference_empty_L, Hopen. setoid_rewrite Hin.
      setoid_rewrite lookup_insert_Some. split; [|naive_solver].
      intros [[n' Hn']|[n' [[= -> ->]|Hn']]]; [|by left; exists n; left|by right; eauto].
      left. exists n'. right. split; [|done]. intros ->. by pose proof (eq_trans (eq_sym He) Hn').
    + intros n1 n2 c1. rewrite !lookup_insert_Some. naive_solver.
    + intros n1 n2 c1. rewrite lookup_insert_Some. intros [[<- <-]|[_ H1]]; [done|].
      intros H2. apply (Hapart n1 n2 c1 H1), Hin. by right.
Qed.

Lemma removed_ok x n cs p :
  Remove n (pool x) = (cs, p) → pool_ok x →
  pool_ok (mkProc p (close_all cs (opened x)) (dialling x) (dialled x)).
Proof.
  intros Hr [Hsame Hopen Hpool Hdial Hapart].
  unfold Remove in Hr. destruct (conns (pool x) !! n) as [c|] eqn:Hn; injection Hr as <- <-; cycle 1.
  { split; cbn; [|by unfold close_all; cbn; rewrite difference_empty_L|done..].
    rewrite Hsame. by apply delete_id. }
  split; cbn; [by rewrite Hsame| | |done|].
  - intros c'. unfold close_all. rewrite elem_of_difference, list_to_set_singleton,
      elem_of_singleton, Hopen. setoid_rewrite lookup_delete_Some. split.
    + intros [[[n' Hn']|?] Hne]; [|by right]. left. exists n'. split; [|done]. intros ->. congruence.
    + intros [[n' [Hne Hn']]|[n' Hn']]; (split; [eauto|]); intros ->;
        [apply Hne; by eapply Hpool|by eapply Hapart].
  - intros n1 n2 c1. rewrite !lookup_delete_Some. intros [_ ?] [_ ?]. by eapply Hpool.
  - intros n1 n2 c1. rewrite lookup_delete_Some. intros [_ ?]. by eapply Hapart.
Qed.

Lemma closed_ok x cs p :
  Close (pool x) = (cs, p) → pool_ok x →
  pool_ok (mkProc p (close_all cs (opened x)) (dialling x) (dialled x)).
Proof.
  intros Hr [Hsame Hopen Hpool Hdial Hapart]. injection Hr as <- <-.
  split; cbn; [done| |by intros ???; rewrite lookup_empty|done|by intros ???; rewrite lookup_empty].
  intros c. unfold close_all. rewrite elem_of_difference, elem_of_list_to_set, Hopen.
  rewrite list_elem_of_fmap. setoid_rewrite lookup_empty. split.
  - intros [[[n Hn]|?] Hno]; [|by right]. exfalso. apply Hno. exists (n, c).
    split; [done|]. by apply elem_of_map_to_list.
  - intros [[n Hn]|[n Hn]]; [done|]. split; [eauto|]. intros ([n' c'] & -> & Hn').
    apply elem_of_map_to_list in Hn'. by eapply Hapart.
Qed.

Lemma pool_step_ok x o y : pool_step x o y → pool_ok x → pool_ok y.
Proof.
  intros [n c Hl|n Hl|n addr err d Hd|n d c Hd Hc|n c d r cs p Hd Ha|n cs p Hr|cs p Hr] Hx.
  - done.
  - by destruct Hx.
  - by destruct Hx.
  - by apply dialled_ok.
  - by eapply added_ok.
  - by eapply removed_ok.
  - by eapply closed_ok.
Qed.

Lemma pool_reachable_ok x : pool_reachable x → pool_ok x.
Proof.
  intros Hx. unfold pool_reachable in Hx.
  assert (∀ a b, rtc (λ a b, ∃ o, pool_step a o b) a b → pool_ok a → pool_ok b) as Hind
    by (induction 1 as [|a b b' [o Ho] _ IH]; eauto using pool_step_ok).
  apply (Hind _ _ Hx). split; cbn; try done; [set_solver|constructor].
Qed.

(** C23 The pool neither leaks nor loses a connection, however calls of
    [GetOrCreate] race with each other and with [Remove] and [Close].  At any
    time the open connections are exactly the ones the pool holds, one per node
    and none for two nodes, and the ones dialled by a call that has not
    finished; the loser of a race closes its own and returns the winner's.
    Whatever a call returns is the pool's client for that node and its
    connection is open. *)
Theorem pool_no_leak (x : Proc) :
  pool_reachable x →
  (∀ c, c ∈ opened x ↔ (∃ n, conns (pool x) !! n = Some c) ∨ (∃ n, (n, c) ∈ dialled x)) ∧
  clients (pool x) = conns (pool x) ∧
  (∀ n n' c, conns (pool x) !! n = Some c → conns (pool x) !! n' = Some c → n = n') ∧
  (∀ n c y, pool_step x (Returns n c) y → clients (pool y) !! n = Some c ∧ c ∈ opened y) ∧
  (dialled x = [] → Len (pool x) = Z.of_nat (size (opened x))).
Proof.
  intros Hx%pool_reachable_ok. pose proof Hx as [Hsame Hopen Hpool Hdial Hapart].
  split_and!; [done..| |].
  - intros n c y Hstep. pose proof (pool_step_ok _ _ _ Hstep Hx) as Hy.
    assert (clients (pool y) !! n = Some c) as Hc.
    { inversion Hstep as [n0 c0 Hl| | | |n0 c0 d r cs p Hd Ha| |]; subst; [done|].
      unfold add_client in Ha. cbn. destruct (clients (pool x) !! n) as [e|] eqn:He;
        injection Ha as <- <- <-; [done|]. apply lookup_insert_eq. }
    split; [done|]. apply (po_open y Hy). left. exists n. by rewrite <- (po_same y Hy).
  - intros Hno. unfold Len. f_equal. rewrite Hsame.
    assert (opened x = list_to_set (map_to_list (conns (pool x))).*2) as ->.
    { apply set_eq. intros c. rewrite Hopen, Hno, elem_of_list_to_set, list_elem_of_fmap. split.
      - intros [[n Hn]|[n Hn]]; [|by apply elem_of_nil in Hn]. exists (n, c). split; [done|].
        by apply elem_of_map_to_list.
      - intros ([n c'] & -> & Hn%elem_of_map_to_list). left. by exists n. }
    rewrite size_list_to_set.
    + rewrite length_fmap. by rewrite length_map_to_list.
    + apply NoDup_fmap_2_strong; [|apply NoDup_map_to_list].
      intros [n c] [n' c'] Hn%elem_of_map_to_list Hn'%elem_of_map_to_list. cbn in *. intros ->.
      f_equal. by eapply Hpool.
Qed.

(** ** Witness: two calls race for one node *)

Definition demo_pool : Proc :=
  mkProc (mkPool {[ "node-1" := 0%nat ]} {[ "node-1" := 0%nat ]}) {[ 0%nat ]} [] [].

Lemma demo_pool_reachable : pool_reachable demo_pool.
Proof.
  unfold pool_reachable.
  eapply rtc_l; [by eexists; apply (get_miss _ "node-1")|].
  eapply rtc_l; [by eexists; apply (get_miss _ "node-1")|].
  eapply rtc_l; [eexists; by apply (dial_done _ "node-1" ["node-1"%string] 0%nat)|].
  eapply rtc_l; [eexists; apply (dial_done _ "node-1" [] 1%nat); [done|by vm_compute]|].
  eapply rtc_l; [eexists; eapply (get_added _ "node-1" 0%nat [("node-1"%string, 1%nat)]);
    [apply Permutation_swap|reflexivity]|].
  eapply rtc_l; [eexists; eapply (get_added _ "node-1" 1%nat []); [done|reflexivity]|].
  match goal with |- rtc _ ?x _ => assert (x = demo_pool) as ->; [|apply rtc_refl] end.
  unfold demo_pool. cbn. f_equal.
Qed.

Lemma pool_no_leak_witness :
  Len (pool demo_pool) = 1 ∧ (∀ n c y, pool_step demo_pool (Returns n c) y → c ∈ opened y).
Proof.
  destruct (pool_no_leak demo_pool demo_pool_reachable) as (_ & _ & _ & Hret & Hlen). split.
  - etrans; [exact (Hlen eq_refl)|]. by vm_compute.
  - intros n c y Hs. apply (Hret n c y Hs).
Defined.
