(* ===== verification/Config.v ===== *)
(** * Configuration ([internal/config])

    [Load] of [config.go]: the settings it gives to Viper, and the environment
    variables it applies by hand to what Viper returns; and the watcher of
    [watcher.go], which feeds a prefix of etcd to a callback.  Viper and etcd
    are outside the program and come in as their answers. *)

From S2P Require Import Prelude GoFormat.

(** ** The structs *)

Record EtcdConfig : Type := mkEtcdConfig { Endpoints : list string; DialTimeoutSec : Z }.
Record RedisConfig : Type := mkRedisConfig { RedisAddr : string; RedisPassword : string; DB : Z }.
Record RetryConfig : Type := mkRetryConfig {
  MaxAttempts : Z; InitialIntervalSec : Z; MaxIntervalSec : Z; Multiplier : Z }.
Record RateLimitConfig : Type := mkRateLimitConfig { Enabled : bool; RequestsPerMinute : Z }.
Record ServerConfig : Type := mkServerConfig { ServerPort : Z; ServerHost : string }.
Record DatabaseConfig : Type := mkDatabaseConfig {
  DatabaseHost : string; DatabasePort : Z; User : string; DatabasePassword : string;
  DBName : string; SSLMode : string }.
Record SchedulerConfig : Type := mkSchedulerConfig { TickIntervalMs : Z; MaxConcurrentTasks : Z }.
Record ExecutorConfig : Type := mkExecutorConfig { DefaultTimeoutSec : Z; DefaultWorkdir : string }.
Record GRPCConfig : Type := mkGRPCConfig { GRPCPort : Z }.
Record AgentConfig : Type := mkAgentConfig { HeartbeatIntervalSec : Z; HeartbeatTimeoutSec : Z }.

Record Config : Type := mkConfig {
  Server : ServerConfig;
  Database : DatabaseConfig;
  Redis : RedisConfig;
  Etcd : EtcdConfig;
  Scheduler : SchedulerConfig;
  Executor : ExecutorConfig;
  Retry : RetryConfig;
  RateLimit : RateLimitConfig;
  GRPC : GRPCConfig;
  Agent : AgentConfig;
}.

(** [ServerConfig.Addr] and [DatabaseConfig.DSN]. *)
Definition Addr (s : ServerConfig) : string := ServerHost s +:+ ":" +:+ Itoa (ServerPort s).

Definition DSN (d : DatabaseConfig) : string :=
  "postgres://" +:+ User d +:+ ":" +:+ DatabasePassword d +:+ "@" +:+ DatabaseHost d +:+ ":" +:+
  Itoa (DatabasePort d) +:+ "/" +:+ DBName d +:+ "?sslmode=" +:+ SSLMode d.

(** ** Viper *)

Inductive setting : Type :=
| SInt (n : Z)
| SString (s : string)
| SBool (b : bool)
| SStrings (l : list string).

Inductive config_source : Type :=
| ConfigFile (path : string)                                   (* SetConfigFile *)
| ConfigSearch (name type : string) (paths : list string).     (* SetConfigName, AddConfigPath *)

(** Everything [Load] tells Viper. *)
Record viper_settings : Type := mkViper {
  vs_source : config_source;
  vs_env_prefix : string;
  vs_env_replace : string * string;
  vs_automatic_env : bool;
  vs_defaults : list (string * setting);
}.

Inductive read_error : Type :=
| ConfigFileNotFoundError
| ReadError (err : error).

(** What [ReadInConfig] and [Unmarshal] answer for given settings. *)
Class Viper := {
  v_ReadInConfig : viper_settings → option read_error;
  v_Unmarshal : viper_settings → result Config;
}.

Definition source (configPath : string) : config_source :=
  if bool_decide (configPath = EmptyString)
  then ConfigSearch "config" "yaml" ["./configs"%string; "."%string]
  else ConfigFile configPath.

Definition defaults : list (string * setting) := [
  ("server.port", SInt 8080); ("server.host", SString "0.0.0.0");
  ("database.host", SString "localhost"); ("database.port", SInt 5432);
  ("database.sslmode", SString "disable");
  ("redis.addr", SString "localhost:6379"); ("redis.password", SString EmptyString);
  ("redis.db", SInt 0);
  ("scheduler.tick_interval_ms", SInt 500); ("scheduler.max_concurrent_tasks", SInt 10);
  ("executor.default_timeout_sec", SInt 300); ("executor.default_workdir", SString "/tmp");
  ("retry.max_attempts", SInt 3); ("retry.initial_interval_sec", SInt 1);
  ("retry.max_interval_sec", SInt 60); ("retry.multiplier", SInt 2);
  ("rate_limit.enabled", SBool true); ("rate_limit.requests_per_minute", SInt 100);
  ("grpc.port", SInt 50051);
  ("etcd.endpoints", SStrings ["localhost:2379"%string]); ("etcd.dial_timeout_sec", SInt 5);
  ("agent.heartbeat_interval_sec", SInt 10); ("agent.heartbeat_timeout_sec", SInt 30)]%string.

Definition settings (configPath : string) : viper_settings := {|
  vs_source := source configPath; vs_env_prefix := "MINIBK"; vs_env_replace := (".", "_")%string;
  vs_automatic_env := true; vs_defaults := defaults |}.

(** ** Load *)

(** [if s := os.Getenv(name); s != "" { set(s) }] *)
Definition env_string (getenv : string → string) (name : string) (set : string → Config → Config)
    (cfg : Config) : Config :=
  let s := getenv name in
  if bool_decide (s = EmptyString) then cfg else set s cfg.

(** The same for a number; one that does not parse is logged and ignored. *)
Definition env_int (getenv : string → string) (name : string) (set : Z → Config → Config)
    (cfg : Config) : Config :=
  env_string getenv name (λ s cfg, let '(n, ok) := Atoi s in if ok then set n cfg else cfg) cfg.

Definition set_server (f : ServerConfig → ServerConfig) (c : Config) : Config :=
  mkConfig (f (Server c)) (Database c) (Redis c) (Etcd c) (Scheduler c) (Executor c) (Retry c)
    (RateLimit c) (GRPC c) (Agent c).
Definition set_database (f : DatabaseConfig → DatabaseConfig) (c : Config) : Config :=
  mkConfig (Server c) (f (Database c)) (Redis c) (Etcd c) (Scheduler c) (Executor c) (Retry c)
    (RateLimit c) (GRPC c) (Agent c).
Definition set_scheduler (f : SchedulerConfig → SchedulerConfig) (c : Config) : Config :=
  mkConfig (Server c) (Database c) (Redis c) (Etcd c) (f (Scheduler c)) (Executor c) (Retry c)
    (RateLimit c) (GRPC c) (Agent c).
Definition set_executor (f : ExecutorConfig → ExecutorConfig) (c : Config) : Config :=
  mkConfig (Server c) (Database c) (Redis c) (Etcd c) (Scheduler c) (f (Executor c)) (Retry c)
    (RateLimit c) (GRPC c) (Agent c).

(** The overrides at the end of [Load], in their order. *)
Definition overrides (getenv : string → string) (cfg : Config) : Config :=
  let cfg := env_int getenv "MINIBK_SERVER_PORT"
    (λ p, set_server (λ s, mkServerConfig p (ServerHost s))) cfg in
  let cfg := env_string getenv "MINIBK_DATABASE_HOST"
    (λ h, set_database (λ d, mkDatabaseConfig h (DatabasePort d) (User d) (DatabasePassword d)
                               (DBName d) (SSLMode d))) cfg in
  let cfg := env_int getenv "MINIBK_DATABASE_PORT"
    (λ p, set_database (λ d, mkDatabaseConfig (DatabaseHost d) p (User d) (DatabasePassword d)
                               (DBName d) (SSLMode d))) cfg in
  let cfg := env_string getenv "MINIBK_DATABASE_USER"
    (λ u, set_database (λ d, mkDatabaseConfig (DatabaseHost d) (DatabasePort d) u
                               (DatabasePassword d) (DBName d) (SSLMode d))) cfg in
  let cfg := env_string getenv "MINIBK_DATABASE_PASSWORD"
    (λ p, set_database (λ d, mkDatabaseConfig (DatabaseHost d) (DatabasePort d) (User d) p
                               (DBName d) (SSLMode d))) cfg in
  let cfg := env_string getenv "MINIBK_DATABASE_DBNAME"
    (λ n, set_database (λ d, mkDatabaseConfig (DatabaseHost d) (DatabasePort d) (User d)
                               (DatabasePassword d) n (SSLMode d))) cfg in
  let cfg := env_string getenv "MINIBK_DATABASE_SSLMODE"
    (λ m, set_database (λ d, mkDatabaseConfig (DatabaseHost d) (DatabasePort d) (User d)
                               (DatabasePassword d) (DBName d) m)) cfg in
  let cfg := env_int getenv "MINIBK_SCHEDULER_TICK_INTERVAL_MS"
    (λ t, set_scheduler (λ s, mkSchedulerConfig t (MaxConcurrentTasks s))) cfg in
  let cfg := env_int getenv "MINIBK_SCHEDULER_MAX_CONCURRENT_TASKS"
    (λ m, set_scheduler (λ s, mkSchedulerConfig (TickIntervalMs s) m)) cfg in
  let cfg := env_int getenv "MINIBK_EXECUTOR_DEFAULT_TIMEOUT_SEC"
    (λ t, set_executor (λ e, mkExecutorConfig t (DefaultWorkdir e))) cfg in
  env_string getenv "MINIBK_EXECUTOR_DEFAULT_WORKDIR"
    (λ w, set_executor (λ e, mkExecutorConfig (DefaultTimeoutSec e) w)) cfg.

Definition Load `{Viper} (getenv : string → string) (configPath : string) : result Config :=
  let v := settings configPath in
  match v_ReadInConfig v with
  | Some (ReadError err) => Err (WrapError "read config" err)
  | Some ConfigFileNotFoundError | None =>
      match v_Unmarshal v with
      | Err err => Err (WrapError "unmarshal config" err)
      | Ok cfg => Ok (overrides getenv cfg)
      end
  end.

(** ** The watcher *)

(** [kv.Key] and [kv.Value]. *)
Definition KeyValue : Type := string * string.

Inductive event_type : Type := EventTypePut | EventTypeDelete.

#[export] Instance event_type_eq_dec : EqDecision event_type.
Proof. solve_decision. Defined.

(** What etcd answers to [Get] with the prefix: the pairs and the revision of
    the header. *)
Record get_reply : Type := mkGetReply { gr_kvs : result (list KeyValue); gr_revision : option Z }.

(** The revision the watch starts from; [resp] is nil after an error. *)
Definition watch_revision (reply : get_reply) : Z :=
  match gr_revision reply with Some rev => rev + 1 | None => 0 end.

Section watcher.
Context {W : Type} (callback : string → string → W → W).

(** The initial load. *)
Definition initial_load (reply : get_reply) (w : W) : W :=
  match gr_kvs reply with
  | Ok kvs => foldl (λ w kv, callback kv.1 kv.2 w) w kvs
  | Err _ => w
  end.

(** One event of the watch. *)
Definition watch_event (w : W) (ev : event_type * KeyValue) : W :=
  match ev.1 with
  | EventTypePut => callback ev.2.1 ev.2.2 w
  | EventTypeDelete => w
  end.

(** [Watch] and its goroutine, over the events etcd delivers from a revision
    on; [None]: no client. *)
Definition Watch (client : option (get_reply * (Z → list (event_type * KeyValue)))) (w : W) : W :=
  match client with
  | None => w
  | Some (reply, events) =>
      foldl watch_event (initial_load reply w) (events (watch_revision reply))
  end.
End watcher.

(** [reply]: what [Put] answers; [None]: no client. *)
Definition UpdateConfig (client : option (string → string → option error)) (key value : string)
  : option error :=
  match client with
  | None => None
  | Some put => put key value
  end.

(** ** Properties *)

(** The value of a text or numeric variable, else what was there before. *)
Definition text_or (getenv : string → string) (name : string) (old : string) : string :=
  if bool_decide (getenv name = EmptyString) then old else getenv name.

Definition number_or (getenv : string → string) (name : string) (old : Z) : Z :=
  if bool_decide (getenv name = EmptyString) then old
  else let '(n, ok) := Atoi (getenv name) in if ok then n else old.

Section env.
Context (getenv : string → string) (name : string).

(** A variable sets the field that [upd] writes and [get] reads. *)
Lemma env_string_eq (upd : string → Config → Config) (get : Config → string) c :
  upd (get c) c = c → env_string getenv name upd c = upd (text_or getenv name (get c)) c.
Proof. intros Hc. unfold env_string, text_or. by case_bool_decide. Qed.

Lemma env_int_eq (upd : Z → Config → Config) (get : Config → Z) c :
  upd (get c) c = c → env_int getenv name upd c = upd (number_or getenv name (get c)) c.
Proof.
  intros Hc. unfold env_int, env_string, number_or. case_bool_decide; [done|].
  by destruct (Atoi (getenv name)) as [n []].
Qed.
End env.

(** Reduces setters and projections of the sections. *)
Ltac fields :=
  cbv beta iota delta [set_server set_database set_scheduler set_executor
    Server Database Scheduler Executor Redis Etcd Retry RateLimit GRPC Agent
    ServerPort ServerHost DatabaseHost DatabasePort User DatabasePassword DBName SSLMode
    TickIntervalMs MaxConcurrentTasks DefaultTimeoutSec DefaultWorkdir].

Lemma overrides_fields getenv cfg :
  overrides getenv cfg =
    mkConfig
      (mkServerConfig (number_or getenv "MINIBK_SERVER_PORT" (ServerPort (Server cfg)))
         (ServerHost (Server cfg)))
      (mkDatabaseConfig
         (text_or getenv "MINIBK_DATABASE_HOST" (DatabaseHost (Database cfg)))
         (number_or getenv "MINIBK_DATABASE_PORT" (DatabasePort (Database cfg)))
         (text_or getenv "MINIBK_DATABASE_USER" (User (Database cfg)))
         (text_or getenv "MINIBK_DATABASE_PASSWORD" (DatabasePassword (Database cfg)))
         (text_or getenv "MINIBK_DATABASE_DBNAME" (DBName (Database cfg)))
         (text_or getenv "MINIBK_DATABASE_SSLMODE" (SSLMode (Database cfg))))
      (Redis cfg) (Etcd cfg)
      (mkSchedulerConfig
         (number_or getenv "MINIBK_SCHEDULER_TICK_INTERVAL_MS" (TickIntervalMs (Scheduler cfg)))
         (number_or getenv "MINIBK_SCHEDULER_MAX_CONCURRENT_TASKS" (MaxConcurrentTasks (Scheduler cfg))))
      (mkExecutorConfig
         (number_or getenv "MINIBK_EXECUTOR_DEFAULT_TIMEOUT_SEC" (DefaultTimeoutSec (Executor cfg)))
         (text_or getenv "MINIBK_EXECUTOR_DEFAULT_WORKDIR" (DefaultWorkdir (Executor cfg))))
      (Retry cfg) (RateLimit cfg) (GRPC cfg) (Agent cfg).
Proof.
  destruct cfg as [[p h] [dh dp du dw dn dm] r e [ti mc] [dt dwd] re rl g a].
  unfold overrides. cbv zeta.
  rewrite (env_int_eq _ "MINIBK_SERVER_PORT" _ (λ c, ServerPort (Server c))) by reflexivity; fields.
  rewrite (env_string_eq _ "MINIBK_DATABASE_HOST" _ (λ c, DatabaseHost (Database c))) by reflexivity; fields.
  rewrite (env_int_eq _ "MINIBK_DATABASE_PORT" _ (λ c, DatabasePort (Database c))) by reflexivity; fields.
  rewrite (env_string_eq _ "MINIBK_DATABASE_USER" _ (λ c, User (Database c))) by reflexivity; fields.
  rewrite (env_string_eq _ "MINIBK_DATABASE_PASSWORD" _ (λ c, DatabasePassword (Database c))) by reflexivity; fields.
  rewrite (env_string_eq _ "MINIBK_DATABASE_DBNAME" _ (λ c, DBName (Database c))) by reflexivity; fields.
  rewrite (env_string_eq _ "MINIBK_DATABASE_SSLMODE" _ (λ c, SSLMode (Database c))) by reflexivity; fields.
  rewrite (env_int_eq _ "MINIBK_SCHEDULER_TICK_INTERVAL_MS" _ (λ c, TickIntervalMs (Scheduler c))) by reflexivity; fields.
  rewrite (env_int_eq _ "MINIBK_SCHEDULER_MAX_CONCURRENT_TASKS" _ (λ c, MaxConcurrentTasks (Scheduler c))) by reflexivity; fields.
  rewrite (env_int_eq _ "MINIBK_EXECUTOR_DEFAULT_TIMEOUT_SEC" _ (λ c, DefaultTimeoutSec (Executor c))) by reflexivity; fields.
  rewrite (env_string_eq _ "MINIBK_EXECUTOR_DEFAULT_WORKDIR" _ (λ c, DefaultWorkdir (Executor c))) by reflexivity; fields.
  reflexivity.
Qed.

Lemma number_or_range getenv name old : in_i64 old → in_i64 (number_or getenv name old).
Proof.
  intros Ho. unfold number_or. case_bool_decide; [done|].
  pose proof (Atoi_range (getenv name)) as Hr. by destruct (Atoi (getenv name)) as [n []].
Qed.

(** The numbers of the sections that have variables. *)
Definition numbers (c : Config) : list Z :=
  [ServerPort (Server c); DatabasePort (Database c); TickIntervalMs (Scheduler c);
   MaxConcurrentTasks (Scheduler c); DefaultTimeoutSec (Executor c)].

(** What [Load] returns.  A configuration file that cannot be read is an
    error, only the answer that none was found is not.  Otherwise eleven
    variables of the environment each decide one field: a text if the variable
    is not empty, a number if it parses as one, and every other field is
    Viper's, in particular all of the sections redis, etcd, retry, rate limit,
    grpc and agent.  The numbers fit in 64 bits when Viper's do. *)
Lemma Load_exact `{Viper} (getenv : string → string) (configPath : string) :
  match v_ReadInConfig (settings configPath), v_Unmarshal (settings configPath) with
  | Some (ReadError err), _ => Load getenv configPath = Err (WrapError "read config" err)
  | _, Err err => Load getenv configPath = Err (WrapError "unmarshal config" err)
  | _, Ok c =>
      ∃ c', Load getenv configPath = Ok c' ∧
      Server c' = mkServerConfig (number_or getenv "MINIBK_SERVER_PORT" (ServerPort (Server c)))
                    (ServerHost (Server c)) ∧
      Database c' = mkDatabaseConfig
        (text_or getenv "MINIBK_DATABASE_HOST" (DatabaseHost (Database c)))
        (number_or getenv "MINIBK_DATABASE_PORT" (DatabasePort (Database c)))
        (text_or getenv "MINIBK_DATABASE_USER" (User (Database c)))
        (text_or getenv "MINIBK_DATABASE_PASSWORD" (DatabasePassword (Database c)))
        (text_or getenv "MINIBK_DATABASE_DBNAME" (DBName (Database c)))
        (text_or getenv "MINIBK_DATABASE_SSLMODE" (SSLMode (Database c))) ∧
      Scheduler c' = mkSchedulerConfig
        (number_or getenv "MINIBK_SCHEDULER_TICK_INTERVAL_MS" (TickIntervalMs (Scheduler c)))
        (number_or getenv "MINIBK_SCHEDULER_MAX_CONCURRENT_TASKS" (MaxConcurrentTasks (Scheduler c))) ∧
      Executor c' = mkExecutorConfig
        (number_or getenv "MINIBK_EXECUTOR_DEFAULT_TIMEOUT_SEC" (DefaultTimeoutSec (Executor c)))
        (text_or getenv "MINIBK_EXECUTOR_DEFAULT_WORKDIR" (DefaultWorkdir (Executor c))) ∧
      (Redis c', Etcd c', Retry c', RateLimit c', GRPC c', Agent c') =
        (Redis c, Etcd c, Retry c, RateLimit c, GRPC c, Agent c) ∧
      (Forall in_i64 (numbers c) → Forall in_i64 (numbers c'))
  end.
Proof.
  assert (∀ c, v_Unmarshal (settings configPath) = Ok c →
    match v_ReadInConfig (settings configPath) with Some (ReadError _) => False | _ => True end →
    Load getenv configPath = Ok (overrides getenv c)) as Hload.
  { intros c Hc. unfold Load. rewrite Hc. by destruct (v_ReadInConfig _) as [[|err]|]. }
  unfold Load in *.
  destruct (v_ReadInConfig (settings configPath)) as [[|err]|]; [|done|];
    destruct (v_Unmarshal (settings configPath)) as [c|err]; try done.
  all: eexists; split; [by apply Hload|]; rewrite overrides_fields; split_and!; try done.
  all: unfold numbers; fields; intros Hn; repeat (apply Forall_cons_1 in Hn as [? Hn]).
  all: repeat constructor; by apply number_or_range.
Qed.
