(* ===== verification/Runtime.v ===== *)
(** * The state of the server and the effects of its handlers

    The parts of the server are composed by [cmd/server/main.go]: one
    scheduler, one task service, one queue, one node manager and the clients
    of PostgreSQL, Redis and etcd.  [World] is their joint state, together
    with the task objects in memory, the goroutines that execute tasks, and
    the Pub/Sub messages in flight.

    Redis and etcd are services outside the program: what they answer is a
    type class, what the program relies on a second one.  The readings of the
    clock, the errors of the database driver and the generated UUIDs are
    streams of the [Host]. *)

From S2P Require Import Prelude GoStrings GoFormat Model TaskQueue TaskStore NodeStore.
From S2P Require Import NodeManager.

(** ** The environment *)

Class Host := {
  host_sort :: SortBy;
  host_range :: MapRange;
  host_pg :: PgTime;
  clock : nat → Time;               (* the i-th reading of time.Now *)
  utc_offset : Time → Z;            (* of the local time zone, in seconds *)
  db_fault : nat → option error;    (* what the i-th SQL statement fails with *)
  new_uuid : nat → string;          (* the i-th uuid.New().String() *)
}.

Class HostOk `{Host} := {
  host_sort_ok :: SortByOk;
  host_range_ok :: MapRangeOk;
}.

(** The Redis commands the handlers send.  [r_Get] is the reply with its error
    dropped, as the caller drops it; the reply of HINCRBY is never read. *)
Class Redis (R : Type) := {
  r_SetNX (key value : string) (ttl : Duration) : R → result bool * R;
  r_Get (key : string) : R → string * R;
  r_HIncrBy (key field : string) (n : Z) : R → unit * R;
  r_Publish (channel msg : string) : R → option error * R;
}.

(** SET NX sets a key only when it does not exist; the other commands leave
    existing keys in place. *)
Class RedisOk (R : Type) `{Redis R} := {
  r_exists : string → R → Prop;
  r_SetNX_true k v ttl s s' : r_SetNX k v ttl s = (Ok true, s') → r_exists k s';
  r_SetNX_exists k v ttl s : r_exists k s → (r_SetNX k v ttl s).1 ≠ Ok true;
  r_HIncrBy_exists k k' f n s : r_exists k s → r_exists k (r_HIncrBy k' f n s).2;
}.

(** What the program uses of an etcd transaction: comparisons of the version
    of a key (zero when there is no such key) with a number, puts under a lease
    ([0]: no lease) and gets. *)
Inductive Cmp : Type :=
| CompareVersion (key : string) (version : Z).

Inductive Op : Type :=
| OpPut (key value : string) (lease : Z)
| OpGet (key : string).

Record Txn : Type := mkTxn { txn_If : list Cmp; txn_Then : list Op; txn_Else : list Op }.

(** [e_txn] commits a transaction and answers [Succeeded]; [e_expire]: a lease
    ends, because nobody kept it alive or because it is revoked. *)
Class Etcd (K : Type) := {
  e_txn : Txn → K → result bool * K;
  e_expire (lease : Z) : K → K;
}.

(** What etcd keeps of a key: the number of puts since it was created, the
    value and the lease it is deleted with. *)
Record EtcdKV : Type := mkEtcdKV { kv_Version : positive; kv_Value : string; kv_Lease : Z }.

(** The documented effect of the parts of a transaction on the keys. *)
Definition version_of (key : string) (keys : gmap string EtcdKV) : Z :=
  from_option (λ kv, Z.pos (kv_Version kv)) 0 (keys !! key).

Definition next_version (key : string) (keys : gmap string EtcdKV) : positive :=
  from_option (λ kv, Pos.succ (kv_Version kv)) 1%positive (keys !! key).

Definition cmp_holds (keys : gmap string EtcdKV) (c : Cmp) : bool :=
  match c with CompareVersion key version => version_of key keys =? version end.

Definition apply_op (keys : gmap string EtcdKV) (o : Op) : gmap string EtcdKV :=
  match o with
  | OpPut key value lease => <[key := mkEtcdKV (next_version key keys) value lease]> keys
  | OpGet _ => keys
  end.

Definition op_lease_ok (leases : gset Z) (o : Op) : Prop :=
  match o with OpPut _ _ lease => lease = 0 ∨ lease ∈ leases | OpGet _ => True end.

Definition txn_branch (t : Txn) (keys : gmap string EtcdKV) : list Op :=
  if forallb (cmp_holds keys) (txn_If t) then txn_Then t else txn_Else t.

(** etcd evaluates the comparisons and applies the chosen branch as one step; a
    put under a lease that does not exist is refused.  A commit that fails for
    the client may have been applied or not.  When a lease ends its keys are
    deleted; keys without a lease ([0]) stay. *)
Class EtcdOk (K : Type) `{Etcd K} := {
  e_keys : K → gmap string EtcdKV;
  e_leases : K → gset Z;
  e_txn_ok t s b s' :
    e_txn t s = (Ok b, s') →
    b = forallb (cmp_holds (e_keys s)) (txn_If t) ∧
    Forall (op_lease_ok (e_leases s)) (txn_branch t (e_keys s)) ∧
    e_keys s' = foldl apply_op (e_keys s) (txn_branch t (e_keys s));
  e_txn_err t s e s' :
    e_txn t s = (Err e, s') →
    e_keys s' = e_keys s ∨ e_keys s' = foldl apply_op (e_keys s) (txn_branch t (e_keys s));
  e_txn_leases t s : e_leases (e_txn t s).2 = e_leases s;
  e_expire_keys lease s :
    e_keys (e_expire lease s) = filter (λ kv, lease = 0 ∨ kv_Lease kv.2 ≠ lease) (e_keys s);
  e_expire_leases lease s : e_leases (e_expire lease s) = e_leases s ∖ {[ lease ]};
}.

(** ** State *)

(** [scheduler.Scheduler]: the fields that change or are compared. *)
Record Scheduler : Type := mkScheduler {
  maxConcurrent : Z;
  tickInterval : Duration;
  totalCPU : Z;
  totalMemMB : Z;
  cancelFuncs : gmap string nat;        (* task UID to context *)
  nodeTasks : gmap string (list loc);   (* node ID to buffered channel *)
  schedulerID : string;
  leaseID : Z;
}.

Definition eta_Scheduler (s : Scheduler) :=
  mkScheduler (maxConcurrent s) (tickInterval s) (totalCPU s) (totalMemMB s) (cancelFuncs s)
    (nodeTasks s) (schedulerID s) (leaseID s).
#[export] Instance set_maxConcurrent : Setter maxConcurrent :=
  ltac:(mk_setter eta_Scheduler maxConcurrent).
#[export] Instance set_tickInterval : Setter tickInterval :=
  ltac:(mk_setter eta_Scheduler tickInterval).
#[export] Instance set_cancelFuncs : Setter cancelFuncs :=
  ltac:(mk_setter eta_Scheduler cancelFuncs).
#[export] Instance set_nodeTasks : Setter nodeTasks := ltac:(mk_setter eta_Scheduler nodeTasks).

(** [NewScheduler]: [numCPU] is [runtime.NumCPU()], [uuid] a generated UUID. *)
Definition NewScheduler (interval : Duration) (maxConc numCPU : Z) (uuid : string) (lease : Z)
  : Scheduler := {|
  maxConcurrent := maxConc; tickInterval := interval; totalCPU := numCPU; totalMemMB := 8192;
  cancelFuncs := ∅; nodeTasks := ∅;
  schedulerID := "scheduler-" +:+ String.substring 0 8 uuid; leaseID := lease |}.

Record World (Q K R : Type) : Type := mkWorld {
  w_clk : nat;                     (* clock readings so far *)
  w_stm : nat;                     (* SQL statements so far *)
  w_uuids : nat;                   (* UUIDs generated so far *)
  w_mem : Mem;                     (* the task objects *)
  w_db : TaskTable;
  w_queue : Q;
  w_redis : option R;              (* None: Redis is not configured *)
  w_etcd : option K;               (* None: etcd is not configured *)
  w_nodes : option NodeManager;    (* None: SetNodeManager was not called *)
  w_pubsub : list string;          (* cancel channels published, not yet delivered *)
  w_sched : Scheduler;
  w_ctx : nat;                     (* contexts created so far *)
  w_canceled : gset nat;           (* the contexts that are cancelled *)
  w_running : list (nat * loc);    (* goroutines: their context and their task *)
}.
Arguments mkWorld {Q K R}.
Arguments w_clk {Q K R}. Arguments w_stm {Q K R}. Arguments w_uuids {Q K R}.
Arguments w_mem {Q K R}. Arguments w_db {Q K R}. Arguments w_queue {Q K R}.
Arguments w_redis {Q K R}. Arguments w_etcd {Q K R}. Arguments w_nodes {Q K R}.
Arguments w_pubsub {Q K R}. Arguments w_sched {Q K R}. Arguments w_ctx {Q K R}.
Arguments w_canceled {Q K R}. Arguments w_running {Q K R}.

Section setters.
Context {Q K R : Type}.
Definition eta_World (w : World Q K R) : World Q K R :=
  mkWorld (w_clk w) (w_stm w) (w_uuids w) (w_mem w) (w_db w) (w_queue w) (w_redis w) (w_etcd w)
    (w_nodes w) (w_pubsub w) (w_sched w) (w_ctx w) (w_canceled w) (w_running w).
#[export] Instance set_w_clk : Setter (@w_clk Q K R) := ltac:(mk_setter eta_World (@w_clk Q K R)).
#[export] Instance set_w_stm : Setter (@w_stm Q K R) := ltac:(mk_setter eta_World (@w_stm Q K R)).
#[export] Instance set_w_uuids : Setter (@w_uuids Q K R) :=
  ltac:(mk_setter eta_World (@w_uuids Q K R)).
#[export] Instance set_w_mem : Setter (@w_mem Q K R) := ltac:(mk_setter eta_World (@w_mem Q K R)).
#[export] Instance set_w_db : Setter (@w_db Q K R) := ltac:(mk_setter eta_World (@w_db Q K R)).
#[export] Instance set_w_queue : Setter (@w_queue Q K R) :=
  ltac:(mk_setter eta_World (@w_queue Q K R)).
#[export] Instance set_w_redis : Setter (@w_redis Q K R) :=
  ltac:(mk_setter eta_World (@w_redis Q K R)).
#[export] Instance set_w_etcd : Setter (@w_etcd Q K R) :=
  ltac:(mk_setter eta_World (@w_etcd Q K R)).
#[export] Instance set_w_nodes : Setter (@w_nodes Q K R) :=
  ltac:(mk_setter eta_World (@w_nodes Q K R)).
#[export] Instance set_w_pubsub : Setter (@w_pubsub Q K R) :=
  ltac:(mk_setter eta_World (@w_pubsub Q K R)).
#[export] Instance set_w_sched : Setter (@w_sched Q K R) :=
  ltac:(mk_setter eta_World (@w_sched Q K R)).
#[export] Instance set_w_ctx : Setter (@w_ctx Q K R) := ltac:(mk_setter eta_World (@w_ctx Q K R)).
#[export] Instance set_w_canceled : Setter (@w_canceled Q K R) :=
  ltac:(mk_setter eta_World (@w_canceled Q K R)).
#[export] Instance set_w_running : Setter (@w_running Q K R) :=
  ltac:(mk_setter eta_World (@w_running Q K R)).
End setters.

(** ** Effects *)

Section effects.
Context {Q K R : Type} `{Host} `{TaskQueue Q} `{Etcd K} `{Redis R}.
Abbreviation W := (World Q K R).

(** [time.Now()], the outcome of the next SQL statement, [uuid.New()]. *)
Definition now : M W Time := λ w, (clock (w_clk w), w <| w_clk := S (w_clk w) |>).
Definition statement : M W (option error) :=
  λ w, (db_fault (w_stm w), w <| w_stm := S (w_stm w) |>).
Definition uuid : M W string := λ w, (new_uuid (w_uuids w), w <| w_uuids := S (w_uuids w) |>).

(** *** Objects *)

Definition load (l : loc) : M W Task := gets (λ w, deref (w_mem w) l).

(** Assignments to the fields of the object behind [l]. *)
Definition assign (l : loc) (f : Task → Task) : M W unit :=
  modify (λ w, w <| w_mem := <[l := f (deref (w_mem w) l)]> (w_mem w) |>).

Definition new (t : Task) : M W loc :=
  λ w, let '(l, m) := alloc t (w_mem w) in (l, w <| w_mem := m |>).

(** [task.TransitionTo(target)] on a shared object. *)
Definition transition (target : TaskStatus) (l : loc) : M W (option error) :=
  n ← now;
  t ← load l;
  let '(e, t) := TransitionTo n target t in
  assign l (λ _, t) ;;
  mret e.

(** *** The store: each method is one statement *)

Definition store_Create (l : loc) : M W (option error) :=
  fault ← statement;
  action (λ w,
    let '(e, t, tbl) := Create fault (deref (w_mem w) l) (w_db w) in
    (e, w <| w_mem := <[l := t]> (w_mem w) |> <| w_db := tbl |>)).

Definition store_Update (l : loc) : M W (option error) :=
  n ← now;
  fault ← statement;
  action (λ w,
    let '(e, t, tbl) := Update fault n (deref (w_mem w) l) (w_db w) in
    (e, w <| w_mem := <[l := t]> (w_mem w) |> <| w_db := tbl |>)).

Definition store_GetByUID (uid : string) : M W (result loc) :=
  fault ← statement;
  tbl ← gets w_db;
  match GetByUID fault uid tbl with
  | Err e => mret (Err e)
  | Ok t => l ← new t; mret (Ok l)
  end.

Fixpoint new_all (ts : list Task) : M W (list loc) :=
  match ts with
  | [] => mret []
  | t :: ts => l ← new t; ls ← new_all ts; mret (l :: ls)
  end.

Definition store_GetRunningTasks : M W (result (list loc)) :=
  fault ← statement;
  tbl ← gets w_db;
  match GetRunningTasks fault tbl with
  | Err e => mret (Err e)
  | Ok ts => ls ← new_all ts; mret (Ok ls)
  end.

Definition store_List (status : string) (page size : Z) : M W (result (list Task * Z)) :=
  fault_count ← statement;
  match fault_count with
  | Some e => mret (Err e)
  | None => fault_rows ← statement; gets (λ w, List None fault_rows status page size (w_db w))
  end.

(** *** The queue *)

Definition queue_Push (l : loc) : M W (option error) := λ w,
  let '(e, q) := q_Push (w_mem w) l (w_queue w) in (e, w <| w_queue := q |>).

Definition queue_PushPriority (l : loc) : M W (option error) := λ w,
  let '(e, q) := q_PushPriority (w_mem w) l (w_queue w) in (e, w <| w_queue := q |>).

Definition queue_PushDelayed (l : loc) (delay : Duration) : M W (option error) :=
  n ← now;
  action (λ w,
    let '(e, q) := q_PushDelayed n (w_mem w) l delay (w_queue w) in (e, w <| w_queue := q |>)).

Definition queue_Pop (timeout : Duration) : M W (result (option loc)) := λ w,
  let '(r, k, m, q) := q_Pop (λ i, clock (w_clk w + i)) timeout (w_mem w) (w_queue w) in
  (r, w <| w_clk := (w_clk w + k)%nat |> <| w_mem := m |> <| w_queue := q |>).

(** *** Redis; [None] when it is not configured *)

Definition redis_do {A} (cmd : R → A * R) : M W (option A) := λ w,
  match w_redis w with
  | None => (None, w)
  | Some r => let '(a, r) := cmd r in (Some a, w <| w_redis := Some r |>)
  end.

Definition has_redis : M W bool := gets (λ w, bool_decide (is_Some (w_redis w))).

(** [s.rdb.HIncrBy(ctx, "stats:daily:"+date, field, 1)] under [s.rdb != nil] *)
Definition count_daily (field : string) : M W unit :=
  rdb ← has_redis;
  if rdb : bool then
    n ← now;
    redis_do (r_HIncrBy ("stats:daily:" +:+ format_date (utc_offset n) n) field 1) ;;
    mret tt
  else mret tt.

(** A published message is in flight to the subscriber until it is
    delivered or lost. *)
Definition redis_Publish (channel : string) : M W (option error) :=
  r ← redis_do (r_Publish channel "canceled");
  match r with
  | Some None => modify (λ w, w <| w_pubsub := w_pubsub w ++ [channel] |>) ;; mret None
  | Some (Some e) => mret (Some e)
  | None => mret None
  end.

(** *** The scheduler's own state *)

Definition sched_modify (f : Scheduler → Scheduler) : M W unit :=
  modify (λ w, w <| w_sched := f (w_sched w) |>).
End effects.

(** ** Running a handler on one object

    Most handlers work on a single task.  Their effect is computed on a state
    of the form [put w l t]: [w] with [t] as the object behind [l]. *)

Section run.
Context {Q K R : Type} `{Host} `{TaskQueue Q} `{Etcd K} `{Redis R}.
Abbreviation W := (World Q K R).
Implicit Types (w : W) (l : loc) (t : Task).

Definition put w l t : W := w <| w_mem := <[l := t]> (w_mem w) |>.

Lemma put_self w l : (l < length (w_mem w))%nat → put w l (deref (w_mem w) l) = w.
Proof.
  intros Hl. unfold put. destruct (lookup_lt_is_Some_2 _ _ Hl) as [t Ht].
  rewrite (deref_lookup _ _ _ Ht), list_insert_id by done. by destruct w.
Qed.

Lemma put_put w l t t' : put (put w l t) l t' = put w l t'.
Proof. unfold put. cbn. by rewrite list_insert_insert_eq. Qed.

Lemma deref_put w l t : (l < length (w_mem w))%nat → deref (w_mem (put w l t)) l = t.
Proof. apply deref_insert. Qed.

Section on_object.
Context {A : Type} (w : W) (l : loc) (t : Task).
Hypothesis Hl : (l < length (w_mem w))%nat.

Lemma run_load (k : Task → M W A) : (load l ≫= k) (put w l t) = k t (put w l t).
Proof. unfold mbind, M_bind, load, gets. cbn [fst snd]. by rewrite deref_put. Qed.

Lemma run_assign f (k : unit → M W A) :
  (assign l f ≫= k) (put w l t) = k tt (put w l (f t)).
Proof.
  unfold mbind, M_bind, assign, modify. cbn [fst snd]. rewrite deref_put by done.
  by rewrite <- (put_put w l t (f t)).
Qed.

Lemma run_now (k : Time → M W A) :
  (now ≫= k) (put w l t) = k (clock (w_clk w)) (put (w <| w_clk := S (w_clk w) |>) l t).
Proof. done. Qed.

Lemma run_transition target (k : option error → M W A) :
  (transition target l ≫= k) (put w l t) =
    k (TransitionTo (clock (w_clk w)) target t).1
      (put (w <| w_clk := S (w_clk w) |>) l (TransitionTo (clock (w_clk w)) target t).2).
Proof.
  unfold transition, mbind, M_bind, now, load, assign, gets, modify. cbn.
  rewrite deref_insert by done. destruct (TransitionTo _ _ _) as [e t'].
  unfold put. cbn. by rewrite list_insert_insert_eq.
Qed.

(** [store.Update]: the row, unless the statement fails. *)
Lemma run_store_Update (k : option error → M W A) :
  (store_Update l ≫= k) (put w l t) =
    let t' := t <| UpdatedAt := clock (w_clk w) |> in
    let w' := w <| w_clk := S (w_clk w) |> <| w_stm := S (w_stm w) |> in
    match db_fault (w_stm w) with
    | Some e => k (Some e) (put w' l t')
    | None =>
        k None (put (w' <| w_db := mkTaskTable (alter (update_row t') (TaskUID t) (rows (w_db w)))
                                     (next_id (w_db w)) |>) l t')
    end.
Proof.
  unfold store_Update, mbind, M_bind, now, statement, action. cbn. rewrite deref_insert by done.
  unfold Update. destruct (db_fault (w_stm w)); unfold put; cbn; by rewrite list_insert_insert_eq.
Qed.

Lemma run_queue_PushDelayed d (k : option error → M W A) :
  (queue_PushDelayed l d ≫= k) (put w l t) =
    let r := q_PushDelayed (clock (w_clk w)) (<[l := t]> (w_mem w)) l d (w_queue w) in
    k r.1 (put (w <| w_clk := S (w_clk w) |> <| w_queue := r.2 |>) l t).
Proof.
  unfold queue_PushDelayed, mbind, M_bind, now, action. cbn.
  by destruct (q_PushDelayed _ _ _ _ _).
Qed.

Lemma run_sched_modify f (k : unit → M W A) :
  (sched_modify f ≫= k) (put w l t) = k tt (put (w <| w_sched := f (w_sched w) |>) l t).
Proof. done. Qed.

Lemma run_gets_nodes (k : option NodeManager → M W A) :
  (gets w_nodes ≫= k) (put w l t) = k (w_nodes w) (put w l t).
Proof. done. Qed.

Lemma run_ret (a : A) : (mret a : M W A) (put w l t) = (a, put w l t).
Proof. done. Qed.
End on_object.

(** The object read from a row is the last one. *)
Lemma run_store_GetByUID {A} w uid r (k : result loc → M W A) :
  db_fault (w_stm w) = None → rows (w_db w) !! uid = Some r →
  (store_GetByUID uid ≫= k) w =
    k (Ok (length (w_mem w)))
      (put (w <| w_stm := S (w_stm w) |> <| w_mem := w_mem w ++ [scanTask r] |>)
         (length (w_mem w)) (scanTask r)).
Proof.
  intros Hf Hr. unfold store_GetByUID, mbind, M_bind, statement, gets. cbn.
  unfold GetByUID. rewrite Hf, Hr. cbn. unfold put. cbn.
  by rewrite insert_app_r_alt, Nat.sub_diag by lia.
Qed.
End run.

(** Evaluates a handler that works on one object. *)
Ltac run :=
  repeat first
    [ rewrite run_load by done | rewrite run_assign by done | rewrite run_now by done
    | rewrite run_transition by done | rewrite run_store_Update by done
    | rewrite run_queue_PushDelayed by done | rewrite run_sched_modify
    | rewrite run_gets_nodes ].
