(* ===== verification/Concrete.v ===== *)
(** * A concrete environment

    An instance of every class the development is parametrised by, on which
    the definitions evaluate: a clock that ticks once per millisecond, a
    database that never fails, maps for Redis and etcd, insertion sort, and
    the in-memory queue.  The witnesses run on it. *)

From S2P Require Import Prelude GoStrings GoFormat Model TaskQueue InMemQueue TaskStore.
From S2P Require Import NodeStore NodeManager Runtime.

Definition simple_host : Host := {|
  host_sort := InsertionSort.sort; host_range := CanonicalRange.range;
  host_pg := Microseconds.micro;
  clock i := Z.of_nat i * millisecond; utc_offset _ := 0; db_fault _ := None;
  new_uuid i := "uuid-" +:+ Itoa (Z.of_nat i) |}.
#[export] Existing Instance simple_host.

#[export] Instance simple_host_ok : HostOk.
Proof. split; [apply InsertionSort.sort_ok|apply CanonicalRange.range_ok]. Qed.

(** Redis: the keys set by SETNX. *)
Definition SimpleRedis := gmap string string.

#[export] Instance simple_redis : Redis SimpleRedis := {|
  r_SetNX k v _ s :=
    match s !! k with Some _ => (Ok false, s) | None => (Ok true, <[k := v]> s) end;
  r_Get k s := (default EmptyString (s !! k), s);
  r_HIncrBy _ _ _ s := (tt, s);
  r_Publish _ _ s := (None, s) |}.

#[export] Program Instance simple_redis_ok : RedisOk SimpleRedis := {|
  r_exists k s := is_Some (s !! k) |}.
Next Obligation.
  intros k v ttl s s'. cbn. destruct (s !! k) eqn:Hk; intros [= <-].
  exists v. apply lookup_insert_eq.
Qed.
Next Obligation. intros k v ttl s [x Hx]. cbn in *. by rewrite Hx. Qed.
Next Obligation. intros k k' f n s. done. Qed.

(** etcd: its keys and the leases that exist. *)
Record SimpleEtcd : Type := mkSimpleEtcd { se_keys : gmap string EtcdKV; se_leases : gset Z }.

(** No key; the lease of the claims ([start]) has been granted. *)
Definition new_etcd : SimpleEtcd := mkSimpleEtcd ∅ {[ 7 ]}.

#[export] Instance op_lease_ok_dec leases o : Decision (op_lease_ok leases o).
Proof. destruct o; cbn; apply _. Defined.

#[export] Instance simple_etcd : Etcd SimpleEtcd := {|
  e_txn t s :=
    let b := forallb (cmp_holds (se_keys s)) (txn_If t) in
    let ops := txn_branch t (se_keys s) in
    if decide (Forall (op_lease_ok (se_leases s)) ops)
    then (Ok b, mkSimpleEtcd (foldl apply_op (se_keys s) ops) (se_leases s))
    else (Err (ErrorString "etcdserver: requested lease not found"), s);
  e_expire lease s :=
    mkSimpleEtcd (filter (λ kv, lease = 0 ∨ kv_Lease kv.2 ≠ lease) (se_keys s)) (se_leases s ∖ {[ lease ]}) |}.

#[export] Program Instance simple_etcd_ok : EtcdOk SimpleEtcd := {|
  e_keys := se_keys; e_leases := se_leases |}.
Next Obligation.
  intros t s b s'. cbn. case_decide as Hl; [|done]. intros [= <- <-]. done.
Qed.
Next Obligation. intros t s e s'. cbn. case_decide; [done|]. intros [= _ <-]. by left. Qed.
Next Obligation. intros t s. cbn. by case_decide. Qed.
Next Obligation. done. Qed.
Next Obligation. done. Qed.

Abbreviation CWorld := (World InMemQueue SimpleEtcd SimpleRedis).

(** The server just started: no task, an empty queue. *)
Definition start (redis : option SimpleRedis) (etcd : option SimpleEtcd)
    (nodes : option NodeManager) (slots cpus : Z) : CWorld := {|
  w_clk := 0; w_stm := 0; w_uuids := 0; w_mem := []; w_db := empty_table;
  w_queue := NewInMemQueue; w_redis := redis; w_etcd := etcd; w_nodes := nodes;
  w_pubsub := []; w_sched := NewScheduler (500 * millisecond) slots cpus "0123456789" 7;
  w_ctx := 0; w_canceled := ∅; w_running := [] |}.

(** [m] run on [w]. *)
Definition exec {A} (m : M CWorld A) (w : CWorld) : CWorld := (m w).2.
