(* ===== verification/Invariant.v ===== *)
(** * The invariant of the server

    Well-formedness of the state ([w_ok]), the resource budget ([within]) and
    the fields of a task object that never change ([frozen]), with a Hoare
    triple for every effect of [Runtime].  The handlers' triples, in the files
    of the components, are compositions of these. *)

From S2P Require Import Prelude Model TaskQueue TaskStore NodeStore NodeManager Runtime.

(** ** Tasks *)

(** What every task object and every row satisfies. *)
Record task_ok (t : Task) : Prop := {
  ok_status : Status t ∈ known_statuses;
  ok_max_retries : MaxRetries t = 3;
  ok_retry_interval : RetryIntervalSec t = 1;
  ok_retry_count : 0 <= RetryCount t <= 3;
  ok_cpu : 0 <= CPULimit t;
  ok_memory : 0 <= MemoryLimit t;
  ok_timeout : 0 < TimeoutSec t;
}.

(** The fields that are fixed when an object is made. *)
Definition identity (t : Task) : string * Z * Z := (TaskUID t, CPULimit t, MemoryLimit t).

Definition frozen (m m' : Mem) : Prop :=
  (length m ≤ length m')%nat ∧
  ∀ l, (l < length m)%nat → identity (deref m' l) = identity (deref m l).

#[export] Instance frozen_preorder : PreOrder frozen.
Proof.
  split; [done|]. intros m1 m2 m3 [H1 H2] [H3 H4]. split; [lia|].
  intros l Hl. rewrite H4 by lia. by apply H2.
Qed.

Lemma frozen_insert m m' l t :
  frozen m m' → identity t = identity (deref m' l) → frozen m (<[l := t]> m').
Proof.
  intros [H1 H2] Ht. split; [by rewrite length_insert|]. intros l' Hl'. rewrite <- H2 by done.
  destruct (decide (l = l')) as [<-|Hne]; [by rewrite deref_insert by lia|].
  by rewrite deref_insert_ne.
Qed.

Lemma frozen_prefix m m' m'' : frozen m m' → m' `prefix_of` m'' → frozen m m''.
Proof.
  intros Hm [k ->]. etrans; [exact Hm|]. split; [rewrite length_app; lia|].
  intros l Hl. by rewrite deref_app.
Qed.

(** ** Resources *)

Definition is_running (r : TaskRow) : bool := bool_decide (c_status r = TaskStatusRunning).
Definition row_cpu (r : TaskRow) : Z := if is_running r then c_cpu_limit r else 0.
Definition row_mem (r : TaskRow) : Z := if is_running r then c_memory_limit r else 0.
Definition row_one (r : TaskRow) : Z := if is_running r then 1 else 0.

Lemma row_idle r :
  c_status r ≠ TaskStatusRunning → row_cpu r = 0 ∧ row_mem r = 0 ∧ row_one r = 0.
Proof.
  intros Hr. unfold row_cpu, row_mem, row_one, is_running. by rewrite bool_decide_eq_false_2.
Qed.

(** The machine's resources, and the largest value [maxConcurrent] is ever
    configured to. *)
Record Limits : Type := mkLimits { cpus : Z; mems : Z; cap : Z }.

Section invariant.
Context {Q K R : Type} `{Host} `{TaskQueueOk Q} `{Etcd K} `{Redis R}.
Context (L : Limits).
Abbreviation W := (World Q K R).
Implicit Types (w : W) (m : Mem) (l : loc) (t : Task).

Definition in_mem m (l : loc) : Prop := (l < length m)%nat.

Record w_ok w : Prop := {
  ok_mem : Forall task_ok (w_mem w);
  ok_rows : ∀ uid r, rows (w_db w) !! uid = Some r → c_task_uid r = uid ∧ task_ok (scanTask r);
  ok_queue : q_inv task_ok (w_mem w) (w_queue w);
  ok_channels : ∀ n ch, nodeTasks (w_sched w) !! n = Some ch →
    (length ch ≤ 10)%nat ∧ Forall (in_mem (w_mem w)) ch;
  ok_running : Forall (λ x, in_mem (w_mem w) x.2) (w_running w);
  ok_slots : 0 <= maxConcurrent (w_sched w) <= cap L;
  ok_cap : cap L < 2 ^ 63;
  ok_total_cpu : totalCPU (w_sched w) = cpus L ∧ 0 <= cpus L < 2 ^ 63;
  ok_total_mem : totalMemMB (w_sched w) = mems L ∧ 0 <= mems L < 2 ^ 63;
}.

(** The running tasks of the table, plus what is still to be given out. *)
Definition within (b : Z * Z * Z) w : Prop :=
  msum row_cpu (rows (w_db w)) + b.1.1 <= cpus L ∧
  msum row_mem (rows (w_db w)) + b.1.2 <= mems L ∧
  msum row_one (rows (w_db w)) + b.2 <= cap L.

Definition Inv m (b : Z * Z * Z) w : Prop := w_ok w ∧ within b w ∧ frozen m (w_mem w).

(** ** Objects *)

Definition good m (l : loc) : Prop := in_mem m l ∧ task_ok (deref m l).

Lemma w_ok_deref w l : w_ok w → in_mem (w_mem w) l → task_ok (deref (w_mem w) l).
Proof. intros Hw. by apply Forall_deref, ok_mem. Qed.

Lemma Inv_in_mem m b w l : Inv m b w → in_mem m l → in_mem (w_mem w) l.
Proof. intros (_ & _ & [Hlen _]) Hl. unfold in_mem in *. lia. Qed.

Lemma Inv_task_ok m b w l : Inv m b w → in_mem m l → task_ok (deref (w_mem w) l).
Proof. intros HI Hl. apply w_ok_deref; [apply HI|by eapply Inv_in_mem]. Qed.

Lemma Inv_identity m b w l :
  Inv m b w → in_mem m l → identity (deref (w_mem w) l) = identity (deref m l).
Proof. intros (_ & _ & [_ Hf]). apply Hf. Qed.

(** A larger store of good objects is a good store. *)
Lemma w_ok_mem w m' :
  w_ok w → Forall task_ok m' → (length (w_mem w) ≤ length m')%nat →
  w_ok (w <| w_mem := m' |>).
Proof.
  intros Hw Hm' Hle. assert (∀ l, in_mem (w_mem w) l → in_mem m' l) as Hin.
  { unfold in_mem. intros l. lia. }
  destruct Hw. split; cbn; try done.
  - by eapply q_inv_mono.
  - intros n ch Hch. destruct (ok_channels0 n ch Hch) as [? Hall].
    split; [done|]. by eapply Forall_impl.
  - eapply Forall_impl; [exact ok_running0|]. auto.
Qed.

Lemma Inv_write m b w l t :
  Inv m b w → task_ok t → identity t = identity (deref (w_mem w) l) →
  Inv m b (w <| w_mem := <[l := t]> (w_mem w) |>).
Proof.
  intros (Hw & Hb & Hf) Ht Hid. split_and!; [|done|by apply frozen_insert].
  apply w_ok_mem; [done| |by rewrite length_insert].
  apply Forall_insert; [by apply ok_mem|done].
Qed.

(** ** Rows *)

(** A row is replaced by one that uses at most [x] more. *)
Lemma w_ok_rows w tbl :
  w_ok w →
  (∀ uid r, rows tbl !! uid = Some r → c_task_uid r = uid ∧ task_ok (scanTask r)) →
  w_ok (w <| w_db := tbl |>).
Proof. intros [] Hr. by split. Qed.

Lemma msum_alter_le (f : TaskRow → Z) (rs : gmap string TaskRow) k g x :
  0 <= x → (∀ r, rs !! k = Some r → 0 <= f r) → (∀ r, f (g r) <= x) →
  msum f (alter g k rs) <= msum f rs + x.
Proof.
  intros Hx Hf Hg. destruct (rs !! k) as [r|] eqn:Hk.
  - rewrite (msum_alter f g rs k r Hk). specialize (Hf r eq_refl). specialize (Hg r). lia.
  - rewrite alter_None by done. lia.
Qed.

Lemma row_use_nonneg w uid r :
  w_ok w → rows (w_db w) !! uid = Some r → 0 <= row_cpu r ∧ 0 <= row_mem r ∧ 0 <= row_one r.
Proof.
  intros Hw Hr. destruct (ok_rows w Hw uid r Hr) as [_ Ht].
  pose proof (ok_cpu _ Ht). pose proof (ok_memory _ Ht). cbn in *.
  unfold row_cpu, row_mem, row_one. destruct (is_running r); lia.
Qed.

(** What a task uses once its row says what the object says. *)
Definition use t : Z * Z * Z :=
  if bool_decide (Status t = TaskStatusRunning) then (CPULimit t, MemoryLimit t, 1) else (0, 0, 0).

Lemma use_nonneg t : task_ok t → 0 <= (use t).1.1 ∧ 0 <= (use t).1.2 ∧ 0 <= (use t).2.
Proof. intros []. unfold use. case_bool_decide; cbn; lia. Qed.

Lemma update_row_use t r :
  row_cpu (update_row t r) = (use t).1.1 ∧ row_mem (update_row t r) = (use t).1.2 ∧
  row_one (update_row t r) = (use t).2.
Proof. 
  unfold row_cpu, row_mem, row_one, is_running, use.
  change (c_status (update_row t r)) with (Status t). by destruct (bool_decide _).
Qed.

Lemma Update_ok w fault n t e t' tbl' b :
  w_ok w → within b w → task_ok t → Update fault n t (w_db w) = (e, t', tbl') →
  task_ok t' ∧ identity t' = identity t ∧ Status t' = Status t ∧
  w_ok (w <| w_db := tbl' |>) ∧
  within (b.1.1 - (use t).1.1, b.1.2 - (use t).1.2, b.2 - (use t).2) (w <| w_db := tbl' |>).
Proof.
  intros Hw Hb Ht HU. apply Update_rows in HU as [-> Hrows].
  set (t' := t <| UpdatedAt := n |>) in *.
  assert (task_ok t') as Ht' by by destruct Ht; split.
  assert (use t' = use t) as Hu by done.
  pose proof (use_nonneg t' Ht') as (Hu1 & Hu2 & Hu3).
  destruct Hrows as [[-> _]|[_ Hrows]].
  { rewrite Hu in *. split_and!; [done..| |].
    - apply w_ok_rows; [done|by apply ok_rows].
    - destruct Hb as (B1 & B2 & B3). split_and!; cbn; lia. }
  split_and!; [done..| |].
  - apply w_ok_rows; [done|]. rewrite Hrows. intros uid r Hr.
    apply lookup_alter_Some in Hr as [(<- & r0 & Hr0 & ->)|[_ Hr]]; [|by apply (ok_rows w Hw)].
    split; [exact (proj1 (ok_rows w Hw _ r0 Hr0))|]. by destruct Ht'; split.
  - destruct Hb as (B1 & B2 & B3). unfold within. cbn. rewrite Hrows.
    rewrite <- Hu. fold t'.
    assert (∀ f x, 0 <= x → (∀ r, 0 <= row_cpu r ∧ 0 <= row_mem r ∧ 0 <= row_one r → 0 <= f r) →
      (∀ r, f (update_row t' r) = x) →
      msum f (alter (update_row t') (TaskUID t) (rows (w_db w))) <= msum f (rows (w_db w)) + x)
      as Hsum.
    { intros f x Hx Hf Hfx. apply msum_alter_le; [done| |].
      - intros r Hr. by apply Hf, (row_use_nonneg w _ r Hw Hr).
      - intros r. by rewrite Hfx. }
    pose proof (Hsum row_cpu _ Hu1 ltac:(tauto) (λ r, proj1 (update_row_use t' r))).
    pose proof (Hsum row_mem _ Hu2 ltac:(tauto) (λ r, proj1 (proj2 (update_row_use t' r)))).
    pose proof (Hsum row_one _ Hu3 ltac:(tauto) (λ r, proj2 (proj2 (update_row_use t' r)))).
    cbn [fst snd] in *. split_and!; lia.
Qed.

(** ** Budgets *)

Definition budget_le (b b' : Z * Z * Z) : Prop :=
  b.1.1 <= b'.1.1 ∧ b.1.2 <= b'.1.2 ∧ b.2 <= b'.2.

Lemma Inv_budget m b b' w : budget_le b' b → Inv m b w → Inv m b' w.
Proof.
  intros (B1 & B2 & B3) (Hw & (H1' & H2' & H3') & Hf). split_and!; [done| |done].
  unfold within. lia.
Qed.

Lemma Inv_rebase m m' b w : frozen m m' → Inv m' b w → Inv m b w.
Proof. intros Hm (Hw & Hb & Hf). split_and!; [done..|]. by etrans. Qed.

Lemma Inv_self m b w : Inv m b w → Inv (w_mem w) b w.
Proof. intros (Hw & Hb & Hf). by split_and!. Qed.

(** Frames a computation on the objects there are when it starts. *)
Lemma hoare_rebase {A} m b b' (φ : Mem → Prop) (c : M W A) :
  (∀ m', frozen m m' → φ m' → hoare (Inv m' b) c (λ _, Inv m' b')) →
  hoare (λ w, Inv m b w ∧ φ (w_mem w)) c (λ _, Inv m b').
Proof.
  intros Hc w [HI Hφ]. apply (Inv_rebase m (w_mem w)); [apply HI|].
  apply Hc; [apply HI|done|]. by eapply Inv_self.
Qed.

(** ** Effects *)

(** [φ] of the object behind [l]. *)
Definition At m b l (φ : Task → Prop) w : Prop := Inv m b w ∧ φ (deref (w_mem w) l).

Lemma hoare_rebase_at {A} m b b' l φ (c : M W A) :
  (∀ m', in_mem m' l → hoare (At m' b l φ) c (λ _, Inv m' b')) →
  hoare (λ w, Inv m b w ∧ in_mem (w_mem w) l ∧ φ (deref (w_mem w) l)) c (λ _, Inv m b').
Proof.
  intros Hc w (HI & Hl & Hφ). apply (Inv_rebase m (w_mem w)); [apply HI|].
  apply Hc; [done|]. split; [by eapply Inv_self|done].
Qed.

(** The parts of the state the invariant is about. *)
Definition core w := (w_mem w, w_db w, w_queue w, w_sched w, w_running w).

Lemma Inv_core m b w w' : core w' = core w → Inv m b w → Inv m b w'.
Proof.
  unfold core. intros [= E1 E2 E3 E4 E5] ([] & Hb & Hf). unfold Inv, within in *.
  rewrite E1, E2. split_and!; try apply Hb; [|done].
  split; rewrite ?E1, ?E2, ?E3, ?E4, ?E5; done.
Qed.

Lemma core_At {A} m b l φ (c : M W A) :
  (∀ w, core (c w).2 = core w) → preserves (At m b l φ) c.
Proof.
  intros Hc w [HI Hφ]. specialize (Hc w). split; [by apply (Inv_core m b w)|].
  unfold core in Hc. injection Hc as -> _ _ _ _. done.
Qed.

Lemma core_Inv {A} m b (c : M W A) :
  (∀ w, core (c w).2 = core w) → preserves (Inv m b) c.
Proof. intros Hc w. apply Inv_core, Hc. Qed.

Lemma load_At m b l φ :
  in_mem m l →
  hoare (At m b l φ) (load l)
    (λ t w, (φ t ∧ task_ok t ∧ identity t = identity (deref m l)) ∧ At m b l (eq t) w).
Proof.
  intros Hl w [HI Hφ]. split_and!; [done| |by apply (Inv_identity m b w)|done..].
  by apply (Inv_task_ok m b w).
Qed.

Lemma assign_At m b l φ ψ f :
  in_mem m l →
  (∀ t, task_ok t → φ t → task_ok (f t) ∧ identity (f t) = identity t ∧ ψ (f t)) →
  hoare (At m b l φ) (assign l f) (λ _, At m b l ψ).
Proof.
  intros Hl Hf w [HI Hφ]. destruct (Hf _ (Inv_task_ok m b w l HI Hl) Hφ) as (H1' & H2' & H3').
  split; [by apply Inv_write|]. cbn. rewrite deref_insert; [done|]. by eapply Inv_in_mem.
Qed.

Lemma transition_At m b l φ target :
  in_mem m l → target ∈ known_statuses →
  hoare (At m b l φ) (transition target l)
    (λ e, At m b l (λ t, e = None → Status t = target)).
Proof.
  intros Hl Ht. unfold transition. eapply hoare_bind; [by apply core_At|]. intros n.
  eapply hoare_bind; [by apply load_At|]. intros t. apply hoare_pure. intros (_ & Hok & Hid).
  unfold TransitionTo. destruct (negb _).
  - eapply hoare_bind; [apply (assign_At m b l _ (eq t)); [done|by intros ? ? <-]|].
    intros []. apply hoare_ret. intros w [HI _]. by split.
  - eapply hoare_bind.
    + apply (assign_At m b l _ (λ t, Status t = target)); [done|]. intros ? ? <-.
      split_and!; [|done..]. by destruct Hok; split.
    + intros []. apply hoare_ret. intros w [HI Hs]. by split.
Qed.

Lemma store_Update_At m b b' l φ :
  in_mem m l →
  (∀ t, φ t → task_ok t → identity t = identity (deref m l) →
     budget_le b' (b.1.1 - (use t).1.1, b.1.2 - (use t).1.2, b.2 - (use t).2)) →
  hoare (At m b l φ) (store_Update l) (λ _, Inv m b').
Proof.
  intros Hl Hb'. unfold store_Update. eapply hoare_bind; [by apply core_At|]. intros n.
  eapply hoare_bind; [by apply core_At|]. intros fault w [HI Hφ]. unfold action.
  pose proof (Inv_task_ok m b w l HI Hl) as Ht.
  pose proof (Inv_identity m b w l HI Hl) as Hid.
  destruct (Update _ _ _ _) as [[e t'] tbl'] eqn:HU.
  destruct HI as (Hw & Hb & Hf).
  destruct (Update_ok w fault n _ e t' tbl' b Hw Hb Ht HU) as (Ht' & Hid' & _ & Hw' & Hbw').
  cbn [fst snd]. eapply Inv_budget; [by eapply Hb'|].
  eapply Inv_core; [|apply (Inv_write m _ (w <| w_db := tbl' |>) l t')]; [done| |done..].
  by split_and!.
Qed.

Lemma from_At {A} m b l (c : M W A) Q' :
  hoare (At m b l (λ _, True)) c Q' → hoare (Inv m b) c Q'.
Proof. apply hoare_conseq; [|done]. by split. Qed.

Lemma use_idle t : Status t ≠ TaskStatusRunning → use t = (0, 0, 0).
Proof. intros Hs. unfold use. by rewrite bool_decide_eq_false_2. Qed.

(** Writing a task that does not run costs nothing. *)
Lemma store_Update_idle m b l φ :
  in_mem m l → (∀ t, φ t → Status t ≠ TaskStatusRunning) →
  hoare (At m b l φ) (store_Update l) (λ _, Inv m b).
Proof.
  intros Hl Hφ. apply store_Update_At; [done|]. intros t Ht _ _.
  rewrite use_idle by by apply Hφ. unfold budget_le. cbn. lia.
Qed.

Lemma load_Inv m b l : preserves (Inv m b) (load l).
Proof. apply preserves_gets. Qed.

(** *** New objects *)

Lemma Inv_extend m b w ts :
  Forall task_ok ts → Inv m b w → Inv m b (w <| w_mem := w_mem w ++ ts |>).
Proof.
  intros Hts (Hw & Hb & Hf). split_and!; [|done|].
  - apply w_ok_mem; [done| |rewrite length_app; lia].
    apply Forall_app; split; [by apply ok_mem|done].
  - eapply frozen_prefix; [done|]. by exists ts.
Qed.

Lemma new_Inv m b t :
  task_ok t →
  hoare (Inv m b) (new t) (λ l w, Inv m b w ∧ in_mem (w_mem w) l ∧ deref (w_mem w) l = t).
Proof.
  intros Ht w HI. cbn. split_and!; [by apply Inv_extend; [constructor|]| |apply deref_alloc].
  unfold in_mem. rewrite length_app. simpl. lia.
Qed.

Lemma new_all_spec ts w :
  new_all ts w = (seq (length (w_mem w)) (length ts), w <| w_mem := w_mem w ++ ts |>).
Proof.
  revert w. induction ts as [|t ts IH]; intros w; cbn.
  { by rewrite app_nil_r; destruct w. }
  unfold mbind, M_bind. cbn. rewrite IH. cbn.
  by rewrite length_app, Nat.add_1_r, <- app_assoc.
Qed.

Lemma store_GetByUID_Inv m b uid :
  hoare (Inv m b) (store_GetByUID uid)
    (λ r w, Inv m b w ∧ ∀ l, r = Ok l → in_mem (w_mem w) l).
Proof.
  unfold store_GetByUID. eapply hoare_bind; [by apply core_Inv|]. intros fault.
  eapply hoare_bind; [apply hoare_gets|]. intros tbl w [-> HI].
  destruct (GetByUID _ _ _) as [t|e] eqn:HG; [|by cbn; split].
  assert (task_ok t) as Ht.
  { unfold GetByUID in HG. destruct fault; [done|].
    destruct (rows (w_db w) !! uid) as [r|] eqn:Hr; [|done]. injection HG as <-.
    by apply (ok_rows w (proj1 HI) uid). }
  destruct (new_Inv m b t Ht w HI) as (HI' & Hin & _).
  split; [done|]. by intros l [= <-].
Qed.

Definition sum_cpu m (ls : list loc) : Z := zsum ((λ l, CPULimit (deref m l)) <$> ls).
Definition sum_mem m (ls : list loc) : Z := zsum ((λ l, MemoryLimit (deref m l)) <$> ls).

(** What is free when the tasks of [ls] run. *)
Definition free m (ls : list loc) : Z * Z * Z :=
  (cpus L - sum_cpu m ls, mems L - sum_mem m ls, cap L - Z.of_nat (length ls)).

Lemma deref_new_all m ts :
  (deref (m ++ ts)) <$> seq (length m) (length ts) = ts.
Proof.
  apply list_eq. intros i. rewrite list_lookup_fmap. destruct (ts !! i) as [t|] eqn:Hi.
  - pose proof (lookup_lt_Some _ _ _ Hi). rewrite lookup_seq_lt by done. cbn. f_equal.
    apply deref_lookup. rewrite lookup_app_r by lia. by rewrite Nat.add_comm, Nat.add_sub.
  - apply lookup_ge_None in Hi. by rewrite lookup_seq_ge.
Qed.

Lemma select_sum (f : TaskRow → Z) (g : Task → Z) tbl ls m `{!SortByOk} :
  (∀ r, f r = if is_running r then g (scanTask r) else 0) →
  deref m <$> ls = scanTask <$> select TaskStatusRunning tbl →
  zsum ((λ l, g (deref m l)) <$> ls) = msum f (rows tbl).
Proof.
  intros Hf Hls. rewrite (list_fmap_compose (deref m) g), Hls, <- list_fmap_compose.
  unfold select, msum. rewrite sort_by_perm. clear Hls.
  induction (map_to_list (rows tbl)).*2 as [|r rs IH]; [done|].
  rewrite filter_cons, fmap_cons, zsum_cons, Hf. unfold is_running.
  destruct (decide (_ ∨ _)) as [Hr|Hr]; case_bool_decide as Hr'; rewrite ?fmap_cons, ?zsum_cons, ?IH; try done.
  - destruct Hr as [Hr|Hr]; [discriminate Hr|done].
  - destruct Hr. by right.
Qed.

Lemma length_select_running tbl `{!SortByOk} :
  Z.of_nat (length (select TaskStatusRunning tbl)) = msum row_one (rows tbl).
Proof.
  unfold select, msum. rewrite sort_by_perm.
  induction (map_to_list (rows tbl)).*2 as [|r rs IH]; [done|].
  rewrite filter_cons, fmap_cons, zsum_cons, <- IH. unfold row_one, is_running.
  destruct (decide (_ ∨ _)) as [Hr|Hr]; case_bool_decide as Hr'; rewrite ?length_cons; try lia.
  - destruct Hr as [Hr|Hr]; [discriminate Hr|done].
  - destruct Hr. by right.
Qed.

Lemma store_GetRunningTasks_Inv m b `{!SortByOk} :
  hoare (Inv m b) store_GetRunningTasks
    (λ r w, match r with
            | Err _ => Inv m b w
            | Ok ls =>
                Inv m (free (w_mem w) ls) w ∧ budget_le b (free (w_mem w) ls) ∧
                Forall (good (w_mem w)) ls
            end).
Proof.
  unfold store_GetRunningTasks. eapply hoare_bind; [by apply core_Inv|]. intros fault.
  eapply hoare_bind; [apply hoare_gets|]. intros tbl w [-> HI].
  destruct fault as [e|]; [done|]. cbn. unfold mbind, M_bind. rewrite new_all_spec. cbn.
  set (ts := scanTask <$> select TaskStatusRunning (w_db w)).
  assert (Forall task_ok ts) as Hts.
  { apply Forall_forall. intros t (r & -> & Hr)%list_elem_of_fmap.
    apply elem_of_select in Hr as (_ & uid & Hr); [|done]. by apply (ok_rows w (proj1 HI) uid). }
  pose proof (deref_new_all (w_mem w) ts) as Hls.
  destruct (Inv_extend m b w ts Hts HI) as (Hw & Hb & Hf).
  pose proof (select_sum row_cpu CPULimit (w_db w) _ _ ltac:(done) Hls) as Hcpu.
  pose proof (select_sum row_mem MemoryLimit (w_db w) _ _ ltac:(done) Hls) as Hmem.
  assert (Z.of_nat (length ts) = msum row_one (rows (w_db w))) as Hone.
  { unfold ts. by rewrite length_fmap, (length_select_running (w_db w)). }
  unfold free, sum_cpu, sum_mem, within, budget_le in *. cbn in *.
  rewrite Hcpu, Hmem, length_seq in *.
  split; [split; [done|split; [unfold within; cbn; lia|done]]|]. split; [lia|].
  apply Forall_forall. intros l Hl%elem_of_seq.
  assert (in_mem (w_mem w ++ ts) l) as Hin by (unfold in_mem; rewrite length_app; lia).
  split; [done|]. by apply (w_ok_deref _ l Hw).
Qed.

Lemma store_Create_At m b l :
  in_mem m l →
  hoare (At m b l (λ t, Status t = TaskStatusCreated)) (store_Create l) (λ _, Inv m b).
Proof.
  intros Hl. unfold store_Create. eapply hoare_bind; [by apply core_At|]. intros fault w [HI Hs].
  pose proof (Inv_task_ok m b w l HI Hl) as Ht. unfold action, Create.
  set (t := deref (w_mem w) l) in *.
  assert (Inv m b (w <| w_mem := <[l:=t]> (w_mem w) |>)) as HI' by by apply Inv_write.
  destruct fault as [e|]; cbn.
  { eapply Inv_core; [|exact HI']. done. }
  destruct (rows (w_db w) !! TaskUID t) as [r|] eqn:Hr; cbn.
  { eapply Inv_core; [|exact HI']. done. }
  clear HI'. assert (task_ok (t <| ID := next_id (w_db w) |>)) as Ht' by by destruct Ht; split.
  destruct (Inv_write m b w l _ HI Ht' eq_refl) as (Hw & (B1 & B2 & B3) & Hf).
  split_and!; [|split_and!|done].
  { apply (w_ok_rows (w <| w_mem := <[l:=t <| ID := next_id (w_db w) |>]> (w_mem w) |>)); [done|].
    intros uid r Hr'. cbn in Hr'.
    apply lookup_insert_Some in Hr' as [[<- <-]|[_ Hr']]; [|by apply (ok_rows _ Hw)].
    split; [done|]. by destruct Ht; split. }
  all: destruct (row_idle (insert_row (next_id (w_db w)) t)) as (I1 & I2 & I3);
    [change (Status t ≠ TaskStatusRunning); by rewrite Hs|].
  all: cbn; rewrite msum_insert_None, ?I1, ?I2, ?I3 by done; cbn in *; lia.
Qed.

(** *** The queue *)

Lemma w_ok_queue w q : w_ok w → q_inv task_ok (w_mem w) q → w_ok (w <| w_queue := q |>).
Proof. intros [] Hq. by split. Qed.

Lemma queue_op_Inv m b l (op : Mem → loc → Q → option error * Q) :
  (∀ P m l q, q_inv P m q → Forall P m → (l < length m)%nat → q_inv P m (op m l q).2) →
  in_mem m l →
  preserves (Inv m b)
    (λ w, let '(e, q) := op (w_mem w) l (w_queue w) in (e, w <| w_queue := q |>)).
Proof.
  intros Hop Hl w HI. pose proof (Inv_in_mem _ _ _ _ HI Hl) as Hl'.
  destruct HI as (Hw & Hb & Hf).
  pose proof (Hop task_ok _ l _ (ok_queue _ Hw) (ok_mem _ Hw) Hl') as Hq.
  destruct (op _ _ _) as [e q]. split_and!; [|done..]. by apply w_ok_queue.
Qed.

Lemma queue_Push_Inv m b l : in_mem m l → preserves (Inv m b) (queue_Push l).
Proof. apply queue_op_Inv, q_Push_inv. Qed.

Lemma queue_PushPriority_Inv m b l : in_mem m l → preserves (Inv m b) (queue_PushPriority l).
Proof. apply queue_op_Inv, q_PushPriority_inv. Qed.

Lemma queue_PushDelayed_Inv m b l d : in_mem m l → preserves (Inv m b) (queue_PushDelayed l d).
Proof.
  intros Hl. apply preserves_bind; [by apply core_Inv|]. intros n.
  apply (queue_op_Inv m b l (λ m l, q_PushDelayed n m l d)); [|done].
  intros. by apply q_PushDelayed_inv.
Qed.

Lemma queue_Pop_Inv m b d :
  hoare (Inv m b) (queue_Pop d)
    (λ r w, Inv m b w ∧ ∀ l, r = Ok (Some l) → in_mem (w_mem w) l).
Proof.
  intros w (Hw & Hb & Hf). unfold queue_Pop.
  destruct (q_Pop _ _ _ _) as [[[r k] m'] q'] eqn:Hpop.
  destruct (q_Pop_inv task_ok _ _ _ _ _ _ _ _ (ok_queue _ Hw) (ok_mem _ Hw) Hpop)
    as (Hq & Hm' & Hpre & Hl).
  split; [split_and!; [|done|by eapply frozen_prefix]|done].
  assert (w_ok (w <| w_mem := m' |>)) as Hw'.
  { apply w_ok_mem; [done..|]. by apply prefix_length. }
  destruct Hw'. by split.
Qed.

(** *** Redis, and the scheduler's state *)

Lemma redis_do_core {A} (cmd : R → A * R) w : core (redis_do cmd w).2 = core w.
Proof. unfold redis_do. destruct (w_redis w) as [r|]; [|done]. by destruct (cmd r). Qed.

Lemma count_daily_core f w : core (count_daily f w).2 = core w.
Proof.
  unfold count_daily, mbind, M_bind, has_redis, gets. cbn.
  case_bool_decide; [|done]. cbn. etrans; [apply redis_do_core|done].
Qed.

Lemma redis_Publish_core ch w : core (redis_Publish ch w).2 = core w.
Proof.
  unfold redis_Publish, mbind, M_bind.
  pose proof (redis_do_core (r_Publish ch "canceled") w) as Hc.
  destruct (redis_do _ w) as [[[e|]|] w']; done.
Qed.

Lemma sched_modify_Inv m b f :
  (∀ s, 0 <= maxConcurrent s <= cap L → 0 <= maxConcurrent (f s) <= cap L) →
  (∀ s, totalCPU (f s) = totalCPU s ∧ totalMemMB (f s) = totalMemMB s ∧
        nodeTasks (f s) = nodeTasks s) →
  preserves (Inv m b) (sched_modify f).
Proof.
  intros Hmax Hf w ([] & Hb & Hm). destruct (Hf (w_sched w)) as (E2 & E3 & E4).
  split_and!; [|done..]. split; cbn; rewrite ?E2, ?E3, ?E4; try done. by apply Hmax.
Qed.

(** A channel is replaced by one of at most ten allocated tasks. *)
Lemma set_channel_Inv m b n ch :
  hoare (λ w, ((length ch ≤ 10)%nat ∧ Forall (in_mem (w_mem w)) ch) ∧ Inv m b w)
    (sched_modify (λ s, s <| nodeTasks := <[n := ch]> (nodeTasks s) |>)) (λ _, Inv m b).
Proof.
  intros w ([Hlen Hch] & [] & Hb & Hm). split_and!; [|done..]. split; cbn; try done.
  intros n' ch' Hn'. apply lookup_insert_Some in Hn' as [[_ <-]|[_ Hn']]; [done|].
  by eapply ok_channels0.
Qed.
End invariant.

#[export] Hint Resolve queue_Push_Inv queue_PushPriority_Inv queue_PushDelayed_Inv : preserve.
