(* ===== verification/TaskService.v ===== *)
(** * The task service ([internal/service/task_service.go])

    The operations behind the HTTP handlers: create, get, list, cancel and
    rerun a task. *)

From S2P Require Import Prelude GoStrings GoFormat Sha256 Model TaskQueue TaskStore.
From S2P Require Import Runtime Invariant.

Record CreateTaskRequest : Type := mkRequest {
  cr_Name : string;
  cr_Command : string;
  cr_Workdir : string;
  cr_Env : option (gmap string string);           (* None: a nil map *)
  cr_CPULimit : Z;
  cr_MemoryLimit : Z;
  cr_TimeoutSec : Z;
  cr_Priority : Z;
  cr_NodeSelector : option (gmap string string);
}.

Record TaskListResult : Type := mkTaskList {
  tl_Tasks : list Task;
  tl_Total : Z;
  tl_Page : Z;
  tl_Size : Z;
}.

Section service.
Context {Q K R : Type} `{Host} `{TaskQueue Q} `{Etcd K} `{Redis R}.
Abbreviation W := (World Q K R).

(** The parameters of the request that override the defaults. *)
Definition apply_request (req : CreateTaskRequest) (t : Task) : Task :=
  let t := if bool_decide (cr_Workdir req = EmptyString) then t
           else t <| Workdir := cr_Workdir req |> in
  let t := match cr_Env req with Some m => t <| Model.Env := m |> | None => t end in
  let t := if 0 <? cr_CPULimit req then t <| CPULimit := cr_CPULimit req |> else t in
  let t := if 0 <? cr_MemoryLimit req then t <| MemoryLimit := cr_MemoryLimit req |> else t in
  let t := if 0 <? cr_TimeoutSec req then t <| TimeoutSec := cr_TimeoutSec req |> else t in
  let t := if 0 <? cr_Priority req then t <| Priority := cr_Priority req |> else t in
  match cr_NodeSelector req with Some m => t <| NodeSelector := m |> | None => t end.

(** The task a request stands for, idempotency key included. *)
Definition requested (uid : string) (n : Time) (req : CreateTaskRequest) : Task :=
  SetIdempotencyKey (apply_request req (NewTask uid n (cr_Name req) (cr_Command req))).

Definition dedup_key (t : Task) : string := "tasks:dedup:" +:+ IdempotencyKey t.

Definition CreateTask (req : CreateTaskRequest) : M W (result loc) :=
  n ← now;
  uid ← uuid;
  l ← new (requested uid n req);
  t ← load l;
  ok ← redis_do (r_SetNX (dedup_key t) (TaskUID t) (5 * minute));
  match ok with
  | Some (Ok false) =>
      existingUID ← redis_do (r_Get (dedup_key t));
      mret (Err (ErrorString ("duplicate task: " +:+ default EmptyString existingUID)))
  | _ =>
      err ← store_Create l;
      match err with
      | Some e => mret (Err e)
      | None =>
          count_daily "submitted" ;;
          t ← load l;
          (if 0 <? Priority t then queue_PushPriority l else queue_Push l) ;;
          mret (Ok l)
      end
  end.

Definition GetTask (uid : string) : M W (result loc) := store_GetByUID uid.

Definition ListTasks (status : string) (page size : Z) : M W (result TaskListResult) :=
  let page := if page <=? 0 then 1 else page in
  let size := if size <=? 0 then 10 else size in
  r ← store_List status page size;
  match r with
  | Err e => mret (Err e)
  | Ok (tasks, total) => mret (Ok (mkTaskList tasks total page size))
  end.

Definition CancelTask (uid : string) : M W (option error) :=
  r ← store_GetByUID uid;
  match r with
  | Err e => mret (Some e)
  | Ok l =>
      t ← load l;
      if IsTerminal (Status t) then mret (Some (ErrorString "任务已处于终态，无法取消"))
      else
        err ← transition TaskStatusCanceled l;
        match err with
        | Some e => mret (Some e)
        | None =>
            err ← store_Update l;
            match err with
            | Some e => mret (Some e)
            | None =>
                err ← redis_Publish ("tasks:cancel:" +:+ uid);
                match err with
                | Some e => mret (Some (WrapError "publish cancel event" e))
                | None => mret None
                end
            end
        end
  end.

Definition rerun_request (t : Task) : CreateTaskRequest :=
  mkRequest (Name t) (Command t) (Workdir t) (Some (Model.Env t)) (CPULimit t) (MemoryLimit t)
    (TimeoutSec t) (Priority t) (Some (NodeSelector t)).

Definition RerunTask (uid : string) : M W (result loc) :=
  r ← store_GetByUID uid;
  match r with
  | Err e => mret (Err e)
  | Ok l => original ← load l; CreateTask (rerun_request original)
  end.
End service.

(** ** The invariant *)

Section invariant.
Context {Q K R : Type} `{Host} `{TaskQueueOk Q} `{Etcd K} `{Redis R}.
Context (L : Limits).
Abbreviation W := (World Q K R).
Abbreviation Inv := (Inv (Q:=Q) (K:=K) (R:=R) L).
Abbreviation At := (At (Q:=Q) (K:=K) (R:=R) L).

(** Whatever the request says, the task is well-formed: only positive limits
    override the defaults. *)
Lemma requested_ok uid n req :
  task_ok (requested uid n req) ∧ Status (requested uid n req) = TaskStatusCreated.
Proof.
  unfold requested, SetIdempotencyKey. set (k := take_bytes _ _). clearbody k.
  unfold apply_request.
  destruct (bool_decide _), (cr_Env req), (Z.ltb_spec 0 (cr_CPULimit req)),
    (Z.ltb_spec 0 (cr_MemoryLimit req)), (Z.ltb_spec 0 (cr_TimeoutSec req)),
    (0 <? cr_Priority req), (cr_NodeSelector req);
    (split; [split; cbn; try lia; apply (bool_decide_unpack _); vm_compute; exact I|done]).
Qed.

Lemma CreateTask_Inv m b req : preserves (Inv m b) (CreateTask req).
Proof.
  unfold CreateTask. apply preserves_bind; [by apply core_Inv|]. intros n.
  apply preserves_bind; [by apply core_Inv|]. intros uid.
  destruct (requested_ok uid n req) as [Hok Hs].
  eapply hoare_bind; [by apply new_Inv|]. intros l.
  eapply hoare_conseq; [| |apply (hoare_rebase_at L m b b l (λ t, Status t = TaskStatusCreated))];
    [|done|].
  { intros w (HI & Hl & Ht). split_and!; [done..|]. exact (eq_trans (f_equal Status Ht) Hs). }
  intros m' Hl. eapply hoare_bind; [by apply load_At|]. intros t. apply hoare_pure.
  intros (Hst & _ & _). eapply hoare_bind; [apply core_At, redis_do_core|].
  intros dup. assert (hoare (At m' b l (eq t))
    (err ← store_Create l;
     match err with
     | Some e => mret (Err e)
     | None =>
         count_daily "submitted" ;;
         t ← load l;
         (if 0 <? Priority t then queue_PushPriority l else queue_Push l) ;;
         mret (Ok l)
     end) (λ _ : result loc, Inv m' b)) as Hmake.
  { eapply hoare_bind.
    { eapply hoare_conseq; [| |by apply store_Create_At]; [|done].
      intros w [HI Ht]. split; [done|]. exact (eq_trans (f_equal Status (eq_sym Ht)) Hst). }
    intros [e|]; [apply preserves_ret|].
    apply preserves_bind; [apply core_Inv, count_daily_core|]. intros _.
    apply preserves_bind; [apply load_Inv|]. intros t'.
    apply preserves_bind; [|intros _; apply preserves_ret].
    destruct (0 <? Priority t'); eauto with preserve. }
  destruct dup as [[[]|e]|]; [exact Hmake| |exact Hmake..].
  apply (hoare_conseq (Inv m' b) _ (λ _, Inv m' b)); [by intros w []|done|].
  apply preserves_bind; [apply core_Inv, redis_do_core|]. intros u. apply preserves_ret.
Qed.

Lemma CancelTask_Inv m b uid : preserves (Inv m b) (CancelTask uid).
Proof.
  eapply hoare_bind; [apply store_GetByUID_Inv|]. intros [l|e]; [|by apply hoare_ret; intros w []].
  eapply hoare_conseq; [| |apply (hoare_rebase_at L m b b l (λ _, True))]; [|done|].
  { intros w [HI Hl]. split_and!; [done|by apply Hl|done]. }
  intros m' Hl. eapply hoare_bind; [by apply load_At|]. intros t. apply hoare_pure. intros _.
  destruct (IsTerminal (Status t)); [by apply hoare_ret; intros w []|].
  eapply hoare_bind; [apply transition_At; [done|by apply (bool_decide_unpack _)]|].
  intros [e|]; [by apply hoare_ret; intros w []|].
  eapply hoare_bind; [apply store_Update_idle; [done|]|].
  { intros t' Ht'. by rewrite Ht'. }
  intros [e|]; [apply preserves_ret|].
  apply preserves_bind; [apply core_Inv, redis_Publish_core|]. intros [e|]; apply preserves_ret.
Qed.

Lemma RerunTask_Inv m b uid : preserves (Inv m b) (RerunTask uid).
Proof.
  eapply hoare_bind; [apply store_GetByUID_Inv|]. intros [l|e]; [|by apply hoare_ret; intros w []].
  apply (hoare_conseq (Inv m b) _ (λ _, Inv m b)); [by intros w []|done|].
  apply preserves_bind; [apply load_Inv|]. intros t. apply CreateTask_Inv.
Qed.

Lemma GetTask_Inv m b uid : preserves (Inv m b) (GetTask uid).
Proof. eapply hoare_conseq; [done| |apply store_GetByUID_Inv]. by intros r w []. Qed.
End invariant.
