(* ===== verification/Scheduler.v ===== *)
(** * The scheduler ([internal/scheduler/scheduler.go])

    The scheduling cycle ([tick]), node selection, the claim of a task in
    etcd, local and remote dispatch, and what happens when an execution ends:
    success, retry with exponential backoff, or failure. *)

From S2P Require Import Prelude GoStrings GoFormat Float64 Model TaskQueue TaskStore.
From S2P Require Import NodeStore NodeManager Runtime Invariant.

(** [executor.TaskResult] *)
Record TaskResult : Type := mkResult {
  tr_ExitCode : Z;
  tr_Stdout : string;
  tr_Stderr : string;
  tr_TimedOut : bool;
  tr_Error : option error;
}.

Definition maxRetryDelay : Duration := 5 * minute.

(** [fmt.Sprintf("%v", m)] of a map: its entries in the order of the keys. *)
Definition sprint_map `{SortBy} `{MapRange} (m : gmap string string) : string :=
  let keys := sort_by String.ltb (map_range m).*1 in
  "map[" +:+ String.concat " " ((λ k, k +:+ ":" +:+ default EmptyString (m !! k)) <$> keys)
    +:+ "]".

Definition canAllocate (task : Task) (availableCPU availableMem : Z) : bool :=
  if (0 <? CPULimit task) && (availableCPU <? CPULimit task) then false
  else if (0 <? MemoryLimit task) && (availableMem <? MemoryLimit task) then false
  else true.

(** ** Node selection *)

Definition availableCPU (node : Node) : Z :=
  TotalCPU node -64
  f64_to_int (f64_div (f64_mul (f64_of_int (TotalCPU node)) (CPUUsagePct node)) (f64_of_int 100)).

Definition availableMem (node : Node) : Z := TotalMemoryMB node -64 MemoryUsedMB node.

Definition has_room (task : Task) (node : Node) : bool :=
  ((CPULimit task =? 0) || (CPULimit task <=? availableCPU node)) &&
  ((MemoryLimit task =? 0) || (MemoryLimit task <=? availableMem node)).

Definition SelectNode `{SortBy} `{MapRange} (nodeMgr : option NodeManager) (task : Task)
  : result (option Node) :=
  match nodeMgr with
  | None => Ok None
  | Some nm =>
      match FindByLabels (NodeSelector task) nm with
      | [] => Err (ErrorString ("no node matching labels " +:+ sprint_map (NodeSelector task)))
      | candidates =>
          match filter (has_room task) candidates with
          | [] => Err (ErrorString "no node with sufficient resources")
          | filtered =>
              Ok (head (sort_by (λ a b, f64_lt (CPUUsagePct a) (CPUUsagePct b)) filtered))
          end
      end
  end.

(** ** Retry *)

Definition retry_delay (task : Task) : Duration :=
  let delay := (RetryIntervalSec task *64 second) *64 shl64 1 (RetryCount task) in
  if maxRetryDelay <? delay then maxRetryDelay else delay.

(** A running task whose deadline has passed. *)
Definition timed_out (n : Time) (task : Task) : bool :=
  match StartedAt task with
  | Some started =>
      (0 <? TimeoutSec task) && time_after n (time_add started (TimeoutSec task *64 second))
  | None => false
  end.

Section scheduler.
Context {Q K R : Type} `{Host} `{TaskQueue Q} `{Etcd K} `{Redis R}.
Abbreviation W := (World Q K R).

Definition failTask (l : loc) (errMsg : string) : M W unit :=
  assign l (λ t, t <| ErrorMessage := errMsg |>) ;;
  task ← load l;
  if CanRetry task then
    assign l (λ t, t <| RetryCount := RetryCount t +64 1 |> <| Status := TaskStatusPending |>
                     <| FinishedAt := None |>) ;;
    err ← store_Update l;
    match err with
    | Some _ => mret tt
    | None => task ← load l; queue_PushDelayed l (retry_delay task) ;; mret tt
    end
  else
    n ← now;
    assign l (λ t, t <| FinishedAt := Some n |>) ;;
    err ← transition TaskStatusFailed l;
    match err with
    | Some _ => mret tt
    | None => store_Update l ;; count_daily "failed"
    end.

Definition completeTask (l : loc) (result : TaskResult) : M W unit :=
  assign l (λ t, t <| Stdout := tr_Stdout result |> <| Stderr := tr_Stderr result |>) ;;
  n ← now;
  assign l (λ t, t <| FinishedAt := Some n |>) ;;
  match tr_Error result with
  | Some e => failTask l (if tr_TimedOut result then "task timed out"%string else Error e)
  | None =>
      assign l (λ t, t <| ExitCode := Some (tr_ExitCode result) |>) ;;
      err ← transition TaskStatusSuccess l;
      match err with
      | Some _ => mret tt
      | None => store_Update l ;; count_daily "success"
      end
  end.

(** ** Claims *)

Definition claim_key (taskUID : string) : string := "/tasks/claimed/" +:+ taskUID.

Definition ClaimTask (taskUID : string) : M W (result bool) := λ w,
  match w_etcd w with
  | None => (Ok true, w)
  | Some k =>
      let key := claim_key taskUID in
      let '(r, k) := e_txn {|
        txn_If := [CompareVersion key 0];
        txn_Then := [OpPut key (schedulerID (w_sched w)) (leaseID (w_sched w))];
        txn_Else := [OpGet key] |} k in
      (match r with Ok b => Ok b | Err e => Err (WrapError "claim task" e) end,
       w <| w_etcd := Some k |>)
  end.

(** ** Dispatch *)

(** [context.WithCancel] and the entry of [cancelFuncs]. *)
Definition register_cancel (l : loc) : M W nat :=
  ctx ← action (λ w, (w_ctx w, w <| w_ctx := S (w_ctx w) |>));
  t ← load l;
  sched_modify (λ s, s <| cancelFuncs := <[TaskUID t := ctx]> (cancelFuncs s) |>) ;;
  mret ctx.

(** [go func() { ... executor.Run ... }()]; it ends in [execution_done]. *)
Definition spawn (ctx : nat) (l : loc) : M W unit :=
  modify (λ w, w <| w_running := w_running w ++ [(ctx, l)] |>).

Definition dispatchLocal (l : loc) : M W unit :=
  err ← transition TaskStatusRunning l;
  match err with
  | Some _ => mret tt
  | None =>
      n ← now;
      assign l (λ t, t <| StartedAt := Some n |>) ;;
      err ← store_Update l;
      match err with
      | Some _ => mret tt
      | None => ctx ← register_cancel l; spawn ctx l
      end
  end.

(** [make(chan *model.Task, 10)] *)
Definition channel_capacity : nat := 10.

Definition getOrCreateNodeQueue (nodeID : string) : M W (list loc) := λ w,
  match nodeTasks (w_sched w) !! nodeID with
  | Some ch => (ch, w)
  | None =>
      ([], w <| w_sched := (w_sched w) <| nodeTasks := <[nodeID := []]> (nodeTasks (w_sched w)) |> |>)
  end.

Definition dispatchRemote (l : loc) (node : Node) : M W unit :=
  err ← transition TaskStatusRunning l;
  match err with
  | Some _ => mret tt
  | None =>
      assign l (λ t, t <| AssignedNodeID := NodeID node |>) ;;
      n ← now;
      assign l (λ t, t <| StartedAt := Some n |>) ;;
      err ← store_Update l;
      match err with
      | Some _ => mret tt
      | None =>
          ctx ← register_cancel l;
          ch ← getOrCreateNodeQueue (NodeID node);
          if (length ch <? channel_capacity)%nat then
            sched_modify (λ s, s <| nodeTasks := <[NodeID node := ch ++ [l]]> (nodeTasks s) |>)
          else spawn ctx l
      end
  end.

(** The end of [dispatch]: pick a node and hand the task over. *)
Definition place (l : loc) : M W unit :=
  task ← load l;
  nodeMgr ← gets w_nodes;
  match SelectNode nodeMgr task with
  | Err _ | Ok None => dispatchLocal l
  | Ok (Some node) => dispatchRemote l node
  end.

Definition dispatch (l : loc) : M W unit :=
  task ← load l;
  claimed ← ClaimTask (TaskUID task);
  match claimed with
  | Err _ | Ok false => mret tt
  | Ok true =>
      if bool_decide (Status task = TaskStatusCreated) then
        err ← transition TaskStatusPending l;
        match err with
        | Some _ => mret tt
        | None =>
            err ← store_Update l;
            match err with
            | Some _ => mret tt
            | None => place l
            end
        end
      else place l
  end.

(** ** The scheduling cycle *)

(** One iteration over the running tasks. *)
Definition scan_one (n : Time) (l : loc) : M W unit :=
  task ← load l;
  if timed_out n task then failTask l "task timed out" else mret tt.

Fixpoint scan_running (n : Time) (ls : list loc) (allocatedCPU allocatedMem : Z) : M W (Z * Z) :=
  match ls with
  | [] => mret (allocatedCPU, allocatedMem)
  | l :: ls =>
      task ← load l;
      scan_one n l ;;
      scan_running n ls (allocatedCPU +64 CPULimit task) (allocatedMem +64 MemoryLimit task)
  end.

(** Available CPU, memory and slots. *)
Definition avail : Type := Z * Z * Z.

Definition available (s : Scheduler) (allocatedCPU allocatedMem running : Z) : avail :=
  (totalCPU s -64 allocatedCPU, totalMemMB s -64 allocatedMem, maxConcurrent s -64 running).

(** One iteration of the dispatch loop; [None] is the [break]. *)
Definition pop_one (b : avail) : M W (option avail) :=
  let '(cpu, mem, slots) := b in
  r ← queue_Pop (100 * millisecond);
  match r with
  | Ok (Some l) =>
      task ← load l;
      if canAllocate task cpu mem then
        dispatch l ;;
        task ← load l;
        mret (Some (cpu -64 CPULimit task, mem -64 MemoryLimit task, slots -64 1))
      else
        queue_PushDelayed l second ;;
        mret (Some b)
  | _ => mret None
  end.

(** [for availableSlots > 0]; the answer says whether the loop has ended
    within the fuel. *)
Fixpoint dispatch_loop (fuel : nat) (b : avail) : M W bool :=
  if 0 <? b.2 then
    match fuel with
    | O => mret false
    | S fuel =>
        r ← pop_one b;
        match r with
        | None => mret true
        | Some b => dispatch_loop fuel b
        end
    end
  else mret true.

Definition tick (fuel : nat) : M W bool :=
  r ← store_GetRunningTasks;
  match r with
  | Err _ => mret true
  | Ok runningTasks =>
      n ← now;
      al ← scan_running n runningTasks 0 0;
      s ← gets w_sched;
      dispatch_loop fuel (available s al.1 al.2 (Z.of_nat (length runningTasks)))
  end.

(** ** Agents *)

Definition GetNextTaskForNode (nodeID : string) : M W (option loc) := λ w,
  match nodeTasks (w_sched w) !! nodeID with
  | Some (l :: ch) =>
      (Some l, w <| w_sched := (w_sched w) <| nodeTasks := <[nodeID := ch]> (nodeTasks (w_sched w)) |> |>)
  | Some [] | None => (None, w)
  end.

Definition HandleRemoteResult (taskUID : string) (result : TaskResult) : M W unit :=
  r ← store_GetByUID taskUID;
  match r with
  | Err _ => mret tt
  | Ok l =>
      sched_modify (λ s, s <| cancelFuncs := delete taskUID (cancelFuncs s) |>) ;;
      completeTask l result
  end.

(** ** Goroutines and callbacks *)

(** The rest of the goroutine once [executor.Run] has returned, with the
    deferred delete at the end. *)
Definition execution_done (ctx : nat) (l : loc) (result : TaskResult) : M W unit :=
  modify (λ w, w <| w_running := filter (λ x, x ≠ (ctx, l)) (w_running w) |>) ;;
  completeTask l result ;;
  t ← load l;
  sched_modify (λ s, s <| cancelFuncs := delete (TaskUID t) (cancelFuncs s) |>).

(** A message of the Pub/Sub subscription. *)
Definition cancel_message (channel : string) : M W unit := λ w,
  let taskUID := TrimPrefix channel "tasks:cancel:" in
  match cancelFuncs (w_sched w) !! taskUID with
  | Some ctx =>
      (tt, w <| w_canceled := {[ ctx ]} ∪ w_canceled w |>
             <| w_sched := (w_sched w) <| cancelFuncs := delete taskUID (cancelFuncs (w_sched w)) |> |>)
  | None => (tt, w)
  end.

(** The callback of the configuration watch. *)
Definition config_changed (key value : string) : M W unit :=
  if HasSuffix key "/max_concurrent_tasks" then
    let val := Sscanf_d value in
    if 0 <? val then sched_modify (λ s, s <| maxConcurrent := val |>) else mret tt
  else if HasSuffix key "/tick_interval_ms" then
    let val := Sscanf_d value in
    if 0 <? val then sched_modify (λ s, s <| tickInterval := val *64 millisecond |>) else mret tt
  else mret tt.

Definition SetNodeManager (nm : NodeManager) : M W unit :=
  modify (λ w, w <| w_nodes := Some nm |>).

Definition GetTotalResources (s : Scheduler) : Z * Z := (totalCPU s, totalMemMB s).
End scheduler.

(** ** The invariant *)

Lemma retry_delay_value t :
  RetryIntervalSec t = 1 → 0 <= RetryCount t <= 3 → retry_delay t = 2 ^ RetryCount t * second.
Proof.
  intros Hi Hc. unfold retry_delay. rewrite Hi.
  assert (RetryCount t = 0 ∨ RetryCount t = 1 ∨ RetryCount t = 2 ∨ RetryCount t = 3)
    as [-> | [-> | [-> | ->]]] by lia; reflexivity.
Qed.

Ltac known := apply (bool_decide_unpack _); vm_compute; exact I.
(** A task stays well-formed when fields the invariant does not read change. *)
Ltac keeps := intros t0 Hok0 _; split_and!; [by destruct Hok0; split|done..].

Section invariant.
Context {Q K R : Type} `{Host} `{TaskQueueOk Q} `{Etcd K} `{Redis R} `{!SortByOk}.
Context (L : Limits).
Abbreviation W := (World Q K R).
Abbreviation Inv := (Inv (Q:=Q) (K:=K) (R:=R) L).
Abbreviation At := (At (Q:=Q) (K:=K) (R:=R) L).

Lemma failTask_Inv m b l msg : in_mem m l → preserves (Inv m b) (failTask l msg).
Proof.
  intros Hl. apply (from_At L m b l). unfold failTask.
  eapply hoare_bind; [apply (assign_At L m b l _ (λ _, True)); [done|keeps]|]. intros [].
  eapply hoare_bind; [by apply load_At|]. intros t. apply hoare_pure. intros (_ & Hok & _).
  destruct (CanRetry t) eqn:Hretry.
  - eapply hoare_bind.
    { apply (assign_At L m b l _ (λ t, Status t = TaskStatusPending)); [done|]. intros ? _ <-.
      split_and!; [|done..]. destruct Hok. unfold CanRetry in Hretry. apply Z.ltb_lt in Hretry.
      split; try done; [known|]. cbn. rewrite add64_id; [lia|int_lia]. }
    intros []. eapply hoare_bind; [apply store_Update_idle; [done|]|].
    { intros t' Ht'. by rewrite Ht'. }
    intros [e|]; [apply preserves_ret|].
    eapply preserves_bind; [apply load_Inv|]. intros t'.
    eapply preserves_bind; [by apply queue_PushDelayed_Inv|]. intros _. apply preserves_ret.
  - eapply hoare_bind; [by apply core_At|]. intros n.
    eapply hoare_bind; [apply (assign_At L m b l _ (λ _, True)); [done|keeps]|]. intros [].
    eapply hoare_bind; [apply transition_At; [done|known]|]. intros [e|].
    { apply hoare_ret. by intros w [HI _]. }
    eapply hoare_bind; [apply store_Update_idle; [done|]|].
    { intros t' Ht'. by rewrite Ht'. }
    intros ?. apply core_Inv, count_daily_core.
Qed.

Lemma completeTask_Inv m b l result : in_mem m l → preserves (Inv m b) (completeTask l result).
Proof.
  intros Hl. apply (from_At L m b l). unfold completeTask.
  eapply hoare_bind; [apply (assign_At L m b l _ (λ _, True)); [done|keeps]|]. intros [].
  eapply hoare_bind; [by apply core_At|]. intros n.
  eapply hoare_bind; [apply (assign_At L m b l _ (λ _, True)); [done|keeps]|]. intros [].
  destruct (tr_Error result) as [e|].
  - eapply hoare_conseq; [| |by apply failTask_Inv]; [by intros w [HI _]|done].
  - eapply hoare_bind; [apply (assign_At L m b l _ (λ _, True)); [done|keeps]|]. intros [].
    eapply hoare_bind; [apply transition_At; [done|known]|]. intros [e|].
    { apply hoare_ret. by intros w [HI _]. }
    eapply hoare_bind; [apply store_Update_idle; [done|]|].
    { intros t' Ht'. by rewrite Ht'. }
    intros ?. apply core_Inv, count_daily_core.
Qed.

(** *** Dispatch *)

(** The budget after a task has been given its share. *)
Definition charge (b : Z * Z * Z) (t : Task) : Z * Z * Z :=
  (b.1.1 - CPULimit t, b.1.2 - MemoryLimit t, b.2 - 1).

Lemma charge_le b t : task_ok t → budget_le (charge b t) b.
Proof. intros []. unfold budget_le, charge. cbn. lia. Qed.

Lemma charge_use b t t' :
  task_ok t → identity t' = identity t →
  budget_le (charge b t) (b.1.1 - (use t').1.1, b.1.2 - (use t').1.2, b.2 - (use t').2).
Proof.
  intros [] [= _ Hc Hm]. unfold budget_le, charge, use. rewrite Hc, Hm.
  destruct (bool_decide _); cbn; lia.
Qed.

Lemma drop_budget {A} m b b' (c : M W A) :
  budget_le b' b → preserves (Inv m b') c → hoare (Inv m b) c (λ _, Inv m b').
Proof. intros Hb. apply hoare_conseq; [|done]. intros w. by apply Inv_budget. Qed.

Lemma register_cancel_Inv m b l : preserves (Inv m b) (register_cancel l).
Proof.
  apply preserves_bind; [by apply core_Inv|]. intros ctx.
  apply preserves_bind; [apply load_Inv|]. intros t.
  apply preserves_bind; [by apply sched_modify_Inv|]. intros _. apply preserves_ret.
Qed.

Lemma spawn_Inv m b ctx l : in_mem m l → preserves (Inv m b) (spawn ctx l).
Proof.
  intros Hl w HI. pose proof (Inv_in_mem _ _ _ _ _ HI Hl).
  destruct HI as ([] & Hb & Hf). split_and!; [|done..]. split; cbn; try done.
  apply Forall_app; split; [done|]. by constructor.
Qed.

Lemma ClaimTask_core uid (w : W) : core (ClaimTask uid w).2 = core w.
Proof.
  unfold ClaimTask. destruct (w_etcd w) as [k|]; [|done]. by destruct (e_txn _ _).
Qed.

Lemma getOrCreateNodeQueue_Inv m b n :
  hoare (Inv m b) (getOrCreateNodeQueue n)
    (λ ch w, ((length ch ≤ 10)%nat ∧ Forall (in_mem (w_mem w)) ch) ∧ Inv m b w).
Proof.
  intros w HI. unfold getOrCreateNodeQueue.
  destruct (nodeTasks (w_sched w) !! n) as [ch|] eqn:Hn; cbn.
  - split; [|done]. by apply (ok_channels _ _ (proj1 HI) n).
  - assert ((length (@nil loc) ≤ 10)%nat ∧ Forall (in_mem (w_mem w)) []) as Hnil.
    { split; [simpl; lia|constructor]. }
    split; [done|]. by apply (set_channel_Inv L m b n [] w).
Qed.

(** The start time is recorded and the row written: the task's share is
    spent, whatever the outcome. *)
Lemma start_Inv m b l (f : Time → Task → Task) φ (c : option error → M W unit) :
  good m l →
  (∀ n t, task_ok t → task_ok (f n t) ∧ identity (f n t) = identity t) →
  (∀ e, preserves (Inv m (charge b (deref m l))) (c e)) →
  hoare (At m b l φ) (n ← now; assign l (f n) ;; err ← store_Update l; c err)
    (λ _, Inv m (charge b (deref m l))).
Proof.
  intros [Hl Hok] Hf Hc. eapply hoare_bind; [by apply core_At|]. intros n.
  eapply hoare_bind; [apply (assign_At L m b l _ (λ _, True)); [done|]|].
  { intros t Ht _. destruct (Hf n t Ht). by split_and!. }
  intros []. eapply hoare_bind; [|exact Hc].
  apply store_Update_At; [done|]. intros t _ _ Hid. by apply charge_use.
Qed.

Lemma drop_charge {A} m b l φ (a : A) :
  good m l → hoare (At m b l φ) (mret a) (λ _, Inv m (charge b (deref m l))).
Proof.
  intros [_ Hok]. apply hoare_ret. intros w [HI _]. eapply Inv_budget; [|exact HI].
  by apply charge_le.
Qed.

Lemma dispatchLocal_Inv m b l :
  good m l → hoare (Inv m b) (dispatchLocal l) (λ _, Inv m (charge b (deref m l))).
Proof.
  intros Hg. apply (from_At L m b l). unfold dispatchLocal.
  eapply hoare_bind; [apply transition_At; [apply Hg|known]|].
  intros [e|]; [by apply drop_charge|].
  apply start_Inv; [done|intros n t []; by split|]. intros [e|]; [apply preserves_ret|].
  apply preserves_bind; [apply register_cancel_Inv|]. intros ctx. apply spawn_Inv, Hg.
Qed.

Lemma dispatchRemote_Inv m b l node :
  good m l → hoare (Inv m b) (dispatchRemote l node) (λ _, Inv m (charge b (deref m l))).
Proof.
  intros Hg. apply (from_At L m b l). unfold dispatchRemote.
  eapply hoare_bind; [apply transition_At; [apply Hg|known]|].
  intros [e|]; [by apply drop_charge|].
  eapply hoare_bind; [apply (assign_At L m b l _ (λ _, True)); [apply Hg|keeps]|]. intros [].
  apply start_Inv; [done|intros n t []; by split|]. intros [e|]; [apply preserves_ret|].
  apply preserves_bind; [apply register_cancel_Inv|]. intros ctx.
  eapply hoare_bind; [apply getOrCreateNodeQueue_Inv|]. intros ch.
  destruct (Nat.ltb_spec (length ch) channel_capacity) as [Hlt|_].
  - intros w [[_ Hch] HI]. apply set_channel_Inv. split; [|done]. split.
    + rewrite length_app. unfold channel_capacity in Hlt. simpl. lia.
    + apply Forall_app; split; [done|]. constructor; [|done]. by eapply Inv_in_mem, Hg.
  - intros w [_ HI]. by apply spawn_Inv; [apply Hg|].
Qed.

Lemma place_Inv m b l :
  good m l → hoare (Inv m b) (place l) (λ _, Inv m (charge b (deref m l))).
Proof.
  intros Hg. unfold place. eapply hoare_bind; [apply load_Inv|]. intros t.
  eapply hoare_bind; [apply (preserves_gets (Inv m b))|]. intros nm.
  destruct (SelectNode nm t) as [[node|]|e];
    [by apply dispatchRemote_Inv|by apply dispatchLocal_Inv|by apply dispatchLocal_Inv].
Qed.

Lemma dispatch_Inv m b l :
  good m l → hoare (Inv m b) (dispatch l) (λ _, Inv m (charge b (deref m l))).
Proof.
  intros Hg. apply (from_At L m b l). unfold dispatch.
  eapply hoare_bind; [apply (load_At L m b l); apply Hg|]. intros t. apply hoare_pure.
  intros (_ & Hok & _).
  eapply hoare_bind; [apply core_At, ClaimTask_core|].
  intros [[]|e]; [|by apply drop_charge..].
  case_bool_decide as Hs.
  - eapply hoare_bind; [apply transition_At; [apply Hg|known]|].
    intros [e|]; [by apply drop_charge|].
    eapply hoare_bind.
    { apply store_Update_idle; [apply Hg|]. intros t' Ht'. by rewrite Ht'. }
    intros [e|]; [|by apply place_Inv].
    apply (from_At L m b l). by apply drop_charge.
  - eapply hoare_conseq; [| |by apply place_Inv]; [by intros w [HI _]|done].
Qed.

(** *** The scheduling cycle *)

Lemma scan_one_Inv m b n l : in_mem m l → preserves (Inv m b) (scan_one n l).
Proof.
  intros Hl. apply preserves_bind; [apply load_Inv|]. intros t.
  destruct (timed_out n t); [by apply failTask_Inv|apply preserves_ret].
Qed.

Lemma sums_nonneg m ls : Forall (good m) ls → 0 <= sum_cpu m ls ∧ 0 <= sum_mem m ls.
Proof.
  intros Hls. unfold sum_cpu, sum_mem. split; apply zsum_nonneg, Forall_fmap;
    (eapply Forall_impl; [exact Hls|]); intros l [_ []]; done.
Qed.

Lemma scan_running_Inv m b n ls c mm :
  Forall (good m) ls → 0 <= c → 0 <= mm →
  c + sum_cpu m ls < 2 ^ 63 → mm + sum_mem m ls < 2 ^ 63 →
  hoare (Inv m b) (scan_running n ls c mm)
    (λ al w, al = (c + sum_cpu m ls, mm + sum_mem m ls) ∧ Inv m b w).
Proof.
  intros Hls. revert c mm. induction Hls as [|l ls [Hl Hok] Hls IH]; intros c mm Hc Hm Hbc Hbm.
  - apply hoare_ret. intros w HI. unfold sum_cpu, sum_mem. cbn. by rewrite !Z.add_0_r.
  - cbn [scan_running]. apply (from_At L m b l).
    eapply hoare_bind; [by apply load_At|]. intros t. apply hoare_pure. intros (_ & Ht & [= _ E1 E2]).
    eapply hoare_bind.
    { eapply hoare_conseq; [| |by apply (scan_one_Inv m b n l)]; [by intros w [HI _]|done]. }
    intros [].
    assert (sum_cpu m (l :: ls) = CPULimit t + sum_cpu m ls) as Ec
      by by rewrite E1.
    assert (sum_mem m (l :: ls) = MemoryLimit t + sum_mem m ls) as Em
      by by rewrite E2.
    pose proof (sums_nonneg m ls Hls). destruct Ht. rewrite Ec, Em in *.
    rewrite !add64_id by int_lia.
    eapply hoare_conseq; [done| |apply IH; lia]. intros al w [-> HI].
    split; [|done]. f_equal; lia.
Qed.

Definition avail_ok (b : avail) : Prop := 0 <= b.1.1 < 2 ^ 63 ∧ 0 <= b.1.2 < 2 ^ 63 ∧ b.2 < 2 ^ 63.

(** What the loop knows after an iteration. *)
Definition loop_inv m (r : option avail) (b : avail) (w : W) : Prop :=
  match r with
  | None => Inv m b w
  | Some b' => (avail_ok b' ∧ 0 <= b'.2) ∧ Inv m b' w
  end.

Lemma canAllocate_le t c mm :
  canAllocate t c mm = true → (CPULimit t <= 0 ∨ CPULimit t <= c) ∧ (MemoryLimit t <= 0 ∨ MemoryLimit t <= mm).
Proof.
  unfold canAllocate.
  destruct (Z.ltb_spec 0 (CPULimit t)), (Z.ltb_spec c (CPULimit t)),
    (Z.ltb_spec 0 (MemoryLimit t)), (Z.ltb_spec mm (MemoryLimit t)); cbn; done || lia.
Qed.

Lemma try_dispatch_Inv m b l :
  good m l → avail_ok b → 0 < b.2 →
  hoare (Inv m b)
    (task ← load l;
     if canAllocate task b.1.1 b.1.2 then
       dispatch l ;;
       task ← load l;
       mret (Some (b.1.1 -64 CPULimit task, b.1.2 -64 MemoryLimit task, b.2 -64 1))
     else queue_PushDelayed l second ;; mret (Some b))
    (λ r, loop_inv m r b).
Proof.
  intros Hg (Hc & Hm & Hk) Hpos. pose proof Hg as [Hl Hok]. apply (from_At L m b l).
  eapply hoare_bind; [by apply load_At|]. intros t. apply hoare_pure.
  intros (_ & _ & Hid). pose proof Hid as [= _ E1 E2].
  destruct (canAllocate t b.1.1 b.1.2) eqn:Hcan.
  - apply canAllocate_le in Hcan. rewrite E1, E2 in Hcan. destruct Hok.
    eapply hoare_bind; [eapply hoare_conseq; [| |by apply dispatch_Inv]; [by intros w [HI _]|done]|].
    intros [].
    eapply hoare_bind; [eapply (from_At L m _ l), load_At; done|]. intros t'. apply hoare_pure.
    intros (_ & _ & [= _ -> ->]). apply hoare_ret. intros w [HI _]. cbn.
    rewrite !sub64_id by int_lia. split; [unfold avail_ok; cbn; lia|exact HI].
  - eapply hoare_bind; [eapply hoare_conseq; [| |by apply (queue_PushDelayed_Inv L m b l)];
      [by intros w [HI _]|done]|].
    intros ?. apply hoare_ret. intros w HI. by split; [split; [|lia]|].
Qed.

Lemma pop_one_Inv m b :
  avail_ok b → 0 < b.2 → hoare (Inv m b) (pop_one b) (λ r, loop_inv m r b).
Proof.
  intros Hb Hpos. unfold pop_one. destruct b as [[c mm] k].
  eapply hoare_bind; [apply queue_Pop_Inv|]. intros [[l|]|e]; [|by apply hoare_ret; intros w []..].
  intros w [HI Hl]. specialize (Hl l eq_refl).
  pose proof (Inv_self _ _ _ _ HI) as HI'. pose proof (w_ok_deref L w l (proj1 HI) Hl) as Hok.
  pose proof (try_dispatch_Inv (w_mem w) (c, mm, k) l (conj Hl Hok) Hb Hpos w HI') as Ht.
  cbn [fst snd] in Ht. destruct ((load l ≫= _) w) as [r w'].
  destruct r as [b'|]; cbn in *.
  - split; [apply Ht|]. eapply Inv_rebase; [apply HI|apply Ht].
  - eapply Inv_rebase; [apply HI|exact Ht].
Qed.

Definition b000 : avail := (0, 0, 0).

Lemma dispatch_loop_idle fuel b : b.2 <= 0 → dispatch_loop (Q:=Q) (K:=K) (R:=R) fuel b = mret true.
Proof. intros Hb. destruct fuel; cbn; by destruct (Z.ltb_spec 0 b.2); [lia|]. Qed.

Lemma dispatch_loop_Inv m fuel b :
  avail_ok b → 0 <= b.2 → hoare (Inv m b) (dispatch_loop fuel b) (λ _, Inv m b000).
Proof.
  revert b. induction fuel as [|fuel IH]; intros b Hb Hk.
  all: assert (∀ w : W, Inv m b w → Inv m b000 w) as Hend
    by (intros w; apply Inv_budget; destruct Hb; unfold budget_le; cbn; lia).
  all: cbn [dispatch_loop]; destruct (Z.ltb_spec 0 b.2) as [Hpos|Hneg]; try by apply hoare_ret.
  eapply hoare_bind; [by apply pop_one_Inv|]. intros [b'|]; [|by apply hoare_ret].
  apply hoare_pure. intros [Hb' Hk']. by apply IH.
Qed.

Lemma with_bounds {A} m b (c : M W A) Q' :
  (0 <= cpus L < 2 ^ 63 ∧ 0 <= mems L < 2 ^ 63 ∧ cap L < 2 ^ 63 → hoare (Inv m b) c Q') →
  hoare (Inv m b) c Q'.
Proof. intros Hc w HI. apply Hc; [|done]. destruct HI as ([] & _ & _). tauto. Qed.

Lemma available_Inv m fuel ls :
  budget_le b000 (free L m ls) → Forall (good m) ls →
  hoare (Inv m (free L m ls))
    (s ← gets w_sched;
     dispatch_loop fuel (available s (sum_cpu m ls) (sum_mem m ls) (Z.of_nat (length ls))))
    (λ _, Inv m b000).
Proof.
  intros (F1 & F2 & F3) [Hc0 Hm0]%sums_nonneg. cbn in F1, F2, F3.
  apply with_bounds. intros (Hcpu & Hmem & Hcap).
  eapply hoare_bind; [apply hoare_gets|]. intros s w [-> HI]. pose proof HI as (Hw & _ & _).
  destruct (ok_total_cpu _ _ Hw) as [Et _]. destruct (ok_total_mem _ _ Hw) as [Em _].
  pose proof (ok_slots _ _ Hw) as Hs. unfold available. rewrite Et, Em.
  rewrite !sub64_id by int_lia. set (k := maxConcurrent (w_sched w) - Z.of_nat (length ls)).
  destruct (decide (0 <= k)) as [Hk|Hk].
  - apply (dispatch_loop_Inv m fuel (cpus L - sum_cpu m ls, mems L - sum_mem m ls, k)).
    + unfold avail_ok. cbn. lia.
    + done.
    + eapply Inv_budget; [|exact HI]. unfold budget_le. cbn. lia.
  - rewrite dispatch_loop_idle by (cbn; lia). cbn.
    eapply Inv_budget; [|exact HI]. unfold budget_le. cbn. lia.
Qed.

Lemma tick_rest_Inv m fuel ls :
  budget_le b000 (free L m ls) → Forall (good m) ls →
  hoare (Inv m (free L m ls))
    (n ← now; al ← scan_running n ls 0 0; s ← gets w_sched;
     dispatch_loop fuel (available s al.1 al.2 (Z.of_nat (length ls))))
    (λ _, Inv m b000).
Proof.
  intros Hfree Hgood. pose proof Hfree as (F1 & F2 & F3). cbn in F1, F2, F3.
  eapply hoare_bind; [by apply core_Inv|]. intros n.
  apply with_bounds. intros (Hcpu & Hmem & Hcap).
  eapply hoare_bind; [apply scan_running_Inv; done || lia|]. intros al. apply hoare_pure.
  intros ->. by apply available_Inv.
Qed.

Lemma tick_Inv m fuel : preserves (Inv m b000) (tick fuel).
Proof.
  eapply hoare_bind; [by apply store_GetRunningTasks_Inv|]. intros [ls|e]; [|by apply hoare_ret].
  intros w (HI & Hfree & Hgood). apply (Inv_rebase L m (w_mem w)); [apply HI|].
  apply (tick_rest_Inv (w_mem w) fuel ls Hfree Hgood). by eapply Inv_self.
Qed.

(** *** The other entry points *)

Lemma HandleRemoteResult_Inv m b uid result : preserves (Inv m b) (HandleRemoteResult uid result).
Proof.
  eapply hoare_bind; [apply store_GetByUID_Inv|]. intros [l|e]; [|by apply hoare_ret; intros w []].
  eapply hoare_conseq; [| |apply (hoare_rebase L m b b (λ m, in_mem m l))]; [|done|].
  - intros w [HI Hl]. split; [done|by apply Hl].
  - intros m' Hm Hl. apply preserves_bind; [by apply sched_modify_Inv|]. intros _.
    by apply completeTask_Inv.
Qed.

Lemma execution_done_Inv m b ctx l result :
  in_mem m l → preserves (Inv m b) (execution_done ctx l result).
Proof.
  intros Hl. apply preserves_bind.
  { intros w ([] & Hb & Hf). split_and!; [|done..]. split; cbn; try done.
    by apply Forall_filter_list. }
  intros _. apply preserves_bind; [by apply completeTask_Inv|]. intros _.
  apply preserves_bind; [apply load_Inv|]. intros t. by apply sched_modify_Inv.
Qed.

Lemma cancel_message_Inv m b ch : preserves (Inv m b) (cancel_message ch).
Proof.
  intros w HI. unfold cancel_message. destruct (cancelFuncs (w_sched w) !! _) as [ctx|]; [|done].
  assert (Inv m b (w <| w_canceled := {[ ctx ]} ∪ w_canceled w |>)) as HI'.
  { eapply Inv_core; [|exact HI]. done. }
  assert (preserves (Inv m b) (sched_modify
    (λ s, s <| cancelFuncs := delete (TrimPrefix ch "tasks:cancel:") (cancelFuncs s) |>))) as Hs
    by by apply sched_modify_Inv.
  by apply Hs in HI'.
Qed.

Lemma GetNextTaskForNode_Inv m b n : preserves (Inv m b) (GetNextTaskForNode n).
Proof.
  intros w HI. unfold GetNextTaskForNode.
  destruct (nodeTasks (w_sched w) !! n) as [[|l ch]|] eqn:Hn; [done| |done]. cbn.
  destruct (ok_channels _ _ (proj1 HI) n _ Hn) as [Hlen Hall].
  apply Forall_cons_1 in Hall as [_ Hall]. refine (set_channel_Inv L m b n ch w _).
  split; [split; [simpl in Hlen; lia|done]|done].
Qed.
End invariant.

(** ** Termination of the cycle *)

Section ready.
Context {Q K R : Type} `{Host} `{TaskQueueOk Q} `{Etcd K} `{Redis R}.
Abbreviation W := (World Q K R).

(** The number of tasks a pop can return without waiting. *)
Definition ready (n : nat) (w : W) : Prop := q_ready (w_queue w) = n.

(** A computation that leaves the queue alone, or only delays tasks. *)
Lemma core_ready {A} n (c : M W A) : (∀ w, w_queue (c w).2 = w_queue w) → preserves (ready n) c.
Proof. intros Hc w Hw. unfold ready in *. by rewrite Hc. Qed.

Lemma PushDelayed_ready n l d : preserves (ready n) (queue_PushDelayed l d).
Proof.
  intros w Hw. unfold queue_PushDelayed, mbind, M_bind, now, action, ready in *. cbn.
  pose proof (q_PushDelayed_ready (clock (w_clk w)) (w_mem w) l d (w_queue w)) as Hq.
  destruct (q_PushDelayed _ _ _ _ _) as [e q]. cbn in *. congruence.
Qed.

Lemma transition_ready n target l : preserves (ready n) (transition target l).
Proof.
  unfold transition. apply preserves_bind; [by apply core_ready|]. intros t.
  apply preserves_bind; [by apply core_ready|]. intros task.
  destruct (TransitionTo t target task) as [e task'].
  apply preserves_bind; [by apply core_ready|]. intros _. apply preserves_ret.
Qed.

Lemma store_Update_ready n l : preserves (ready n) (store_Update l).
Proof.
  unfold store_Update. apply preserves_bind; [by apply core_ready|]. intros t.
  apply preserves_bind; [by apply core_ready|]. intros f. apply core_ready.
  intros w. unfold action. by destruct (Update _ _ _ _) as [[e t'] tbl].
Qed.

Lemma count_daily_ready n f : preserves (ready n) (count_daily f).
Proof.
  apply core_ready. intros w. pose proof (count_daily_core f w) as Hc. by injection Hc.
Qed.

Lemma ClaimTask_ready n uid : preserves (ready n) (ClaimTask uid).
Proof.
  apply core_ready. intros w. pose proof (ClaimTask_core uid w) as Hc. by injection Hc.
Qed.

Lemma getOrCreateNodeQueue_ready n id : preserves (ready n) (getOrCreateNodeQueue id).
Proof.
  apply core_ready. intros w. unfold getOrCreateNodeQueue.
  by destruct (nodeTasks (w_sched w) !! id).
Qed.

Ltac keep_ready :=
  repeat first
    [ apply preserves_ret | apply PushDelayed_ready | apply transition_ready
    | apply store_Update_ready | apply count_daily_ready | apply ClaimTask_ready
    | apply getOrCreateNodeQueue_ready
    | apply preserves_bind; [|intros ?]
    | match goal with |- preserves _ (match ?x with _ => _ end) => destruct x end
    | by apply core_ready ].

Lemma failTask_ready n l msg : preserves (ready n) (failTask l msg).
Proof. unfold failTask. keep_ready. Qed.

Lemma dispatchLocal_ready n l : preserves (ready n) (dispatchLocal l).
Proof. unfold dispatchLocal, register_cancel. keep_ready. Qed.

Lemma dispatchRemote_ready n l node : preserves (ready n) (dispatchRemote l node).
Proof. unfold dispatchRemote, register_cancel. keep_ready. Qed.

Lemma dispatch_ready n l : preserves (ready n) (dispatch l).
Proof.
  assert (preserves (ready n) (place l)) as Hplace.
  { unfold place. apply preserves_bind; [by apply core_ready|]. intros t.
    apply preserves_bind; [by apply core_ready|]. intros nm.
    destruct (SelectNode nm t) as [[node|]|e];
      [apply dispatchRemote_ready|apply dispatchLocal_ready..]. }
  unfold dispatch. apply preserves_bind; [by apply core_ready|]. intros t.
  apply preserves_bind; [apply ClaimTask_ready|]. intros [[]|e]; [|apply preserves_ret..].
  destruct (bool_decide _); [|done].
  apply preserves_bind; [apply transition_ready|]. intros [e|]; [apply preserves_ret|].
  apply preserves_bind; [apply store_Update_ready|]. intros [e|]; [apply preserves_ret|done].
Qed.

Lemma scan_running_ready n t ls c m : preserves (ready n) (scan_running t ls c m).
Proof.
  revert c m. induction ls as [|l ls IH]; intros c m; cbn [scan_running]; [apply preserves_ret|].
  apply preserves_bind; [by apply core_ready|]. intros task.
  apply preserves_bind; [|intros _; apply IH]. unfold scan_one.
  apply preserves_bind; [by apply core_ready|]. intros task'.
  destruct (timed_out t task'); [apply failTask_ready|apply preserves_ret].
Qed.

Lemma store_GetRunningTasks_ready n : preserves (ready n) store_GetRunningTasks.
Proof.
  unfold store_GetRunningTasks. apply preserves_bind; [by apply core_ready|]. intros f.
  apply preserves_bind; [by apply core_ready|]. intros tbl. destruct (GetRunningTasks f tbl) as [ts|e];
    [|apply preserves_ret].
  apply preserves_bind; [|intros ls; apply preserves_ret]. apply core_ready. intros w.
  by rewrite new_all_spec.
Qed.

(** An iteration that goes on has used up a ready task. *)
Lemma pop_one_ready b (w : W) b' w' :
  pop_one b w = (Some b', w') → (q_ready (w_queue w') < q_ready (w_queue w))%nat.
Proof.
  destruct b as [[c mm] k]. unfold pop_one. unfold mbind, M_bind at 1.
  unfold queue_Pop. destruct (q_Pop _ _ _ _) as [[[r i] m'] q'] eqn:Hpop. cbn [fst snd].
  destruct r as [[l|]|e]; [|done..]. apply q_Pop_ready in Hpop. intros Hrun.
  set (w1 := w <| w_clk := _ |> <| w_mem := m' |> <| w_queue := q' |>) in Hrun.
  assert (ready (q_ready q') w') as Hready; [|unfold ready in Hready; lia].
  change w' with (Some b', w').2. rewrite <- Hrun.
  assert (∀ A (c : M W A), preserves (ready (q_ready q')) c → ready (q_ready q') (c w1).2) as Hp.
  { intros A c' Hc. by apply Hc. }
  apply Hp. apply preserves_bind; [by apply core_ready|]. intros t.
  destruct (canAllocate t c mm).
  - apply preserves_bind; [apply dispatch_ready|]. intros _.
    apply preserves_bind; [by apply core_ready|]. intros t'. apply preserves_ret.
  - apply preserves_bind; [apply PushDelayed_ready|]. intros _. apply preserves_ret.
Qed.

Lemma dispatch_loop_step fuel b (w : W) :
  dispatch_loop (S fuel) b w =
    if 0 <? b.2 then
      match (pop_one b w).1 with
      | None => (true, (pop_one b w).2)
      | Some b' => dispatch_loop fuel b' (pop_one b w).2
      end
    else (true, w).
Proof.
  cbn [dispatch_loop]. destruct (0 <? b.2); [|done]. unfold mbind, M_bind.
  by destruct (pop_one b w) as [[b'|] w'].
Qed.

Lemma dispatch_loop_terminates fuel b (w : W) :
  (q_ready (w_queue w) < fuel)%nat →
  (dispatch_loop fuel b w).1 = true ∧
  ∀ fuel', (fuel ≤ fuel')%nat → dispatch_loop fuel' b w = dispatch_loop fuel b w.
Proof.
  revert b w. induction fuel as [|fuel IH]; intros b w Hr; [lia|].
  assert (∀ b', (pop_one b w).1 = Some b' → (q_ready (w_queue (pop_one b w).2) < fuel)%nat) as Hpop.
  { intros b' Hb'. destruct (pop_one b w) as [r w'] eqn:Hp. cbn in Hb'. subst r.
    apply pop_one_ready in Hp. cbn. lia. }
  split.
  - rewrite dispatch_loop_step. destruct (0 <? b.2); [|done].
    destruct (pop_one b w).1 as [b'|]; [|done]. by apply IH, (Hpop b').
  - intros [|fuel'] Hle; [lia|]. rewrite !dispatch_loop_step. destruct (0 <? b.2); [|done].
    destruct (pop_one b w).1 as [b'|]; [|done]. apply IH; [by apply (Hpop b')|lia].
Qed.

(** The state in which the dispatch loop of a cycle starts. *)
Lemma tick_split (w : W) :
  (∃ w', ∀ fuel, tick fuel w = (true, w')) ∨
  ∃ b w', q_ready (w_queue w') = q_ready (w_queue w) ∧
          ∀ fuel, tick fuel w = dispatch_loop fuel b w'.
Proof.
  pose proof (store_GetRunningTasks_ready _ w eq_refl) as Hg.
  destruct (store_GetRunningTasks w) as [[ls|e] w1] eqn:Hrun; cbn [snd] in Hg.
  - right.
    pose proof (scan_running_ready (q_ready (w_queue w)) (now w1).1 ls 0 0 (now w1).2 Hg) as Hs.
    destruct (scan_running (now w1).1 ls 0 0 (now w1).2) as [al w2] eqn:Hscan. cbn [snd] in Hs.
    exists (available (w_sched w2) al.1 al.2 (Z.of_nat (length ls))), w2. split; [exact Hs|].
    intros fuel. unfold tick, mbind, M_bind. rewrite Hrun. cbn [fst snd]. by rewrite Hscan.
  - left. exists w1. intros fuel. unfold tick, mbind, M_bind. by rewrite Hrun.
Qed.
End ready.
