(* ===== verification/Executor.v ===== *)
(** * Running a task ([internal/executor/executor.go])

    What [Executor.Run] does around the operating system: the command it
    starts, how the two output pipes are read line by line, and how the end of
    the process is classified.  The process is a parameter: from the command to
    what its pipes carry and how it ends.  The channel of slots, on which the
    goroutines block, is a transition system of its own at the end. *)

From Stdlib Require Import Ascii.
From stdpp Require Import relations.
From S2P Require Import Prelude GoStrings Model TaskQueue InMemQueue TaskStore NodeStore.
From S2P Require Import NodeManager Runtime Invariant TaskService Scheduler.

(** ** Output *)

Definition carriage_return : ascii := "013".

(** [bufio.MaxScanTokenSize]: the scanner gives up on a line that fills its
    buffer before the newline is seen. *)
Definition MaxScanTokenSize : Z := 65536.

(** The lines of a text; one that ends with a newline has no further line. *)
Fixpoint drop_last_empty (ls : list string) : list string :=
  match ls with
  | [] => []
  | [l] => if bool_decide (l = EmptyString) then [] else [l]
  | l :: ls => l :: drop_last_empty ls
  end.

Definition lines (s : string) : list string := drop_last_empty (Split s newline).

(** [bufio.ScanLines] drops one trailing carriage return. *)
Fixpoint dropCR (s : string) : string :=
  match s with
  | EmptyString => EmptyString
  | String a EmptyString => if Ascii.eqb a carriage_return then EmptyString else s
  | String a s => String a (dropCR s)
  end.

(** [for scanner.Scan() { scanner.Text() }] *)
Fixpoint scan (ls : list string) : list string :=
  match ls with
  | [] => []
  | l :: ls => if Z.of_nat (String.length l) <? MaxScanTokenSize then dropCR l :: scan ls else []
  end.

Definition append_lines (ls : list string) : string :=
  foldr (λ l s, l +:+ String newline s) EmptyString ls.

(** What [streamOutput] leaves in the buffer; the lines are also the entries it
    appends to the log stream. *)
Definition streamOutput (pipe : string) : string := append_lines (scan (lines pipe)).

(** ** The command *)

Record Cmd : Type := mkCmd {
  cmd_args : list string;
  cmd_Dir : string;
  cmd_Env : list string;
  cmd_timeout : Duration;
}.

Inductive wait_result : Type :=
| Exited                                        (* cmd.Wait() returns nil *)
| ExitError (exitCode : Z) (err : error)        (* *exec.ExitError *)
| WaitError (err : error).

(** How the operating system serves a command. *)
Record Process : Type := mkProcess {
  p_pipe : option error;       (* StdoutPipe or StderrPipe *)
  p_start : option error;
  p_stdout : string;
  p_stderr : string;
  p_wait : wait_result;
  p_ctx : option error;        (* execCtx.Err() after the process has ended *)
}.

Section run.
Context `{MapRange} (environ : list string) (os : Cmd → Process).

Definition command (task : Task) : Cmd := {|
  cmd_args := ["sh"; "-c"; Command task];
  cmd_Dir := Workdir task;
  cmd_Env := environ ++ ((λ kv, kv.1 +:+ "=" +:+ kv.2) <$> map_range (Env task));
  cmd_timeout := if TimeoutSec task <=? 0 then 300 * second else TimeoutSec task *64 second |}.

Definition Run (task : Task) : TaskResult :=
  let p := os (command task) in
  match p_pipe p with
  | Some err => mkResult 0 EmptyString EmptyString false (Some err)
  | None =>
      match p_start p with
      | Some err => mkResult 0 EmptyString EmptyString false (Some err)
      | None =>
          let result := mkResult 0 (streamOutput (p_stdout p)) (streamOutput (p_stderr p)) in
          match p_wait p with
          | Exited => result false None
          | w =>
              if bool_decide (p_ctx p = Some ErrDeadlineExceeded)
              then result true (Some ErrDeadlineExceeded)
              else if bool_decide (p_ctx p = Some ErrCanceled) then result false (Some ErrCanceled)
              else
                match w with
                | ExitError code err =>
                    mkResult code (streamOutput (p_stdout p)) (streamOutput (p_stderr p)) false (Some err)
                | WaitError err => result false (Some err)
                | Exited => result false None
                end
          end
      end
  end.
End run.

(** ** Facts *)

Lemma lines_cons l s : contains_byte newline l = false → lines (l +:+ String newline s) = l :: lines s.
Proof.
  intros Hl. unfold lines. rewrite Split_line by done.
  destruct (Split_cons newline s) as (x & xs & ->). done.
Qed.

Lemma length_append s t : String.length (s +:+ t) = (String.length s + String.length t)%nat.
Proof. induction s as [|a s IH]; [done|]. rewrite append_cons. cbn. by rewrite IH. Qed.

Definition short (l : string) : Prop := Z.of_nat (String.length l) < MaxScanTokenSize.

Lemma streamOutput_line l s :
  contains_byte newline l = false → short l →
  streamOutput (l +:+ String newline s) = dropCR l +:+ String newline (streamOutput s).
Proof.
  intros Hl Hs. unfold streamOutput. rewrite lines_cons by done. cbn [scan].
  destruct (Z.ltb_spec (Z.of_nat (String.length l)) MaxScanTokenSize); [done|unfold short in Hs; lia].
Qed.

Lemma streamOutput_long l s :
  contains_byte newline l = false → ¬ short l → streamOutput (l +:+ s) = EmptyString.
Proof.
  intros Hl Hs. unfold streamOutput, lines.
  destruct (Split_cons newline s) as (x & xs & Hsp). rewrite (Split_app_head _ l s x xs) by done.
  assert (¬ short (l +:+ x)) as Hlong by (unfold short in *; rewrite length_append; lia).
  assert (∀ ls, scan (drop_last_empty ((l +:+ x) :: ls)) = []) as Hnil.
  { intros ls. destruct ls as [|y ls]; cbn [drop_last_empty].
    - case_bool_decide; [done|]. cbn [scan].
      destruct (Z.ltb_spec (Z.of_nat (String.length (l +:+ x))) MaxScanTokenSize); done.
    - cbn [scan]. destruct (Z.ltb_spec (Z.of_nat (String.length (l +:+ x))) MaxScanTokenSize); done. }
  by rewrite Hnil.
Qed.

(** ** Properties *)

(** The captured output is the output, line by line.  Whatever a process
    writes is a sequence of complete lines and an unterminated rest.  While the
    lines are shorter than 64 KiB each is kept, without a trailing carriage
    return and with a newline added to a rest that is not empty; from the first
    line or rest of 64 KiB or more on, everything is lost. *)
Lemma streamOutput_lines (ls : list string) (tail rest : string) :
  Forall (λ l, contains_byte newline l = false ∧ short l) ls → contains_byte newline tail = false →
  (short tail →
   streamOutput (append_lines ls +:+ tail) =
     append_lines ((dropCR <$> ls) ++
       (if bool_decide (tail = EmptyString) then [] else [dropCR tail]))) ∧
  (¬ short tail → streamOutput (append_lines ls +:+ tail +:+ rest) = append_lines (dropCR <$> ls)).
Proof.
  intros Hls Ht. induction Hls as [|l ls [Hl Hs] _ IH]; cbn [append_lines foldr fmap list_fmap app].
  - split; [|intros Hs; by rewrite append_nil_l, streamOutput_long].
    intros Hs. rewrite append_nil_l. unfold streamOutput, lines. rewrite Split_none by done.
    cbn [drop_last_empty]. case_bool_decide; [done|]. cbn [scan].
    destruct (Z.ltb_spec (Z.of_nat (String.length tail)) MaxScanTokenSize); [done|].
    unfold short in Hs. lia.
  - fold (append_lines ls). rewrite !append_assoc, !append_cons, !streamOutput_line by done.
    destruct IH as [IH1 IH2]. split; intros Hs'.
    + by rewrite IH1.
    + by rewrite IH2.
Qed.

(** How the end of a process is classified.  A run succeeds exactly when the
    pipes and the process could be started and [Wait] reports nothing; it is a
    timeout exactly when [Wait] reports an error and the deadline of the context
    has passed, whatever that error is; a cancelled context is reported as such;
    an exit code is reported only for a process that ended by itself.  The
    process always gets a positive time limit. *)
Lemma Run_classifies `{MapRange} (environ : list string) (os : Cmd → Process) (task : Task) :
  let p := os (command environ task) in
  let r := Run environ os task in
  let started := p_pipe p = None ∧ p_start p = None in
  (tr_Error r = None ↔ started ∧ p_wait p = Exited) ∧
  (tr_TimedOut r = true ↔ started ∧ p_wait p ≠ Exited ∧ p_ctx p = Some ErrDeadlineExceeded) ∧
  (started → p_wait p ≠ Exited → p_ctx p = Some ErrCanceled → tr_Error r = Some ErrCanceled) ∧
  (tr_ExitCode r ≠ 0 →
     p_wait p ≠ Exited ∧ tr_TimedOut r = false ∧
     ∃ err, p_wait p = ExitError (tr_ExitCode r) err ∧ tr_Error r = Some err) ∧
  (started → tr_Stdout r = streamOutput (p_stdout p) ∧ tr_Stderr r = streamOutput (p_stderr p)) ∧
  (in_i64 (TimeoutSec task * second) → 0 < cmd_timeout (command environ task)).
Proof.
  intros p r started. unfold r, started, Run. fold p.
  split_and!; try (destruct (p_pipe p); [naive_solver|]; destruct (p_start p); [naive_solver|];
    destruct (p_wait p); repeat case_bool_decide; naive_solver).
  intros Hin. unfold command, cmd_timeout. destruct (Z.leb_spec (TimeoutSec task) 0); [done|].
  rewrite mul64_id by done. apply Z.mul_pos_pos; [lia|done].
Qed.

(** ** Slots

    The channel [slots] bounds the number of processes: [Run] sends to it before
    it starts a process, and receives from it when it returns. *)

Record Slots : Type := mkSlots {
  capacity : Z;
  blocked : list nat;      (* goroutines at the send *)
  holding : list nat;      (* goroutines with a slot *)
  returned : list nat;     (* goroutines whose Run has returned *)
}.

(** [make(chan struct{}, maxConcurrent)] panics on a negative size. *)
Definition NewExecutor (maxConcurrent : Z) : option Slots :=
  if maxConcurrent <? 0 then None else Some (mkSlots maxConcurrent [] [] []).

(** A blocked goroutine gets a slot while the channel has room; one that has a
    slot gives it back. *)
Inductive slot_step (x : Slots) : Slots → Prop :=
| slot_acquire g gs :
    blocked x ≡ₚ g :: gs → Z.of_nat (length (holding x)) < capacity x →
    slot_step x (mkSlots (capacity x) gs (g :: holding x) (returned x))
| slot_release g gs :
    holding x ≡ₚ g :: gs →
    slot_step x (mkSlots (capacity x) (blocked x) gs (g :: returned x)).

(** A new call of [Run]. *)
Definition slot_call (g : nat) (x : Slots) : Slots :=
  mkSlots (capacity x) (g :: blocked x) (holding x) (returned x).

Definition slots_reachable (x0 x : Slots) : Prop :=
  rtc (λ a b, slot_step a b ∨ ∃ g, b = slot_call g a) x0 x.

Definition everyone (x : Slots) : list nat := returned x ++ holding x ++ blocked x.

Lemma slot_step_everyone x y : slot_step x y → capacity y = capacity x ∧ everyone y ≡ₚ everyone x.
Proof.
  intros [g gs Hb Hc|g gs Hh]; (split; [done|]); unfold everyone; cbn.
  - rewrite Hb. apply Permutation_app_head. cbn. apply Permutation_middle.
  - rewrite Hh. cbn. apply Permutation_middle.
Qed.

Lemma slots_ends x :
  0 < capacity x →
  eventually slot_step (λ y, blocked y = [] ∧ holding y = [] ∧ returned y ≡ₚ everyone x) x.
Proof.
  remember (2 * length (blocked x) + length (holding x))%nat as n eqn:Hn. revert x Hn.
  induction (lt_wf n) as [n _ IH]. intros x -> Hc.
  destruct (decide (blocked x = [] ∧ holding x = [])) as [[Hb Hh]|Hmore].
  { apply eventually_now. split_and!; [done..|]. unfold everyone. by rewrite Hb, Hh, app_nil_r. }
  apply eventually_later.
  - destruct (holding x) as [|g gs] eqn:Hh; [|by eexists; apply (slot_release x g gs); rewrite Hh].
    destruct (blocked x) as [|g gs] eqn:Hb; [naive_solver|].
    eexists. apply (slot_acquire x g gs); [by rewrite Hb|]. by rewrite Hh.
  - intros y Hstep. destruct (slot_step_everyone x y Hstep) as [Hcap Hall].
    eapply eventually_trans; [apply (IH (2 * length (blocked y) + length (holding y))%nat)|].
    + destruct Hstep as [g gs Hp _|g gs Hp]; apply Permutation_length in Hp; cbn in *; lia.
    + done.
    + by rewrite Hcap.
    + intros z (Hb & Hh & Hr). apply eventually_now. split_and!; [done..|]. by rewrite Hr.
Qed.

(** C30 The slots bound the processes and lose nobody.  With a channel for [max] of
    them, at most [max] runs have a slot at any time, however calls and returns
    interleave; and if [max] is positive and started processes end, all calls
    made so far inevitably get their slot and return, whichever of the blocked
    goroutines the channel serves first. *)
Theorem executor_slots (max : Z) (x0 x : Slots) :
  NewExecutor max = Some x0 → slots_reachable x0 x →
  Z.of_nat (length (holding x)) <= max ∧
  (0 < max →
   eventually slot_step (λ y, blocked y = [] ∧ holding y = [] ∧ returned y ≡ₚ everyone x) x).
Proof.
  intros Hnew Hr. unfold NewExecutor in Hnew. destruct (Z.ltb_spec max 0); [done|]. injection Hnew as <-.
  assert (Z.of_nat (length (holding x)) <= capacity x ∧ capacity x = max) as [Hle Hcap].
  { unfold slots_reachable in Hr.
    assert (∀ a b, rtc (λ a b, slot_step a b ∨ ∃ g, b = slot_call g a) a b →
      Z.of_nat (length (holding a)) <= capacity a ∧ capacity a = max →
      Z.of_nat (length (holding b)) <= capacity b ∧ capacity b = max) as Hind.
    { induction 1 as [|a b c Hstep _ IH]; [done|]. intros [Ha Hc]. apply IH.
      destruct Hstep as [[g gs Hp Hlt|g gs Hp]|[g ->]]; cbn in *; [lia| |done].
      apply Permutation_length in Hp. cbn in Hp. lia. }
    apply (Hind _ _ Hr). cbn. lia. }
  split; [lia|]. intros Hpos. apply slots_ends. lia.
Qed.

(** ** Witnesses *)

(** A process that prints one line, hangs and is killed at its deadline. *)
Definition hanging : Cmd → Process := λ _,
  mkProcess None None ("hello" +:+ String newline EmptyString) EmptyString
    (ExitError (-1) (ErrorString "signal: killed")) (Some ErrDeadlineExceeded).

Lemma streamOutput_lines_witness :
  streamOutput ("a" +:+ String carriage_return (String newline "b"))
    = "a" +:+ String newline ("b" +:+ String newline EmptyString).
Proof.
  destruct (streamOutput_lines ["a" +:+ String carriage_return EmptyString] "b" EmptyString) as [H1 _];
    [repeat constructor|reflexivity|].
  change (streamOutput (append_lines ["a" +:+ String carriage_return EmptyString] +:+ "b")
    = "a" +:+ String newline ("b" +:+ String newline EmptyString)).
  rewrite H1 by done. reflexivity.
Defined.

Lemma Run_classifies_witness :
  let r := @Run CanonicalRange.range [] hanging (NewTask "u" 0 "t" "sleep 1000") in
  tr_TimedOut r = true ∧ tr_Stdout r = "hello" +:+ String newline EmptyString.
Proof.
  destruct (@Run_classifies CanonicalRange.range [] hanging (NewTask "u" 0 "t" "sleep 1000"))
    as (_ & Ht & _ & _ & Ho & _).
  split; [apply Ht; by split_and!|]. etrans; [apply Ho; by split|]. reflexivity.
Defined.

(** Two calls on one slot. *)
Lemma executor_slots_witness :
  let x := mkSlots 1 [2%nat] [1%nat] [] in
  Z.of_nat (length (holding x)) <= 1 ∧
  eventually slot_step (λ y, blocked y = [] ∧ holding y = [] ∧ returned y ≡ₚ [1; 2]%nat) x.
Proof.
  intros x. destruct (executor_slots 1 (mkSlots 1 [] [] []) x) as [Hle Hend].
  - reflexivity.
  - unfold slots_reachable. apply (rtc_l _ _ (mkSlots 1 [1%nat] [] [])); [right; by exists 1%nat|].
    apply (rtc_l _ _ (mkSlots 1 [2; 1]%nat [] [])); [right; by exists 2%nat|].
    apply rtc_once. left. apply (slot_acquire (mkSlots 1 [2; 1]%nat [] []) 1%nat [2%nat]); [|done].
    apply Permutation_swap.
  - split; [exact Hle|]. apply Hend. done.
Defined.
