(* ===== verification/TaskServiceSpec.v ===== *)
(** * What the operations of the task service do

    Creation with its deduplication, reruns, listing and cancellation: the
    result of each operation on every branch. *)

From S2P Require Import Prelude GoStrings GoFormat Sha256 Model TaskQueue InMemQueue.
From S2P Require Import TaskStore Runtime Invariant TaskService Concrete.

(** What no request can change. *)
Section defaults.
Context `{Host}.

Lemma requested_counts uid n req :
  RetryCount (requested uid n req) = 0 ∧ MaxRetries (requested uid n req) = 3 ∧
  TaskUID (requested uid n req) = uid.
Proof.
  unfold requested, SetIdempotencyKey. set (k := take_bytes _ _). clearbody k. unfold apply_request.
  by destruct (bool_decide _), (cr_Env req), (0 <? cr_CPULimit req), (0 <? cr_MemoryLimit req),
    (0 <? cr_TimeoutSec req), (0 <? cr_Priority req), (cr_NodeSelector req).
Qed.

(** Field by field, what becomes of the request. *)
Lemma requested_fields uid n req :
  let t := requested uid n req in
  t = {|
    ID := 0; TaskUID := uid; Name := cr_Name req; Command := cr_Command req;
    Workdir := if decide (cr_Workdir req = EmptyString) then "/tmp"%string else cr_Workdir req;
    Env := default ∅ (cr_Env req);
    CPULimit := Z.max 0 (cr_CPULimit req); MemoryLimit := Z.max 0 (cr_MemoryLimit req);
    TimeoutSec := if 0 <? cr_TimeoutSec req then cr_TimeoutSec req else 300;
    Priority := Z.max 0 (cr_Priority req); MaxRetries := 3; RetryCount := 0; RetryIntervalSec := 1;
    IdempotencyKey := take_bytes 16 (hex (sha256 (idempotency_input t)));
    NodeSelector := default ∅ (cr_NodeSelector req); AssignedNodeID := EmptyString;
    Status := TaskStatusCreated; ExitCode := None; Stdout := EmptyString; Stderr := EmptyString;
    ErrorMessage := EmptyString; PID := None; StartedAt := None; FinishedAt := None;
    CreatedAt := n; UpdatedAt := n |}.
Proof.
  assert (∀ z, Z.max 0 z = if 0 <? z then z else 0) as Hmax by (intros z; destruct (Z.ltb_spec 0 z); lia).
  cbv zeta. rewrite !Hmax. unfold requested, SetIdempotencyKey.
  set (t0 := apply_request req _).
  change (idempotency_input (t0 <| IdempotencyKey := _ |>)) with (idempotency_input t0).
  generalize (take_bytes 16 (hex (sha256 (idempotency_input t0)))). intros key. subst t0. unfold apply_request.
  rewrite <- decide_bool_decide.
  by destruct (decide _), (cr_Env req), (0 <? cr_CPULimit req), (0 <? cr_MemoryLimit req),
    (0 <? cr_TimeoutSec req), (0 <? cr_Priority req), (cr_NodeSelector req).
Qed.
End defaults.

Section spec.
Context {Q K R : Type} `{Host} `{TaskQueue Q} `{Etcd K} `{Redis R}.
Abbreviation W := (World Q K R).
Implicit Types (w : W) (l : loc) (t : Task).

Lemma run_redis_do {A B} w l t (cmd : R → A * R) (k : option A → M W B) :
  (redis_do cmd ≫= k) (put w l t) =
    match w_redis w with
    | None => k None (put w l t)
    | Some s => k (Some (cmd s).1) (put (w <| w_redis := Some (cmd s).2 |>) l t)
    end.
Proof.
  unfold mbind, M_bind, redis_do. cbn. destruct (w_redis w) as [s|]; [|done].
  by destruct (cmd s).
Qed.

Lemma run_count_daily {A} w l t f (k : unit → M W A) :
  (count_daily f ≫= k) (put w l t) = k tt (put (count_daily f w).2 l t).
Proof.
  unfold count_daily, has_redis, redis_do, mbind, M_bind, gets. cbn.
  case_bool_decide as Hr; [|done]. destruct Hr as [r Hr]. cbn. rewrite Hr.
  by destruct (r_HIncrBy _ _ _ _).
Qed.

Lemma run_store_Create {A} w l t (k : option error → M W A) :
  in_mem (w_mem w) l →
  (store_Create l ≫= k) (put w l t) =
    let w' := w <| w_stm := S (w_stm w) |> in
    match db_fault (w_stm w), rows (w_db w) !! TaskUID t with
    | Some e, _ => k (Some e) (put w' l t)
    | None, Some _ =>
        k (Some (ErrorString "pq: duplicate key value violates unique constraint")) (put w' l t)
    | None, None =>
        k None (put (w' <| w_db := mkTaskTable
                      (<[TaskUID t := insert_row (next_id (w_db w)) t]> (rows (w_db w)))
                      (next_id (w_db w) + 1) |>) l (t <| ID := next_id (w_db w) |>))
    end.
Proof.
  intros Hl. unfold store_Create, mbind, M_bind, statement, action, Create. cbn.
  rewrite deref_insert by done.
  destruct (db_fault (w_stm w)); [|destruct (rows (w_db w) !! TaskUID t)];
    unfold put; cbn; by rewrite list_insert_insert_eq.
Qed.

(** *** Creation *)

(** What Redis answers to the SETNX of a request; [None] without Redis. *)
Definition dedup_reply w (t : Task) : option (result bool) :=
  (λ s, (r_SetNX (dedup_key t) (TaskUID t) (5 * minute) s).1) <$> w_redis w.

(** The part of [CreateTask] after the check for duplicates. *)
Definition insert_and_push l : M W (result loc) :=
  err ← store_Create l;
  match err with
  | Some e => mret (Err e)
  | None =>
      count_daily "submitted" ;;
      t ← load l;
      (if 0 <? Priority t then queue_PushPriority l else queue_Push l) ;;
      mret (Ok l)
  end.

Lemma insert_and_push_result w l t :
  in_mem (w_mem w) l → rows (w_db w) !! TaskUID t = None →
  let '(res, w') := insert_and_push l (put w l t) in
  w_running w' = w_running w ∧ w_sched w' = w_sched w ∧
  match db_fault (w_stm w) with
  | Some e =>
      res = Err e ∧ w_db w' = w_db w ∧ w_queue w' = w_queue w ∧ w_redis w' = w_redis w
  | None =>
      res = Ok l ∧ deref (w_mem w') l = t <| ID := next_id (w_db w) |> ∧
      w_db w' = mkTaskTable (<[TaskUID t := insert_row (next_id (w_db w)) t]> (rows (w_db w)))
                  (next_id (w_db w) + 1) ∧
      w_queue w' = (if 0 <? Priority t then q_PushPriority (w_mem w') l (w_queue w)
                    else q_Push (w_mem w') l (w_queue w)).2
  end.
Proof.
  intros Hl Hr. unfold insert_and_push. rewrite run_store_Create by done. cbv zeta. rewrite Hr.
  destruct (db_fault (w_stm w)) as [e|]; [by split_and!|].
  rewrite run_count_daily. set (w1 := w <| w_stm := _ |> <| w_db := _ |>).
  pose proof (count_daily_core "submitted" w1) as Hc.
  destruct (count_daily "submitted" w1) as [[] w2]. cbn [snd] in *.
  unfold core in Hc. injection Hc as Em Edb Eq Es Er.
  rewrite run_load by by rewrite Em. cbn [Priority setf set_ID].
  destruct (0 <? Priority t); unfold queue_PushPriority, queue_Push, mbind, M_bind; cbn [fst snd].
  - destruct (q_PushPriority (w_mem (put w2 l _)) l (w_queue (put w2 l _))) as [e q] eqn:Hq.
    cbn. rewrite deref_insert by by rewrite Em.
    cbn in Hq. rewrite Eq, Em in Hq. rewrite Em, Er, Es, Edb.
    split_and!; try done. by rewrite Hq.
  - destruct (q_Push (w_mem (put w2 l _)) l (w_queue (put w2 l _))) as [e q] eqn:Hq.
    cbn. rewrite deref_insert by by rewrite Em.
    cbn in Hq. rewrite Eq, Em in Hq. rewrite Em, Er, Es, Edb.
    split_and!; try done. by rewrite Hq.
Qed.

(** Everything up to the insertion happens to Redis and the counters only. *)
Lemma CreateTask_result w req :
  let t := requested (new_uuid (w_uuids w)) (clock (w_clk w)) req in
  let l := length (w_mem w) in
  rows (w_db w) !! TaskUID t = None →
  let '(res, w') := CreateTask req w in
  w_running w' = w_running w ∧ w_sched w' = w_sched w ∧
  match dedup_reply w t, db_fault (w_stm w) with
  | Some (Ok false), _ =>
      (∃ s, res = Err (ErrorString ("duplicate task: " +:+ s))) ∧
      w_db w' = w_db w ∧ w_queue w' = w_queue w
  | _, Some e =>
      res = Err e ∧ w_db w' = w_db w ∧ w_queue w' = w_queue w ∧
      w_redis w' = (λ s, (r_SetNX (dedup_key t) (TaskUID t) (5 * minute) s).2) <$> w_redis w
  | _, None =>
      res = Ok l ∧ deref (w_mem w') l = t <| ID := next_id (w_db w) |> ∧
      w_db w' = mkTaskTable (<[TaskUID t := insert_row (next_id (w_db w)) t]> (rows (w_db w)))
                  (next_id (w_db w) + 1) ∧
      w_queue w' = (if 0 <? Priority t then q_PushPriority (w_mem w') l (w_queue w)
                    else q_Push (w_mem w') l (w_queue w)).2
  end.
Proof.
  intros t l Hfresh. unfold CreateTask. unfold mbind at 1, M_bind at 1. cbn [now fst snd].
  unfold mbind at 1, M_bind at 1. cbn [uuid fst snd]. unfold mbind at 1, M_bind at 1.
  cbn [new alloc fst snd]. cbn [w_uuids w_mem setf set_w_clk set_w_uuids]. fold t l.
  set (w1 := (w <| w_clk := _ |> <| w_uuids := _ |>) <| w_mem := _ |>).
  assert (in_mem (w_mem w1) l) as Hl by (unfold in_mem, w1, l; cbn; rewrite length_app; simpl; lia).
  assert (w1 = put w1 l t) as Hw1.
  { unfold put, w1, l. cbn. by rewrite insert_app_r_alt, Nat.sub_diag by lia. }
  rewrite Hw1. rewrite run_load by done. rewrite run_redis_do.
  assert (w_running w1 = w_running w ∧ w_sched w1 = w_sched w ∧ w_db w1 = w_db w ∧
          w_queue w1 = w_queue w ∧ w_stm w1 = w_stm w ∧ w_redis w1 = w_redis w)
    as (Er & Es & Edb & Eq & Est & Erd) by done.
  clearbody w1 l t. clear Hw1. unfold dedup_reply. rewrite Erd.
  assert (∀ r, let '(res, w') := insert_and_push l (put (w1 <| w_redis := r |>) l t) in
    w_running w' = w_running w ∧ w_sched w' = w_sched w ∧
    match db_fault (w_stm w) with
    | Some e => res = Err e ∧ w_db w' = w_db w ∧ w_queue w' = w_queue w ∧ w_redis w' = r
    | None =>
        res = Ok l ∧ deref (w_mem w') l = t <| ID := next_id (w_db w) |> ∧
        w_db w' = mkTaskTable (<[TaskUID t := insert_row (next_id (w_db w)) t]> (rows (w_db w)))
                    (next_id (w_db w) + 1) ∧
        w_queue w' = (if 0 <? Priority t then q_PushPriority (w_mem w') l (w_queue w)
                      else q_Push (w_mem w') l (w_queue w)).2
    end) as Hins.
  { intros r. set (w2 := w1 <| w_redis := r |>).
    assert (w_mem w2 = w_mem w1 ∧ w_redis w2 = r ∧ w_running w2 = w_running w ∧
            w_sched w2 = w_sched w ∧ w_db w2 = w_db w ∧ w_queue w2 = w_queue w ∧
            w_stm w2 = w_stm w) as (Em & Ered & Er2 & Es2 & Edb2 & Eq2 & Est2)
      by (by split_and!).
    clearbody w2. pose proof (insert_and_push_result w2 l t) as Hins.
    rewrite Em, Ered, Er2, Es2, Edb2, Eq2, Est2 in Hins. by apply Hins. }
  destruct (w_redis w) as [s|]; cbn [fmap option_fmap option_map].
  - specialize (Hins (Some (r_SetNX (dedup_key t) (TaskUID t) (5 * minute) s).2)).
    destruct (r_SetNX (dedup_key t) (TaskUID t) (5 * minute) s) as [[[]|e0] s']; cbn [fst snd] in *.
    + exact Hins.
    + rewrite run_redis_do. cbn. rewrite Er, Es, Edb, Eq. split_and!; try done. by eexists.
    + exact Hins.
  - assert (w1 <| w_redis := None |> = w1) as Hw1 by (destruct w1; cbn in *; by subst).
    specialize (Hins None). rewrite Hw1 in Hins. exact Hins.
Qed.

(** C8 Creation.  The task a request stands for has a new UID, the name and the
    command of the request, its working directory unless empty (then [/tmp]),
    its environment and node selector if present, its CPU, memory and priority
    if positive (else 0) and its timeout if positive (else 300 seconds), three
    retries a second apart, no progress, and as idempotency key the first 16
    hexadecimal digits of the SHA-256 of command, directory and environment.
    Branch by branch, for a fresh UID: when Redis knows the key
    of the task ([SetNX] answers false) the request is refused as a duplicate
    and neither table nor queue changes.  Otherwise (no Redis, an error from
    Redis, or the key now set) the row is inserted; if that fails, the error
    is returned and nothing is enqueued, but the key stays set.  On success
    the answer is a task with defaults overridden by the positive or present
    fields of the request, its row is in the table, and it is enqueued once:
    in the priority queue exactly when its priority is positive. *)
Theorem CreateTask_spec w req :
  let t := requested (new_uuid (w_uuids w)) (clock (w_clk w)) req in
  let l := length (w_mem w) in
  t = {|
    ID := 0; TaskUID := new_uuid (w_uuids w); Name := cr_Name req; Command := cr_Command req;
    Workdir := if decide (cr_Workdir req = EmptyString) then "/tmp"%string else cr_Workdir req;
    Env := default ∅ (cr_Env req);
    CPULimit := Z.max 0 (cr_CPULimit req); MemoryLimit := Z.max 0 (cr_MemoryLimit req);
    TimeoutSec := if 0 <? cr_TimeoutSec req then cr_TimeoutSec req else 300;
    Priority := Z.max 0 (cr_Priority req); MaxRetries := 3; RetryCount := 0; RetryIntervalSec := 1;
    IdempotencyKey := take_bytes 16 (hex (sha256 (idempotency_input t)));
    NodeSelector := default ∅ (cr_NodeSelector req); AssignedNodeID := EmptyString;
    Status := TaskStatusCreated; ExitCode := None; Stdout := EmptyString; Stderr := EmptyString;
    ErrorMessage := EmptyString; PID := None; StartedAt := None; FinishedAt := None;
    CreatedAt := clock (w_clk w); UpdatedAt := clock (w_clk w) |} ∧
  (rows (w_db w) !! TaskUID t = None →
   let '(res, w') := CreateTask req w in
   w_running w' = w_running w ∧ w_sched w' = w_sched w ∧
   match dedup_reply w t, db_fault (w_stm w) with
   | Some (Ok false), _ =>
       (∃ s, res = Err (ErrorString ("duplicate task: " +:+ s))) ∧
       w_db w' = w_db w ∧ w_queue w' = w_queue w
   | _, Some e =>
       res = Err e ∧ w_db w' = w_db w ∧ w_queue w' = w_queue w ∧
       w_redis w' = (λ s, (r_SetNX (dedup_key t) (TaskUID t) (5 * minute) s).2) <$> w_redis w
   | _, None =>
       res = Ok l ∧ deref (w_mem w') l = t <| ID := next_id (w_db w) |> ∧
       w_db w' = mkTaskTable (<[TaskUID t := insert_row (next_id (w_db w)) t]> (rows (w_db w)))
                   (next_id (w_db w) + 1) ∧
       w_queue w' = (if 0 <? Priority t then q_PushPriority (w_mem w') l (w_queue w)
                     else q_Push (w_mem w') l (w_queue w)).2
   end).
Proof. split; [apply requested_fields|apply CreateTask_result]. Qed.

(** An accepted request has a row. *)
Lemma CreateTask_Ok w req l w' :
  let t := requested (new_uuid (w_uuids w)) (clock (w_clk w)) req in
  rows (w_db w) !! TaskUID t = None → CreateTask req w = (Ok l, w') →
  w_db w' = mkTaskTable (<[TaskUID t := insert_row (next_id (w_db w)) t]> (rows (w_db w)))
              (next_id (w_db w) + 1).
Proof.
  intros t Hfresh Hc. pose proof (CreateTask_result w req Hfresh) as Hr. fold t in Hr.
  rewrite Hc in Hr. destruct Hr as (_ & _ & Hr).
  destruct (dedup_reply w t) as [[[]|]|], (db_fault (w_stm w));
    first [by destruct Hr as (_ & _ & -> & _)|by destruct Hr as [[=] _]|by destruct Hr as [[? [=]] _]].
Qed.

(** *** Duplicates and reruns *)

Lemma CreateTask_duplicate w req :
  let t := requested (new_uuid (w_uuids w)) (clock (w_clk w)) req in
  dedup_reply w t = Some (Ok false) →
  let '(res, w') := CreateTask req w in
  (∃ s, res = Err (ErrorString ("duplicate task: " +:+ s))) ∧
  w_db w' = w_db w ∧ w_queue w' = w_queue w.
Proof.
  intros t Hdup. unfold CreateTask. unfold mbind at 1, M_bind at 1. cbn [now fst snd].
  unfold mbind at 1, M_bind at 1. cbn [uuid fst snd]. unfold mbind at 1, M_bind at 1.
  cbn [new alloc fst snd]. cbn [w_uuids w_mem setf set_w_clk set_w_uuids]. fold t.
  set (l := length (w_mem w)).
  set (w1 := (w <| w_clk := _ |> <| w_uuids := _ |>) <| w_mem := _ |>).
  assert (in_mem (w_mem w1) l) as Hl by (unfold in_mem, w1, l; cbn; rewrite length_app; simpl; lia).
  assert (w1 = put w1 l t) as Hw1.
  { unfold put, w1, l. cbn. by rewrite insert_app_r_alt, Nat.sub_diag by lia. }
  rewrite Hw1. rewrite run_load by done. rewrite run_redis_do.
  change (w_redis w1) with (w_redis w). unfold dedup_reply in Hdup.
  assert (w_db w1 = w_db w ∧ w_queue w1 = w_queue w) as [Edb Eq] by done. clearbody w1 t.
  destruct (w_redis w) as [s|]; [|done]. cbn [fmap option_fmap option_map] in Hdup.
  injection Hdup as Hdup. rewrite Hdup. rewrite run_redis_do. cbn. split_and!; try done. by eexists.
Qed.

(** The key of a rerun is that of the original. *)
Lemma rerun_key uid n t :
  Workdir t ≠ EmptyString →
  dedup_key (requested uid n (rerun_request t)) = dedup_key (SetIdempotencyKey t).
Proof.
  intros Hw. unfold dedup_key, requested, SetIdempotencyKey. cbn [IdempotencyKey setf set_IdempotencyKey].
  do 4 f_equal. unfold idempotency_input, apply_request, rerun_request. cbn.
  rewrite bool_decide_eq_false_2 by done.
  by destruct (0 <? CPULimit t), (0 <? MemoryLimit t), (0 <? TimeoutSec t), (0 <? Priority t).
Qed.

(** A rerun within the deduplication window is refused.  While the key of
    the original task is in Redis, and Redis answers, [RerunTask] returns the
    duplicate error and creates nothing, even if the original has long
    finished. *)
Lemma rerun_refused `{!RedisOk R} w uid r s b :
  rows (w_db w) !! uid = Some r → c_workdir r ≠ EmptyString → db_fault (w_stm w) = None →
  w_redis w = Some s → r_exists (dedup_key (SetIdempotencyKey (scanTask r))) s →
  dedup_reply w (requested (new_uuid (w_uuids w)) (clock (w_clk w)) (rerun_request (scanTask r)))
    = Some (Ok b) →
  let '(res, w') := RerunTask uid w in
  (∃ msg, res = Err (ErrorString ("duplicate task: " +:+ msg))) ∧
  w_db w' = w_db w ∧ w_queue w' = w_queue w.
Proof.
  intros Hr Hwd Hf Hs Hex Hreply. unfold RerunTask. rewrite (run_store_GetByUID w uid r) by done.
  set (w1 := w <| w_stm := _ |> <| w_mem := _ |>). set (l := length (w_mem w)).
  assert (in_mem (w_mem w1) l) as Hl by (unfold in_mem, w1, l; cbn; rewrite length_app; simpl; lia).
  rewrite run_load by done.
  pose proof (CreateTask_duplicate (put w1 l (scanTask r)) (rerun_request (scanTask r))) as Hdup.
  destruct (CreateTask _ _) as [res w']. apply Hdup. clear Hdup.
  change (dedup_reply (put w1 l (scanTask r))) with (dedup_reply w).
  change (w_uuids (put w1 l (scanTask r))) with (w_uuids w).
  change (w_clk (put w1 l (scanTask r))) with (w_clk w).
  rewrite Hreply. destruct b; [|done]. exfalso. unfold dedup_reply in Hreply. rewrite Hs in Hreply.
  cbn [fmap option_fmap option_map] in Hreply. injection Hreply as Hreply. revert Hreply.
  rewrite rerun_key by done. by apply r_SetNX_exists.
Qed.

(** *** Cancellation *)

(** [Publish] either puts the message in flight or reports an error. *)
Lemma redis_Publish_result ch w :
  let '(e, w') := redis_Publish ch w in
  core w' = core w ∧
  w_pubsub w' = match e, w_redis w with
                | None, Some _ => w_pubsub w ++ [ch]
                | _, _ => w_pubsub w
                end ∧ (is_Some e → is_Some (w_redis w)).
Proof.
  unfold redis_Publish, redis_do, mbind, M_bind. destruct (w_redis w) as [s|]; [|done].
  by destruct (r_Publish ch "canceled" s) as [[e|] s'].
Qed.

(** The task that [CancelTask] reads is a new object; others stay. *)
Lemma cancel_frame w r w2 t l' :
  w_mem w2 = w_mem w ++ [scanTask r] → (l' < length (w_mem w))%nat →
  deref (w_mem (put w2 (length (w_mem w)) t)) l' = deref (w_mem w) l'.
Proof. intros Hm Hl'. cbn. rewrite deref_insert_ne by lia. by rewrite Hm, deref_app. Qed.

(** The statements of [CancelTask] after the read, on the object it has read. *)
Definition cancel_found (uid : string) l : M W (option error) :=
  t ← load l;
  if IsTerminal (Status t) then mret (Some (ErrorString "任务已处于终态，无法取消"))
  else
    err ← transition TaskStatusCanceled l;
    match err with
    | Some e => mret (Some e)
    | None =>
        err ← store_Update l;
        match err with
        | Some e => mret (Some e)
        | None =>
            err ← redis_Publish ("tasks:cancel:" +:+ uid);
            match err with
            | Some e => mret (Some (WrapError "publish cancel event" e))
            | None => mret None
            end
        end
    end.

Lemma CancelTask_split uid :
  CancelTask uid =
    (r ← store_GetByUID uid; match r with Err e => mret (Some e) | Ok l => cancel_found uid l end : M W (option error)).
Proof. reflexivity. Qed.

(** They write [canceled] over the row as it is by then. *)
Lemma cancel_found_writes w uid l t :
  (∀ i, db_fault i = None) → in_mem (w_mem w) l → TaskUID t = uid → task_ok t → IsTerminal (Status t) = false →
  let '(res, w') := cancel_found uid l (put w l t) in
  let t' := t <| Status := TaskStatusCanceled |> <| UpdatedAt := clock (Datatypes.S (w_clk w)) |> in
  w_queue w' = w_queue w ∧ w_mem w' = <[l := t']> (w_mem w) ∧
  rows (w_db w') = alter (update_row t') uid (rows (w_db w)) ∧
  w_pubsub w' = match res, w_redis w with
                | None, Some _ => w_pubsub w ++ ["tasks:cancel:" +:+ uid]
                | _, _ => w_pubsub w
                end ∧
  (res = None ∨ is_Some (w_redis w) ∧ ∃ e, res = Some (WrapError "publish cancel event" e)).
Proof.
  intros Hf Hl Huid Hok Hterm. unfold cancel_found. rewrite run_load by done. rewrite Hterm.
  rewrite run_transition by done.
  assert (transition_allowed (Status t) TaskStatusCanceled = true) as Htr.
  { apply cancelable; [exact (ok_status _ Hok)|exact Hterm]. }
  rewrite TransitionTo_ok by exact Htr. cbn [fst snd]. rewrite run_store_Update by done.
  cbv zeta. rewrite Hf.
  match goal with |- context [put ?wb l ?tb] => set (w3 := wb); set (t3 := tb) end.
  assert (w_mem w3 = w_mem w ∧ w_queue w3 = w_queue w ∧ w_redis w3 = w_redis w ∧
          w_pubsub w3 = w_pubsub w) as (Em & Eq & Erd & Eps) by done.
  assert (rows (w_db w3) = alter (update_row t3) uid (rows (w_db w))) as Edb by by rewrite <- Huid.
  assert (t3 = t <| Status := TaskStatusCanceled |> <| UpdatedAt := clock (Datatypes.S (w_clk w)) |>) as Ht3 by done.
  clearbody w3 t3. rewrite <- Ht3.
  unfold mbind, M_bind. pose proof (redis_Publish_result ("tasks:cancel:" +:+ uid) (put w3 l t3)) as Hpub.
  destruct (redis_Publish _ _) as [e w']. cbn [fst snd]. destruct Hpub as (Hcore & Hps & Hred).
  unfold core in Hcore. cbn in Hcore. injection Hcore as Em' Edb' Eq' _ _.
  cbn [w_redis w_pubsub put setf set_w_mem] in Hps, Hred. rewrite Erd in Hps, Hred. rewrite Eps in Hps.
  destruct e as [e|]; (split_and!; [congruence|congruence|congruence|exact Hps|]).
  - right. split; [by apply Hred|by eexists].
  - by left.
Qed.

(** A task that is not terminal is cancelled. *)
Lemma CancelTask_active w uid r :
  (∀ i, db_fault i = None) → rows (w_db w) !! uid = Some r → c_task_uid r = uid → task_ok (scanTask r) →
  IsTerminal (c_status r) = false →
  let '(res, w') := CancelTask uid w in
  w_queue w' = w_queue w ∧
  (∀ l, (l < length (w_mem w))%nat → deref (w_mem w') l = deref (w_mem w) l) ∧
  (∃ r', rows (w_db w') !! uid = Some r' ∧ c_status r' = TaskStatusCanceled) ∧
  (∀ uid', uid' ≠ uid → rows (w_db w') !! uid' = rows (w_db w) !! uid') ∧
  w_pubsub w' = match res, w_redis w with
                | None, Some _ => w_pubsub w ++ ["tasks:cancel:" +:+ uid]
                | _, _ => w_pubsub w
                end ∧
  (res = None ∨ is_Some (w_redis w) ∧ ∃ e, res = Some (WrapError "publish cancel event" e)).
Proof.
  intros Hf Hr Huid Hok Hterm. rewrite CancelTask_split, (run_store_GetByUID w uid r) by done.
  set (w1 := w <| w_stm := _ |> <| w_mem := _ |>). set (l := length (w_mem w)).
  assert (in_mem (w_mem w1) l) as Hl by (unfold in_mem, w1, l; cbn; rewrite length_app; simpl; lia).
  pose proof (cancel_found_writes w1 uid l (scanTask r) Hf Hl Huid Hok Hterm) as Hc.
  destruct (cancel_found uid l (put w1 l (scanTask r))) as [res w'].
  destruct Hc as (Hq & Hm & Hrows & Hps & Hres). split; [exact Hq|]. split.
  { intros l' Hl'. rewrite Hm. by apply (cancel_frame w r w1). }
  rewrite Hrows. change (rows (w_db w1)) with (rows (w_db w)). split_and!; [| |exact Hps|exact Hres].
  - rewrite lookup_alter_eq, Hr. by eexists.
  - intros uid' Hne. by rewrite lookup_alter_ne.
Qed.

(** No lock is held between the read and the write.  Whatever becomes of the
    task in between (its execution may end successfully), a cancellation that
    has read it as not ended writes its own copy over the row: the status is
    canceled, and exit code, output and times are again those of the read. *)
Lemma cancel_overwrites w2 uid l r r2 :
  (∀ i, db_fault i = None) → c_task_uid r = uid → task_ok (scanTask r) → IsTerminal (c_status r) = false →
  in_mem (w_mem w2) l → deref (w_mem w2) l = scanTask r → rows (w_db w2) !! uid = Some r2 →
  ∃ r', rows (w_db (cancel_found uid l w2).2) !! uid = Some r' ∧ c_status r' = TaskStatusCanceled ∧
    c_exit_code r' = c_exit_code r ∧ c_finished_at r' = pg_time <$> c_finished_at r ∧
    default EmptyString (c_stdout r') = default EmptyString (c_stdout r).
Proof.
  intros Hf Huid Hok Hterm Hl Ht Hr2.
  pose proof (cancel_found_writes w2 uid l (scanTask r) Hf Hl Huid Hok Hterm) as Hc.
  assert (put w2 l (scanTask r) = w2) as Hput by (rewrite <- Ht; by apply put_self). rewrite Hput in Hc.
  destruct (cancel_found uid l w2) as [res w']. destruct Hc as (_ & _ & Hrows & _).
  eexists. cbn [snd]. rewrite Hrows, lookup_alter_eq, Hr2. split; [done|]. by split_and!.
Qed.

(** C14 [CancelTask], branch by branch, when the database answers.  An unknown
    UID gives the driver's error; a task whose row is terminal is refused and
    its row stays; otherwise the row becomes canceled, no other row changes,
    and with Redis a message on the task's channel is in flight unless
    publishing failed.  The queue and the task objects that others hold are
    not touched in any case: a copy waiting in the queue keeps its status. *)
Theorem CancelTask_spec w uid :
  (∀ i, db_fault i = None) →
  (∀ r, rows (w_db w) !! uid = Some r → c_task_uid r = uid ∧ task_ok (scanTask r)) →
  let '(res, w') := CancelTask uid w in
  w_queue w' = w_queue w ∧
  (∀ l, (l < length (w_mem w))%nat → deref (w_mem w') l = deref (w_mem w) l) ∧
  match rows (w_db w) !! uid with
  | None => res = Some ErrNoRows ∧ w_db w' = w_db w ∧ w_pubsub w' = w_pubsub w
  | Some r =>
      if IsTerminal (c_status r)
      then is_Some res ∧ w_db w' = w_db w ∧ w_pubsub w' = w_pubsub w
      else
        (∃ r', rows (w_db w') !! uid = Some r' ∧ c_status r' = TaskStatusCanceled) ∧
        (∀ uid', uid' ≠ uid → rows (w_db w') !! uid' = rows (w_db w) !! uid') ∧
        w_pubsub w' = match res, w_redis w with
                      | None, Some _ => w_pubsub w ++ ["tasks:cancel:" +:+ uid]
                      | _, _ => w_pubsub w
                      end
  end.
Proof.
  intros Hf Hrow. destruct (rows (w_db w) !! uid) as [r|] eqn:Hr.
  2: { unfold CancelTask, store_GetByUID, mbind, M_bind. cbn. unfold GetByUID. by rewrite Hf, Hr. }
  destruct (Hrow r eq_refl) as [Huid Hok]. destruct (IsTerminal (c_status r)) eqn:Hterm.
  - unfold CancelTask. rewrite (run_store_GetByUID w uid r) by done.
    set (w1 := w <| w_stm := _ |> <| w_mem := _ |>).
    assert (in_mem (w_mem w1) (length (w_mem w))) as Hl
      by (unfold in_mem, w1; cbn; rewrite length_app; simpl; lia).
    rewrite run_load by done. change (Status (scanTask r)) with (c_status r). rewrite Hterm, run_ret.
    split; [done|]. split; [intros l'; by apply (cancel_frame w r)|]. by split; [eexists|].
  - pose proof (CancelTask_active w uid r Hf Hr Huid Hok Hterm) as Hact.
    destruct (CancelTask uid w) as [res w']. tauto.
Qed.
End spec.

(** ** Witnesses *)

Definition sample_request : CreateTaskRequest :=
  mkRequest "build" "make" EmptyString (Some {[ "CC" := "gcc" ]}) 2 100 0 5 None.

(** A server with Redis, before and after the request. *)
Definition sample_start : CWorld := start (Some ∅) None None 4 8.
Definition sample_created : CWorld := exec (CreateTask sample_request) sample_start.

Lemma CreateTask_spec_witness :
  (CreateTask sample_request sample_start).1 = Ok 0%nat ∧
  rows (w_db sample_created) !! "uuid-0"%string =
    Some (insert_row 1 (requested "uuid-0" 0 sample_request)).
Proof.
  assert (rows (w_db sample_start) !! TaskUID (requested (new_uuid (w_uuids sample_start))
            (clock (w_clk sample_start)) sample_request) = None) as Hfresh by reflexivity.
  pose proof (proj2 (CreateTask_spec sample_start sample_request) Hfresh) as H.
  unfold sample_created, exec. destruct (CreateTask sample_request sample_start) as [res w'].
  destruct H as (_ & _ & Hres & _ & Hdb & _). split; [exact Hres|].
  cbn [snd]. rewrite Hdb. vm_compute. reflexivity.
Defined.

Definition sample_row : TaskRow :=
  default (insert_row 0 inhabitant) (rows (w_db sample_created) !! "uuid-0"%string).

Lemma sample_row_lookup : rows (w_db sample_created) !! "uuid-0"%string = Some sample_row.
Proof. vm_compute. reflexivity. Qed.

Lemma sample_row_ok : c_task_uid sample_row = "uuid-0"%string ∧ task_ok (scanTask sample_row).
Proof.
  split; [vm_compute; reflexivity|].
  split; try (vm_compute; repeat split; (reflexivity || discriminate)).
  apply (bool_decide_unpack _). vm_compute. exact I.
Qed.

Lemma rerun_refused_witness :
  ∃ msg, (RerunTask "uuid-0" sample_created).1 = Err (ErrorString ("duplicate task: " +:+ msg)).
Proof.
  pose proof (rerun_refused sample_created "uuid-0" sample_row
                (default ∅ (w_redis sample_created)) false sample_row_lookup) as H.
  destruct (RerunTask "uuid-0" sample_created) as [res w']. cbn [fst]. apply H.
  - vm_compute. discriminate.
  - reflexivity.
  - vm_compute. reflexivity.
  - vm_compute. eexists. reflexivity.
  - vm_compute. reflexivity.
Defined.

Lemma CancelTask_spec_witness :
  w_pubsub (exec (CancelTask "uuid-0") sample_created) = ["tasks:cancel:uuid-0"]%string ∧
  (∃ r', rows (w_db (exec (CancelTask "uuid-0") sample_created)) !! "uuid-0"%string = Some r' ∧
         c_status r' = TaskStatusCanceled) ∧
  Status (deref (w_mem (exec (CancelTask "uuid-0") sample_created)) 0) = TaskStatusCreated.
Proof.
  split; [vm_compute; reflexivity|].
  pose proof sample_row_ok as Hok.
  assert (IsTerminal (c_status sample_row) = false) as Ht by (vm_compute; reflexivity).
  pose proof (CancelTask_spec sample_created "uuid-0") as H.
  rewrite sample_row_lookup, Ht in H.
  unfold exec. destruct (CancelTask "uuid-0" sample_created) as [res w']. cbn [snd].
  destruct H as (_ & Hmem & H); [done| |].
  { intros r' [= <-]. exact Hok. }
  split; [apply H|]. rewrite Hmem by (vm_compute; lia). vm_compute. reflexivity.
Defined.
