(* ===== verification/Api.v ===== *)
(** * The HTTP API ([internal/api])

    The handlers behind the routes [/api/v1/tasks], [/api/v1/nodes],
    [/api/v1/resources] and [/api/v1/stats].  A handler is a computation over
    the state of the server that answers a status code and a body; decoding of
    the request's JSON and its validation belong to Gin and come in as the
    result of the binding.  The event stream of [streamTaskLog] is in the file
    LogStream, the table of the routes in Routes. *)

From S2P Require Import Prelude GoStrings GoFormat Float64 Model TaskQueue TaskStore NodeStore.
From S2P Require Import NodeManager Runtime Invariant TaskService Scheduler TaskServiceSpec.
From S2P Require Import InMemQueue Concrete.

(** ** Responses *)

Definition StatusOK : Z := 200.
Definition StatusCreated : Z := 201.
Definition StatusBadRequest : Z := 400.
Definition StatusNotFound : Z := 404.
Definition StatusInternalServerError : Z := 500.

Record Stats : Type := mkStats {
  st_total_tasks : Z;
  st_submitted : Z;
  st_success : Z;
  st_failed : Z;
  st_running : Z;
  st_success_rate : float64;
  st_daily : option (gmap string string);
}.

Inductive body : Type :=
| ErrorBody (msg : string)
| MessageBody (msg : string)
| CreatedBody (task_uid : string) (status : TaskStatus) (created_at : Time)
| TaskBody (task : Task)
| TasksBody (result : TaskListResult)
| LogBody (stdout stderr : string)
| NodesBody (nodes : list Node) (total : Z)
| NodeBody (node : Node)
| NodeMessageBody (msg node_id : string)
| ResourcesBody (cpu_cores memory_mb : Z) (allocated : option (Z * Z))
| StatsBody (stats : Stats)
| DailyBody (stats : gmap string string).

Record response : Type := respond { code : Z; payload : body }.

Definition not_found : response := respond StatusNotFound (ErrorBody "任务未找到").
Definition server_error (e : error) : response :=
  respond StatusInternalServerError (ErrorBody (Error e)).

(** The error branch of the handlers of one task. *)
Definition task_error (err : error) : response :=
  if bool_decide (err = ErrTaskNotFound) then not_found else server_error err.

(** [c.DefaultQuery(name, default)] *)
Definition DefaultQuery (query : option string) (default_value : string) : string :=
  default default_value query.

Definition safeDiv (a b : Z) : float64 :=
  if b =? 0 then f64_zero else f64_div (f64_of_int a) (f64_of_int b).

Section handlers.
Context {Q K R : Type} `{Host} `{TaskQueue Q} `{Etcd K} `{Redis R}.
Abbreviation W := (World Q K R).

(** ** Tasks *)

Definition created (l : loc) : M W response :=
  t ← load l;
  mret (respond StatusCreated (CreatedBody (TaskUID t) (Status t) (CreatedAt t))).

(** [bound]: the result of [c.ShouldBindJSON(&req)]. *)
Definition createTask (bound : result CreateTaskRequest) : M W response :=
  match bound with
  | Err e => mret (respond StatusBadRequest (ErrorBody (Error e)))
  | Ok req =>
      r ← CreateTask req;
      match r with
      | Err e => mret (server_error e)
      | Ok l => created l
      end
  end.

Definition getTask (uid : string) : M W response :=
  r ← GetTask uid;
  match r with
  | Err e => mret (task_error e)
  | Ok l => t ← load l; mret (respond StatusOK (TaskBody t))
  end.

Definition listTasks (status page size : option string) : M W response :=
  let status := DefaultQuery status EmptyString in
  let pageInt := (Atoi (DefaultQuery page "1")).1 in
  let pageInt := if pageInt <=? 0 then 1 else pageInt in
  let sizeInt := (Atoi (DefaultQuery size "10")).1 in
  let sizeInt := if sizeInt <=? 0 then 10 else sizeInt in
  r ← ListTasks status pageInt sizeInt;
  match r with
  | Err e => mret (server_error e)
  | Ok result => mret (respond StatusOK (TasksBody result))
  end.

Definition cancelTask (uid : string) : M W response :=
  err ← CancelTask uid;
  match err with
  | Some e => mret (task_error e)
  | None => mret (respond StatusOK (MessageBody "任务已取消"))
  end.

Definition rerunTask (uid : string) : M W response :=
  r ← RerunTask uid;
  match r with
  | Err e => mret (task_error e)
  | Ok l => created l
  end.

Definition getTaskLog (uid : string) : M W response :=
  r ← GetTask uid;
  match r with
  | Err e => mret (task_error e)
  | Ok l => t ← load l; mret (respond StatusOK (LogBody (Stdout t) (Stderr t)))
  end.

(** ** Nodes *)

Definition listNodes (fault : option error) (status : option string) (nm : NodeManager) : response :=
  match ListNodes fault (DefaultQuery status EmptyString) nm with
  | Err e => server_error e
  | Ok nodes => respond StatusOK (NodesBody nodes (Z.of_nat (length nodes)))
  end.

Definition getNode (fault : option error) (nodeID : string) (nm : NodeManager) : response :=
  match GetNode fault nodeID nm with
  | Err e => respond StatusNotFound (ErrorBody (Error e))
  | Ok node => respond StatusOK (NodeBody node)
  end.

Definition drainNode (fault : nat → option error) (now : Time) (nodeID : string) (nm : NodeManager)
  : response * NodeManager :=
  match DrainNode fault now nodeID nm with
  | (Some e, nm) => (server_error e, nm)
  | (None, nm) => (respond StatusOK (NodeMessageBody "节点已设为 Drain 状态" nodeID), nm)
  end.

Definition uncordonNode (fault : nat → option error) (now : Time) (nodeID : string)
    (nm : NodeManager) : response * NodeManager :=
  match UncordonNode fault now nodeID nm with
  | (Some e, nm) => (server_error e, nm)
  | (None, nm) => (respond StatusOK (NodeMessageBody "节点已恢复 Online 状态" nodeID), nm)
  end.

(** ** Resources and statistics *)

Definition getResources (rp : option Scheduler) : response :=
  match rp with
  | None => respond StatusOK (ResourcesBody 0 0 (Some (0, 0)))
  | Some s =>
      let '(cpu, mem) := GetTotalResources s in respond StatusOK (ResourcesBody cpu mem None)
  end.

(** One iteration of the loop over the tasks listed. *)
Definition count_task (c : Z * Z * Z * Z) (t : Task) : Z * Z * Z * Z :=
  let '(submitted, success, failed, running) := c in
  let submitted := submitted +64 1 in
  if bool_decide (Status t = TaskStatusSuccess) then (submitted, success +64 1, failed, running)
  else if bool_decide (Status t = TaskStatusFailed) then (submitted, success, failed +64 1, running)
  else if bool_decide (Status t = TaskStatusRunning) then (submitted, success, failed, running +64 1)
  else (submitted, success, failed, running).

Definition today : M W string := n ← now; mret (format_date (utc_offset n) n).

(** [hgetall]: what HGETALL answers, empty after an error; [None] when Redis is
    not configured. *)
Definition getStats (hgetall : option (string → gmap string string)) : M W response :=
  r ← ListTasks EmptyString 1 1000;
  match r with
  | Err e => mret (server_error e)
  | Ok result =>
      let '(submitted, success, failed, running) := foldl count_task (0, 0, 0, 0) (tl_Tasks result) in
      let resp daily :=
        respond StatusOK (StatsBody (mkStats (tl_Total result) submitted success failed running
                                       (safeDiv success submitted) daily)) in
      match hgetall with
      | None => mret (resp None)
      | Some f =>
          d ← today;
          let dailyStats := f ("stats:daily:" +:+ d) in
          mret (resp (if decide (dailyStats = ∅) then None else Some dailyStats))
      end
  end.

Definition getDailyStats (hgetall : option (string → gmap string string)) (date : option string)
  : M W response :=
  match hgetall with
  | None => mret (respond StatusOK (DailyBody ∅))
  | Some f =>
      d ← today;
      mret (respond StatusOK (DailyBody (f ("stats:daily:" +:+ DefaultQuery date d))))
  end.
End handlers.

(** ** Which errors a handler can meet *)

(** Every result of [m] satisfies [P]. *)
Definition yields {W A} (P : A → Prop) (m : M W A) : Prop := ∀ w, P (m w).1.

Lemma yields_ret {W A} (P : A → Prop) a : P a → yields P (mret a : M W A).
Proof. by intros Ha w. Qed.

Lemma yields_any {W A} (m : M W A) : yields (λ _, True) m.
Proof. done. Qed.

Lemma yields_bind {W A B} (P : A → Prop) (Q : B → Prop) (m : M W A) (f : A → M W B) :
  yields P m → (∀ a, P a → yields Q (f a)) → yields Q (m ≫= f).
Proof. intros Hm Hf w. apply Hf, Hm. Qed.

Definition found_err (e : option error) : Prop := e ≠ Some ErrTaskNotFound.
Definition found_res {A} (r : result A) : Prop := r ≠ Err ErrTaskNotFound.

Section errors.
Context {Q K R : Type} `{Host} `{TaskQueue Q} `{Etcd K} `{Redis R}.
Context (Hdb : ∀ i, db_fault i ≠ Some ErrTaskNotFound).
Abbreviation W := (World Q K R).

Lemma store_GetByUID_found uid : yields found_res (store_GetByUID uid : M W _).
Proof.
  intros w. unfold store_GetByUID, mbind, M_bind, statement, gets, GetByUID. cbn.
  destruct (db_fault (w_stm w)) as [e|] eqn:He; cbn.
  - intros [= ->]. by eapply Hdb.
  - by destruct (rows (w_db w) !! uid).
Qed.

Lemma store_Update_found l : yields found_err (store_Update l : M W _).
Proof.
  intros w. unfold store_Update, mbind, M_bind, now, statement, action, Update. cbn.
  destruct (db_fault (w_stm w)) as [e|] eqn:He; cbn; [|done].
  intros [= ->]. by eapply Hdb.
Qed.

Lemma store_Create_found l : yields found_err (store_Create l : M W _).
Proof.
  intros w. unfold store_Create, mbind, M_bind, statement, action, Create. cbn.
  destruct (db_fault (w_stm w)) as [e|] eqn:He; cbn; [intros [= ->]; by eapply Hdb|].
  by destruct (rows (w_db w) !! _).
Qed.

Lemma transition_found target l : yields found_err (transition target l : M W _).
Proof.
  intros w. unfold transition, mbind, M_bind, now, load, gets, TransitionTo. cbn.
  by destruct (transition_allowed _ _).
Qed.

Lemma CreateTask_found req : yields found_res (CreateTask req : M W _).
Proof.
  do 5 (eapply yields_bind; [apply yields_any|intros ? _]).
  assert (∀ l, yields found_res
    (err ← store_Create l;
     match err with
     | Some e => mret (Err e)
     | None =>
         count_daily "submitted" ;; t ← load l;
         (if 0 <? Priority t then queue_PushPriority l else queue_Push l) ;; mret (Ok l)
     end : M W (result loc))) as Hins.
  { intros l. eapply yields_bind; [apply store_Create_found|]. intros [e|] He.
    - apply yields_ret. by intros [= ->].
    - do 3 (eapply yields_bind; [apply yields_any|intros ? _]). by apply yields_ret. }
  destruct a3 as [[[]|e]|]; [apply Hins| |apply Hins..].
  eapply yields_bind; [apply yields_any|intros ? _]. by apply yields_ret.
Qed.

Lemma CancelTask_found uid : yields found_err (CancelTask uid : M W _).
Proof.
  eapply yields_bind; [apply store_GetByUID_found|]. intros [l|e] He.
  - eapply yields_bind; [apply yields_any|]. intros t _.
    destruct (IsTerminal (Status t)); [by apply yields_ret|].
    eapply yields_bind; [apply transition_found|]. intros [e|] He'; [by apply yields_ret|].
    eapply yields_bind; [apply store_Update_found|]. intros [e|] He''; [by apply yields_ret|].
    eapply yields_bind; [apply yields_any|]. intros [e|] _; by apply yields_ret.
  - apply yields_ret. by intros [= ->].
Qed.

Lemma RerunTask_found uid : yields found_res (RerunTask uid : M W _).
Proof.
  eapply yields_bind; [apply store_GetByUID_found|]. intros [l|e] He.
  - eapply yields_bind; [apply yields_any|]. intros t _. apply CreateTask_found.
  - apply yields_ret. by intros [= ->].
Qed.

Lemma task_error_code e : e ≠ ErrTaskNotFound → task_error e = server_error e.
Proof. intros He. unfold task_error. by rewrite bool_decide_eq_false_2. Qed.

Definition not_404 (r : response) : Prop := code r ≠ StatusNotFound.

Lemma handlers_not_404 uid :
  yields not_404 (getTask uid : M W _) ∧ yields not_404 (cancelTask uid : M W _) ∧
  yields not_404 (rerunTask uid : M W _) ∧ yields not_404 (getTaskLog uid : M W _).
Proof.
  assert (∀ e, found_err (Some e) → not_404 (task_error e)) as Herr.
  { intros e He. rewrite task_error_code; [done|congruence]. }
  split_and!.
  - eapply yields_bind; [apply store_GetByUID_found|]. intros [l|e] He.
    + eapply yields_bind; [apply yields_any|]. intros t _. by apply yields_ret.
    + apply yields_ret, Herr. congruence.
  - eapply yields_bind; [apply CancelTask_found|]. intros [e|] He; apply yields_ret; [by apply Herr|done].
  - eapply yields_bind; [apply RerunTask_found|]. intros [l|e] He.
    + eapply yields_bind; [apply yields_any|]. intros t _. by apply yields_ret.
    + apply yields_ret, Herr. congruence.
  - eapply yields_bind; [apply store_GetByUID_found|]. intros [l|e] He.
    + eapply yields_bind; [apply yields_any|]. intros t _. by apply yields_ret.
    + apply yields_ret, Herr. congruence.
Qed.
End errors.

(** ** Statistics *)

Definition with_status (s : TaskStatus) (ts : list Task) : Z :=
  Z.of_nat (length (filter (λ t, Status t = s) ts)).

Lemma with_status_cons s t ts :
  with_status s (t :: ts) = (if bool_decide (Status t = s) then 1 else 0) + with_status s ts.
Proof.
  unfold with_status. rewrite filter_cons. case_bool_decide.
  - rewrite decide_True by done. cbn [length]. lia.
  - by rewrite decide_False.
Qed.

Lemma count_tasks ts a b c d :
  0 <= a <= 2 ^ 60 → 0 <= b <= 2 ^ 60 → 0 <= c <= 2 ^ 60 → 0 <= d <= 2 ^ 60 →
  Z.of_nat (length ts) <= 2 ^ 60 - a → Z.of_nat (length ts) <= 2 ^ 60 - b →
  Z.of_nat (length ts) <= 2 ^ 60 - c → Z.of_nat (length ts) <= 2 ^ 60 - d →
  foldl count_task (a, b, c, d) ts =
    (a + Z.of_nat (length ts), b + with_status TaskStatusSuccess ts,
     c + with_status TaskStatusFailed ts, d + with_status TaskStatusRunning ts).
Proof.
  revert a b c d. induction ts as [|t ts IH]; intros a b c d; cbn [foldl length]; intros.
  { cbn. by rewrite !Z.add_0_r. }
  rewrite !with_status_cons. unfold count_task at 2.
  rewrite !add64_id by int_lia.
  destruct (bool_decide (Status t = TaskStatusSuccess)) eqn:Hs;
    destruct (bool_decide (Status t = TaskStatusFailed)) eqn:Hf;
    destruct (bool_decide (Status t = TaskStatusRunning)) eqn:Hr;
    try (apply bool_decide_eq_true in Hs, Hf; rewrite Hs in Hf; discriminate);
    try (apply bool_decide_eq_true in Hs, Hr; rewrite Hs in Hr; discriminate);
    try (apply bool_decide_eq_true in Hf, Hr; rewrite Hf in Hr; discriminate);
    rewrite IH by lia; rewrite Nat2Z.inj_succ;
    (apply (f_equal2 pair); [apply (f_equal2 pair); [apply (f_equal2 pair)|]|]); lia.
Qed.

Lemma select_all_perm `{SortByOk} tbl : select EmptyString tbl ≡ₚ (map_to_list (rows tbl)).*2.
Proof.
  unfold select. rewrite sort_by_perm.
  induction (map_to_list (rows tbl)).*2 as [|r l IH]; [done|].
  rewrite filter_cons_True by (by left). by constructor.
Qed.

Section stats.
Context {Q K R : Type} `{HostOk} `{TaskQueue Q} `{Etcd K} `{Redis R}.
Abbreviation W := (World Q K R).

(** A task that does not exist is answered with status 500, not 404.  The
    store reports [sql.ErrNoRows] for an unknown UID and nothing ever reports
    [model.ErrTaskNotFound], so the handlers of one task never answer 404, and
    for a UID without a row they answer 500 with the database's message,
    leaving the table and the queue as they were. *)
Lemma unknown_task_is_500 (w : W) (uid : string) :
  (∀ i, db_fault i ≠ Some ErrTaskNotFound) →
  let handlers := [getTask uid; cancelTask uid; rerunTask uid; getTaskLog uid] in
  Forall (λ h : M W response, code (h w).1 ≠ StatusNotFound) handlers ∧
  (db_fault (w_stm w) = None → rows (w_db w) !! uid = None →
   Forall (λ h : M W response,
     (h w).1 = respond StatusInternalServerError (ErrorBody "sql: no rows in result set") ∧
     w_db (h w).2 = w_db w ∧ w_queue (h w).2 = w_queue w) handlers).
Proof.
  intros Hdb handlers. split.
  - destruct (handlers_not_404 (Q := Q) (K := K) (R := R) Hdb uid) as (H5 & H6 & H7 & H8).
    repeat constructor; [apply H5|apply H6|apply H7|apply H8].
  - intros Hf Hr.
    assert (store_GetByUID uid w = (Err ErrNoRows, w <| w_stm := S (w_stm w) |>)) as Hget.
    { unfold store_GetByUID, mbind, M_bind, statement, gets, GetByUID. cbn. by rewrite Hf, Hr. }
    repeat constructor;
      unfold getTask, cancelTask, rerunTask, getTaskLog, GetTask, CancelTask, RerunTask,
        mbind, M_bind; by rewrite Hget.
Qed.

(** The statistics count the first thousand tasks of the list.  When the
    database answers, the response gives the number of all tasks, and counts
    submitted, successful, failed and running ones among the first thousand by
    priority and age; with at most a thousand tasks these are the numbers of
    rows in each status, beyond that [submitted] stays at a thousand. *)
Lemma getStats_counts (w : W) (hgetall : option (string → gmap string string)) :
  db_fault (w_stm w) = None → db_fault (S (w_stm w)) = None →
  let all := scanTask <$> select EmptyString (w_db w) in
  let listed := take 1000 all in
  let in_table s := Z.of_nat (length (filter (λ r, c_status r = s) (map_to_list (rows (w_db w))).*2)) in
  (∃ daily, (getStats hgetall w).1 = respond StatusOK (StatsBody (mkStats
     (Z.of_nat (size (rows (w_db w)))) (Z.min 1000 (Z.of_nat (size (rows (w_db w)))))
     (with_status TaskStatusSuccess listed) (with_status TaskStatusFailed listed)
     (with_status TaskStatusRunning listed)
     (safeDiv (with_status TaskStatusSuccess listed) (Z.min 1000 (Z.of_nat (size (rows (w_db w))))))
     daily))) ∧
  ((size (rows (w_db w)) <= 1000)%nat → ∀ s, with_status s listed = in_table s).
Proof.
  intros Hf1 Hf2 all listed in_table.
  assert (length (select EmptyString (w_db w)) = size (rows (w_db w))) as Hlen.
  { rewrite select_all_perm, length_fmap. apply length_map_to_list. }
  assert (length listed = Nat.min 1000 (size (rows (w_db w)))) as Hl.
  { unfold listed, all. by rewrite length_take, length_fmap, Hlen. }
  split.
  - assert (ListTasks EmptyString 1 1000 w
      = (Ok (mkTaskList listed (Z.of_nat (size (rows (w_db w)))) 1 1000),
         w <| w_stm := S (S (w_stm w)) |>)) as Hlist.
    { unfold ListTasks, store_List, mbind, M_bind, statement, gets. cbn -[select take Z.of_nat].
      rewrite Hf1. cbn -[select take Z.of_nat]. rewrite Hf2. cbn -[select take Z.of_nat].
      rewrite Hlen.
      unfold listed, all. by rewrite fmap_take. }
    unfold getStats, mbind, M_bind. rewrite Hlist. cbn [fst snd tl_Tasks tl_Total].
    rewrite count_tasks by (rewrite ?Hl; lia). rewrite Hl, !Z.add_0_l.
    replace (Z.of_nat (1000 `min` size (rows (w_db w))))
      with (Z.min 1000 (Z.of_nat (size (rows (w_db w))))) by lia.
    destruct hgetall as [f|]; eexists; reflexivity.
  - intros Hsz s. unfold listed, in_table, with_status.
    rewrite take_ge by (unfold all; rewrite length_fmap, Hlen; lia). unfold all.
    rewrite <- (select_all_perm (w_db w)).
    generalize (select EmptyString (w_db w)) as l. clear.
    induction l as [|r l IH]; [done|]. rewrite fmap_cons, !filter_cons.
    change (Status (scanTask r)) with (c_status r).
    repeat case_decide; try done; cbn [length]; lia.
Qed.
End stats.

Lemma unknown_task_is_500_witness :
  (cancelTask "nobody" sample_created).1
    = respond StatusInternalServerError (ErrorBody "sql: no rows in result set").
Proof.
  assert (∀ i, @db_fault simple_host i ≠ Some ErrTaskNotFound) as Hdb by done.
  assert (∀ i, @db_fault simple_host i = None) as Hf by done.
  pose proof (proj2 (unknown_task_is_500 sample_created "nobody" Hdb) (Hf _)
                ltac:(vm_compute; reflexivity)) as Hall.
  apply Forall_cons_1 in Hall as [_ Hall]. apply Forall_cons_1 in Hall as [[Hc _] _]. exact Hc.
Defined.

Lemma getStats_counts_witness :
  with_status TaskStatusSuccess (take 1000 (scanTask <$> select EmptyString (w_db sample_created))) = 0 ∧
  code (getStats None sample_created).1 = StatusOK.
Proof.
  assert (∀ i, @db_fault simple_host i = None) as Hf by done.
  destruct (getStats_counts sample_created None (Hf _) (Hf _)) as [[d Hd] Hc].
  split; [|by rewrite Hd]. rewrite Hc by (vm_compute; lia). vm_compute. reflexivity.
Defined.
