(* ===== verification/SchedulerSpec.v ===== *)
(** * What the operations of the scheduler do

    Node selection, dispatch, the channels of the nodes, retry and
    cancellation: the result of each operation on every branch. *)

From S2P Require Import Prelude GoStrings GoFormat Float64 Model TaskQueue InMemQueue.
From S2P Require Import TaskStore NodeStore NodeManager Runtime Invariant TaskService.
From S2P Require Import TaskServiceSpec Scheduler Concrete.

(** ** Node selection *)

Lemma usage_strict_weak (ns : list Node) :
  (∀ n, n ∈ ns → is_nan (CPUUsagePct n) = false) →
  strict_weak (.∈ ns) (λ a b, f64_lt (CPUUsagePct a) (CPUUsagePct b)).
Proof.
  intros Hn. destruct f64_lt_strict_weak as [H1 H2 H3]. split.
  - intros x Hx. apply H1. auto.
  - intros x y z Hx Hy Hz. apply H2; auto.
  - intros x y z Hx Hy Hz. apply H3; auto.
Qed.

(** The nodes a selection is made from: cached, online, and carrying for every
    entry of the selector the label [key=value] or a label that is the key or
    the value alone. *)
Definition eligible (nm : NodeManager) (task : Task) (n : Node) : Prop :=
  (∃ id, onlineNodes nm !! id = Some n) ∧ NStatus n = NodeStatusOnline ∧
  ∀ k v, NodeSelector task !! k = Some v → k +:+ "=" +:+ v ∈ Labels n ∨ v ∈ Labels n ∨ k ∈ Labels n.

Lemma SelectNode_found `{SortByOk} `{MapRangeOk} (nm : NodeManager) (task : Task) :
  (∀ n, n ∈ FindByLabels (NodeSelector task) nm → is_nan (CPUUsagePct n) = false) →
  match SelectNode (Some nm) task with
  | Ok (Some n) =>
      n ∈ FindByLabels (NodeSelector task) nm ∧
      (CPULimit task = 0 ∨ CPULimit task <= availableCPU n) ∧
      (MemoryLimit task = 0 ∨ MemoryLimit task <= availableMem n) ∧
      ∀ n', n' ∈ FindByLabels (NodeSelector task) nm → has_room task n' = true →
            f64_lt (CPUUsagePct n') (CPUUsagePct n) = false
  | Ok None => False
  | Err _ => ∀ n, n ∈ FindByLabels (NodeSelector task) nm → has_room task n = false
  end.
Proof.
  intros Hnan. unfold SelectNode.
  destruct (FindByLabels (NodeSelector task) nm) as [|n0 ns] eqn:Hcand; [by intros n ?%elem_of_nil|].
  rewrite <- Hcand in *. clear Hcand n0 ns. set (cands := FindByLabels _ nm) in *.
  assert (∀ n, n ∈ filter (has_room task) cands ↔ n ∈ cands ∧ has_room task n = true) as Hroom.
  { intros n. rewrite list_elem_of_filter, Is_true_true. tauto. }
  destruct (filter (has_room task) cands) as [|n0 ns] eqn:Hfil.
  { intros n Hn. apply not_true_iff_false. intros Hr. apply (elem_of_nil n), Hroom. done. }
  set (lt := λ a b : Node, f64_lt (CPUUsagePct a) (CPUUsagePct b)).
  destruct (sort_by lt (n0 :: ns)) as [|n rest] eqn:Hsort.
  { pose proof (sort_by_perm lt (n0 :: ns)) as Hp. rewrite Hsort in Hp.
    by apply Permutation_nil_l in Hp. }
  cbn [head]. destruct (sort_by_head lt n (n0 :: ns) rest) as [Hn Hmin]; [|done|].
  { apply usage_strict_weak. intros x Hx. apply Hnan. by apply Hroom. }
  apply Hroom in Hn as [Hn Hr]. split; [done|].
  unfold has_room in Hr. rewrite andb_true_iff, !orb_true_iff, !Z.eqb_eq, !Z.leb_le in Hr.
  split_and!; [tauto..|]. intros n' Hn' Hr'. destruct (Hmin n') as [->|Hlt]; [by apply Hroom| |done].
  apply f64_lt_strict_weak. by apply Hnan.
Qed.

(** C34 [SelectNode] picks the least utilised candidate.  Without a node
    manager there is no node and no error.  With one, the node returned is in
    the cache, online and matches the selector, its cores and its free memory
    cover what the task asks for, and no other such node has a lower CPU usage
    (usages being numbers, not NaN); an error means that no online, matching
    node has room. *)
Theorem SelectNode_least `{SortByOk} `{MapRangeOk} (nm : NodeManager) (task : Task) :
  (∀ n, eligible nm task n → is_nan (CPUUsagePct n) = false) →
  SelectNode None task = Ok None ∧
  match SelectNode (Some nm) task with
  | Ok (Some n) =>
      eligible nm task n ∧ n ∈ FindByLabels (NodeSelector task) nm ∧
      (CPULimit task = 0 ∨ CPULimit task <= availableCPU n) ∧
      (MemoryLimit task = 0 ∨ MemoryLimit task <= availableMem n) ∧
      ∀ n', eligible nm task n' → has_room task n' = true →
            f64_lt (CPUUsagePct n') (CPUUsagePct n) = false
  | Ok None => False
  | Err _ => ∀ n, eligible nm task n → has_room task n = false
  end.
Proof.
  intros Hnan. split; [done|].
  assert (∀ n, n ∈ FindByLabels (NodeSelector task) nm ↔ eligible nm task n) as Hel
    by (intros n; apply elem_of_FindByLabels).
  pose proof (SelectNode_found nm task (λ n Hn, Hnan n (proj1 (Hel n) Hn))) as Hs.
  destruct (SelectNode (Some nm) task) as [[n|]|e]; [|done|intros n Hn; by apply Hs, Hel].
  destruct Hs as (Hn & Hc & Hm & Hmin). split; [by apply Hel|]. split_and!; [done..|].
  intros n' Hn'%Hel. by apply Hmin.
Qed.

Lemma SelectNode_least_witness :
  let n id cpu := (NewNode id 0 "h" "i" "v" 16 4096 100 ["gpu=yes"]) <| CPUUsagePct := f64_of_int cpu |> in
  let nm := NewNodeManager <| onlineNodes := {[ "a" := n "a" 90; "b" := n "b" 20; "c" := n "c" 40 ]} |> in
  let task := (NewTask "u" 0 "n" "c") <| CPULimit := 4 |> <| NodeSelector := {[ "gpu" := "yes" ]} |> in
  SelectNode (Some nm) task = Ok (Some (n "b"%string 20)) ∧
  (∀ n', n' ∈ FindByLabels (NodeSelector task) nm → has_room task n' = true →
         f64_lt (CPUUsagePct n') (f64_of_int 20) = false).
Proof.
  intros n nm task.
  assert (SelectNode (Some nm) task = Ok (Some (n "b"%string 20))) as Hsel
    by (vm_compute; reflexivity).
  split; [exact Hsel|].
  assert (∀ n, n ∈ FindByLabels (NodeSelector task) nm → is_nan (CPUUsagePct n) = false) as Hnan.
  { apply Forall_forall. apply (bool_decide_unpack _). vm_compute. exact I. }
  destruct (SelectNode_least nm task) as [_ H].
  { intros n' Hn'. apply Hnan, elem_of_FindByLabels, Hn'. }
  rewrite Hsel in H. destruct H as (_ & _ & _ & _ & H). intros n' Hn'%elem_of_FindByLabels. by apply H.
Defined.

(** ** When an execution ends *)

Section outcomes.
Context {Q K R : Type} `{Host} `{TaskQueue Q} `{Etcd K} `{Redis R}.
Abbreviation W := (World Q K R).
Implicit Types (w : W).

(** The row of a task is rewritten from its object. *)
Definition saved (w w' : W) (t : Task) : Prop :=
  rows (w_db w') = alter (update_row t) (TaskUID t) (rows (w_db w)).

Lemma count_daily_same f w :
  core (count_daily f w).2 = core w.
Proof.
  unfold count_daily, has_redis, redis_do, mbind, M_bind, gets. cbn.
  case_bool_decide as Hr; [|done]. destruct Hr as [r Hr]. cbn. rewrite Hr.
  by destruct (r_HIncrBy _ _ _ _).
Qed.

(** The parts of the final state a property looks at, from its [core]. *)
Lemma core_fields w w' :
  core w' = core w →
  w_mem w' = w_mem w ∧ rows (w_db w') = rows (w_db w) ∧ w_queue w' = w_queue w ∧
  w_running w' = w_running w.
Proof. unfold core. by intros [= -> -> -> _ ->]. Qed.

Lemma core_sched w w' : core w' = core w → w_sched w' = w_sched w.
Proof. unfold core. by intros [= _ _ _ -> _]. Qed.

Lemma failTask_result w l msg :
  in_mem (w_mem w) l → db_fault (w_stm w) = None →
  let t := deref (w_mem w) l in
  let w' := (failTask l msg w).2 in
  let t' := deref (w_mem w') l in
  w_sched w' = w_sched w ∧ ErrorMessage t' = msg ∧ TaskUID t' = TaskUID t ∧
  if CanRetry t then
    Status t' = TaskStatusPending ∧ RetryCount t' = RetryCount t +64 1 ∧ FinishedAt t' = None ∧
    saved w w' t' ∧
    w_queue w' = (q_PushDelayed (clock (S (w_clk w))) (w_mem w') l (retry_delay t') (w_queue w)).2
  else if bool_decide (Status t = TaskStatusRunning) then
    Status t' = TaskStatusFailed ∧ FinishedAt t' = Some (clock (w_clk w)) ∧
    saved w w' t' ∧ w_queue w' = w_queue w
  else Status t' = Status t ∧ rows (w_db w') = rows (w_db w) ∧ w_queue w' = w_queue w.
Proof.
  intros Hl Hf t w' t'. assert (w' = (failTask l msg (put w l t)).2) as Hw'.
  { unfold t. by rewrite put_self. }
  clearbody w'. unfold failTask in Hw'. revert Hw'. run.
  change (CanRetry (t <| ErrorMessage := msg |>)) with (CanRetry t).
  destruct (CanRetry t); run; cbv zeta.
  - rewrite Hf. run. cbv zeta. cbn [fst snd mret M_ret]. intros Hw'. subst t'. rewrite Hw'.
    rewrite deref_put by done. split_and!; try done.
  - rewrite TransitionTo_spec. cbn [Status setf set_FinishedAt set_ErrorMessage].
    case_bool_decide as Hs.
    + rewrite Hs, decide_True by (apply (bool_decide_unpack _); vm_compute; exact I).
      cbn [fst snd]. run. cbv zeta. cbn [w_stm setf set_w_clk set_w_stm set_w_db]. rewrite Hf.
      intros Hw'. subst t'.
      assert (core w' = core w') as Hc by done. rewrite Hw' in Hc at 1.
      rewrite count_daily_same in Hc. apply eq_sym in Hc. pose proof (core_sched _ _ Hc) as Hsched.
      apply core_fields in Hc as (-> & Hr & -> & _).
      rewrite deref_put by done. unfold saved. rewrite Hr, Hsched. by split_and!.
    + rewrite decide_False.
      * cbn [fst snd mret M_ret]. intros Hw'. subst t'. rewrite Hw', deref_put by done. by split_and!.
      * intros Hin. by_edges Hin; congruence.
Qed.

(** C2 [failTask], when the database answers.  A task with retries left goes
    back to pending with one more retry counted, its error recorded and its
    row rewritten, and is put into the delayed queue with the exponential
    delay: the retry interval times two to the number of retries counted,
    computed in 64 bits and cut at five minutes.  A running task without retries left ends as failed, its row is
    rewritten and nothing is enqueued.  A task in any other status keeps its
    status and its row. *)
Theorem failTask_outcome w l msg :
  in_mem (w_mem w) l → db_fault (w_stm w) = None →
  let t := deref (w_mem w) l in
  let w' := (failTask l msg w).2 in
  let t' := deref (w_mem w') l in
  ErrorMessage t' = msg ∧ TaskUID t' = TaskUID t ∧
  if CanRetry t then
    Status t' = TaskStatusPending ∧ RetryCount t' = RetryCount t +64 1 ∧ FinishedAt t' = None ∧
    saved w w' t' ∧
    (let delay := (RetryIntervalSec t' *64 second) *64 shl64 1 (RetryCount t') in
     let delay := if 5 * minute <? delay then 5 * minute else delay in
     w_queue w' = (q_PushDelayed (clock (S (w_clk w))) (w_mem w') l delay (w_queue w)).2)
  else if bool_decide (Status t = TaskStatusRunning) then
    Status t' = TaskStatusFailed ∧ FinishedAt t' = Some (clock (w_clk w)) ∧
    saved w w' t' ∧ w_queue w' = w_queue w
  else Status t' = Status t ∧ rows (w_db w') = rows (w_db w) ∧ w_queue w' = w_queue w.
Proof. intros Hl Hf. by destruct (failTask_result w l msg Hl Hf). Qed.

(** The object as [completeTask] hands it on. *)
Definition reported (n : Time) (result : TaskResult) (t : Task) : Task :=
  t <| Stdout := tr_Stdout result |> <| Stderr := tr_Stderr result |> <| FinishedAt := Some n |>.

Lemma completeTask_error w l result e :
  in_mem (w_mem w) l → tr_Error result = Some e →
  completeTask l result w =
    failTask l (if tr_TimedOut result then "task timed out"%string else Error e)
      (put (w <| w_clk := S (w_clk w) |>) l
         (reported (clock (w_clk w)) result (deref (w_mem w) l))).
Proof.
  intros Hl He. rewrite <- (put_self w l Hl) at 1. unfold completeTask. run. by rewrite He.
Qed.

Lemma completeTask_success w l result :
  in_mem (w_mem w) l → db_fault (w_stm w) = None → tr_Error result = None →
  let t := deref (w_mem w) l in
  let w' := (completeTask l result w).2 in
  let t' := deref (w_mem w') l in
  TaskUID t' = TaskUID t ∧ w_sched w' = w_sched w ∧
  w_queue w' = w_queue w ∧ Stdout t' = tr_Stdout result ∧ Stderr t' = tr_Stderr result ∧
  ExitCode t' = Some (tr_ExitCode result) ∧
  if bool_decide (Status t = TaskStatusRunning)
  then Status t' = TaskStatusSuccess ∧ saved w w' t'
  else Status t' = Status t ∧ rows (w_db w') = rows (w_db w).
Proof.
  intros Hl Hf He t w' t'.
  assert (w' = (completeTask l result (put w l t)).2) as Hw' by (unfold t; by rewrite put_self).
  clearbody w'. unfold completeTask in Hw'. revert Hw'. rewrite He. run.
  rewrite TransitionTo_spec. cbn [Status setf set_FinishedAt set_ExitCode set_Stdout set_Stderr].
  case_bool_decide as Hs.
  - rewrite Hs, decide_True by (apply (bool_decide_unpack _); vm_compute; exact I).
    cbn [fst snd]. run. cbv zeta. cbn [w_stm setf set_w_clk set_w_stm set_w_db]. rewrite Hf.
    intros Hw'. subst t'.
    assert (core w' = core w') as Hc by done. rewrite Hw' in Hc at 1.
    rewrite count_daily_same in Hc. apply eq_sym in Hc. pose proof (core_sched _ _ Hc) as Hsched.
    apply core_fields in Hc as (-> & Hr & -> & _).
    rewrite deref_put by done. unfold saved. rewrite Hr, Hsched. clear Hw' Hr Hsched w'.
    split_and!; reflexivity.
  - rewrite decide_False.
    + cbn [fst snd mret M_ret]. intros Hw'. subst t'. rewrite Hw', deref_put by done. clear Hw' w'.
      split_and!; reflexivity.
    + intros Hin. by_edges Hin; congruence.
Qed.

(** C16 [completeTask], when the database answers.  A successful result ends a
    running task as success with its exit code and output, rewrites its row
    and enqueues nothing; for a task that is no longer running the result is
    dropped: status and row stay.  A failed result is handed to [failTask]
    with the timeout message or the error's text. *)
Theorem completeTask_outcome w l result :
  in_mem (w_mem w) l → db_fault (w_stm w) = None →
  let t := deref (w_mem w) l in
  let w' := (completeTask l result w).2 in
  let t' := deref (w_mem w') l in
  match tr_Error result with
  | Some e =>
      w' = (failTask l (if tr_TimedOut result then "task timed out"%string else Error e)
              (put (w <| w_clk := S (w_clk w) |>) l (reported (clock (w_clk w)) result t))).2
  | None =>
      w_queue w' = w_queue w ∧ Stdout t' = tr_Stdout result ∧ Stderr t' = tr_Stderr result ∧
      ExitCode t' = Some (tr_ExitCode result) ∧
      if bool_decide (Status t = TaskStatusRunning)
      then Status t' = TaskStatusSuccess ∧ saved w w' t'
      else Status t' = Status t ∧ rows (w_db w') = rows (w_db w)
  end.
Proof.
  intros Hl Hf t w' t'. destruct (tr_Error result) as [e|] eqn:He.
  - unfold w'. by rewrite (completeTask_error w l result e).
  - by destruct (completeTask_success w l result Hl Hf He) as (_ & _ & Hout).
Qed.

(** After a row has been saved, it says what the object says. *)
Lemma saved_row w w' t r :
  saved w w' t → rows (w_db w) !! TaskUID t = Some r →
  rows (w_db w') !! TaskUID t = Some (update_row t r).
Proof. unfold saved. intros -> Hr. by rewrite lookup_alter_eq, Hr. Qed.

Lemma error_report_result w uid r result e :
  (∀ i, db_fault i = None) → rows (w_db w) !! uid = Some r → c_task_uid r = uid →
  tr_Error result = Some e →
  let w' := (HandleRemoteResult uid result w).2 in
  nodeTasks (w_sched w') = nodeTasks (w_sched w) ∧
  (c_retry_count r < c_max_retries r →
  ∃ l r', rows (w_db w') !! uid = Some r' ∧ c_status r' = TaskStatusPending ∧
    c_finished_at r' = None ∧ c_retry_count r' = c_retry_count r +64 1 ∧
    c_error_message r' = Some (if tr_TimedOut result then "task timed out"%string else Error e) ∧
    TaskUID (deref (w_mem w') l) = uid ∧
    w_queue w' = (q_PushDelayed (clock (S (S (w_clk w)))) (w_mem w') l
                    (retry_delay (deref (w_mem w') l)) (w_queue w)).2).
Proof.
  intros Hf Hr Huid He w'. unfold HandleRemoteResult in w'.
  subst w'. rewrite (run_store_GetByUID w uid r) by done. run.
  set (l := length (w_mem w)).
  set (w1 := (w <| w_stm := S (w_stm w) |> <| w_mem := w_mem w ++ [scanTask r] |>)
               <| w_sched := _ |>).
  assert (in_mem (w_mem w1) l) as Hl by (unfold in_mem, w1, l; cbn; rewrite length_app; simpl; lia).
  assert (in_mem (w_mem (put w1 l (scanTask r))) l) as Hl'
    by (unfold in_mem, put in *; cbn; by rewrite length_insert).
  rewrite (completeTask_error _ l result e) by done. rewrite deref_put by done.
  set (t := reported _ result (scanTask r)). set (msg := if tr_TimedOut result then _ else _).
  replace (put (_ <| w_clk := _ |>) l t) with (put (w1 <| w_clk := S (w_clk w1) |>) l t)
    by (unfold put; cbn; by rewrite list_insert_insert_eq).
  set (w2 := put _ l t).
  assert (in_mem (w_mem w2) l) as Hl2 by (unfold in_mem, w2, put; cbn; by rewrite length_insert).
  assert (deref (w_mem w2) l = t) as Ht2 by by apply deref_put.
  destruct (failTask_result w2 l msg Hl2 (Hf _)) as (Hsched & Hmsg & Huid' & Hout).
  rewrite Ht2 in Huid', Hout. split; [by rewrite Hsched|]. intros Hretry.
  assert (CanRetry t = true) as Hc by (by apply Z.ltb_lt). rewrite Hc in Hout.
  destruct Hout as (Hst & Hrc & Hfin & Hsave & Hq).
  set (t' := deref (w_mem (failTask l msg w2).2) l) in *.
  assert (TaskUID t' = uid) as Hu by by rewrite Huid'.
  exists l, (update_row t' r). split; [|split_and!; [exact Hst| |exact Hrc| |exact Hu|exact Hq]].
  2: { cbn. by rewrite Hfin. }
  2: { cbn. by rewrite Hmsg. }
  rewrite <- Hu. apply (saved_row w2); [done|]. by rewrite Hu.
Qed.

(** A failure report is never checked against the status of the row.  If an
    agent reports an error for a task whose row is in any status, success and
    canceled included, and retries are left, the row goes back to pending
    with its end time erased, and the task is queued for another run. *)
Lemma late_report_requeues w uid r result e :
  (∀ i, db_fault i = None) → rows (w_db w) !! uid = Some r → c_task_uid r = uid →
  c_retry_count r < c_max_retries r → tr_Error result = Some e →
  let w' := (HandleRemoteResult uid result w).2 in
  ∃ l r', rows (w_db w') !! uid = Some r' ∧ c_status r' = TaskStatusPending ∧
    c_finished_at r' = None ∧ c_retry_count r' = c_retry_count r +64 1 ∧
    TaskUID (deref (w_mem w') l) = uid ∧
    w_queue w' = (q_PushDelayed (clock (S (S (w_clk w)))) (w_mem w') l
                    (retry_delay (deref (w_mem w') l)) (w_queue w)).2.
Proof.
  intros Hf Hr Huid Hretry He. destruct (error_report_result w uid r result e) as [_ Hout]; [done..|].
  destruct (Hout Hretry) as (l & r' & H1' & H2' & H3' & H4' & _ & H5'). by exists l, r'.
Qed.

(** A success report for a running task ends its row. *)
Lemma success_report_result w uid r result :
  (∀ i, db_fault i = None) → rows (w_db w) !! uid = Some r → c_task_uid r = uid →
  c_status r = TaskStatusRunning → tr_Error result = None →
  let w' := (HandleRemoteResult uid result w).2 in
  nodeTasks (w_sched w') = nodeTasks (w_sched w) ∧ w_queue w' = w_queue w ∧
  ∃ r', rows (w_db w') !! uid = Some r' ∧ c_status r' = TaskStatusSuccess ∧
    c_exit_code r' = Some (tr_ExitCode result) ∧ c_stdout r' = Some (tr_Stdout result) ∧
    c_stderr r' = Some (tr_Stderr result).
Proof.
  intros Hf Hr Huid Hst He w'. unfold HandleRemoteResult in w'.
  subst w'. rewrite (run_store_GetByUID w uid r) by done. run.
  set (l := length (w_mem w)).
  set (w1 := (w <| w_stm := S (w_stm w) |> <| w_mem := w_mem w ++ [scanTask r] |>)
               <| w_sched := _ |>).
  assert (in_mem (w_mem w1) l) as Hl by (unfold in_mem, w1, l; cbn; rewrite length_app; simpl; lia).
  set (w2 := put w1 l (scanTask r)).
  assert (in_mem (w_mem w2) l) as Hl2 by (unfold in_mem, w2, put in *; cbn; by rewrite length_insert).
  destruct (completeTask_success w2 l result Hl2 (Hf _) He)
    as (Hu & Hsched & Hq & Ho & Hoe & Hx & Hout).
  assert (deref (w_mem w2) l = scanTask r) as Ht2 by by apply deref_put.
  rewrite Ht2 in Hu, Hout. rewrite bool_decide_eq_true_2 in Hout by exact Hst.
  destruct Hout as [Hs' Hsave]. change (TaskUID (scanTask r)) with (c_task_uid r) in Hu.
  split; [by rewrite Hsched|]. split; [by rewrite Hq|].
  set (t' := deref (w_mem (completeTask l result w2).2) l) in *.
  exists (update_row t' r). split; [|split_and!; cbn; congruence].
  rewrite <- Huid, <- Hu. apply (saved_row w2); [done|]. by rewrite Hu, Huid.
Qed.

(** *** Dispatch *)

Lemma run_register_cancel {A} w l t (k : nat → M W A) :
  in_mem (w_mem w) l →
  (register_cancel l ≫= k) (put w l t) =
    k (w_ctx w)
      (put (w <| w_ctx := S (w_ctx w) |>
              <| w_sched := (w_sched w) <| cancelFuncs :=
                   <[TaskUID t := w_ctx w]> (cancelFuncs (w_sched w)) |> |>) l t).
Proof.
  intros Hl. unfold register_cancel, mbind, M_bind, action, load, gets, sched_modify, modify.
  cbn. by rewrite deref_insert.
Qed.

Lemma run_spawn w l t ctx :
  spawn ctx l (put w l t) = (tt, put (w <| w_running := w_running w ++ [(ctx, l)] |>) l t).
Proof. done. Qed.

Lemma run_ClaimTask {A} w l t uid (k : result bool → M W A) :
  w_etcd w = None → (ClaimTask uid ≫= k) (put w l t) = k (Ok true) (put w l t).
Proof. intros He. unfold mbind, M_bind, ClaimTask. cbn. by rewrite He. Qed.

(** A pending task after [dispatchLocal] in the state [w]. *)
Definition local_start w (t : Task) : Task :=
  t <| Status := TaskStatusRunning |> <| StartedAt := Some (clock (S (w_clk w))) |>
    <| UpdatedAt := clock (S (S (w_clk w))) |>.

Lemma dispatchLocal_result w l t :
  in_mem (w_mem w) l → (∀ i, db_fault i = None) → Status t = TaskStatusPending →
  ∃ w', (dispatchLocal l (put w l t)).2 = put w' l (local_start w t) ∧
    w_mem w' = w_mem w ∧ saved w w' (local_start w t) ∧ w_queue w' = w_queue w ∧
    w_running w' = w_running w ++ [(w_ctx w, l)] ∧
    cancelFuncs (w_sched w') = <[TaskUID t := w_ctx w]> (cancelFuncs (w_sched w)).
Proof.
  intros Hl Hf Hs. unfold dispatchLocal. run. rewrite TransitionTo_ok by (rewrite Hs; reflexivity).
  cbn [fst snd]. run. cbv zeta. rewrite Hf. rewrite run_register_cancel by done.
  rewrite run_spawn. eexists. split; [reflexivity|]. split_and!; reflexivity.
Qed.

(** [dispatch] up to the choice of a node: the task is pending, and what
    counts for the rest is as before. *)
Lemma dispatch_place w l t :
  in_mem (w_mem w) l → (∀ i, db_fault i = None) → w_etcd w = None →
  Status t = TaskStatusCreated ∨ Status t = TaskStatusPending →
  ∃ w1 t1, dispatch l (put w l t) = place l (put w1 l t1) ∧
    Status t1 = TaskStatusPending ∧ TaskUID t1 = TaskUID t ∧ w_mem w1 = w_mem w ∧
    w_nodes w1 = w_nodes w ∧ w_queue w1 = w_queue w ∧ w_running w1 = w_running w ∧
    w_ctx w1 = w_ctx w ∧ w_sched w1 = w_sched w ∧ (w_db w1 = w_db w ∨ saved w w1 t1).
Proof.
  intros Hl Hf He Hs. unfold dispatch. run. rewrite run_ClaimTask by done.
  case_bool_decide as Hc.
  - run. rewrite TransitionTo_ok by (rewrite Hc; reflexivity). cbn [fst snd]. run. cbv zeta.
    rewrite Hf. eexists _, _. split; [reflexivity|].
    split_and!; try reflexivity. right. reflexivity.
  - exists w, t. split_and!; try reflexivity; [by destruct Hs|by left].
Qed.

Lemma dispatch_result w l t r :
  (∀ i, db_fault i = None) → w_etcd w = None → w_nodes w = None → in_mem (w_mem w) l →
  Status t = TaskStatusCreated ∨ Status t = TaskStatusPending →
  rows (w_db w) !! TaskUID t = Some r →
  let w' := (dispatch l (put w l t)).2 in
  let t' := deref (w_mem w') l in
  Status t' = TaskStatusRunning ∧ is_Some (StartedAt t') ∧
  w_running w' = w_running w ++ [(w_ctx w, l)] ∧ w_queue w' = w_queue w ∧
  cancelFuncs (w_sched w') !! TaskUID t = Some (w_ctx w) ∧
  (∃ r', rows (w_db w') !! TaskUID t = Some r' ∧ c_status r' = TaskStatusRunning) ∧
  ∀ uid, uid ≠ TaskUID t → rows (w_db w') !! uid = rows (w_db w) !! uid.
Proof.
  intros Hf He Hn Hl Hs Hr. cbv zeta.
  destruct (dispatch_place w l t Hl Hf He Hs)
    as (w1 & t1 & -> & Hs1 & Hu1 & Hm1 & Hn1 & Hq1 & Hr1 & Hx1 & _ & Hdb).
  assert (in_mem (w_mem w1) l) as Hl1 by by rewrite Hm1.
  assert (∃ r1, rows (w_db w1) !! TaskUID t = Some r1) as [r1 Hr1'].
  { destruct Hdb as [->|Hsv]; [by exists r|]. exists (update_row t1 r). rewrite <- Hu1.
    apply (saved_row w); [done|]. by rewrite Hu1. }
  assert (∀ uid, uid ≠ TaskUID t → rows (w_db w1) !! uid = rows (w_db w) !! uid) as Hne.
  { intros uid Hu. destruct Hdb as [->|Hsv]; [done|]. by rewrite Hsv, Hu1, lookup_alter_ne. }
  unfold place. rewrite run_load, run_gets_nodes, Hn1, Hn by done. cbn [SelectNode].
  destruct (dispatchLocal_result w1 l t1 Hl1 Hf Hs1) as (w2 & -> & Hm2 & Hsv & Hq2 & Hrun & Hcan).
  rewrite deref_put by by rewrite Hm2. clear Hdb Hs.
  split; [done|]. split; [by eexists|]. split; [|split; [|split; [|split]]].
  - cbn. by rewrite Hrun, Hr1, Hx1.
  - cbn. by rewrite Hq2.
  - cbn. rewrite Hcan, Hu1, Hx1. apply lookup_insert_eq.
  - exists (update_row (local_start w1 t1) r1). split; [|done]. rewrite <- Hu1.
    apply (saved_row w1 _ _ r1 Hsv). by rewrite <- Hr1', <- Hu1.
  - intros uid Hu. cbn. rewrite <- Hne by done. rewrite Hsv. apply lookup_alter_ne. cbn. congruence.
Qed.

(** A single scheduler without nodes starts every task it dispatches: a
    created or pending task becomes running with a start time, gets a
    goroutine and the cancel function for its UID, and leaves the queue
    alone.  The row of the task becomes running whatever status it had, so a
    task canceled in the table while its object waited in the queue is run
    all the same; no other row changes. *)
Lemma dispatch_runs_task w l r :
  (∀ i, db_fault i = None) → w_etcd w = None → w_nodes w = None → in_mem (w_mem w) l →
  let t := deref (w_mem w) l in
  Status t = TaskStatusCreated ∨ Status t = TaskStatusPending →
  rows (w_db w) !! TaskUID t = Some r →
  let w' := (dispatch l w).2 in
  let t' := deref (w_mem w') l in
  Status t' = TaskStatusRunning ∧ is_Some (StartedAt t') ∧
  w_running w' = w_running w ++ [(w_ctx w, l)] ∧ w_queue w' = w_queue w ∧
  cancelFuncs (w_sched w') !! TaskUID t = Some (w_ctx w) ∧
  (∃ r', rows (w_db w') !! TaskUID t = Some r' ∧ c_status r' = TaskStatusRunning) ∧
  ∀ uid, uid ≠ TaskUID t → rows (w_db w') !! uid = rows (w_db w) !! uid.
Proof.
  intros Hf He Hn Hl t Hs Hr. pose proof (dispatch_result w l t r Hf He Hn Hl Hs Hr) as Hres.
  assert (put w l t = w) as Hw by by apply put_self. rewrite Hw in Hres. exact Hres.
Qed.

(** *** The channels of the nodes *)

Definition channel w (nodeID : string) : list loc := default [] (nodeTasks (w_sched w) !! nodeID).

Lemma GetNextTaskForNode_result nodeID w :
  let '(r, w') := GetNextTaskForNode nodeID w in
  r = head (channel w nodeID) ∧ channel w' nodeID = tail (channel w nodeID) ∧
  ∀ n, n ≠ nodeID → channel w' n = channel w n.
Proof.
  unfold GetNextTaskForNode, channel.
  destruct (nodeTasks (w_sched w) !! nodeID) as [[|l ch]|] eqn:Hn; cbn; rewrite ?Hn; try done.
  rewrite lookup_insert_eq. split_and!; [done..|]. intros n Hne. by rewrite lookup_insert_ne.
Qed.

(** The task as [dispatchRemote] starts it. *)
Definition remote_start w (node : Node) (t : Task) : Task :=
  t <| Status := TaskStatusRunning |> <| AssignedNodeID := NodeID node |>
    <| StartedAt := Some (clock (S (w_clk w))) |> <| UpdatedAt := clock (S (S (w_clk w))) |>.

(** The end of [dispatchRemote]: the channel if it has room, else a goroutine. *)
Definition hand_over ctx l (nodeID : string) : M W unit :=
  ch ← getOrCreateNodeQueue nodeID;
  if (length ch <? channel_capacity)%nat then
    sched_modify (λ s, s <| nodeTasks := <[nodeID := ch ++ [l]]> (nodeTasks s) |>)
  else spawn ctx l.

Lemma hand_over_result w ctx l nodeID :
  let w' := (hand_over ctx l nodeID w).2 in
  w_mem w' = w_mem w ∧ w_db w' = w_db w ∧ w_queue w' = w_queue w ∧
  (∀ n, n ≠ nodeID → channel w' n = channel w n) ∧
  if decide (length (channel w nodeID) < 10)%nat
  then channel w' nodeID = channel w nodeID ++ [l] ∧ w_running w' = w_running w
  else channel w' nodeID = channel w nodeID ∧ w_running w' = w_running w ++ [(ctx, l)].
Proof.
  cbv zeta. unfold hand_over, getOrCreateNodeQueue, channel, mbind, M_bind.
  destruct (nodeTasks (w_sched w) !! nodeID) as [ch|] eqn:Hn; cbn [fst snd default].
  - cbn [default from_option]. unfold id, channel_capacity.
    destruct (Nat.ltb_spec (length ch) 10) as [Hlt|Hge].
    + rewrite decide_True by done. cbn. rewrite lookup_insert_eq. split_and!; try done.
      intros n Hne. by rewrite lookup_insert_ne.
    + rewrite decide_False by lia. cbn. rewrite Hn. by split_and!.
  - rewrite decide_True by (simpl; lia). cbn. rewrite lookup_insert_eq. split_and!; try done.
    intros n Hne. by rewrite !lookup_insert_ne.
Qed.

Lemma dispatchRemote_result w l t node :
  in_mem (w_mem w) l → (∀ i, db_fault i = None) → Status t = TaskStatusPending →
  ∃ w1, dispatchRemote l node (put w l t) =
      hand_over (w_ctx w) l (NodeID node) (put w1 l (remote_start w node t)) ∧
    w_mem w1 = w_mem w ∧ saved w w1 (remote_start w node t) ∧ w_running w1 = w_running w ∧
    nodeTasks (w_sched w1) = nodeTasks (w_sched w) ∧ w_queue w1 = w_queue w.
Proof.
  intros Hl Hf Hs. unfold dispatchRemote. run. rewrite TransitionTo_ok by (rewrite Hs; reflexivity).
  cbn [fst snd]. run. cbv zeta. rewrite Hf. rewrite run_register_cancel by done.
  eexists. split; [reflexivity|]. split_and!; reflexivity.
Qed.

(** C15 The queue of a node is a FIFO of at most ten tasks, and no dispatched
    task is lost.  [dispatchRemote] of a pending task sets it running on the
    node and rewrites its row; it is appended to the node's channel when that
    holds fewer than ten tasks, and otherwise, the channel unchanged, it gets
    a local goroutine.  [GetNextTaskForNode] removes the oldest task of the
    channel, or returns nothing when it is empty or absent.  Neither touches
    the channel of another node. *)
Theorem node_queue_fifo w l node :
  in_mem (w_mem w) l → (∀ i, db_fault i = None) →
  Status (deref (w_mem w) l) = TaskStatusPending →
  (let w' := (dispatchRemote l node w).2 in
   let t' := deref (w_mem w') l in
   Status t' = TaskStatusRunning ∧ AssignedNodeID t' = NodeID node ∧ saved w w' t' ∧
   (∀ n, n ≠ NodeID node → channel w' n = channel w n) ∧
   if decide (length (channel w (NodeID node)) < 10)%nat
   then channel w' (NodeID node) = channel w (NodeID node) ++ [l] ∧ w_running w' = w_running w
   else channel w' (NodeID node) = channel w (NodeID node) ∧
        w_running w' = w_running w ++ [(w_ctx w, l)]) ∧
  ∀ nodeID,
   let '(r, w') := GetNextTaskForNode nodeID w in
   r = head (channel w nodeID) ∧ channel w' nodeID = tail (channel w nodeID) ∧
   ∀ n, n ≠ nodeID → channel w' n = channel w n.
Proof.
  intros Hl Hf Hs. split; [|intros nodeID; apply GetNextTaskForNode_result]. cbv zeta.
  destruct (dispatchRemote_result w l _ node Hl Hf Hs) as (w1 & Hd & Hm & Hsv & Hr & Hn & _).
  rewrite put_self in Hd by done. rewrite Hd.
  destruct (hand_over_result (put w1 l (remote_start w node (deref (w_mem w) l))) (w_ctx w) l
              (NodeID node)) as (Em & Edb & _ & Hne & Hch).
  destruct (hand_over _ _ _ _) as [[] w']. cbn [snd] in *.
  rewrite Em, deref_put by by rewrite Hm. unfold saved. rewrite Edb.
  unfold channel in *. cbn [w_sched put setf set_w_mem] in Hne, Hch. rewrite Hn in Hne, Hch.
  split_and!; [done|done|exact Hsv|done|]. cbn in Hch. by rewrite Hr in Hch.
Qed.

(** *** Cancellation *)

(** A cancel message reaches exactly the execution it is meant for: if the
    UID in the channel name has a cancel function, its context is cancelled
    and the entry removed; otherwise nothing happens.  Contexts of other
    tasks, objects, rows and the queue are untouched. *)
Lemma cancel_message_exact w uid :
  let w' := (cancel_message ("tasks:cancel:" +:+ uid) w).2 in
  w_mem w' = w_mem w ∧ w_db w' = w_db w ∧ w_queue w' = w_queue w ∧ w_running w' = w_running w ∧
  match cancelFuncs (w_sched w) !! uid with
  | Some ctx =>
      w_canceled w' = {[ ctx ]} ∪ w_canceled w ∧
      cancelFuncs (w_sched w') = delete uid (cancelFuncs (w_sched w))
  | None => w' = w
  end.
Proof.
  cbv zeta. unfold cancel_message. rewrite TrimPrefix_append.
  by destruct (cancelFuncs (w_sched w) !! uid).
Qed.

(** An execution that ends with an error, the error of a cancelled context
    included, is retried without a look at the row: while its object has
    retries left, the row goes back to pending from whatever status it had
    (canceled by [CancelTask], say) and the task is enqueued again. *)
Lemma cancelled_execution_requeues w ctx l r result e :
  (∀ i, db_fault i = None) → in_mem (w_mem w) l →
  rows (w_db w) !! TaskUID (deref (w_mem w) l) = Some r →
  RetryCount (deref (w_mem w) l) < MaxRetries (deref (w_mem w) l) → tr_Error result = Some e →
  let w' := (execution_done ctx l result w).2 in
  ∃ r', rows (w_db w') !! TaskUID (deref (w_mem w) l) = Some r' ∧
    c_status r' = TaskStatusPending ∧ ((ctx, l) ∉ w_running w') ∧
    w_queue w' = (q_PushDelayed (clock (S (S (w_clk w)))) (w_mem w') l
                    (retry_delay (deref (w_mem w') l)) (w_queue w)).2.
Proof.
  intros Hf Hl Hr Hretry He. cbv zeta. unfold execution_done, mbind, M_bind.
  set (w1 := w <| w_running := filter (λ x, x ≠ (ctx, l)) (w_running w) |>).
  change (modify _ w) with (tt, w1). cbn [fst snd].
  rewrite (completeTask_error w1 l result e) by done.
  set (msg := if tr_TimedOut result then _ else _). change (w_mem w1) with (w_mem w).
  set (t := reported _ _ _). set (w2 := put _ l t).
  assert (in_mem (w_mem w2) l) as Hl2 by (unfold in_mem, w2, put; cbn; by rewrite length_insert).
  assert (deref (w_mem w2) l = t) as Ht2 by by apply deref_put.
  destruct (failTask_result w2 l msg Hl2 (Hf _)) as (_ & _ & Hu & Hout). rewrite Ht2 in Hu, Hout.
  assert (CanRetry t = true) as Hc by (by apply Z.ltb_lt). rewrite Hc in Hout.
  destruct Hout as (Hst & _ & _ & Hsv & Hq).
  assert (w_running (failTask l msg w2).2 = w_running w1) as Hrun.
  { unfold w2, failTask. run. change (CanRetry _) with (CanRetry t). rewrite Hc. run. cbv zeta.
    rewrite Hf. run. done. }
  destruct (failTask l msg w2) as [[] w3]. cbn [snd load gets sched_modify modify] in *.
  exists (update_row (deref (w_mem w3) l) r). split_and!; [|exact Hst| |exact Hq].
  - cbn. change (TaskUID (deref (w_mem w) l)) with (TaskUID t) in *. rewrite <- Hu.
    apply (saved_row w2); [done|]. by rewrite Hu.
  - cbn. rewrite Hrun. cbn. rewrite list_elem_of_filter. by intros [? _].
Qed.
End outcomes.

(** ** Scenarios

    A server with eight CPUs and four slots; one task, [uuid-0], asking for two
    CPUs; the same task once a tick has started it. *)

Definition demo_request : CreateTaskRequest :=
  mkRequest "demo" "make" EmptyString None 2 100 0 0 None.
Definition demo_created : CWorld := exec (CreateTask demo_request) (start None None None 4 8).
Definition demo_running : CWorld := exec (tick 10) demo_created.

Definition succeeded : TaskResult := mkResult 0 "out" EmptyString false None.
Definition broken : TaskResult := mkResult 1 EmptyString EmptyString false (Some (ErrorString "exit status 1")).
Definition cancelled : TaskResult := mkResult 0 EmptyString EmptyString false (Some ErrCanceled).

Definition status_of (w : CWorld) (uid : string) : option string := c_status <$> rows (w_db w) !! uid.

Example demo_statuses :
  status_of demo_created "uuid-0" = Some TaskStatusCreated ∧
  status_of demo_running "uuid-0" = Some TaskStatusRunning ∧
  w_running demo_running = [(0, 0)]%nat ∧
  status_of (exec (execution_done 0 0 succeeded) demo_running) "uuid-0" = Some TaskStatusSuccess.
Proof. split_and!; vm_compute; reflexivity. Qed.

Lemma failTask_outcome_witness :
  let w' := exec (failTask 0 "boom") demo_running in
  ErrorMessage (deref (w_mem w') 0) = "boom"%string ∧
  Status (deref (w_mem w') 0) = TaskStatusPending.
Proof.
  intros w'. assert (in_mem (w_mem demo_running) 0) as Hl by (vm_compute; lia).
  assert (db_fault (w_stm demo_running) = None) as Hf by reflexivity.
  assert (CanRetry (deref (w_mem demo_running) 0) = true) as Hc by (vm_compute; reflexivity).
  destruct (failTask_outcome demo_running 0 "boom" Hl Hf) as (Hm & _ & H).
  rewrite Hc in H. split; [exact Hm|apply H].
Defined.

Lemma completeTask_outcome_witness :
  let w' := exec (completeTask 0 succeeded) demo_running in
  Stdout (deref (w_mem w') 0) = "out"%string ∧ Status (deref (w_mem w') 0) = TaskStatusSuccess.
Proof.
  intros w'. assert (in_mem (w_mem demo_running) 0) as Hl by (vm_compute; lia).
  assert (db_fault (w_stm demo_running) = None) as Hf by reflexivity.
  assert (bool_decide (Status (deref (w_mem demo_running) 0) = TaskStatusRunning) = true) as Hc
    by (vm_compute; reflexivity).
  pose proof (completeTask_outcome demo_running 0 succeeded Hl Hf) as H.
  cbn [tr_Error succeeded] in H. rewrite Hc in H. split; apply H.
Defined.

(** A finished task whose agent reports an error afterwards. *)
Lemma late_report_requeues_witness :
  let w := exec (execution_done 0 0 succeeded) demo_running in
  status_of w "uuid-0" = Some TaskStatusSuccess ∧
  ∃ r', rows (w_db (exec (HandleRemoteResult "uuid-0" broken) w)) !! "uuid-0"%string = Some r' ∧
        c_status r' = TaskStatusPending.
Proof.
  intros w. split; [vm_compute; reflexivity|].
  destruct (rows (w_db w) !! "uuid-0"%string) as [r|] eqn:Hr; [|vm_compute in Hr; discriminate Hr].
  assert (Some (c_task_uid r, c_retry_count r, c_max_retries r) = Some ("uuid-0"%string, 0, 3)) as Hc.
  { transitivity ((λ r, (c_task_uid r, c_retry_count r, c_max_retries r)) <$>
                    rows (w_db w) !! "uuid-0"%string); [by rewrite Hr|vm_compute; reflexivity]. }
  injection Hc as H1 H2 H3.
  destruct (late_report_requeues w "uuid-0" r broken (ErrorString "exit status 1"))
    as (l & r' & H & Hs & _); [done|exact Hr|exact H1|rewrite H2, H3; lia|reflexivity|].
  exists r'. split; [exact H|exact Hs].
Defined.

(** A task canceled while it waits in the queue. *)
Lemma dispatch_runs_task_witness :
  let w := exec (CancelTask "uuid-0") demo_created in
  status_of w "uuid-0" = Some TaskStatusCanceled ∧
  ∃ r', rows (w_db (exec (dispatch 0) w)) !! "uuid-0"%string = Some r' ∧
        c_status r' = TaskStatusRunning.
Proof.
  intros w. split; [vm_compute; reflexivity|].
  destruct (rows (w_db w) !! "uuid-0"%string) as [r|] eqn:Hr; [|vm_compute in Hr; discriminate Hr].
  assert (TaskUID (deref (w_mem w) 0) = "uuid-0"%string) as Hu by (vm_compute; reflexivity).
  assert (in_mem (w_mem w) 0) as Hl by (vm_compute; lia).
  destruct (dispatch_runs_task w 0 r) as (_ & _ & _ & _ & _ & H & _);
    [done|reflexivity|reflexivity|exact Hl|left; vm_compute; reflexivity|rewrite Hu; exact Hr|].
  rewrite Hu in H. exact H.
Defined.

Lemma node_queue_fifo_witness :
  let w := exec (assign 0 (λ t, t <| Status := TaskStatusPending |>)) demo_created in
  let node := NewNode "node-1" 0 "h" "i" "v" 16 4096 100 [] in
  channel (exec (dispatchRemote 0 node) w) "node-1" = [0%nat] ∧
  AssignedNodeID (deref (w_mem (exec (dispatchRemote 0 node) w)) 0) = "node-1"%string.
Proof.
  intros w node. split; [vm_compute; reflexivity|].
  assert (in_mem (w_mem w) 0) as Hl by (vm_compute; lia).
  destruct (node_queue_fifo w 0 node Hl) as [(_ & H & _) _]; [done|vm_compute; reflexivity|].
  exact H.
Defined.

(** A running task canceled by its user: the execution is cancelled, and the
    task is queued for another run. *)
Lemma cancelled_execution_requeues_witness :
  let w := exec (CancelTask "uuid-0") demo_running in
  status_of w "uuid-0" = Some TaskStatusCanceled ∧
  ∃ r', rows (w_db (exec (execution_done 0 0 cancelled) w)) !! "uuid-0"%string = Some r' ∧
        c_status r' = TaskStatusPending.
Proof.
  intros w. split; [vm_compute; reflexivity|].
  destruct (rows (w_db w) !! "uuid-0"%string) as [r|] eqn:Hr; [|vm_compute in Hr; discriminate Hr].
  assert (TaskUID (deref (w_mem w) 0) = "uuid-0"%string) as Hu by (vm_compute; reflexivity).
  assert (in_mem (w_mem w) 0) as Hl by (vm_compute; lia).
  destruct (cancelled_execution_requeues w 0 0 r cancelled ErrCanceled)
    as (r' & H & Hs & _); [done|exact Hl|rewrite Hu; exact Hr|vm_compute; reflexivity|reflexivity|].
  rewrite Hu in H. exists r'. split; [exact H|exact Hs].
Defined.

(** A cancellation that has read the task just before it succeeds: the client
    is told that it is cancelled, and the success is gone from the row. *)
Example cancel_overwrites_success :
  let l := length (w_mem demo_running) in
  let w := exec (execution_done 0 0 succeeded) (exec (store_GetByUID "uuid-0") demo_running) in
  status_of w "uuid-0" = Some TaskStatusSuccess ∧
  status_of (exec (cancel_found "uuid-0" l) w) "uuid-0" = Some TaskStatusCanceled ∧
  (cancel_found "uuid-0" l w).1 = None.
Proof. vm_compute. split_and!; reflexivity. Qed.

(** ** Termination *)

(** C11 A scheduling cycle terminates: with more fuel than the queue has ready
    tasks the loop runs to its end, and more fuel changes nothing.  A task
    that does not fit is delayed, not put back among the ready ones, so it
    cannot keep the loop busy. *)
Theorem tick_terminates {Q K R} `{Host} `{TaskQueueOk Q} `{Etcd K} `{Redis R}
    (w : World Q K R) (fuel : nat) :
  (q_ready (w_queue w) < fuel)%nat →
  (tick fuel w).1 = true ∧ ∀ fuel', (fuel ≤ fuel')%nat → tick fuel' w = tick fuel w.
Proof.
  intros Hf. destruct (tick_split w) as [(w' & Hw')|(b & w' & Hq & Hw')].
  - rewrite Hw'. split; [done|]. intros fuel' _. apply Hw'.
  - rewrite Hw'. rewrite <- Hq in Hf. destruct (dispatch_loop_terminates fuel b w' Hf) as [Hend Hmore].
    split; [exact Hend|]. intros fuel' Hle. rewrite Hw'. by apply Hmore.
Qed.

Lemma tick_terminates_witness :
  (tick 3 demo_created).1 = true ∧ tick 1000 demo_created = tick 3 demo_created.
Proof.
  assert (q_ready (w_queue demo_created) < 3)%nat as Hf by (vm_compute; lia).
  destruct (tick_terminates demo_created 3 Hf) as [H1 H2]. split; [exact H1|].
  apply H2. lia.
Defined.
