(* ===== verification/Claims.v ===== *)
(** * Claims: schedulers that share an etcd

    [ClaimTask] of [internal/scheduler/scheduler.go] takes a task with a
    compare-and-put in etcd, under the lease the server was granted at start-up
    ([cmd/server/main.go]).  What it answers and writes on every branch, that
    only the end of a winner's lease lets another one win, and what becomes of
    a scheduler that has lost its lease. *)

From S2P Require Import Prelude GoStrings GoFormat Model TaskQueue InMemQueue TaskStore.
From S2P Require Import NodeManager Runtime Invariant TaskService Scheduler Concrete SchedulerSpec.

Section claims.
Context {Q K R : Type} `{Host} `{TaskQueue Q} `{EtcdOk K} `{Redis R}.
Abbreviation W := (World Q K R).
Implicit Types (w : W) (k : K).

#[local] Instance claim_key_inj : Inj (=) (=) claim_key.
Proof. intros a b Hab. unfold claim_key in Hab. by simplify_eq/=. Qed.

(** The keys once the scheduler of [w] has put its claim. *)
Definition claimed (uid : string) w (keys : gmap string EtcdKV) : gmap string EtcdKV :=
  <[claim_key uid := mkEtcdKV 1 (schedulerID (w_sched w)) (leaseID (w_sched w))]> keys.

(** What the reply [r] says of etcd before and after. *)
Definition claim_reply (uid : string) w k k' (r : result bool) : Prop :=
  match r with
  | Ok true =>
      e_keys k !! claim_key uid = None ∧ e_keys k' = claimed uid w (e_keys k) ∧
      (leaseID (w_sched w) = 0 ∨ leaseID (w_sched w) ∈ e_leases k)
  | Ok false => is_Some (e_keys k !! claim_key uid) ∧ e_keys k' = e_keys k
  | Err e =>
      (∃ e', e = WrapError "claim task" e') ∧
      (e_keys k' = e_keys k ∨
       e_keys k !! claim_key uid = None ∧ e_keys k' = claimed uid w (e_keys k))
  end.

Lemma version_of_zero key keys : version_of key keys = 0 ↔ keys !! key = None.
Proof. unfold version_of. by destruct (keys !! key). Qed.

Lemma ClaimTask_reply uid w k :
  w_etcd w = Some k →
  ∃ k', (ClaimTask uid w).2 = w <| w_etcd := Some k' |> ∧ e_leases k' = e_leases k ∧
    claim_reply uid w k k' (ClaimTask uid w).1.
Proof.
  intros Hk. unfold ClaimTask. rewrite Hk.
  set (t := {| txn_If := _; txn_Then := _; txn_Else := _ |}).
  pose proof (e_txn_leases t k) as Hlease.
  assert (txn_branch t (e_keys k) = if decide (e_keys k !! claim_key uid = None) then txn_Then t else txn_Else t)
    as Hbranch.
  { unfold txn_branch. cbn. rewrite andb_true_r. destruct (decide _) as [Hn|Hn].
    - by rewrite (proj2 (version_of_zero _ _) Hn).
    - by rewrite (proj2 (Z.eqb_neq _ _)) by (by rewrite version_of_zero). }
  assert (e_keys k !! claim_key uid = None → foldl apply_op (e_keys k) (txn_Then t) = claimed uid w (e_keys k)) as Hput.
  { intros Hn. cbn. unfold next_version. by rewrite Hn. }
  destruct (e_txn t k) as [[b|e] k'] eqn:Ht; exists k'; cbn [fst snd] in *; (split; [done|split; [done|]]).
  - apply e_txn_ok in Ht as (-> & Hok & Hkeys). rewrite Hbranch in Hok, Hkeys. cbn [claim_reply forallb txn_If t cmp_holds].
    rewrite andb_true_r. destruct (decide _) as [Hn|Hn].
    + rewrite (proj2 (version_of_zero _ _) Hn). cbn. split; [done|]. split; [rewrite Hkeys; by apply Hput|].
      by apply Forall_inv in Hok.
    + rewrite (proj2 (Z.eqb_neq _ _)) by (by rewrite version_of_zero). cbn.
      split; [by apply not_eq_None_Some|done].
  - split; [by exists e|]. apply e_txn_err in Ht as [Ht|Ht]; [by left|]. rewrite Hbranch in Ht.
    destruct (decide _) as [Hn|Hn]; [|by left]. right. split; [done|]. rewrite Ht. by apply Hput.
Qed.

(** *** Histories *)

(** A claim of a task by the scheduler of some server, or the end of a lease. *)
Inductive claim_event : Type :=
| EvClaim (uid : string) (w : W)
| EvExpire (lease : Z).

(** The claim of [w]'s scheduler when etcd is [k]. *)
Definition claim_in (uid : string) w k : result bool * W := ClaimTask uid (w <| w_etcd := Some k |>).

Definition claim_step k (ev : claim_event) : K :=
  match ev with
  | EvClaim uid w => default k (w_etcd (claim_in uid w k).2)
  | EvExpire lease => e_expire lease k
  end.

Definition claim_history (evs : list claim_event) k : K := foldl claim_step k evs.

Lemma claim_in_reply uid w k :
  claim_reply uid w k (claim_step k (EvClaim uid w)) (claim_in uid w k).1 ∧
  e_leases (claim_step k (EvClaim uid w)) = e_leases k.
Proof.
  destruct (ClaimTask_reply uid (w <| w_etcd := Some k |>) k) as (k' & Hw & Hl & Hr); [done|].
  cbn [claim_step]. unfold claim_in. rewrite Hw. by split.
Qed.

Lemma claim_keeps uid kv uid' w k :
  e_keys k !! claim_key uid = Some kv →
  e_keys (claim_step k (EvClaim uid' w)) !! claim_key uid = Some kv.
Proof.
  intros Hkv. pose proof (proj1 (claim_in_reply uid' w k)) as Hr.
  set (k' := claim_step _ _) in *.
  assert (e_keys k !! claim_key uid' = None → claimed uid' w (e_keys k) !! claim_key uid = Some kv) as Hput.
  { intros Hn. unfold claimed. rewrite lookup_insert_ne; [done|]. intros Heq. congruence. }
  destruct (claim_in uid' w k).1 as [[]|e]; cbn [claim_reply] in Hr.
  - destruct Hr as (Hn & -> & _). by apply Hput.
  - destruct Hr as [_ ->]. done.
  - destruct Hr as [_ [->|[Hn ->]]]; [done|by apply Hput].
Qed.

(** A claim key outlives everything but its own lease. *)
Lemma history_keeps uid kv evs k :
  e_keys k !! claim_key uid = Some kv → kv_Lease kv = 0 ∨ EvExpire (kv_Lease kv) ∉ evs →
  e_keys (claim_history evs k) !! claim_key uid = Some kv.
Proof.
  revert k. induction evs as [|ev evs IH]; intros k Hkv Hno; [done|]. cbn [claim_history foldl].
  apply IH; [|set_solver]. destruct ev as [uid' w|lease]; [by apply claim_keeps|]. cbn [claim_step].
  rewrite e_expire_keys. apply map_lookup_filter_Some. split; [done|]. cbn.
  destruct (decide (lease = 0)) as [->|]; [by left|]. right. intros <-.
  destruct Hno as [|Hno]; [done|]. apply Hno. by left.
Qed.

Lemma expires_dec lease (evs : list claim_event) : EvExpire lease ∈ evs ∨ EvExpire lease ∉ evs.
Proof.
  induction evs as [|ev evs [IH|IH]]; [right; apply not_elem_of_nil|left; by right|].
  destruct ev as [uid w|lease']; [right; intros [?|?]%elem_of_cons; done|].
  destruct (decide (lease = lease')) as [->|Hne]; [left; by left|].
  right. intros [[= ?]|?]%elem_of_cons; done.
Qed.

(** Nothing grants a lease again. *)
Lemma history_leases evs k : e_leases (claim_history evs k) ⊆ e_leases k.
Proof.
  revert k. induction evs as [|ev evs IH]; intros k; [done|]. cbn [claim_history foldl].
  etrans; [apply IH|]. destruct ev as [uid w|lease].
  - by rewrite (proj2 (claim_in_reply uid w k)).
  - cbn [claim_step]. rewrite e_expire_leases. set_solver.
Qed.

(** *** A scheduler without its lease *)

(** The lease of the claims was granted, and has ended. *)
Definition lease_lost w : Prop :=
  leaseID (w_sched w) ≠ 0 ∧ ∃ k, w_etcd w = Some k ∧ leaseID (w_sched w) ∉ e_leases k.

(** The channels and the goroutines are those of [w0]. *)
Definition starts_nothing (w0 w : W) : Prop :=
  w_sched w = w_sched w0 ∧ w_running w = w_running w0 ∧ lease_lost w.

Definition claim_parts w := (w_sched w, w_running w, w_etcd w).

Lemma parts_nothing {A} w0 (c : M W A) :
  (∀ w, claim_parts (c w).2 = claim_parts w) → preserves (starts_nothing w0) c.
Proof.
  intros Hc w. specialize (Hc w). unfold claim_parts in Hc. injection Hc as Es Er Ee.
  unfold starts_nothing, lease_lost. by rewrite Es, Er, Ee.
Qed.

Lemma lost_claim uid w : lease_lost w → (ClaimTask uid w).1 ≠ Ok true.
Proof.
  intros (Hl & k & Hk & Hno) Hr. destruct (ClaimTask_reply uid w k Hk) as (k' & _ & _ & Hcl).
  rewrite Hr in Hcl. destruct Hcl as (_ & _ & [?|?]); done.
Qed.

Lemma lost_dispatch w0 l : preserves (starts_nothing w0) (dispatch l).
Proof.
  intros w (Es & Er & Hlost). unfold dispatch, mbind, M_bind, load, gets. cbn [fst snd].
  pose proof (lost_claim (TaskUID (deref (w_mem w) l)) w Hlost) as Hr.
  destruct Hlost as (Hl & k & Hk & Hno).
  destruct (ClaimTask_reply (TaskUID (deref (w_mem w) l)) w k Hk) as (k' & Hw & Hle & _).
  destruct (ClaimTask _ w) as [r w']. cbn [fst snd] in *. subst w'.
  destruct r as [[]|e]; [done|..]; cbn [mret M_ret fst snd];
    (split_and!; [done..|]; split; [done|]; exists k'; by rewrite Hle).
Qed.

Lemma lost_count w0 f : preserves (starts_nothing w0) (count_daily f).
Proof.
  apply parts_nothing. intros w. unfold count_daily, has_redis, redis_do, mbind, M_bind, gets. cbn.
  case_bool_decide as Hr; [|done]. destruct Hr as [r Hr]. cbn. rewrite Hr. by destruct (r_HIncrBy _ _ _ _).
Qed.

Lemma lost_Update w0 l : preserves (starts_nothing w0) (store_Update l).
Proof.
  apply parts_nothing. intros w. unfold store_Update, mbind, M_bind, now, statement, action. cbn.
  by destruct (Update _ _ _ _) as [[e t] tbl].
Qed.

Lemma lost_new_all w0 ts : preserves (starts_nothing w0) (new_all ts).
Proof. apply parts_nothing. intros w. by rewrite new_all_spec. Qed.

Lemma lost_PushDelayed w0 l d : preserves (starts_nothing w0) (queue_PushDelayed l d).
Proof.
  unfold queue_PushDelayed. apply preserves_bind; [by apply parts_nothing|]. intros n.
  apply parts_nothing. intros w. unfold action. by destruct (q_PushDelayed _ _ _ _ _).
Qed.

Lemma lost_failTask w0 l msg : preserves (starts_nothing w0) (failTask l msg).
Proof.
  assert (∀ A (c : M W A), (∀ w, claim_parts (c w).2 = claim_parts w) → preserves (starts_nothing w0) c) as Hc
    by (intros A c; apply parts_nothing).
  unfold failTask.
  repeat first
    [ apply preserves_ret | apply lost_count | apply lost_Update | apply lost_PushDelayed
    | apply Hc; by intros w
    | apply Hc; intros w; unfold transition; by destruct (TransitionTo _ _)
    | apply preserves_bind; [|intros ?]
    | match goal with |- preserves _ (match ?x with _ => _ end) => destruct x end ].
Qed.

Lemma lost_scan w0 n ls c m : preserves (starts_nothing w0) (scan_running n ls c m).
Proof.
  revert c m. induction ls as [|l ls IH]; intros c m; cbn [scan_running]; [apply preserves_ret|].
  apply preserves_bind; [by apply parts_nothing|]. intros task.
  apply preserves_bind; [|intros _; apply IH]. unfold scan_one.
  apply preserves_bind; [by apply parts_nothing|]. intros task'.
  destruct (timed_out n task'); [apply lost_failTask|apply preserves_ret].
Qed.

Lemma lost_pop_one w0 b : preserves (starts_nothing w0) (pop_one b).
Proof.
  destruct b as [[c m] slots]. unfold pop_one. apply preserves_bind.
  { apply parts_nothing. intros w. unfold queue_Pop. by destruct (q_Pop _ _ _ _) as [[[r i] m'] q']. }
  intros [[l|]|e]; [|apply preserves_ret..].
  apply preserves_bind; [by apply parts_nothing|]. intros t. destruct (canAllocate t c m).
  - apply preserves_bind; [apply lost_dispatch|]. intros _.
    apply preserves_bind; [by apply parts_nothing|]. intros t'. apply preserves_ret.
  - apply preserves_bind; [apply lost_PushDelayed|]. intros _. apply preserves_ret.
Qed.

Lemma lost_loop w0 fuel b : preserves (starts_nothing w0) (dispatch_loop fuel b).
Proof.
  revert b. induction fuel as [|fuel IH]; intros b; cbn [dispatch_loop];
    (destruct (0 <? b.2); [|apply preserves_ret]); [apply preserves_ret|].
  apply preserves_bind; [apply lost_pop_one|]. intros [b'|]; [apply IH|apply preserves_ret].
Qed.

Lemma lost_tick w0 fuel : preserves (starts_nothing w0) (tick fuel).
Proof.
  unfold tick. apply preserves_bind.
  { unfold store_GetRunningTasks. apply preserves_bind; [by apply parts_nothing|]. intros f.
    apply preserves_bind; [by apply parts_nothing|]. intros tbl.
    destruct (GetRunningTasks f tbl) as [ts|e]; [|apply preserves_ret].
    apply preserves_bind; [apply lost_new_all|]. intros ls. apply preserves_ret. }
  intros [ls|e]; [|apply preserves_ret]. apply preserves_bind; [by apply parts_nothing|]. intros n.
  apply preserves_bind; [apply lost_scan|]. intros al.
  apply preserves_bind; [by apply parts_nothing|]. intros s. apply lost_loop.
Qed.

(** C35 The claims of tasks.  Without etcd every claim succeeds and nothing
    changes.  With etcd a claim is granted exactly when the key of the task is
    absent, and then the key holds the id of the scheduler under its lease, with
    version 1; it is refused exactly when the key is there, and then nothing
    changes; after an error the put has been done or not.  No other key, no
    lease and no other part of the server changes.  Mutual exclusion: when one
    scheduler has been told to run a task and later one (the same or another)
    is told so again, whatever claims of any tasks by any schedulers, with or
    without errors, and whatever ends of leases lie between, then the lease of
    the first had ended in between. *)
Theorem ClaimTask_exclusive (uid : string) w w1 w2 k (evs : list claim_event) :
  (w_etcd w = None → ClaimTask uid w = (Ok true, w)) ∧
  (w_etcd w = Some k →
   ∃ k', (ClaimTask uid w).2 = w <| w_etcd := Some k' |> ∧ e_leases k' = e_leases k ∧
     claim_reply uid w k k' (ClaimTask uid w).1) ∧
  ((claim_in uid w1 k).1 = Ok true →
   (claim_in uid w2 (claim_history evs (claim_step k (EvClaim uid w1)))).1 = Ok true →
   leaseID (w_sched w1) ≠ 0 ∧ EvExpire (leaseID (w_sched w1)) ∈ evs).
Proof.
  split; [|split; [apply ClaimTask_reply|]].
  { intros He. unfold ClaimTask. by rewrite He. }
  intros Hw1 Hw2. pose proof (proj1 (claim_in_reply uid w1 k)) as Hr1.
  set (k1 := claim_step _ _) in *. pose proof (proj1 (claim_in_reply uid w2 (claim_history evs k1))) as Hr2.
  rewrite Hw1 in Hr1. rewrite Hw2 in Hr2. destruct Hr1 as (_ & Hput & _), Hr2 as (Hnone & _ & _).
  assert (e_keys k1 !! claim_key uid =
    Some (mkEtcdKV 1 (schedulerID (w_sched w1)) (leaseID (w_sched w1)))) as Hkv.
  { rewrite Hput. apply lookup_insert_eq. }
  split; [intros Hl|destruct (expires_dec (leaseID (w_sched w1)) evs) as [|Hno]; [done|exfalso]].
  - pose proof (history_keeps uid _ evs k1 Hkv (or_introl Hl)). congruence.
  - pose proof (history_keeps uid _ evs k1 Hkv (or_intror Hno)). congruence.
Qed.

(** C36 A scheduler whose lease has ended starts nothing any more.  The lease of
    the claims is granted once, when the server starts, and nothing keeps it
    alive; etcd refuses a put under a lease that does not exist.  From then on
    no claim of any task is granted to this scheduler, whatever other schedulers
    claim and whatever other leases end; [dispatch] of a task changes nothing but
    etcd, so the task it was given, which has been taken out of the queue, is
    forgotten with its row as it was; and no scheduling cycle, however many are
    run, starts a goroutine or puts a task into the channel of a node. *)
Theorem lost_lease_stops w (fuels : list nat) :
  lease_lost w →
  (∀ uid k evs w', w_etcd w = Some k → w_sched w' = w_sched w →
     (claim_in uid w' (claim_history evs k)).1 ≠ Ok true) ∧
  (∀ l, ∃ k', (dispatch l w).2 = w <| w_etcd := Some k' |>) ∧
  let w' := foldl (λ w fuel, (tick fuel w).2) w fuels in
  w_running w' = w_running w ∧ nodeTasks (w_sched w') = nodeTasks (w_sched w) ∧ lease_lost w'.
Proof.
  intros Hlost. split; [|split].
  - intros uid k evs w' Hk Hs. apply lost_claim. destruct Hlost as (Hl & k' & Hk' & Hno).
    unfold lease_lost. change (w_sched (w' <| w_etcd := _ |>)) with (w_sched w'). rewrite Hs.
    split; [done|]. exists (claim_history evs k). split; [done|].
    intros Hin. apply Hno. apply history_leases in Hin. congruence.
  - intros l. pose proof (lost_claim (TaskUID (deref (w_mem w) l)) w Hlost) as Hr.
    destruct Hlost as (_ & k & Hk & _). unfold dispatch, mbind, M_bind, load, gets. cbn [fst snd].
    destruct (ClaimTask_reply (TaskUID (deref (w_mem w) l)) w k Hk) as (k' & Hw & _). exists k'.
    destruct (ClaimTask _ w) as [r w']. cbn [fst snd] in *. subst w'. by destruct r as [[]|e].
  - assert (∀ w1, starts_nothing w w1 → starts_nothing w (foldl (λ w fuel, (tick fuel w).2) w1 fuels)) as Hall.
    { induction fuels as [|fuel fuels IH]; intros w1 Hw1; [done|]. cbn [foldl]. by apply IH, lost_tick. }
    destruct (Hall w) as (Es & Er & Hl); [by split|]. cbv zeta. by rewrite Es.
Qed.
End claims.

(** A claim is never given back: once the claim key of a task exists, a task
    popped from the queue is dropped by [dispatch] with no effect on objects,
    rows, queue, channels or goroutines.  The retry of a task this scheduler
    has itself claimed is therefore lost while the key lives. *)
Lemma claimed_task_is_dropped {Q K R} `{Host} `{TaskQueue Q} `{EtcdOk K} `{Redis R}
    (w : World Q K R) (k : K) (l : loc) :
  w_etcd w = Some k → is_Some (e_keys k !! claim_key (TaskUID (deref (w_mem w) l))) →
  ∃ k', (dispatch l w).2 = w <| w_etcd := Some k' |> ∧ e_keys k' = e_keys k.
Proof.
  intros Hk Hv. destruct (ClaimTask_reply (TaskUID (deref (w_mem w) l)) w k Hk) as (k' & Hw & _ & Hr).
  exists k'. unfold dispatch, mbind, M_bind, load, gets. cbn [fst snd].
  destruct (ClaimTask _ w) as [r w']. cbn [fst snd] in *. subst w'. destruct Hv as [kv Hkv].
  destruct r as [[]|e]; cbn [claim_reply] in Hr; [destruct Hr as [Hn _]; congruence|by destruct Hr|].
  destruct Hr as [_ [?|[Hn _]]]; [done|congruence].
Qed.

(** Two servers with leases of their own. *)
Definition demo_other : CWorld :=
  demo_running <| w_sched := NewScheduler second 4 8 "other-uuid" 8 |>.

Definition demo_two_leases : SimpleEtcd := mkSimpleEtcd ∅ {[ 7; 8 ]}.

Lemma ClaimTask_exclusive_witness :
  let w1 := start None None None 4 8 in
  let evs := [EvClaim "u" demo_other; EvClaim "v" demo_other; EvExpire 7] in
  (claim_in "u" w1 demo_two_leases).1 = Ok true ∧
  (claim_in "u" demo_other (claim_step demo_two_leases (EvClaim "u" w1))).1 = Ok false ∧
  EvExpire (leaseID (w_sched w1)) ∈ evs.
Proof.
  intros w1 evs. split; [vm_compute; reflexivity|]. split; [vm_compute; reflexivity|].
  destruct (ClaimTask_exclusive "u" w1 w1 demo_other demo_two_leases evs) as (_ & _ & Hex).
  apply Hex; vm_compute; reflexivity.
Defined.

(** A server with a waiting task, after the minute of its lease. *)
Definition demo_expired : CWorld :=
  exec (CreateTask demo_request) (start None (Some (e_expire 7 new_etcd)) None 4 8).

Lemma lost_lease_stops_witness :
  status_of (exec (tick 10) demo_expired) "uuid-0" = Some TaskStatusCreated ∧
  q_ready (w_queue demo_expired) = 1%nat ∧ q_ready (w_queue (exec (tick 10) demo_expired)) = 0%nat ∧
  w_running (exec (tick 10) demo_expired) = [].
Proof.
  assert (lease_lost demo_expired) as Hlost.
  { split; [vm_compute; discriminate|]. exists (e_expire 7 new_etcd). split; [vm_compute; reflexivity|].
    apply (bool_decide_unpack _). vm_compute. exact I. }
  destruct (lost_lease_stops demo_expired [10%nat] Hlost) as (_ & _ & Hrun & _).
  split; [vm_compute; reflexivity|]. split; [vm_compute; reflexivity|].
  split; [vm_compute; reflexivity|]. exact Hrun.
Defined.

Lemma core_etcd (w w' : CWorld) k : w' = w <| w_etcd := k |> → core w' = core w.
Proof. by intros ->. Qed.

(** With etcd, the retry of a failed task is dropped: it is claimed already. *)
Lemma claimed_task_is_dropped_witness :
  let w0 := exec (CreateTask demo_request) (start None (Some new_etcd) None 4 8) in
  let w := exec (execution_done 0 0 broken) (exec (tick 10) w0) in
  status_of w "uuid-0" = Some TaskStatusPending ∧ core (exec (dispatch 0) w) = core w.
Proof.
  intros w0 w. split; [vm_compute; reflexivity|].
  destruct (w_etcd w) as [k|] eqn:Hk; [|vm_compute in Hk; discriminate Hk].
  assert (is_Some (e_keys k !! claim_key (TaskUID (deref (w_mem w) 0)))) as Hv.
  { assert (k = default new_etcd (w_etcd w)) as -> by by rewrite Hk.
    apply (bool_decide_unpack _). vm_compute. exact I. }
  destruct (claimed_task_is_dropped w k 0 Hk Hv) as (k' & Hw & _). exact (core_etcd w _ (Some k') Hw).
Defined.
