(* ===== verification/LogStream.v ===== *)
(** * The log stream ([internal/logstream/logstream.go]) and its HTTP handler

    The lines of a running task go to a Redis stream; a client that follows the
    log is served by [streamTaskLog] of [internal/api/task_handler.go], which
    polls the stream and the task on every tick of a timer.

    The streams of Redis are a type class with the documented behaviour of XADD
    and XREAD.  A connection is served over a sequence of moments: what Redis
    and the server look like when the handler reads the stream and, later, when
    it looks at the task. *)

From stdpp Require Import sorting.
From S2P Require Import Prelude GoStrings GoFormat Model TaskQueue TaskStore NodeStore.
From S2P Require Import NodeManager Runtime Invariant TaskService Scheduler InMemQueue.
From S2P Require Import Concrete SchedulerSpec Api.

(** ** Redis streams *)

(** [redis.XMessage]; the values of a reply are strings. *)
Record XMessage : Type := mkMessage { x_ID : string; x_Values : gmap string string }.

Inductive xread_reply : Type :=
| XBlocked                                (* still waiting for data *)
| XNil                                    (* redis.Nil: the block time is over *)
| XError (err : error)
| XStreams (streams : list (list XMessage)).

Class RedisStreams (S : Type) := {
  x_add (key : string) (maxlen : Z) (values : gmap string string) : S → option error * S;
  x_read (key lastID : string) (count : Z) (block : Duration) : S → xread_reply;
}.

(** A stream is a list of messages with growing ids, all above zero.  XADD
    appends one and keeps the last [maxlen]; XREAD answers the first [count]
    messages above an id, and without any waits for the block time, for ever
    when it is zero. *)
Class RedisStreamsOk (S : Type) `{RedisStreams S} := {
  x_lt : string → string → Prop;
  x_lt_dec a b :: Decision (x_lt a b);
  x_lt_order :: StrictOrder x_lt;
  x_log : string → S → list XMessage;
  x_log_sorted key s : StronglySorted (λ a b, x_lt (x_ID a) (x_ID b)) (x_log key s);
  x_log_zero key s : Forall (λ m, x_lt "0" (x_ID m)) (x_log key s);
  x_add_log key maxlen values s s' :
    x_add key maxlen values s = (None, s') →
    ∃ id, let log := x_log key s ++ [mkMessage id values] in
      x_log key s' = drop (length log - Z.to_nat maxlen) log ∧
      ∀ key', key' ≠ key → x_log key' s' = x_log key' s;
  x_read_reply key lastID count block s :
    0 < count →
    let new := filter (λ m, x_lt lastID (x_ID m)) (x_log key s) in
    x_read key lastID count block s =
      match new with
      | [] => if block =? 0 then XBlocked else XNil
      | _ => XStreams [take (Z.to_nat count) new]
      end ∨
    ∃ err, x_read key lastID count block s = XError err;
}.

(** ** logstream.go *)

Record LogEntry : Type := mkEntry {
  le_ID : string;
  le_TaskUID : string;
  le_Line : string;
  le_Stream : string;
  le_Timestamp : Z;
}.

Definition streamKey (taskUID : string) : string := "tasks:log:" +:+ taskUID.

(** [t.UnixMilli()] *)
Definition unix_milli (t : Time) : Z := t / millisecond.

(** The message Redis keeps for one line. *)
Definition line_values (now : Time) (line stream : string) : gmap string string :=
  {[ "line" := line; "stream" := stream; "timestamp" := Itoa (unix_milli now) ]}.

(** The entry made from one message. *)
Definition entry (taskUID : string) (msg : XMessage) : LogEntry := {|
  le_ID := x_ID msg;
  le_TaskUID := taskUID;
  le_Line := default EmptyString (x_Values msg !! "line");
  le_Stream := default EmptyString (x_Values msg !! "stream");
  le_Timestamp :=
    match x_Values msg !! "timestamp" with
    | Some ts => let '(n, ok) := Atoi ts in if ok then n else 0
    | None => 0
    end |}.

Section logstream.
Context {S : Type} `{RedisStreams S}.

Definition Append (now : Time) (taskUID line stream : string) : S → option error * S :=
  x_add (streamKey taskUID) 10000 (line_values now line stream).

(** For ever on the first read, else one second. *)
Definition read_block (lastID : string) : Duration :=
  if bool_decide (lastID = "0"%string) then 0 else 1000 * millisecond.

(** [None]: the call is still blocked. *)
Definition Read (taskUID lastID : string) (count : Z) (s : S) : option (result (list LogEntry)) :=
  match x_read (streamKey taskUID) lastID count (read_block lastID) s with
  | XBlocked => None
  | XNil => Some (Ok [])
  | XError err => Some (Err err)
  | XStreams [] | XStreams ([] :: _) => Some (Ok [])
  | XStreams (messages :: _) => Some (Ok (entry taskUID <$> messages))
  end.
End logstream.

(** ** streamTaskLog *)

(** What is written to the connection: an entry as JSON, or the event
    [done]. *)
Inductive sse_event : Type :=
| Data (e : LogEntry)
| Done.

Inductive sse_end : Type :=
| Open           (* the handler goes on *)
| Closed         (* it has returned *)
| Panicked.      (* nil pointer: no log stream is configured *)

Section handler.
Context {Q K R S : Type} `{Host} `{TaskQueue Q} `{Etcd K} `{Redis R} `{RedisStreams S}.
Abbreviation W := (World Q K R).
Implicit Types (w : W) (s : S).

(** The first half of a tick: the entries read, what is written, and the new
    [lastID]; [None] when the read fails or is still blocked, and the loop
    continues with the next tick or waits. *)
Definition tick_read (uid lastID : string) s : option (list LogEntry * list sse_event * string) :=
  match Read uid lastID 100 s with
  | None => None
  | Some (Err _) => None
  | Some (Ok entries) => Some (entries, Data <$> entries, default lastID (le_ID <$> last entries))
  end.

(** The second half: has the task ended, and were there no entries? *)
Definition tick_check (uid : string) (entries : list LogEntry) : M W bool :=
  r ← GetTask uid;
  match r with
  | Err _ => mret false
  | Ok l =>
      task ← load l;
      mret (IsTerminal (Status task) && (length entries =? 0)%nat)
  end.

(** The loop over the ticks, until the handler returns or the client has gone.
    The stream and the task are looked at one after the other: a read that
    answers happens at one moment, the check of its tick at the next one. *)
Fixpoint stream_loop (uid lastID : string) (moments : list (S * W)) : list sse_event * sse_end :=
  match moments with
  | [] => ([], Open)
  | (s, _) :: moments =>
      match tick_read uid lastID s with
      | None => stream_loop uid lastID moments
      | Some (entries, events, lastID) =>
          match moments with
          | [] => (events, Open)
          | (_, w) :: moments =>
              if (tick_check uid entries w).1 then (events ++ [Done], Closed)
              else
                let '(rest, e) := stream_loop uid lastID moments in
                (events ++ rest, e)
          end
      end
  end.

(** [flusher]: the writer is an [http.Flusher]; [configured]: the log stream is
    not nil. *)
Definition streamTaskLog (flusher configured : bool) (uid : string) (w0 : W)
    (moments : list (S * W)) : response + (list sse_event * sse_end) :=
  match (GetTask uid w0).1 with
  | Err e => inl (task_error e)
  | Ok _ =>
      if negb flusher then
        inl (respond StatusInternalServerError (ErrorBody "streaming not supported"))
      else
        match configured, moments with
        | false, _ :: _ => inr ([], Panicked)
        | _, _ => inr (stream_loop uid "0" moments)
        end
  end.
End handler.

(** ** Facts *)

Lemma entry_ID uid m : le_ID (entry uid m) = x_ID m.
Proof. done. Qed.

Section facts.
Context {S : Type} `{RedisStreamsOk S}.

(** The messages after the first [n]. *)
Definition id_at (n : nat) (log : list XMessage) : string :=
  match n with
  | O => "0"
  | Datatypes.S n => default "0"%string (x_ID <$> log !! n)
  end.

Lemma sorted_drop log n :
  StronglySorted (λ a b, x_lt (x_ID a) (x_ID b)) log → Forall (λ m, x_lt "0" (x_ID m)) log →
  (n ≤ length log)%nat → filter (λ m, x_lt (id_at n log) (x_ID m)) log = drop n log.
Proof.
  intros Hs Hz Hn. destruct n as [|n]; cbn [id_at].
  - rewrite drop_0. clear Hs Hn. induction Hz as [|m log Hm Hz IH]; [done|].
    rewrite filter_cons_True by done. by rewrite IH.
  - clear Hz. revert n Hn. induction Hs as [|m log Hs IH Hm]; intros n Hn; cbn in Hn; [lia|].
    destruct n as [|n]; cbn [lookup list_lookup fmap option_fmap option_map default drop].
    + rewrite filter_cons_False by (apply irreflexivity, _). unfold id, from_option.
      rewrite drop_0. clear -Hm. induction Hm as [|m' log Hm' Hm IH]; [done|].
      rewrite filter_cons_True by done. by rewrite IH.
    + rewrite filter_cons_False; [by rewrite IH by lia|].
      destruct (log !! n) as [m'|] eqn:Hl; [|apply lookup_ge_None_1 in Hl; lia]. cbn.
      unfold id, from_option. rewrite Forall_forall in Hm. specialize (Hm m' (list_elem_of_lookup_2 _ _ _ Hl)).
      intros Hlt. eapply (irreflexivity x_lt). by etrans.
Qed.

(** The elements from position [n] up to position [m]. *)
Definition slice {A} (n m : nat) (l : list A) : list A := take (m - n) (drop n l).

Lemma slice_nil {A} n (l : list A) : slice n n l = [].
Proof. unfold slice. by rewrite Nat.sub_diag. Qed.

Lemma slice_app {A} n m k (l : list A) :
  (n ≤ m ≤ k)%nat → slice n m l ++ slice m k l = slice n k l.
Proof.
  intros Hnm. unfold slice. replace (drop m l) with (drop (m - n) (drop n l))
    by (rewrite drop_drop; f_equal; lia).
  generalize (drop n l). intros l'. replace (k - n)%nat with ((m - n) + (k - m))%nat by lia.
  rewrite <- (take_drop (m - n) (take (m - n + (k - m)) l')).
  rewrite take_take, skipn_firstn_comm. do 2 f_equal; lia.
Qed.

Lemma slice_prefix {A} n m (l l' : list A) :
  (m ≤ length l)%nat → l `prefix_of` l' → slice n m l' = slice n m l.
Proof.
  intros Hm [k ->]. unfold slice. destruct (decide (n ≤ m)%nat).
  - rewrite drop_app_le by lia. rewrite take_app_le; [done|]. rewrite length_drop. lia.
  - by replace (m - n)%nat with 0%nat by lia.
Qed.

Lemma take_slice {A} m n (l : list A) : take m (drop n l) = slice n (n + length (take m (drop n l))) l.
Proof.
  unfold slice. replace (n + _ - n)%nat with (length (take m (drop n l))) by lia.
  rewrite length_take. by rewrite <- take_take, (take_ge (drop n l) (length _)).
Qed.

(** What a read answers to a client that has seen the first [n] messages. *)
Lemma Read_after uid n s :
  let log := x_log (streamKey uid) s in
  (n ≤ length log)%nat →
  (Read uid (id_at n log) 100 s =
     if decide (n < length log)%nat then Some (Ok (entry uid <$> take 100 (drop n log)))
     else if bool_decide (id_at n log = "0"%string) then None else Some (Ok [])) ∨
  ∃ err, Read uid (id_at n log) 100 s = Some (Err err).
Proof.
  intros log Hn. unfold Read.
  destruct (x_read_reply (streamKey uid) (id_at n log) 100
              (read_block (id_at n log)) s)
    as [Hr|[err Hr]]; [done| |right; exists err; by rewrite Hr].
  left. rewrite Hr. fold log. rewrite sorted_drop; [|apply x_log_sorted|apply x_log_zero|done].
  destruct (drop n log) as [|m rest] eqn:Hd.
  - rewrite decide_False; [unfold read_block; by case_bool_decide|].
    assert (length (drop n log) = 0%nat) as Hl by by rewrite Hd. rewrite length_drop in Hl. lia.
  - rewrite decide_True; [done|].
    assert (length (drop n log) = Datatypes.S (length rest)) as Hl by by rewrite Hd.
    rewrite length_drop in Hl. lia.
Qed.

Lemma id_at_prefix n log log' :
  (n ≤ length log)%nat → log `prefix_of` log' → id_at n log' = id_at n log.
Proof.
  intros Hn [k ->]. destruct n as [|n]; [done|]. cbn. by rewrite lookup_app_l by lia.
Qed.

Lemma last_id uid n log :
  (n < length log)%nat →
  default (id_at n log) (le_ID <$> last (entry uid <$> take 100 (drop n log))) =
    id_at (n + length (take 100 (drop n log))) log.
Proof.
  intros Hn. set (k := length (take 100 (drop n log))).
  assert (k = Nat.min 100 (length log - n)) as Hk by (unfold k; by rewrite length_take, length_drop).
  rewrite last_lookup, length_fmap. fold k. rewrite list_lookup_fmap, lookup_take, decide_True by lia.
  rewrite lookup_drop. replace (n + k)%nat with (Datatypes.S (n + pred k)) by lia. cbn [id_at].
  destruct (lookup_lt_is_Some_2 log (n + pred k)) as [m Hm]; [lia|]. by rewrite Hm.
Qed.
End facts.

Section serve.
Context {Q K R S : Type} `{Host} `{TaskQueue Q} `{Etcd K} `{Redis R} `{RedisStreamsOk S}.
Abbreviation W := (World Q K R).
Implicit Types (w : W) (s : S) (n : nat).

Abbreviation log_of uid s := (x_log (streamKey uid) s).

(** The task is in a terminal status when the server is asked for it. *)
Definition ended (uid : string) w : Prop :=
  ∃ l, (GetTask uid w).1 = Ok l ∧ IsTerminal (Status (deref (w_mem (GetTask uid w).2) l)) = true.

Lemma id_at_zero n uid s :
  (n ≤ length (log_of uid s))%nat → id_at n (log_of uid s) = "0"%string ↔ n = 0%nat.
Proof.
  intros Hn. destruct n as [|n]; [done|]. split; [|done]. cbn [id_at].
  destruct (lookup_lt_is_Some_2 (log_of uid s) n) as [m Hm]; [lia|]. rewrite Hm. cbn.
  unfold id, from_option. intros Hz. pose proof (x_log_zero (streamKey uid) s) as Hall.
  rewrite Forall_forall in Hall. specialize (Hall m (list_elem_of_lookup_2 _ _ _ Hm)).
  rewrite Hz in Hall. by apply irreflexivity in Hall; [|apply _].
Qed.

(** A read by a client that has seen the first [n] messages. *)
Lemma tick_read_more uid n s :
  let log := log_of uid s in
  (n < length log)%nat →
  let m := (n + Nat.min 100 (length log - n))%nat in
  let new := entry uid <$> slice n m log in
  tick_read uid (id_at n log) s = Some (new, Data <$> new, id_at m log) ∨
  tick_read uid (id_at n log) s = None ∧ ∃ err, Read uid (id_at n log) 100 s = Some (Err err).
Proof.
  intros log Hn m new. unfold tick_read.
  pose proof (Read_after uid n s) as Hread. fold log in Hread.
  destruct Hread as [Hr|[err Hr]]; [lia| |rewrite Hr; right; eauto].
  rewrite Hr, decide_True by done. left. rewrite last_id by done.
  rewrite length_take, length_drop. fold m. subst new. rewrite (take_slice 100 n log).
  by rewrite length_take, length_drop.
Qed.

Lemma tick_read_none uid s :
  let log := log_of uid s in
  tick_read uid (id_at (length log) log) s = Some ([], [], id_at (length log) log) ∧ log ≠ [] ∨
  tick_read uid (id_at (length log) log) s = None ∧
    (log = [] ∨ ∃ err, Read uid (id_at (length log) log) 100 s = Some (Err err)).
Proof.
  intros log. unfold tick_read.
  pose proof (Read_after uid (length log) s) as Hread. fold log in Hread.
  destruct Hread as [Hr|[err Hr]]; [done|rewrite Hr|rewrite Hr; right; eauto].
  rewrite decide_False by lia. case_bool_decide as Hz.
  - right. split; [done|left]. apply id_at_zero in Hz; [|done]. by apply length_zero_iff_nil in Hz.
  - left. split; [done|]. intros Hl. apply Hz. by rewrite Hl.
Qed.

Lemma tick_check_spec uid entries w :
  (tick_check uid entries w).1 = true ↔ entries = [] ∧ ended uid w.
Proof.
  unfold tick_check, ended, mbind, M_bind, load, gets.
  destruct (GetTask uid w) as [[l|e] w']; cbn.
  - rewrite andb_true_iff, Nat.eqb_eq, length_zero_iff_nil. split.
    + intros [Ht ->]. split; [done|]. by exists l.
    + intros [-> (l' & [= <-] & Ht)]. done.
  - split; [done|]. intros [_ (l & ? & _)]. done.
Qed.

(** A tick of a client that has seen the whole stream. *)
Lemma tick_finishes uid s w s' w' moments :
  let log := log_of uid s in
  log ≠ [] → (∀ lastID err, Read uid lastID 100 s ≠ Some (Err err)) → ended uid w' →
  stream_loop uid (id_at (length log) log) ((s, w) :: (s', w') :: moments) = ([Done], Closed).
Proof.
  intros log Hlog Hok Hend. cbn [stream_loop].
  destruct (tick_read_none uid s) as [[Ht _]|[_ [?|[err Herr]]]]; [|done|by destruct (Hok _ _ Herr)].
  fold log in Ht.
  rewrite Ht. assert ((tick_check uid [] w').1 = true) as -> by by apply tick_check_spec. done.
Qed.

(** The stream only grows while the connection is served. *)
Fixpoint growing (uid : string) (log : list XMessage) (moments : list (S * W)) : Prop :=
  match moments with
  | [] => True
  | (s, _) :: moments => log `prefix_of` log_of uid s ∧ growing uid (log_of uid s) moments
  end.

Definition final_log (uid : string) (log : list XMessage) (moments : list (S * W)) : list XMessage :=
  default log ((λ sw, log_of uid sw.1) <$> last moments).

Lemma final_log_cons uid log s w moments :
  final_log uid log ((s, w) :: moments) = final_log uid (log_of uid s) moments.
Proof.
  unfold final_log. destruct moments as [|sw moments]; [done|]. rewrite last_cons_cons.
  by destruct (last (sw :: moments)) eqn:Hl; [|apply last_None in Hl].
Qed.

Lemma growing_final uid log moments :
  growing uid log moments → log `prefix_of` final_log uid log moments.
Proof.
  revert log. induction moments as [|[s w] moments IH]; intros log; [done|].
  intros [Hp Hg]. rewrite final_log_cons. etrans; [exact Hp|]. by apply IH.
Qed.

Definition end_mark (e : sse_end) : list sse_event := match e with Closed => [Done] | _ => [] end.

(** The moments of the last tick: the stream had [m] messages when it was read,
    and at the next moment the task had ended. *)
Definition closing (uid : string) (m : nat) (moments : list (S * W)) : Prop :=
  ∃ i s w s' w', moments !! i = Some (s, w) ∧ moments !! Datatypes.S i = Some (s', w') ∧
    m = length (log_of uid s) ∧ ended uid w'.

Lemma closing_cons uid m sw moments : closing uid m moments → closing uid m (sw :: moments).
Proof. intros (i & Hi). by exists (Datatypes.S i). Qed.

(** What is sent is the part of the log from [n] on. *)
Definition sends uid n (fin : list XMessage) moments (out : list sse_event * sse_end) : Prop :=
  ∃ m, (n ≤ m ≤ length fin)%nat ∧
    out.1 = (Data <$> (entry uid <$> slice n m fin)) ++ end_mark out.2 ∧
    (out.2 = Closed → closing uid m moments).

Lemma sends_cons uid n fin sw moments out :
  sends uid n fin moments out → sends uid n fin (sw :: moments) out.
Proof. intros (m & Hm & Hev & Hc). exists m. split; [done|]. split; [done|]. intros He. by apply closing_cons, Hc. Qed.

Lemma sends_app uid n m fin moments events out :
  (n ≤ m)%nat → events = Data <$> (entry uid <$> slice n m fin) → sends uid m fin moments out →
  sends uid n fin moments (events ++ out.1, out.2).
Proof.
  intros Hnm -> (m' & Hm' & Hev & Hc). exists m'. split; [lia|]. split; [|exact Hc]. cbn.
  rewrite Hev, app_assoc, <- !fmap_app. do 3 f_equal. apply slice_app. lia.
Qed.

Lemma sends_nothing uid n fin moments : (n ≤ length fin)%nat → sends uid n fin moments ([], Open).
Proof. intros Hn. exists n. rewrite slice_nil. by split_and!. Qed.

Lemma growing_weaken uid log log' moments :
  log `prefix_of` log' → growing uid log' moments → growing uid log moments.
Proof.
  destruct moments as [|[s w] moments]; [done|]. intros Hp [Hp' Hg]. split; [by etrans|done].
Qed.

Lemma stream_loop_order uid k moments n log :
  (length moments ≤ k)%nat → growing uid log moments → (n ≤ length log)%nat →
  sends uid n (final_log uid log moments) moments (stream_loop uid (id_at n log) moments).
Proof.
  revert moments n log. induction k as [|k IH]; intros moments n log Hk Hg Hn.
  { destruct moments; [by apply sends_nothing|cbn in Hk; lia]. }
  destruct moments as [|[s w] moments]; [by apply sends_nothing|]. cbn [stream_loop]. cbn in Hk.
  destruct Hg as [Hp Hg]. rewrite final_log_cons. pose proof (growing_final _ _ _ Hg) as Hfin.
  pose proof (prefix_length _ _ Hp) as Hlen. pose proof (prefix_length _ _ Hfin) as Hlen'.
  rewrite <- (id_at_prefix n log (log_of uid s)) by done.
  set (log' := log_of uid s) in *. set (fin := final_log uid log' moments) in *.
  assert (sends uid n fin ((s, w) :: moments) (stream_loop uid (id_at n log') moments)) as Hskip
    by (apply sends_cons, IH; [lia|done|lia]).
  assert (∀ m new, (n ≤ m ≤ length log')%nat → new = (entry uid <$> slice n m log') →
    tick_read uid (id_at n log') s = Some (new, Data <$> new, id_at m log') → (new = [] → m = length log') →
    sends uid n fin ((s, w) :: moments) (stream_loop uid (id_at n log') ((s, w) :: moments))) as Hread.
  { intros m new Hm Hnew Ht Hall. cbn [stream_loop]. rewrite Ht.
    rewrite <- (slice_prefix n m log' fin) in Hnew by (done || lia).
    destruct moments as [|[s' w'] moments].
    { exists m. cbn. rewrite app_nil_r, Hnew. split_and!; [lia..|done|done]. }
    destruct (tick_check uid new w').1 eqn:Hc.
    - apply tick_check_spec in Hc as [Hnil Hend]. exists m. cbn. rewrite <- Hnew.
      split_and!; [lia..|done|]. intros _. exists 0%nat, s, w, s', w'. split_and!; [done..|by apply Hall|done].
    - destruct Hg as [Hp' Hg']. rewrite <- (id_at_prefix m log' (log_of uid s')) by (done || lia).
      pose proof (prefix_length _ _ Hp'). cbn in Hk. specialize (IH moments m (log_of uid s') ltac:(lia) Hg' ltac:(lia)).
      subst fin. rewrite final_log_cons in *.
      destruct (stream_loop uid (id_at m (log_of uid s')) moments) as [rest e].
      by apply (sends_app _ _ m _ _ _ (rest, e)); [lia|rewrite Hnew|apply sends_cons, sends_cons]. }
  destruct (decide (n < length log')%nat) as [Hlt|Hge].
  - destruct (tick_read_more uid n s Hlt) as [Ht|[Ht _]]; fold log' in Ht; [|by rewrite Ht].
    eapply Hread; [|reflexivity|exact Ht|]; [lia|]. intros Hnil%fmap_nil_inv.
    apply (f_equal length) in Hnil. unfold slice in Hnil. rewrite length_take, length_drop in Hnil.
    cbn [length] in Hnil. lia.
  - assert (n = length log') as -> by lia.
    destruct (tick_read_none uid s) as [[Ht _]|[Ht _]]; fold log' in Ht; [|by rewrite Ht].
    by eapply (Hread (length log') []); [lia|rewrite slice_nil|exact Ht|].
Qed.

(** A log that stays as it is, read without errors: what is left of it is
    delivered in chunks of a hundred, and then the handler returns. *)
Lemma stream_loop_drains uid s w n m :
  let log := log_of uid s in
  log ≠ [] → ended uid w → (∀ lastID err, Read uid lastID 100 s ≠ Some (Err err)) →
  (n ≤ length log)%nat → (length log - n < 100 * m)%nat →
  stream_loop uid (id_at n log) (replicate (2 * Datatypes.S m) (s, w)) =
    ((Data <$> (entry uid <$> drop n log)) ++ [Done], Closed).
Proof.
  intros log Hlog Hend Hok. revert n. induction m as [|m IH]; intros n Hn Hm; [lia|].
  replace (2 * Datatypes.S (Datatypes.S m))%nat with (2 + 2 * Datatypes.S m)%nat by lia.
  rewrite replicate_add. change (replicate 2 (s, w) ++ ?l) with ((s, w) :: (s, w) :: l).
  destruct (decide (n < length log)%nat) as [Hlt|Hge].
  - cbn [stream_loop]. destruct (tick_read_more uid n s Hlt) as [Ht|[_ [err Herr]]]; [|by destruct (Hok _ _ Herr)].
    fold log in Ht. rewrite Ht. set (m' := (n + Nat.min 100 (length log - n))%nat).
    assert (length (entry uid <$> slice n m' log) ≠ 0)%nat as Hl.
    { rewrite length_fmap. unfold slice. rewrite length_take, length_drop. lia. }
    destruct (tick_check uid _ w).1 eqn:Hc; [apply tick_check_spec in Hc as [Hnil _]; by rewrite Hnil in Hl|].
    assert (slice n m' log ++ drop m' log = drop n log) as Hsplit.
    { unfold slice. rewrite <- (take_drop (m' - n) (drop n log)) at 2. rewrite drop_drop.
      do 3 f_equal. lia. }
    assert (stream_loop uid (id_at m' log) (replicate (2 * Datatypes.S m) (s, w)) =
      ((Data <$> (entry uid <$> drop m' log)) ++ [Done], Closed)) as ->.
    { destruct m as [|m]; [|apply IH; lia]. assert (m' = length log) as -> by lia.
      rewrite drop_all. by apply tick_finishes. }
    by rewrite app_assoc, <- !fmap_app, Hsplit.
  - assert (n = length log) as -> by lia. rewrite drop_all. by apply tick_finishes.
Qed.

(** C13 Following a log.  While the stream only grows, whatever errors the reads
    meet and however the task changes between the moments, the client receives a
    prefix of the log: every line once and in order.  When the connection is
    closed, with the event [done], the last read saw exactly the lines sent and
    at the next moment the task had ended.  That is not the whole log: the
    handler reads the stream before it looks at the task, so for a client that
    has seen what the stream holds at the read, [done] is sent whatever has been
    appended ([s']) before the check finds the task ended, and those lines are
    never sent. *)
Theorem stream_in_order uid (moments : list (S * W)) :
  (growing uid [] moments →
   let '(events, e) := stream_loop uid "0" moments in
   ∃ m, events = (Data <$> (entry uid <$> take m (final_log uid [] moments))) ++ end_mark e ∧
     (e = Closed → ∃ i s w s' w', moments !! i = Some (s, w) ∧ moments !! Datatypes.S i = Some (s', w') ∧
        m = length (log_of uid s) ∧ ended uid w')) ∧
  (∀ s w s' w' after, log_of uid s ≠ [] → log_of uid s `prefix_of` log_of uid s' →
     (∀ lastID err, Read uid lastID 100 s ≠ Some (Err err)) → ended uid w' →
     stream_loop uid (id_at (length (log_of uid s)) (log_of uid s)) ((s, w) :: (s', w') :: after) =
       ([Done], Closed)).
Proof.
  split; [|by intros; apply tick_finishes].
  intros Hg. destruct (stream_loop_order uid _ moments 0 [] (Nat.le_refl _) Hg (Nat.le_0_l _)) as (m & _ & Hev & Hend).
  change (id_at 0 []) with "0"%string in *.
  destruct (stream_loop uid "0" moments) as [events e]. exists m. cbn [fst snd] in *.
  unfold slice in Hev. rewrite drop_0, Nat.sub_0_r in Hev. by split.
Qed.

(** C17 The log of a task that has ended is delivered completely in finitely many
    ticks and the connection is then closed, if the log has a line: of [n] lines
    in at most [n / 100 + 2] ticks of two moments each.  But a task without
    output is never closed: the first read waits for ever for a line, so the
    handler does not even look at the status of the task. *)
Theorem stream_ends uid (s : S) (w : W) (moments : list (S * W)) (m : nat) :
  let log := log_of uid s in
  (log ≠ [] → ended uid w → (∀ lastID err, Read uid lastID 100 s ≠ Some (Err err)) →
   (length log / 100 + 2 ≤ m)%nat →
   stream_loop uid "0" (replicate (2 * m) (s, w)) = ((Data <$> (entry uid <$> log)) ++ [Done], Closed)) ∧
  (Forall (λ sw, log_of uid sw.1 = []) moments → stream_loop uid "0" moments = ([], Open)).
Proof.
  intros log. split.
  - intros Hlog Hend Hok Hm. destruct m as [|m]; [lia|].
    pose proof (stream_loop_drains uid s w 0 m Hlog Hend Hok (Nat.le_0_l _)) as Hd. fold log in Hd.
    rewrite drop_0 in Hd. apply Hd. pose proof (Nat.div_mod_eq (length log) 100).
    pose proof (Nat.mod_upper_bound (length log) 100). lia.
  - intros Hempty. induction Hempty as [|[s' w'] moments Hs Hempty IH]; [done|]. cbn [stream_loop].
    cbn in Hs. destruct (tick_read_none uid s') as [[_ Hne]|[Ht _]]; [done|].
    rewrite Hs in Ht. cbn [length id_at] in Ht. by rewrite Ht.
Qed.

(** A line written is a line read: a client that has seen the whole stream
    reads, after a line has been appended, exactly this line with its stream
    name and its time in milliseconds, unless the read fails. *)
Lemma append_read uid now line stream (s s' : S) :
  let log := log_of uid s in
  Append now uid line stream s = (None, s') → Z.of_nat (length log) < 10000 → in_i64 (unix_milli now) →
  (∃ id, Read uid (id_at (length log) log) 100 s' =
     Some (Ok [mkEntry id uid line stream (unix_milli now)])) ∨
  ∃ err, Read uid (id_at (length log) log) 100 s' = Some (Err err).
Proof.
  intros log Happ Hlen Hms. apply x_add_log in Happ as (id & Hlog & _). fold log in Hlog.
  assert (log_of uid s' = log ++ [mkMessage id (line_values now line stream)]) as Hlog'.
  { rewrite Hlog. rewrite length_app. replace (_ - _)%nat with 0%nat; [done|].
    cbn [length]. lia. }
  assert (id_at (length log) (log_of uid s') = id_at (length log) log) as Hid.
  { apply id_at_prefix; [done|]. rewrite Hlog'. by eexists. }
  rewrite <- Hid. pose proof (Read_after uid (length log) s') as Hread.
  destruct Hread as [Hr|[err Hr]]; [rewrite Hlog', length_app; lia| |right; eauto].
  left. exists id. rewrite Hr, decide_True by (rewrite Hlog', length_app; cbn; lia).
  rewrite Hlog', drop_app_length. cbn [take fmap list_fmap]. unfold entry. cbn [x_Values x_ID].
  assert (line_values now line stream !! "line"%string = Some line) as -> by done.
  assert (line_values now line stream !! "stream"%string = Some stream) as -> by done.
  assert (line_values now line stream !! "timestamp"%string = Some (Itoa (unix_milli now))) as -> by done.
  by rewrite Atoi_Itoa.
Qed.
End serve.

(** ** A concrete Redis and witnesses *)

(** Streams whose ids are numerals in unary, with the number of messages
    trimmed so far. *)
Abbreviation SimpleStreams := (gmap string (nat * list (gmap string string))).

Fixpoint numeral (n : nat) : string :=
  match n with O => "00" | Datatypes.S n => "0" +:+ numeral n end.

Fixpoint number (n : nat) (vs : list (gmap string string)) : list XMessage :=
  match vs with
  | [] => []
  | v :: vs => mkMessage (numeral n) v :: number (Datatypes.S n) vs
  end.

Definition simple_log (key : string) (s : SimpleStreams) : list XMessage :=
  let '(n, vs) := default (0%nat, []) (s !! key) in number n vs.

Definition shorter (a b : string) : Prop := (String.length a < String.length b)%nat.

#[export] Instance shorter_dec a b : Decision (shorter a b) := lt_dec _ _.

#[export] Instance simple_streams : RedisStreams SimpleStreams := {|
  x_add key maxlen v s :=
    let '(n, vs) := default (0%nat, []) (s !! key) in
    let vs := vs ++ [v] in
    let d := (length vs - Z.to_nat maxlen)%nat in
    (None, <[key := ((n + d)%nat, drop d vs)]> s);
  x_read key lastID count block s :=
    match filter (λ m, shorter lastID (x_ID m)) (simple_log key s) with
    | [] => if block =? 0 then XBlocked else XNil
    | new => XStreams [take (Z.to_nat count) new]
    end |}.

Lemma length_numeral n : String.length (numeral n) = (2 + n)%nat.
Proof.
  induction n as [|n IH]; [done|].
  change (Datatypes.S (String.length (numeral n)) = (2 + Datatypes.S n)%nat). lia.
Qed.

Lemma number_above n vs : Forall (λ m, (2 + n ≤ String.length (x_ID m))%nat) (number n vs).
Proof.
  revert n. induction vs as [|v vs IH]; intros n; constructor.
  - cbn [x_ID]. by rewrite length_numeral.
  - eapply Forall_impl; [apply IH|]. cbn. lia.
Qed.

Lemma length_number n vs : length (number n vs) = length vs.
Proof. revert n. induction vs as [|v vs IH]; intros n; [done|]. cbn. by rewrite IH. Qed.

Lemma number_snoc n vs v : number n (vs ++ [v]) = number n vs ++ [mkMessage (numeral (n + length vs)) v].
Proof.
  revert n. induction vs as [|v' vs IH]; intros n; cbn; [by rewrite Nat.add_0_r|].
  rewrite IH. do 5 f_equal. lia.
Qed.

Lemma number_drop d n vs : number (n + d) (drop d vs) = drop d (number n vs).
Proof.
  revert n vs. induction d as [|d IH]; intros n vs; [by rewrite Nat.add_0_r, !drop_0|].
  destruct vs as [|v vs]; [done|]. cbn. rewrite <- IH. f_equal. lia.
Qed.

#[export] Program Instance simple_streams_ok : RedisStreamsOk SimpleStreams := {|
  x_lt := shorter; x_log := simple_log |}.
Next Obligation.
  split; [intros a; unfold complement, shorter; lia|intros a b c; unfold shorter; lia].
Qed.
Next Obligation.
  intros key s. unfold simple_log. destruct (default _ _) as [n vs].
  revert n. induction vs as [|v vs IH]; intros n; constructor; [done|].
  eapply Forall_impl; [apply number_above|]. intros m. unfold shorter. cbn [x_ID].
  rewrite length_numeral. lia.
Qed.
Next Obligation.
  intros key s. unfold simple_log. destruct (default _ _) as [n vs].
  eapply Forall_impl; [apply number_above|]. intros m. unfold shorter. cbn. lia.
Qed.
Next Obligation.
  intros key maxlen v s s'. cbn. unfold simple_log. destruct (default _ (s !! key)) as [n vs].
  intros [= <-]. exists (numeral (n + length vs)). split.
  - rewrite lookup_insert_eq. cbn [default from_option]. unfold id. rewrite number_drop, number_snoc.
    by rewrite !length_app, length_number.
  - intros key' Hne. by rewrite lookup_insert_ne.
Qed.
Next Obligation.
  intros key lastID count block s _. left. cbn. by destruct (filter _ _).
Qed.

#[export] Instance XMessage_eq_dec : EqDecision XMessage.
Proof. solve_decision. Defined.

(** Two lines of the demo task, and the server after it has succeeded. *)
Definition demo_streams : SimpleStreams :=
  (Append (2 * second) "uuid-0" "world" "stdout" (Append second "uuid-0" "hello" "stdout" ∅).2).2.

Definition demo_finished : CWorld := exec (execution_done 0 0 succeeded) demo_running.

Lemma prefix_self (l : list XMessage) : l `prefix_of` l.
Proof. done. Qed.

(** A line that is appended when the client has read the others, and just
    before the task ends. *)
Definition demo_late : SimpleStreams := (Append (3 * second) "uuid-0" "late" "stdout" demo_streams).2.

Definition demo_moments : list (SimpleStreams * CWorld) :=
  [(∅, demo_running); (demo_streams, demo_running); (demo_streams, demo_running);
   (demo_streams, demo_running); (demo_late, demo_finished)].

Lemma demo_finished_ended : ended "uuid-0" demo_finished.
Proof. exists 1%nat. by vm_compute. Qed.

Lemma demo_streams_readable lastID err : Read "uuid-0" lastID 100 demo_streams ≠ Some (Err err).
Proof.
  unfold Read. cbn [x_read simple_streams]. destruct (filter _ _) as [|m ms]; [by destruct (_ =? 0)|done].
Qed.

Lemma stream_in_order_witness :
  stream_loop "uuid-0" "0" demo_moments =
    ([Data (mkEntry "00" "uuid-0" "hello" "stdout" 1000);
      Data (mkEntry "000" "uuid-0" "world" "stdout" 2000); Done], Closed) ∧
  length (final_log "uuid-0" [] demo_moments) = 3%nat ∧
  (∃ w : CWorld, ended "uuid-0" w) ∧
  stream_loop "uuid-0" "000" [(demo_streams, demo_running); (demo_late, demo_finished)] = ([Done], Closed).
Proof.
  assert (stream_loop "uuid-0" "0" demo_moments =
    ([Data (mkEntry "00" "uuid-0" "hello" "stdout" 1000);
      Data (mkEntry "000" "uuid-0" "world" "stdout" 2000); Done], Closed)) as Hrun
    by (vm_compute; reflexivity).
  split; [exact Hrun|]. split; [vm_compute; reflexivity|].
  destruct (stream_in_order "uuid-0" demo_moments) as [Hord Hlost].
  rewrite Hrun in Hord. split.
  - destruct Hord as (m & _ & Hend).
    + refine (conj (prefix_nil _) (conj (prefix_nil _) (conj (prefix_self _) (conj (prefix_self _) (conj _ I))))).
      apply (bool_decide_unpack _). vm_compute. exact I.
    + destruct (Hend eq_refl) as (i & s & w & s' & w' & _ & _ & _ & He). by exists w'.
  - apply (Hlost demo_streams demo_running demo_late demo_finished []).
    + discriminate.
    + apply (bool_decide_unpack _). vm_compute. exact I.
    + apply demo_streams_readable.
    + apply demo_finished_ended.
Defined.

Lemma stream_ends_witness :
  (stream_loop "uuid-0" "0" (replicate (2 * 2) (demo_streams, demo_finished))).2 = Closed ∧
  stream_loop "uuid-0" "0" (replicate 7 (∅ : SimpleStreams, demo_finished)) = ([], Open).
Proof.
  destruct (stream_ends "uuid-0" demo_streams demo_finished
              (replicate 7 (∅ : SimpleStreams, demo_finished)) 2) as [H1 H2]. split.
  - rewrite H1; [done|done|apply demo_finished_ended|apply demo_streams_readable|by vm_compute; lia].
  - apply H2. by repeat constructor.
Defined.

Lemma append_read_witness :
  ∃ id, Read "uuid-0" "0" 100 (Append second "uuid-0" "hello" "stdout" (∅ : SimpleStreams)).2 =
    Some (Ok [mkEntry id "uuid-0" "hello" "stdout" 1000]).
Proof.
  destruct (append_read "uuid-0" second "hello" "stdout" ∅
    (Append second "uuid-0" "hello" "stdout" (∅ : SimpleStreams)).2) as [[id Hid]|[err Herr]];
    [done|done|done|by exists id|].
  exists "00"%string. reflexivity.
Defined.
