(* ===== verification/Routes.v ===== *)
(** * The routes of the HTTP API ([internal/api/router.go])

    What [RegisterRoutes] binds to each method and path, and what a client
    learns and causes through each route: the answer as a function of the
    tables, the queue and the node manager, and the change of the server. *)

From stdpp Require Import sorting.
From S2P Require Import Prelude GoStrings GoFormat Float64 Model TaskQueue InMemQueue.
From S2P Require Import TaskStore NodeStore NodeManager Runtime Invariant TaskService Scheduler.
From S2P Require Import TaskServiceSpec Concrete SchedulerSpec Api LogStream.


(** A JSON response, or what is written to an event stream and how it ends; a
    handler of a service that is nil panics. *)
Abbreviation answer := (response + (list sse_event * sse_end))%type.

Section routes.
Context {Q K R S : Type} `{Host} `{TaskQueue Q} `{Etcd K} `{Redis R} `{RedisStreams S}.
Abbreviation W := (World Q K R).
Implicit Types (w : W).

(** The services given to [RegisterRoutes]: the provider of resources, the
    HGETALL of Redis, whether there is a log stream.  The node service is the
    node manager of the server, [fault] and [n] the errors of its statements
    and its clock.  [flusher] and [moments] belong to the connection of an
    event stream. *)
Context (rp : option Scheduler) (hgetall : option (string → gmap string string)) (configured : bool).
Context (fault : nat → option error) (n : Time) (flusher : bool) (moments : list (S * W)).




(** ** What a route has to answer *)











End routes.

(** ** Proofs, route by route *)

Section answers.
Context {Q K R S : Type} `{HostOk} `{TaskQueue Q} `{Etcd K} `{Redis R} `{RedisStreams S}.
Abbreviation W := (World Q K R).
Implicit Types (w : W).








(** *** Lists *)





(** *** Creation and cancellation *)


(** *** Nodes *)



(** *** Statistics *)




(** *** All of them *)



End answers.


