(* ===== verification/GrpcServer.v ===== *)
(** * The gRPC service of the agents ([internal/grpcserver/server.go])

    The messages and the handlers an agent calls: pulling a task and reporting
    its result; the handlers that only delegate to the node manager
    ([Register], [Heartbeat]) or are placeholders are kept too. *)

From S2P Require Import Prelude GoStrings Float64 Model TaskQueue InMemQueue TaskStore.
From S2P Require Import NodeStore NodeManager Runtime Invariant TaskService Scheduler.
From S2P Require Import Concrete SchedulerSpec.

(** ** Messages ([pkg/proto]); [int32] fields are 32 bits wide *)

Record ResultRequest : Type := mkResultRequest {
  res_TaskUid : string;
  res_ExitCode : Z;
  res_Stdout : string;
  res_Stderr : string;
  res_ErrorMessage : string;
  res_TimedOut : bool;
}.

Record PullTaskResponse : Type := mkPull {
  pull_TaskUid : string;
  pull_Name : string;
  pull_Command : string;
  pull_Workdir : string;
  pull_Env : gmap string string;
  pull_TimeoutSec : Z;
}.

(** [&proto.PullTaskResponse{}] *)
Definition no_task : PullTaskResponse := mkPull EmptyString EmptyString EmptyString EmptyString ∅ 0.

Record HeartbeatResponse : Type := { hr_Ok : bool }.

Section server.
Context {Q K R : Type} `{Host} `{TaskQueue Q} `{Etcd K} `{Redis R}.
Abbreviation W := (World Q K R).

(** The result the scheduler is given; an empty message is no error. *)
Definition result_of (req : ResultRequest) : TaskResult := {|
  tr_ExitCode := res_ExitCode req; tr_Stdout := res_Stdout req; tr_Stderr := res_Stderr req;
  tr_TimedOut := res_TimedOut req;
  tr_Error := if bool_decide (res_ErrorMessage req = EmptyString) then None
              else Some (ErrorString (res_ErrorMessage req)) |}.

(** [has_scheduler]: [s.scheduler != nil].  The answer is the field [Ok]. *)
Definition ReportResult (has_scheduler : bool) (req : ResultRequest) : M W bool :=
  if negb has_scheduler then mret false
  else HandleRemoteResult (res_TaskUid req) (result_of req) ;; mret true.

Definition response_of (task : Task) : PullTaskResponse :=
  mkPull (TaskUID task) (Name task) (Command task) (Workdir task) (Model.Env task)
    (wrap32 (TimeoutSec task)).

Definition PullTask (has_scheduler : bool) (nodeID : string) : M W PullTaskResponse :=
  if negb has_scheduler then mret no_task
  else
    task ← GetNextTaskForNode nodeID;
    match task with
    | None => mret no_task
    | Some l => t ← load l; mret (response_of t)
    end.

Definition AgentRegister (etcd : option EtcdReplies) (fault : option error) (uuid : string)
    (now : Time) (req : RegisterRequest) (nm : NodeManager) : result RegisterResponse * NodeManager :=
  Register etcd fault uuid now req nm.

Definition AgentHeartbeat (etcd : option EtcdReplies) (fault : nat → option error)
    (clk : nat → Time) (req : HeartbeatRequest) (nm : NodeManager)
  : HeartbeatResponse * option error * NodeManager :=
  let '(err, nm) := Heartbeat etcd fault clk req nm in
  ({| hr_Ok := bool_decide (err = None) |}, err, nm).

(** Placeholders: any request is accepted and nothing happens. *)
Definition SubmitTask : M W bool := mret true.
Definition AgentCancelTask : M W bool := mret true.
Definition StreamLog : M W (option error) := mret None.

(** The pull protocol.  An agent that polls gets the task at the head of
    its node's channel, with the task's UID, name, command, working directory
    and environment, and the task's timeout when that fits 32 bits; the task
    leaves the channel, other channels and everything else stay.  With an
    empty channel, or no scheduler, the answer is the empty message and
    nothing changes. *)
Lemma PullTask_spec (w : W) (nodeID : string) :
  PullTask false nodeID w = (no_task, w) ∧
  let '(resp, w') := PullTask true nodeID w in
  w_mem w' = w_mem w ∧ w_db w' = w_db w ∧ w_queue w' = w_queue w ∧
  (∀ n, n ≠ nodeID → channel w' n = channel w n) ∧
  match channel w nodeID with
  | [] => resp = no_task ∧ w' = w
  | l :: ch =>
      let t := deref (w_mem w) l in
      channel w' nodeID = ch ∧
      (in_i32 (TimeoutSec t) →
       resp = mkPull (TaskUID t) (Name t) (Command t) (Workdir t) (Model.Env t) (TimeoutSec t))
  end.
Proof.
  split; [done|]. unfold PullTask, GetNextTaskForNode, channel, mbind, M_bind. cbn [negb].
  destruct (nodeTasks (w_sched w) !! nodeID) as [[|l ch]|] eqn:Hn; cbn; try by split_and!.
  split; [done|]. split; [done|]. split; [done|]. split.
  - intros n Hne. by rewrite lookup_insert_ne.
  - rewrite lookup_insert_eq. split; [done|]. intros Hr. unfold response_of.
    by rewrite wrap_id by (done || lia).
Qed.

(** A report counts as a failure exactly when its message is not empty.
    The exit code and the timeout flag alone do not make one: with an empty
    message [ReportResult] completes the task as [HandleRemoteResult] does
    for a result without error.  Without a scheduler the report is discarded
    and answered false. *)
Lemma ReportResult_spec (w : W) (req : ResultRequest) :
  ReportResult false req w = (false, w) ∧
  (ReportResult true req w).1 = true ∧
  (ReportResult true req w).2 = (HandleRemoteResult (res_TaskUid req) (result_of req) w).2 ∧
  (tr_Error (result_of req) = None ↔ res_ErrorMessage req = EmptyString) ∧
  ∀ e, tr_Error (result_of req) = Some e → Error e = res_ErrorMessage req.
Proof.
  split_and!; try done.
  - unfold result_of. cbn. case_bool_decide; naive_solver.
  - unfold result_of. cbn. case_bool_decide; naive_solver.
Qed.
End server.

Lemma PullTask_spec_witness :
  let node := NewNode "node-1" 0 "h" "i" "v" 16 4096 100 [] in
  let w0 := exec (assign 0 (λ t, t <| Status := TaskStatusPending |>)) demo_created in
  let w := exec (dispatchRemote 0 node) w0 in
  channel w "node-1" = [0%nat] ∧
  (PullTask true "node-1" w).1 = mkPull "uuid-0" "demo" "make" "/tmp" ∅ 300.
Proof.
  intros node w0 w. assert (channel w "node-1" = [0%nat]) as Hch by (vm_compute; reflexivity).
  split; [exact Hch|].
  destruct (PullTask_spec w "node-1") as [_ H].
  destruct (PullTask true "node-1" w) as [resp w'] eqn:Hp. cbn [fst].
  destruct H as (_ & _ & _ & _ & H). rewrite Hch in H. destruct H as [_ H].
  etrans; [apply H; vm_compute; split; discriminate || reflexivity|]. vm_compute. reflexivity.
Defined.
