(* ===== verification/Membership.v ===== *)
(** * Membership: how an agent joins the server and stays in it

    The start of the agent ([cmd/agent/main.go]) and its heartbeats against the
    node manager behind the gRPC service.  Everything else that can happen to
    the node manager in between is an event: other agents, the offline checker,
    the watch on the leases, drain and uncordon, each with any database errors,
    etcd replies and clock readings. *)

From S2P Require Import Prelude GoStrings Float64 Model TaskQueue InMemQueue TaskStore NodeStore.
From S2P Require Import NodeManager Runtime GrpcServer Machine Concrete.

(** ** The agent's program *)

Inductive agent_start : Type :=
| AgentExit (code : Z)
| AgentRunning (nodeID : string).

(** [register] is the call to the server, which changes its state [S]. *)
Definition agent_main {S} (labels : string) (dial : option error) (m : Machine)
    (register : RegisterRequest → S → result RegisterResponse * S) (s : S) : agent_start * S :=
  match dial with
  | Some _ => (AgentExit 1, s)
  | None =>
      let '(resp, s) := register (register_request labels m) s in
      match resp with
      | Err _ => (AgentExit 1, s)
      | Ok resp =>
          if negb (rs_accepted resp) then (AgentExit 1, s) else (AgentRunning (rs_node_id resp), s)
      end
  end.

(** The loop over the ticks; a failed call is only logged. *)
Definition heartbeatLoop {S} (nodeID : string) (ticks : list (Machine * (HeartbeatRequest → S → S)))
    (s : S) : S :=
  foldl (λ s tick, tick.2 (heartbeat_request nodeID tick.1) s) s ticks.

Section membership.
Context `{HostOk}.
Implicit Types (s : NodeManager) (n : Node).

(** ** What happens to the node manager *)

Inductive server_event : Type :=
| EvHeartbeat (etcd : option EtcdReplies) (fault : nat → option error) (clk : nat → Time)
    (req : HeartbeatRequest)
| EvRegister (etcd : option EtcdReplies) (fault : option error) (uuid : string) (now : Time)
    (req : RegisterRequest)
| EvCheck (etcd : bool) (fault : nat → option error) (clk : nat → Time) (now : Time)
| EvWatch (deleted : bool) (fault : nat → option error) (now : Time) (key : string)
| EvDrain (fault : nat → option error) (now : Time) (nodeID : string)
| EvUncordon (fault : nat → option error) (now : Time) (nodeID : string).

Definition apply_event s (ev : server_event) : NodeManager :=
  match ev with
  | EvHeartbeat etcd fault clk req => (AgentHeartbeat etcd fault clk req s).2
  | EvRegister etcd fault uuid now req => (AgentRegister etcd fault uuid now req s).2
  | EvCheck etcd fault clk now => offline_checker_tick etcd fault clk now s
  | EvWatch deleted fault now key => node_watch_event deleted fault now key s
  | EvDrain fault now nodeID => (DrainNode fault now nodeID s).2
  | EvUncordon fault now nodeID => (UncordonNode fault now nodeID s).2
  end.

(** The heartbeats of the node come in time for the checks: from its first
    heartbeat on, at each check the last one is at most 30 seconds old.  Its
    lease does not expire, nobody drains it, and its id is not drawn again. *)
Definition in_time (id : string) (last : option Time) (ev : server_event) : Prop :=
  match ev with
  | EvHeartbeat _ _ _ _ | EvUncordon _ _ _ => True
  | EvRegister _ _ uuid _ _ => uuid ≠ id
  | EvCheck etcd _ _ now => ∀ t, last = Some t → etcd = false → now - t <= 30 * second
  | EvWatch deleted _ _ key => deleted = true → extractNodeID key ≠ id
  | EvDrain _ _ nodeID => nodeID ≠ id
  end.

Definition last_beat (id : string) (last : option Time) (ev : server_event) : option Time :=
  match ev with
  | EvHeartbeat _ _ clk req => if bool_decide (hb_node_id req = id) then Some (clk 0%nat) else last
  | _ => last
  end.

Fixpoint timely (id : string) (last : option Time) (evs : list server_event) : Prop :=
  match evs with
  | [] => True
  | ev :: evs => in_time id last ev ∧ timely id (last_beat id last ev) evs
  end.

(** What stays of the node as it joined. *)
Definition member (id : string) (n0 : Node) (last : option Time) s : Prop :=
  offlineAfter s = 30 * second ∧
  ∃ n, onlineNodes s !! id = Some n ∧ NStatus n = NodeStatusOnline ∧ LastHeartbeatAt n = last ∧
       Hostname n = Hostname n0 ∧ IP n = IP n0 ∧ TotalCPU n = TotalCPU n0 ∧
       TotalMemoryMB n = TotalMemoryMB n0 ∧ TotalDiskMB n = TotalDiskMB n0 ∧ Labels n = Labels n0.

(** The event changes neither the entry of [id] nor the time limit. *)
Definition keeps (id : string) s s' : Prop :=
  onlineNodes s' !! id = onlineNodes s !! id ∧ offlineAfter s' = offlineAfter s.

Lemma member_keeps id n0 last s s' : keeps id s s' → member id n0 last s → member id n0 last s'.
Proof. intros [Hon Haft] [Ha Hn]. split; [congruence|]. by rewrite Hon. Qed.

Lemma store_heartbeat_same fault now req s :
  onlineNodes (store_heartbeat fault now req s).2 = onlineNodes s ∧
  offlineAfter (store_heartbeat fault now req s).2 = offlineAfter s.
Proof.
  destruct (store_heartbeat fault now req s) as [e s'] eqn:Hs.
  by apply store_heartbeat_spec in Hs as (Hon & _ & Haft & _).
Qed.

(** A heartbeat of a cached node refreshes its entry, whatever happens next. *)
Lemma Heartbeat_cached etcd fault clk req s n :
  onlineNodes s !! hb_node_id req = Some n →
  onlineNodes (Heartbeat etcd fault clk req s).2 =
    <[hb_node_id req := refresh (clk 0%nat) req n]> (onlineNodes s) ∧
  offlineAfter (Heartbeat etcd fault clk req s).2 = offlineAfter s.
Proof.
  intros Hn. unfold Heartbeat. rewrite Hn.
  destruct etcd as [r|]; [|rewrite !(proj1 (store_heartbeat_same _ _ _ _)), !(proj2 (store_heartbeat_same _ _ _ _)); done].
  cbn. destruct (watchers s !! hb_node_id req); [|destruct (grant r); [|done]];
    (destruct (keepalive r);
      [rewrite (proj1 (store_heartbeat_same _ _ _ _)), (proj2 (store_heartbeat_same _ _ _ _)); done|done]).
Qed.

Lemma Heartbeat_uncached etcd fault clk req s :
  onlineNodes s !! hb_node_id req = None →
  (∀ id, id ≠ hb_node_id req → keeps id s (Heartbeat etcd fault clk req s).2).
Proof.
  intros Hn id Hid. unfold Heartbeat. rewrite Hn. destruct (NodeStore.GetByNodeID _ _ _); [|done].
  unfold keeps. rewrite (proj1 (store_heartbeat_same _ _ _ _)), (proj2 (store_heartbeat_same _ _ _ _)).
  cbn. by rewrite lookup_insert_ne.
Qed.

Lemma Heartbeat_keeps etcd fault clk req id s :
  hb_node_id req ≠ id → keeps id s (Heartbeat etcd fault clk req s).2.
Proof.
  intros Hid. destruct (onlineNodes s !! hb_node_id req) as [n|] eqn:Hn; [|by apply Heartbeat_uncached].
  destruct (Heartbeat_cached etcd fault clk req s n Hn) as [Hon Haft].
  split; [|done]. rewrite Hon. by apply lookup_insert_ne.
Qed.

Lemma Register_keeps etcd fault uuid now req id s :
  uuid ≠ id → keeps id s (Register etcd fault uuid now req s).2.
Proof.
  intros Hid. unfold Register, NodeStore.Create. destruct fault; [done|]. cbn.
  destruct (node_rows (nodes_tbl s) !! uuid); [done|].
  destruct etcd as [r|]; [|by split; [apply lookup_insert_ne|]].
  cbn. destruct (grant r); [|done]. destruct (NodeManager.put r); [done|]. by split; [apply lookup_insert_ne|].
Qed.

Lemma set_node_status_keeps st fault now nodeID id s :
  nodeID ≠ id → keeps id s (set_node_status st fault now nodeID s).2.
Proof.
  intros Hid. unfold set_node_status. destruct (onlineNodes s !! nodeID) as [n|].
  - destruct (NodeStore.Update _ _ _ _) as [[e n'] tbl]. by split; [apply lookup_insert_ne|].
  - destruct (NodeStore.GetByNodeID _ _ _); [|done].
    by destruct (NodeStore.Update _ _ _ _) as [[e n'] tbl].
Qed.

Lemma node_watch_keeps deleted fault now key id s :
  (deleted = true → extractNodeID key ≠ id) → keeps id s (node_watch_event deleted fault now key s).
Proof.
  intros Hid. unfold node_watch_event, node_watch_delete. destruct deleted; [|done].
  case_bool_decide; [done|]. unfold markOffline. destruct (onlineNodes s !! extractNodeID key).
  - destruct (NodeStore.Update _ _ _ _) as [[? ?] ?]. split; [|done]. cbn.
    by apply lookup_delete_ne, Hid.
  - destruct (NodeStore.GetByNodeID _ _ _); [|done]. by destruct (NodeStore.Update _ _ _ _) as [[? ?] ?].
Qed.

(** A check keeps a node whose last heartbeat is not too old. *)
Lemma check_keeps etcd fault clk now n id s :
  onlineNodes s !! id = Some n → offlineAfter s = 30 * second →
  (∀ t, LastHeartbeatAt n = Some t → etcd = false → now - t <= 30 * second) →
  keeps id s (offline_checker_tick etcd fault clk now s).
Proof.
  intros Hn Haft Ht. unfold offline_checker_tick, checkOfflineNodes. destruct etcd; [done|].
  split; [|apply offline_loop_after]. rewrite offline_loop_cache.
  destruct (existsb _ _) eqn:Hex; [|done]. exfalso.
  apply existsb_exists in Hex as ([k n'] & Hin & He).
  apply list_elem_of_In, elem_of_map_range in Hin. cbn in He.
  apply andb_true_iff in He as [->%bool_decide_eq_true He]. rewrite Hn in Hin. injection Hin as <-.
  unfold is_stale in He. destruct (LastHeartbeatAt n) as [t|]; [|done].
  specialize (Ht t eq_refl eq_refl). rewrite Haft in He. apply Z.ltb_lt in He.
  unfold time_sub in He. change (30 * second) with 30000000000 in *. lia.
Qed.

Lemma AgentHeartbeat_state etcd fault clk req s :
  (AgentHeartbeat etcd fault clk req s).2 = (Heartbeat etcd fault clk req s).2.
Proof. unfold AgentHeartbeat. by destruct (Heartbeat etcd fault clk req s). Qed.

(** Every event in time keeps the node a member. *)
Lemma member_event id n0 last s ev :
  member id n0 last s → in_time id last ev → member id n0 (last_beat id last ev) (apply_event s ev).
Proof.
  intros Hm Ht. destruct Hm as (Haft & n & Hn & Hst & Hl & Hsame) eqn:HM; clear HM.
  destruct ev as [etcd fault clk req|etcd fault uuid now req|etcd fault clk now|deleted fault now key
    |fault now nodeID|fault now nodeID]; cbn [in_time last_beat apply_event] in *.
  - rewrite AgentHeartbeat_state. case_bool_decide as Hid.
    + subst id. destruct (Heartbeat_cached etcd fault clk req s n Hn) as [Hon Haft'].
      split; [congruence|]. exists (refresh (clk 0%nat) req n). rewrite Hon, lookup_insert_eq.
      split; [done|]. unfold refresh. by destruct (hb_resources req).
    + apply (member_keeps _ _ _ s); [by apply Heartbeat_keeps|done].
  - apply (member_keeps _ _ _ s); [by apply Register_keeps|done].
  - apply (member_keeps _ _ _ s); [|done]. eapply check_keeps; [done..|]. by rewrite Hl.
  - apply (member_keeps _ _ _ s); [by apply node_watch_keeps|done].
  - apply (member_keeps _ _ _ s); [by apply set_node_status_keeps|done].
  - destruct (decide (nodeID = id)) as [->|Hid];
      [|apply (member_keeps _ _ _ s); [by apply set_node_status_keeps|done]].
    unfold UncordonNode, set_node_status. rewrite Hn.
    destruct (NodeStore.Update _ _ _ _) as [[e n'] tbl] eqn:HU.
    destruct (NodeStore_Update_spec _ _ _ _ _ _ _ HU) as (-> & _).
    split; [done|]. eexists. split; [apply lookup_insert_eq|]. done.
Qed.

Lemma member_events id n0 evs last s :
  member id n0 last s → timely id last evs →
  ∃ last', member id n0 last' (foldl apply_event s evs).
Proof.
  revert last s. induction evs as [|ev evs IH]; intros last s Hm Ht; [by eauto|].
  destruct Ht as [Hev Ht]. cbn [foldl]. eapply IH; [|exact Ht]. by apply member_event.
Qed.

(** The calls of [Register] to etcd, if it makes any, succeed. *)
Definition answering (etcd : option EtcdReplies) : Prop :=
  match etcd with
  | None => True
  | Some r => is_ok (grant r) = true ∧ NodeManager.put r = None
  end.

(** ** Properties *)

(** What the server knows of a node that joined with these labels from this
    machine, and how it finds it. *)
Definition known_as (uuid labels : string) (m : Machine) s : Prop :=
  ∃ n, onlineNodes s !! uuid = Some n ∧ NStatus n = NodeStatusOnline ∧
    Hostname n = rr_hostname (register_request labels m) ∧ IP n = getOutboundIP m ∧
    TotalCPU n = m_cpus m ∧ TotalMemoryMB n = detectMemory (m_memsize m) (m_meminfo m) ∧
    TotalDiskMB n = detectDisk (m_statfs m) ∧ Labels n = parse_labels labels ∧
    ∀ k v, k +:+ "=" +:+ v ∈ parse_labels labels → n ∈ FindByLabels {[ k := v ]} s.

Lemma member_known uuid now labels m id0 last s :
  member uuid ((NewNode uuid now (rr_hostname (register_request labels m)) (getOutboundIP m)
    version (m_cpus m) (detectMemory (m_memsize m) (m_meminfo m)) (detectDisk (m_statfs m))
    (parse_labels labels)) <| NID := id0 |>) last s →
  known_as uuid labels m s.
Proof.
  intros (_ & n & Hon & Hst & _ & Hh & Hip & Hc & Hmem & Hdisk & Hlab).
  exists n. split_and!; try done.
  intros k v Hkv. apply elem_of_FindByLabels. split_and!; [by exists uuid|done|].
  intros k' v' [<- <-]%lookup_singleton_Some. left. by rewrite Hlab.
Qed.

(** C29 An agent that can register is a member for as long as its heartbeats come
    in time.  It runs under the id of its row; whatever else happens to the
    server (other agents, failing statements, etcd errors), as long as no check
    finds its last heartbeat older than 30 seconds, its lease does not expire
    and nobody drains it, the server has it online with the address, the
    resources and the labels it reported, and selects it for each label [k=v]
    of its command line.  If etcd refuses the lease or the key, the agent
    exits, but the row it has been given stays in the table as online. *)
Theorem agent_membership (labels : string) (m : Machine) (etcd : option EtcdReplies)
    (uuid : string) (now : Time) s (evs : list server_event) :
  node_rows (nodes_tbl s) !! uuid = None → offlineAfter s = 30 * second →
  let '(r, s1) := agent_main labels None m (AgentRegister etcd None uuid now) s in
  (answering etcd →
     r = AgentRunning uuid ∧
     (timely uuid None evs → known_as uuid labels m (foldl apply_event s1 evs))) ∧
  (¬ answering etcd →
     r = AgentExit 1 ∧ onlineNodes s1 = onlineNodes s ∧
     ∃ row, node_rows (nodes_tbl s1) !! uuid = Some row ∧ NStatus row = NodeStatusOnline).
Proof.
  intros Hnew Haft. set (n0 := (NewNode uuid now (rr_hostname (register_request labels m)) (getOutboundIP m)
    version (m_cpus m) (detectMemory (m_memsize m) (m_meminfo m)) (detectDisk (m_statfs m))
    (parse_labels labels)) <| NID := next_node_id (nodes_tbl s) |>).
  assert (∀ s1 evs, offlineAfter s1 = 30 * second → onlineNodes s1 !! uuid = Some n0 →
    timely uuid None evs → known_as uuid labels m (foldl apply_event s1 evs)) as Hstay.
  { intros s1 evs' Ha Hn Ht. destruct (member_events uuid n0 evs' None s1) as (last & Hm); [|done|].
    - split; [done|]. by exists n0.
    - by eapply member_known. }
  unfold agent_main, AgentRegister, Register, NodeStore.Create. cbn. rewrite Hnew. cbn.
  destruct etcd as [r|]; cbn.
  - destruct (grant r) as [lease|e]; cbn; [destruct (NodeManager.put r) eqn:Hp; cbn|].
    + split; [by intros [_ ?]|]. intros _. split_and!; [done..|].
      eexists. split; [apply lookup_insert_eq|done].
    + split; [|intros Hno; exfalso; by apply Hno]. intros _. split; [done|].
      apply Hstay; [done|apply lookup_insert_eq].
    + split; [by intros [? _]|]. intros _. split_and!; [done..|].
      eexists. split; [apply lookup_insert_eq|done].
  - split; [|intros Hno; exfalso; by apply Hno]. intros _. split; [done|].
    apply Hstay; [done|apply lookup_insert_eq].
Qed.
End membership.

(** ** Witness: an agent with two labels, two heartbeats, a check and a drained
    neighbour *)

Definition demo_events : list server_event :=
  let beat t := EvHeartbeat None (λ _, Some (ErrorString "db")) (λ _, t)
                  (heartbeat_request "n1" demo_machine) in
  [beat (10 * second); EvRegister None None "n2" (11 * second) sample_register;
   beat (20 * second); EvDrain (λ _, None) (21 * second) "n2";
   EvCheck false (λ _, None) (λ _, 0) (45 * second)].

Lemma agent_membership_witness :
  let s1 := (agent_main "zone=a, gpu" None demo_machine (AgentRegister None None "n1" 0) NewNodeManager).2 in
  let s2 := foldl apply_event s1 demo_events in
  ∃ n, onlineNodes s2 !! "n1"%string = Some n ∧ TotalMemoryMB n = 16000 ∧
       Labels n = ["zone=a"; "gpu"]%string ∧ n ∈ FindByLabels {[ "zone"%string := "a"%string ]} s2.
Proof.
  intros s1 s2.
  pose proof (agent_membership "zone=a, gpu" demo_machine None "n1" 0 NewNodeManager demo_events
                eq_refl eq_refl) as Hm.
  unfold s2, s1. clear s1 s2.
  destruct (agent_main "zone=a, gpu" None demo_machine (AgentRegister None None "n1" 0) NewNodeManager)
    as [r s1]. cbn [snd].
  destruct (proj1 Hm I) as (_ & Hstay). destruct Hstay as (n & Hn & _ & _ & _ & _ & Hmem & _ & Hlab & Hfind).
  { repeat split; try discriminate; try done. intros t [= <-] _. change (30 * second) with 30000000000.
    unfold second. lia. }
  exists n. split; [exact Hn|]. split; [rewrite Hmem; vm_compute; reflexivity|].
  split; [rewrite Hlab; vm_compute; reflexivity|]. apply Hfind. vm_compute. by constructor.
Defined.
