(* ===== verification/Leases.v ===== *)
(** * Leases: how the server learns from etcd that a node is gone

    The node manager over a lease service: the replies to its calls are computed
    by the service, whose state is advanced by the calls the manager records;
    keys that are deleted with their lease become events of the watch.  etcd
    itself is a parameter, with what its documentation says of leases. *)

From Stdlib Require Import Ascii.
From S2P Require Import Prelude GoStrings Float64 Model TaskQueue TaskStore NodeStore.
From S2P Require Import NodeManager Runtime GrpcServer Machine Membership Concrete.

(** ** The service *)

(** Calls at the time [now]; [ls_expire] revokes the leases that are due and
    answers the keys deleted with them. *)
Class LeaseService (E : Type) := {
  ls_grant (ttl : Z) (now : Time) : E → result Z * E;
  ls_put (key : string) (lease : Z) (now : Time) : E → option error * E;
  ls_keepalive (lease : Z) (now : Time) : E → option error * E;
  ls_expire (now : Time) : E → list string * E;
}.

(** A lease (its TTL and the time it is due) after the revocations at [now]. *)
Definition lease_left (now : Time) (x : option (Z * Time)) : option (Z * Time) :=
  match x with
  | Some (ttl, due) => if due <=? now then None else x
  | None => None
  end.

(** A lease has a TTL in seconds and the time it is due; a key hangs on a lease.
    A call that fails may have had its effect. *)
Class LeaseServiceOk (E : Type) `{LeaseService E} := {
  ls_leases : E → gmap Z (Z * Time);
  ls_keys : E → gmap string Z;
  ls_used : E → gset Z;               (* the ids of all leases ever granted *)
  ls_live_used e l : is_Some (ls_leases e !! l) → l ∈ ls_used e;
  ls_grant_keys ttl now e : ls_keys (ls_grant ttl now e).2 = ls_keys e;
  ls_grant_leases ttl now e l x :
    ls_leases e !! l = Some x → ls_leases (ls_grant ttl now e).2 !! l = Some x;
  ls_grant_ok ttl now e l :
    (ls_grant ttl now e).1 = Ok l →
    (l ∉ ls_used e) ∧ l ∈ ls_used (ls_grant ttl now e).2 ∧
    ls_leases (ls_grant ttl now e).2 !! l = Some (ttl, now + ttl * second);
  ls_grant_used ttl now e : ls_used e ⊆ ls_used (ls_grant ttl now e).2;
  ls_put_used key lease now e : ls_used (ls_put key lease now e).2 = ls_used e;
  ls_keepalive_used lease now e : ls_used (ls_keepalive lease now e).2 = ls_used e;
  ls_expire_used now e : ls_used (ls_expire now e).2 = ls_used e;
  ls_put_leases key lease now e : ls_leases (ls_put key lease now e).2 = ls_leases e;
  ls_put_other key lease now e k : k ≠ key → ls_keys (ls_put key lease now e).2 !! k = ls_keys e !! k;
  ls_put_ok key lease now e : (ls_put key lease now e).1 = None → ls_keys (ls_put key lease now e).2 !! key = Some lease;
  ls_keepalive_keys lease now e : ls_keys (ls_keepalive lease now e).2 = ls_keys e;
  ls_keepalive_other lease now e l :
    l ≠ lease → ls_leases (ls_keepalive lease now e).2 !! l = ls_leases e !! l;
  ls_keepalive_ok lease now e :
    (ls_keepalive lease now e).1 = None →
    ∃ ttl due, ls_leases e !! lease = Some (ttl, due) ∧
               ls_leases (ls_keepalive lease now e).2 !! lease = Some (ttl, now + ttl * second);
  ls_expire_leases now e l :
    ls_leases (ls_expire now e).2 !! l =
      lease_left now (ls_leases e !! l);
  ls_expire_keys now e k :
    ls_keys (ls_expire now e).2 !! k =
      match ls_keys e !! k with
      | Some l => match ls_leases (ls_expire now e).2 !! l with Some _ => Some l | None => None end
      | None => None
      end;
  ls_expire_events now e k :
    k ∈ (ls_expire now e).1 ↔ is_Some (ls_keys e !! k) ∧ ls_keys (ls_expire now e).2 !! k = None;
}.

Section leases.
Context `{HostOk} {E : Type} `{LeaseServiceOk E}.
Implicit Types (s : NodeManager) (e : E).

(** ** The manager over the service *)

(** What the service answers to the calls of [Register], Grant and Put. *)
Definition register_replies (uuid : string) (now : Time) e : EtcdReplies :=
  let '(g, e1) := ls_grant 30 now e in
  {| grant := g;
     NodeManager.put := match g with Ok lease => (ls_put (nodeKey uuid) lease now e1).1 | Err _ => None end;
     keepalive := None |}.

(** To those of [Heartbeat]: KeepAliveOnce, after a Grant when the manager knows
    no lease. *)
Definition heartbeat_replies (id : string) (now : Time) s e : EtcdReplies :=
  match watchers s !! id with
  | Some lease => {| grant := Ok lease; NodeManager.put := None; keepalive := (ls_keepalive lease now e).1 |}
  | None =>
      let '(g, e1) := ls_grant 30 now e in
      {| grant := g; NodeManager.put := None;
         keepalive := match g with Ok lease => (ls_keepalive lease now e1).1 | Err _ => None end |}
  end.

Definition do_call (now : Time) e (c : etcd_call) : E :=
  match c with
  | CallGrant ttl => (ls_grant ttl now e).2
  | CallPut key _ lease => (ls_put key lease now e).2
  | CallKeepAliveOnce lease => (ls_keepalive lease now e).2
  end.

(** The service after the calls that [s'] has recorded since [s]. *)
Definition replay (now : Time) s s' e : E :=
  foldl (do_call now) e (drop (length (etcd_calls s)) (etcd_calls s')).

(** The manager, etcd, and the deletions the watch has not delivered yet. *)
Record cluster : Type := mkCluster { cl_nodes : NodeManager; cl_etcd : E; cl_deleted : list string }.

Inductive cluster_event : Type :=
| CRegister (fault : option error) (uuid : string) (now : Time) (req : RegisterRequest)
| CHeartbeat (fault : nat → option error) (clk : nat → Time) (req : HeartbeatRequest)
| CExpire (now : Time)
| CDeliver (fault : nat → option error) (now : Time)
| CDrain (fault : nat → option error) (now : Time) (nodeID : string)
| CUncordon (fault : nat → option error) (now : Time) (nodeID : string).

Definition cluster_apply (c : cluster) (ev : cluster_event) : cluster :=
  let '(mkCluster s e ks) := c in
  match ev with
  | CRegister fault uuid now req =>
      let s' := (AgentRegister (Some (register_replies uuid now e)) fault uuid now req s).2 in
      mkCluster s' (replay now s s' e) ks
  | CHeartbeat fault clk req =>
      let now := clk 0%nat in
      let s' := (AgentHeartbeat (Some (heartbeat_replies (hb_node_id req) now s e)) fault clk req s).2 in
      mkCluster s' (replay now s s' e) ks
  | CExpire now => let '(gone, e) := ls_expire now e in mkCluster s e (ks ++ gone)
  | CDeliver fault now =>
      match ks with
      | [] => c
      | k :: ks => mkCluster (node_watch_event true fault now k s) e ks
      end
  | CDrain fault now id => mkCluster (DrainNode fault now id s).2 e ks
  | CUncordon fault now id => mkCluster (UncordonNode fault now id s).2 e ks
  end.

(** ** What the operations do to the service *)

Lemma replay_calls now s s' e cs :
  etcd_calls s' = etcd_calls s ++ cs → replay now s s' e = foldl (do_call now) e cs.
Proof. intros Hcs. unfold replay. by rewrite Hcs, drop_app_length. Qed.

Lemma store_heartbeat_calls fault now req s :
  etcd_calls (store_heartbeat fault now req s).2 = etcd_calls s ∧
  watchers (store_heartbeat fault now req s).2 = watchers s.
Proof.
  unfold store_heartbeat. destruct (hb_resources req);
    by destruct (NodeStore.UpdateHeartbeat _ _ _ _ _ _ _ _ _).
Qed.

(** The service has changed, but [l] and the key [k] have not. *)
Definition untouched (l : Z) (k : string) e e' : Prop :=
  (is_Some (ls_leases e !! l) → ls_leases e' !! l = ls_leases e !! l) ∧ ls_keys e' !! k = ls_keys e !! k.

Lemma untouched_grant l k ttl now e : untouched l k e (ls_grant ttl now e).2.
Proof.
  split; [|by rewrite ls_grant_keys]. intros [x Hx]. rewrite Hx. by apply ls_grant_leases.
Qed.

Lemma untouched_put l k key lease now e : k ≠ key → untouched l k e (ls_put key lease now e).2.
Proof. intros Hk. split; [by rewrite ls_put_leases|by apply ls_put_other]. Qed.

Lemma untouched_keepalive l k lease now e : l ≠ lease → untouched l k e (ls_keepalive lease now e).2.
Proof. intros Hl. split; [intros _; by apply ls_keepalive_other|by rewrite ls_keepalive_keys]. Qed.

Lemma untouched_trans l k e1 e2 e3 : untouched l k e1 e2 → untouched l k e2 e3 → untouched l k e1 e3.
Proof.
  intros [L12 K12] [L23 K23]. split; [|congruence]. intros Hl. rewrite L23; rewrite L12 by done; done.
Qed.

(** What the manager remembers of leases: only ids that did not exist before are
    added. *)
Definition remembers e e' (ws ws' : gmap string Z) : Prop :=
  ls_used e ⊆ ls_used e' ∧
  ∀ id l, ws' !! id = Some l → ws !! id = Some l ∨ ((l ∉ ls_used e) ∧ l ∈ ls_used e').

Lemma remembers_insert e e' ws id l :
  ls_used e ⊆ ls_used e' → l ∉ ls_used e → l ∈ ls_used e' → remembers e e' ws (<[id := l]> ws).
Proof. intros Hu Hl Hl'. split; [done|]. intros id' l'. rewrite lookup_insert_Some. intros [[_ <-]|[_ ?]]; auto. Qed.

Lemma remembers_refl e e' ws : ls_used e ⊆ ls_used e' → remembers e e' ws ws.
Proof. split; auto. Qed.

Create HintDb leases discriminated.
Lemma used_refl e : ls_used e ⊆ ls_used e.
Proof. done. Qed.

Lemma grant_put_used key lease ttl now e :
  ls_used e ⊆ ls_used (ls_put key lease now (ls_grant ttl now e).2).2.
Proof. rewrite ls_put_used. apply ls_grant_used. Qed.

Lemma grant_keepalive_used lease ttl now e :
  ls_used e ⊆ ls_used (ls_keepalive lease now (ls_grant ttl now e).2).2.
Proof. rewrite ls_keepalive_used. apply ls_grant_used. Qed.

Lemma keepalive_used lease now e : ls_used e ⊆ ls_used (ls_keepalive lease now e).2.
Proof. by rewrite ls_keepalive_used. Qed.

#[local] Hint Resolve remembers_refl used_refl grant_put_used grant_keepalive_used keepalive_used ls_grant_used : leases.

(** *** The calls of the operations *)

Lemma Register_calls r fault uuid now req s :
  let s' := (Register (Some r) fault uuid now req s).2 in
  (etcd_calls s' = etcd_calls s ∧ watchers s' = watchers s) ∨
  (∃ err, grant r = Err err ∧ etcd_calls s' = etcd_calls s ++ [CallGrant 30] ∧ watchers s' = watchers s) ∨
  (∃ l n, grant r = Ok l ∧ etcd_calls s' = etcd_calls s ++ [CallGrant 30; CallPut (nodeKey uuid) n l] ∧
     (watchers s' = watchers s ∨ watchers s' = <[uuid := l]> (watchers s))).
Proof.
  unfold Register, NodeStore.Create. destruct fault; [by left|]. cbn.
  destruct (node_rows (nodes_tbl s) !! uuid); [by left|]. right.
  destruct (grant r) as [l|err]; cbn; [right|left; by eexists].
  exists l. destruct (NodeManager.put r);
    (eexists; split; [done|]; split; [cbn; by rewrite <- app_assoc|]; auto).
Qed.

Lemma Heartbeat_calls r fault clk req s :
  let id := hb_node_id req in
  let s' := (Heartbeat (Some r) fault clk req s).2 in
  (onlineNodes s !! id = None ∧ etcd_calls s' = etcd_calls s ∧ watchers s' = watchers s) ∨
  (∃ l, watchers s !! id = Some l ∧ etcd_calls s' = etcd_calls s ++ [CallKeepAliveOnce l] ∧
        watchers s' = watchers s) ∨
  (watchers s !! id = None ∧ ∃ err, grant r = Err err ∧ etcd_calls s' = etcd_calls s ++ [CallGrant 30] ∧
     watchers s' = watchers s) ∨
  (watchers s !! id = None ∧ ∃ l, grant r = Ok l ∧
     etcd_calls s' = etcd_calls s ++ [CallGrant 30; CallKeepAliveOnce l] ∧
     watchers s' = <[id := l]> (watchers s)).
Proof.
  cbn. unfold Heartbeat. destruct (onlineNodes s !! hb_node_id req) as [n|].
  - cbn. destruct (watchers s !! hb_node_id req) as [l|] eqn:Hl; [|destruct (grant r) as [l|err] eqn:Hg; cbn].
    + right. left. exists l. destruct (keepalive r); [|done].
      by rewrite (proj1 (store_heartbeat_calls _ _ _ _)), (proj2 (store_heartbeat_calls _ _ _ _)).
    + do 3 right. split; [done|]. exists l. destruct (keepalive r); [|cbn; by rewrite <- app_assoc].
      rewrite (proj1 (store_heartbeat_calls _ _ _ _)), (proj2 (store_heartbeat_calls _ _ _ _)).
      by cbn; rewrite <- app_assoc.
    + right. right. left. split; [done|]. by exists err.
  - destruct (NodeStore.GetByNodeID _ _ _); [|by left]. left.
    by rewrite (proj1 (store_heartbeat_calls _ _ _ _)), (proj2 (store_heartbeat_calls _ _ _ _)).
Qed.

Lemma register_grant uuid now e : grant (register_replies uuid now e) = (ls_grant 30 now e).1.
Proof. unfold register_replies. by destruct (ls_grant 30 now e). Qed.

Lemma heartbeat_grant id now s e :
  watchers s !! id = None → grant (heartbeat_replies id now s e) = (ls_grant 30 now e).1.
Proof. intros Hw. unfold heartbeat_replies. rewrite Hw. by destruct (ls_grant 30 now e). Qed.

(** A registration leaves the leases there are and the keys of other nodes. *)
Lemma register_effect fault uuid now req s e ks :
  let c' := cluster_apply (mkCluster s e ks) (CRegister fault uuid now req) in
  (∀ l k, k ≠ nodeKey uuid → untouched l k e (cl_etcd c')) ∧
  remembers e (cl_etcd c') (watchers s) (watchers (cl_nodes c')) ∧
  (∀ id, id ≠ uuid → watchers (cl_nodes c') !! id = watchers s !! id) ∧ cl_deleted c' = ks.
Proof.
  cbn. unfold AgentRegister. set (r := register_replies uuid now e).
  destruct (Register_calls r fault uuid now req s) as [[Hc Hw]|[(err & Hg & Hc & Hw)|(l0 & n & Hg & Hc & Hw)]];
    cbv zeta in *; set (s' := (Register _ _ _ _ _ _).2) in *.
  - rewrite (replay_calls _ _ _ _ []) by by rewrite app_nil_r. rewrite Hw.
    split_and!; try done; by auto with leases.
  - rewrite (replay_calls _ _ _ _ _ Hc), Hw. cbn. split_and!; auto with leases; [|done..].
    intros l k _. apply untouched_grant.
  - rewrite (replay_calls _ _ _ _ _ Hc). unfold r in Hg. rewrite register_grant in Hg.
    apply ls_grant_ok in Hg as (Hnew & Hused & _). cbn. split_and!; [|..|done].
    + intros l k Hk. eapply untouched_trans; [apply untouched_grant|by apply untouched_put].
    + destruct Hw as [-> | ->]; [auto with leases|].
      apply remembers_insert; [auto with leases|done|by rewrite ls_put_used].
    + intros id Hid. destruct Hw as [-> | ->]; [done|by rewrite lookup_insert_ne].
Qed.

(** A heartbeat leaves all keys and the leases of other nodes. *)
Lemma heartbeat_effect fault clk req s e ks :
  let id := hb_node_id req in
  let c' := cluster_apply (mkCluster s e ks) (CHeartbeat fault clk req) in
  (∀ l k, watchers s !! id ≠ Some l → untouched l k e (cl_etcd c')) ∧
  remembers e (cl_etcd c') (watchers s) (watchers (cl_nodes c')) ∧
  (∀ id', id' ≠ id → watchers (cl_nodes c') !! id' = watchers s !! id') ∧
  (∀ k, ls_keys (cl_etcd c') !! k = ls_keys e !! k) ∧ cl_deleted c' = ks.
Proof.
  cbn. rewrite AgentHeartbeat_state. set (r := heartbeat_replies (hb_node_id req) (clk 0%nat) s e).
  destruct (Heartbeat_calls r fault clk req s) as
    [(_ & Hc & Hw)|[(l0 & Hl0 & Hc & Hw)|[(Hno & err & Hg & Hc & Hw)|(Hno & l0 & Hg & Hc & Hw)]]];
    cbv zeta in *; set (s' := (Heartbeat _ _ _ _ _).2) in *.
  - rewrite (replay_calls _ _ _ _ []) by by rewrite app_nil_r. rewrite Hw.
    split_and!; try done; by auto with leases.
  - rewrite (replay_calls _ _ _ _ _ Hc), Hw. cbn. split_and!; auto with leases.
    + intros l k Hl. apply untouched_keepalive. congruence.
    + intros k. by rewrite ls_keepalive_keys.
  - rewrite (replay_calls _ _ _ _ _ Hc), Hw. cbn. split_and!; auto with leases.
    + intros l k _. apply untouched_grant.
    + intros k. by rewrite ls_grant_keys.
  - rewrite (replay_calls _ _ _ _ _ Hc), Hw. cbn. unfold r in Hg. rewrite heartbeat_grant in Hg by done.
    apply ls_grant_ok in Hg as (Hnew & Hused & _). split_and!; [| |..|done].
    + intros l k _. split; [|by rewrite ls_keepalive_keys, ls_grant_keys]. intros [x Hx].
      rewrite ls_keepalive_other; [rewrite Hx; by apply ls_grant_leases|].
      intros ->. apply Hnew, ls_live_used. by exists x.
    + apply remembers_insert; [auto with leases|done|by rewrite ls_keepalive_used].
    + intros id' Hid. by rewrite lookup_insert_ne.
    + intros k. by rewrite ls_keepalive_keys, ls_grant_keys.
Qed.

(** ** Clusters *)

Implicit Types (c : cluster) (ev : cluster_event) (u : string).

(** What [uuid.New] draws: not empty, no slash. *)
Definition uuid_ok u : Prop := u ≠ EmptyString ∧ contains_byte "/" u = false.

Lemma nodeKey_inj u u' : uuid_ok u → uuid_ok u' → nodeKey u = nodeKey u' → u = u'.
Proof. intros [] [] Heq. rewrite <- (extract_nodeKey u), <- (extract_nodeKey u') by done. by rewrite Heq. Qed.

(** The keys under the prefix, and the deletions, are those of nodes. *)
Record tidy c : Prop := {
  td_manager : manager_ok (cl_nodes c);
  td_keys k : is_Some (ls_keys (cl_etcd c) !! k) → ∃ u, uuid_ok u ∧ k = nodeKey u;
  td_deleted k : k ∈ cl_deleted c → ∃ u, uuid_ok u ∧ k = nodeKey u;
  td_leases id l : watchers (cl_nodes c) !! id = Some l → l ∈ ls_used (cl_etcd c) }.

Definition drawn_ok ev : Prop := match ev with CRegister _ uuid _ _ => uuid_ok uuid | _ => True end.

(** The node is not registered a second time. *)
Definition quiet u ev : Prop :=
  match ev with CRegister _ uuid _ _ => uuid_ok uuid ∧ uuid ≠ u | _ => True end.

Definition about u ev : Prop :=
  match ev with
  | CHeartbeat _ _ req => hb_node_id req = u
  | CDrain _ _ id | CUncordon _ _ id => id = u
  | _ => False
  end.

Lemma expire_key_mono now e k l : ls_keys (ls_expire now e).2 !! k = Some l → ls_keys e !! k = Some l.
Proof. rewrite ls_expire_keys. destruct (ls_keys e !! k); [|done]. by destruct (_ !! _). Qed.

Lemma node_watch_ok fault now k s : manager_ok s → manager_ok (node_watch_event true fault now k s).
Proof. intros Hs. unfold node_watch_event, node_watch_delete. case_bool_decide; [done|]. by apply markOffline_ok. Qed.

Lemma markOffline_watchers fault now id s id' l :
  watchers (markOffline fault now id s) !! id' = Some l → watchers s !! id' = Some l.
Proof.
  unfold markOffline. destruct (onlineNodes s !! id).
  - destruct (NodeStore.Update _ _ _ _) as [[? ?] ?]. cbn. by intros [_ ?]%lookup_delete_Some.
  - destruct (NodeStore.GetByNodeID _ _ _); [|done]. by destruct (NodeStore.Update _ _ _ _) as [[? ?] ?].
Qed.

Lemma markOffline_watchers_ne fault now id s u :
  id ≠ u → watchers (markOffline fault now id s) !! u = watchers s !! u.
Proof.
  intros Hne. unfold markOffline. destruct (onlineNodes s !! id).
  - destruct (NodeStore.Update _ _ _ _) as [[? ?] ?]. cbn. by rewrite lookup_delete_ne.
  - destruct (NodeStore.GetByNodeID _ _ _); [|done]. by destruct (NodeStore.Update _ _ _ _) as [[? ?] ?].
Qed.

Lemma set_node_status_watchers st fault now id s :
  watchers (set_node_status st fault now id s).2 = watchers s.
Proof.
  unfold set_node_status. destruct (onlineNodes s !! id).
  - by destruct (NodeStore.Update _ _ _ _) as [[? ?] ?].
  - destruct (NodeStore.GetByNodeID _ _ _); [|done]. by destruct (NodeStore.Update _ _ _ _) as [[? ?] ?].
Qed.

Lemma tidy_apply c ev : drawn_ok ev → tidy c → tidy (cluster_apply c ev).
Proof.
  intros Hq [Hm Hk Hd Hw]. destruct c as [s e ks]. cbn [cl_nodes cl_etcd cl_deleted] in *.
  assert (∀ e' ws, remembers e e' (watchers s) ws → ∀ id l, ws !! id = Some l → l ∈ ls_used e') as Hrem.
  { intros e' ws [Hu Hr] id l Hl. destruct (Hr id l Hl) as [Hl'|[_ Hl']]; [by eapply Hu, Hw|done]. }
  destruct ev as [fault uuid now req|fault clk req|now|fault now|fault now id|fault now id].
  - destruct (register_effect fault uuid now req s e ks) as (Hl & Hr & _ & Hdel).
    split; [by apply Register_ok| |by rewrite Hdel|by apply Hrem]. intros k.
    destruct (decide (k = nodeKey uuid)) as [->|Hne].
    + intros _. by exists uuid.
    + rewrite (proj2 (Hl 0 k Hne)). apply Hk.
  - destruct (heartbeat_effect fault clk req s e ks) as (_ & Hr & _ & Hkeys & Hdel).
    split; [cbn; rewrite AgentHeartbeat_state; by apply Heartbeat_ok| |by rewrite Hdel|by apply Hrem].
    intros k. rewrite Hkeys. apply Hk.
  - cbn. pose proof (ls_expire_events now e) as Hev. pose proof (expire_key_mono now e) as Hmono.
    pose proof (ls_expire_used now e) as Hu. destruct (ls_expire now e) as [gone e']. cbn in *. split; cbn; [done|..].
    + intros k [l Hl]. apply Hk. exists l. by apply Hmono.
    + intros k [Hin|Hin]%elem_of_app; [by apply Hd|]. apply Hev in Hin as [Hin _]. by apply Hk.
    + rewrite Hu. exact Hw.
  - cbn. destruct ks as [|k ks]; [done|]. split; cbn; [by apply node_watch_ok|done| |].
    + intros k' Hin. apply Hd. by right.
    + intros id l. unfold node_watch_delete. case_bool_decide; [apply Hw|]. intros Hl%markOffline_watchers. by eapply Hw.
  - split; cbn; [by apply set_node_status_ok|done..|]. unfold DrainNode. by rewrite set_node_status_watchers.
  - split; cbn; [by apply set_node_status_ok|done..|]. unfold UncordonNode. by rewrite set_node_status_watchers.
Qed.

Lemma quiet_drawn u ev : quiet u ev → drawn_ok ev.
Proof. destruct ev; [by intros []|done..]. Qed.

Lemma tidy_applies u c evs : Forall (quiet u) evs → tidy c → tidy (foldl cluster_apply c evs).
Proof.
  intros Hevs. revert c. induction Hevs as [|ev evs Hev _ IH]; intros c Hc; [done|].
  cbn [foldl]. by eapply IH, tidy_apply, Hc; eapply quiet_drawn.
Qed.

(** An event that is not about the node leaves its entry, unless it is the
    deletion of its key. *)
Lemma apply_keeps u c ev :
  uuid_ok u → tidy c → quiet u ev → ¬ about u ev → nodeKey u ∉ cl_deleted c →
  onlineNodes (cl_nodes (cluster_apply c ev)) !! u = onlineNodes (cl_nodes c) !! u.
Proof.
  intros Hu [_ _ Hd _] Hq Ha Hdel. destruct c as [s e ks]. cbn [cl_nodes cl_etcd cl_deleted] in *.
  destruct ev as [fault uuid now req|fault clk req|now|fault now|fault now id|fault now id]; cbn in Hq, Ha |- *.
  - exact (proj1 (Register_keeps (Some (register_replies uuid now e)) fault uuid now req u s (proj2 Hq))).
  - rewrite AgentHeartbeat_state. exact (proj1 (Heartbeat_keeps _ fault clk req u s Ha)).
  - by destruct (ls_expire now e).
  - destruct ks as [|k ks]; [done|]. cbn. destruct (Hd k) as (x & Hx & ->); [by left|].
    refine (proj1 (node_watch_keeps true fault now (nodeKey x) u s _)). intros _. rewrite extract_nodeKey by apply Hx. intros ->. apply Hdel. by left.
  - exact (proj1 (set_node_status_keeps NodeStatusDrain fault now id u s Ha)).
  - exact (proj1 (set_node_status_keeps NodeStatusOnline fault now id u s Ha)).
Qed.

(** ** A node whose key is gone is never reported *)

Definition unreported u c : Prop := ls_keys (cl_etcd c) !! nodeKey u = None.

Lemma other_key u uuid : uuid_ok u → uuid_ok uuid → uuid ≠ u → nodeKey u ≠ nodeKey uuid.
Proof. intros Hu Hx Hne Heq. by apply Hne, eq_sym, nodeKey_inj. Qed.

Lemma unreported_apply u c ev :
  uuid_ok u → quiet u ev → unreported u c →
  unreported u (cluster_apply c ev) ∧
  (nodeKey u ∉ cl_deleted c → nodeKey u ∉ cl_deleted (cluster_apply c ev)).
Proof.
  intros Hu Hq Hno. destruct c as [s e ks]. unfold unreported in *. cbn [cl_etcd cl_deleted] in *.
  destruct ev as [fault uuid now req|fault clk req|now|fault now|fault now id|fault now id]; try done.
  - destruct (register_effect fault uuid now req s e ks) as (Hl & _ & _ & ->). split; [|done].
    rewrite (proj2 (Hl 0 (nodeKey u) (other_key u uuid Hu (proj1 Hq) (proj2 Hq)))). done.
  - destruct (heartbeat_effect fault clk req s e ks) as (_ & _ & _ & Hkeys & ->). by rewrite Hkeys.
  - cbn. pose proof (ls_expire_events now e (nodeKey u)) as Hev. pose proof (ls_expire_keys now e (nodeKey u)) as Hk.
    destruct (ls_expire now e) as [gone e']. cbn in *. rewrite Hno in Hk. split; [done|].
    intros Hdel [Hin|Hin]%elem_of_app; [done|]. apply Hev in Hin as [[x Hx] _]. congruence.
  - cbn. destruct ks as [|k ks]; [done|]. cbn. split; [done|]. intros Hdel Hin. apply Hdel. by right.
Qed.

Lemma unreported_applies u c evs :
  uuid_ok u → Forall (quiet u) evs → unreported u c → unreported u (foldl cluster_apply c evs).
Proof.
  intros Hu Hq. revert c. induction Hq as [|ev evs Hev _ IH]; intros c Hno; [done|].
  cbn [foldl]. by apply IH, unreported_apply.
Qed.

(** However long it is silent, it stays as it is. *)
Lemma unreported_stays u c evs :
  uuid_ok u → tidy c → Forall (quiet u) evs → unreported u c → nodeKey u ∉ cl_deleted c →
  let c' := foldl cluster_apply c evs in
  unreported u c' ∧ (nodeKey u ∉ cl_deleted c') ∧
  (Forall (λ ev, ¬ about u ev) evs → onlineNodes (cl_nodes c') !! u = onlineNodes (cl_nodes c) !! u).
Proof.
  intros Hu Ht Hevs. revert c Ht. induction Hevs as [|ev evs Hq _ IH]; intros c Ht Hno Hdel; [done|].
  cbn [foldl]. destruct (unreported_apply u c ev Hu Hq Hno) as [Hno' Hdel'].
  destruct (IH (cluster_apply c ev)) as (H1' & H2' & H3'); [by eapply tidy_apply, Ht; eapply quiet_drawn|done|by apply Hdel'|].
  split_and!; [done..|]. intros [Ha Has]%Forall_cons. rewrite H3' by done. by apply apply_keeps.
Qed.

(** ** A lease that nobody renews *)

Record abandoned (l : Z) (ttl : Z) (due : Time) u c : Prop := {
  ab_key : ls_keys (cl_etcd c) !! nodeKey u = Some l;
  ab_lease : ls_leases (cl_etcd c) !! l = Some (ttl, due);
  ab_forgotten id : watchers (cl_nodes c) !! id ≠ Some l }.

(** No lease is revoked at the time [due] or later. *)
Definition expires_before (due : Time) ev : Prop :=
  match ev with CExpire now => now < due | _ => True end.

Lemma abandoned_effect l ttl due u s e ks c' :
  abandoned l ttl due u (mkCluster s e ks) → untouched l (nodeKey u) e (cl_etcd c') →
  remembers e (cl_etcd c') (watchers s) (watchers (cl_nodes c')) → abandoned l ttl due u c'.
Proof.
  intros [Hk Hl Hw] [Hl' Hk'] [_ Hr]. cbn in *. split; [by rewrite Hk'|by rewrite Hl'|].
  intros id Hid. destruct (Hr id l Hid) as [Hid'|[Hnew _]]; [by apply (Hw id)|].
  apply Hnew, ls_live_used. by eexists.
Qed.

Lemma abandoned_apply l ttl due u c ev :
  uuid_ok u → quiet u ev → expires_before due ev →
  abandoned l ttl due u c → abandoned l ttl due u (cluster_apply c ev).
Proof.
  intros Hu Hq Hex Hab. destruct c as [s e ks].
  destruct ev as [fault uuid now req|fault clk req|now|fault now|fault now id|fault now id].
  - destruct (register_effect fault uuid now req s e ks) as (Hl & Hr & _).
    eapply abandoned_effect; [exact Hab| |exact Hr]. apply Hl, other_key; [done|apply Hq..].
  - destruct (heartbeat_effect fault clk req s e ks) as (Hl & Hr & _).
    eapply abandoned_effect; [exact Hab| |exact Hr]. apply Hl, (ab_forgotten _ _ _ _ _ Hab).
  - destruct Hab as [Hk Hl Hw]. cbn [cl_etcd cl_nodes cl_deleted] in *. pose proof (ls_expire_keys now e (nodeKey u)) as Hk'.
    pose proof (ls_expire_leases now e l) as Hl'. unfold lease_left in Hl'. rewrite Hl, (proj2 (Z.leb_gt due now) Hex) in Hl'.
    rewrite Hk, Hl' in Hk'. cbn [cluster_apply]. destruct (ls_expire now e) as [gone e']. by split.
  - cbn. destruct ks as [|k ks]; [done|]. destruct Hab as [Hk Hl Hw]. split; [done..|]. cbn in *.
    intros id. unfold node_watch_delete. case_bool_decide; [done|].
    intros Hid%markOffline_watchers. by apply (Hw id).
  - destruct Hab as [Hk Hl Hw]. split; [exact Hk|exact Hl|]. cbn in *. unfold DrainNode. by rewrite set_node_status_watchers.
  - destruct Hab as [Hk Hl Hw]. split; [exact Hk|exact Hl|]. cbn in *. unfold UncordonNode. by rewrite set_node_status_watchers.
Qed.

Lemma abandoned_applies l ttl due u c evs :
  uuid_ok u → Forall (quiet u) evs → Forall (expires_before due) evs →
  abandoned l ttl due u c → abandoned l ttl due u (foldl cluster_apply c evs).
Proof.
  intros Hu Hq. revert c. induction Hq as [|ev evs Hev _ IH]; intros c Hex Hab; [done|].
  apply Forall_cons in Hex as [Hev' Hex]. cbn [foldl]. apply IH; [done|]. by apply abandoned_apply.
Qed.

Lemma abandoned_expires l ttl due u c now :
  abandoned l ttl due u c → due <= now →
  let c' := cluster_apply c (CExpire now) in nodeKey u ∈ cl_deleted c' ∧ unreported u c'.
Proof.
  intros [Hk Hl _] Hnow. destruct c as [s e ks]. cbn [cl_etcd cl_nodes cl_deleted] in *.
  cbn [cluster_apply]. unfold unreported.
  pose proof (ls_expire_keys now e (nodeKey u)) as Hk'. pose proof (ls_expire_leases now e l) as Hl'.
  pose proof (ls_expire_events now e (nodeKey u)) as Hev.
  unfold lease_left in Hl'. rewrite Hl, (proj2 (Z.leb_le due now) Hnow) in Hl'. rewrite Hk, Hl' in Hk'.
  destruct (ls_expire now e) as [gone e']. cbn in *. split; [|done].
  apply elem_of_app. right. apply Hev. split; [by eexists|done].
Qed.

(** ** A registered node that beats *)

Record watched u (l : Z) (due : Time) c : Prop := {
  wa_online : is_Some (onlineNodes (cl_nodes c) !! u);
  wa_lease : watchers (cl_nodes c) !! u = Some l;
  wa_key : ls_keys (cl_etcd c) !! nodeKey u = Some l;
  wa_due : ls_leases (cl_etcd c) !! l = Some (30, due);
  wa_own id : id ≠ u → watchers (cl_nodes c) !! id ≠ Some l;
  wa_deleted : nodeKey u ∉ cl_deleted c;
  wa_row : is_Some (node_rows (nodes_tbl (cl_nodes c)) !! u) }.

(** What happens while the node lives: each of its heartbeats reaches its lease,
    and no lease is revoked 30 seconds after the last of them. *)
Definition lives u (last : Time) c ev : Prop :=
  quiet u ev ∧
  match ev with
  | CHeartbeat _ clk req =>
      hb_node_id req = u →
      keepalive (heartbeat_replies u (clk 0%nat) (cl_nodes c) (cl_etcd c)) = None
  | CExpire now => now < last + 30 * second
  | _ => True
  end.

Definition beat u (last : Time) ev : Time :=
  match ev with
  | CHeartbeat _ clk req => if bool_decide (hb_node_id req = u) then clk 0%nat else last
  | _ => last
  end.

Fixpoint living u (last : Time) c (evs : list cluster_event) : Prop :=
  match evs with
  | [] => True
  | ev :: evs => lives u last c ev ∧ living u (beat u last ev) (cluster_apply c ev) evs
  end.

(** Rows are never removed. *)
Lemma alter_is_Some (f : Node → Node) k u (m : gmap string Node) : is_Some (m !! u) → is_Some (alter f k m !! u).
Proof. by rewrite lookup_alter_is_Some. Qed.

Lemma NodeStore_Update_row fault now n tbl u :
  is_Some (node_rows tbl !! u) → is_Some (node_rows (NodeStore.Update fault now n tbl).2 !! u).
Proof. unfold NodeStore.Update. destruct fault; [done|]. apply alter_is_Some. Qed.

Lemma store_heartbeat_row fault now req s u :
  is_Some (node_rows (nodes_tbl s) !! u) →
  is_Some (node_rows (nodes_tbl (store_heartbeat fault now req s).2) !! u).
Proof.
  unfold store_heartbeat, NodeStore.UpdateHeartbeat. destruct (hb_resources req), fault; cbn; try done; apply alter_is_Some.
Qed.

Lemma row_apply u c ev :
  is_Some (node_rows (nodes_tbl (cl_nodes c)) !! u) →
  is_Some (node_rows (nodes_tbl (cl_nodes (cluster_apply c ev))) !! u).
Proof.
  intros Hrow. destruct c as [s e ks]. cbn [cl_nodes] in *.
  assert (∀ fault now n, let '(_, _, tbl) := NodeStore.Update fault now n (nodes_tbl s) in
    is_Some (node_rows tbl !! u)) as Hup.
  { intros fault now n. pose proof (NodeStore_Update_row fault now n (nodes_tbl s) u Hrow) as Hu.
    by destruct (NodeStore.Update _ _ _ _) as [[? ?] ?]. }
  assert (∀ st fault now id, is_Some (node_rows (nodes_tbl (set_node_status st fault now id s).2) !! u)) as Hset.
  { intros st fault now id. unfold set_node_status. destruct (onlineNodes s !! id) as [n|];
      [|destruct (NodeStore.GetByNodeID _ _ _) as [n|]; [|done]];
      match goal with |- context [NodeStore.Update ?f ?t ?x _] => specialize (Hup f t x) end;
      by destruct (NodeStore.Update _ _ _ _) as [[? ?] ?]. }
  destruct ev as [fault uuid now req|fault clk req|now|fault now|fault now id|fault now id]; cbn; try by apply Hset.
  - unfold AgentRegister. destruct (register_replies uuid now e) as [g p k].
    unfold Register, NodeStore.Create. destruct fault; [done|]. cbn.
    destruct (node_rows (nodes_tbl s) !! uuid) eqn:Hu; [done|].
    assert (∀ n, is_Some (<[uuid := n]> (node_rows (nodes_tbl s)) !! u)) as Hins.
    { intros n. rewrite lookup_insert. case_decide; [by eexists|done]. }
    destruct g; [destruct p|]; apply Hins.
  - rewrite AgentHeartbeat_state. unfold Heartbeat. destruct (onlineNodes s !! hb_node_id req).
    + cbn. destruct (watchers s !! hb_node_id req); [|destruct (grant _); [|done]];
        (destruct (keepalive _); [by apply store_heartbeat_row|done]).
    + destruct (NodeStore.GetByNodeID _ _ _); [by apply store_heartbeat_row|done].
  - by destruct (ls_expire now e).
  - destruct ks as [|k ks]; [done|]. cbn. unfold node_watch_delete. case_bool_decide; [done|].
    unfold markOffline. destruct (onlineNodes s !! extractNodeID k) as [n|];
      [|destruct (NodeStore.GetByNodeID _ _ _) as [n|]; [|done]];
      match goal with |- context [NodeStore.Update ?f ?t ?x _] => specialize (Hup f t x) end;
      by destruct (NodeStore.Update _ _ _ _) as [[? ?] ?].
Qed.

Lemma row_applies u c evs :
  is_Some (node_rows (nodes_tbl (cl_nodes c)) !! u) →
  is_Some (node_rows (nodes_tbl (cl_nodes (foldl cluster_apply c evs))) !! u).
Proof.
  revert c. induction evs as [|ev evs IH]; intros c Hc; [done|]. cbn [foldl]. by apply IH, row_apply.
Qed.

(** Draining changes the status of a cached node, not its being cached. *)
Lemma set_node_status_online st fault now id s u :
  is_Some (onlineNodes s !! u) → is_Some (onlineNodes (set_node_status st fault now id s).2 !! u).
Proof.
  intros Hu. destruct (decide (id = u)) as [->|Hne].
  - destruct Hu as [n Hn]. unfold set_node_status. rewrite Hn.
    destruct (NodeStore.Update _ _ _ _) as [[? ?] ?]. cbn. rewrite lookup_insert_eq. by eexists.
  - by destruct (set_node_status_keeps st fault now id u s Hne) as [-> _].
Qed.

(** The lease of the node through the operations of others. *)
Lemma watched_other u l due s e ks c' :
  watched u l due (mkCluster s e ks) → untouched l (nodeKey u) e (cl_etcd c') →
  remembers e (cl_etcd c') (watchers s) (watchers (cl_nodes c')) →
  watchers (cl_nodes c') !! u = watchers s !! u → cl_deleted c' = ks →
  is_Some (onlineNodes (cl_nodes c') !! u) → is_Some (node_rows (nodes_tbl (cl_nodes c')) !! u) →
  watched u l due c'.
Proof.
  intros [Hon Hw Hk Hl Hown Hdel _] [Hl' Hk'] [_ Hr] Hw' Hdel' Hon' Hrow'. cbn [cl_nodes cl_etcd cl_deleted] in *.
  split; [done|by rewrite Hw'|by rewrite Hk'|by rewrite Hl'| |by rewrite Hdel'|done].
  intros id Hid Heq. destruct (Hr id l Heq) as [Hid'|[Hnew _]]; [by apply (Hown id)|].
  apply Hnew, ls_live_used. by eexists.
Qed.

(** A heartbeat that reaches the lease moves it on. *)
Lemma watched_beat u l due s e ks fault clk req :
  watched u l due (mkCluster s e ks) → hb_node_id req = u →
  keepalive (heartbeat_replies u (clk 0%nat) s e) = None →
  watched u l (clk 0%nat + 30 * second) (cluster_apply (mkCluster s e ks) (CHeartbeat fault clk req)).
Proof.
  intros Hwa Hid Hka. pose proof (row_apply u _ (CHeartbeat fault clk req) (wa_row _ _ _ _ Hwa)) as Hrow.
  destruct Hwa as [[n Hn] Hw Hk Hl Hown Hdel _]. cbn [cl_nodes cl_etcd cl_deleted] in *.
  destruct (heartbeat_effect fault clk req s e ks) as (_ & _ & Hothers & Hkeys & Hdel').
  revert Hothers Hkeys Hdel' Hrow. cbn [cluster_apply cl_nodes cl_etcd cl_deleted].
  rewrite AgentHeartbeat_state, Hid. set (r := heartbeat_replies u (clk 0%nat) s e) in *.
  destruct (Heartbeat_calls r fault clk req s) as
    [(Hno & _)|[(l0 & Hl0 & Hc & Hws)|[(Hno & _)|(Hno & _)]]]; rewrite Hid in *; try congruence.
  assert (l0 = l) as -> by congruence. set (s' := (Heartbeat _ _ _ _ _).2) in *.
  rewrite (replay_calls _ _ _ _ _ Hc). cbn. intros Hothers Hkeys Hdel' Hrow.
  unfold r, heartbeat_replies in Hka. rewrite Hw in Hka.
  destruct (ls_keepalive_ok l (clk 0%nat) e Hka) as (ttl & d & Hl' & Hnew).
  assert (ttl = 30) as -> by congruence. split; cbn.
  - unfold s'. destruct (Heartbeat_cached (Some r) fault clk req s n) as [-> _]; [by rewrite Hid|].
    rewrite Hid, lookup_insert_eq. by eexists.
  - by rewrite Hws.
  - by rewrite Hkeys.
  - exact Hnew.
  - intros id Hne. rewrite Hws. by apply Hown.
  - done.
  - done.
Qed.

Lemma watched_apply u l last c ev :
  uuid_ok u → tidy c → watched u l (last + 30 * second) c → lives u last c ev →
  watched u l (beat u last ev + 30 * second) (cluster_apply c ev).
Proof.
  intros Hu Ht Hwa [Hq Hlive]. pose proof (row_apply u c ev (wa_row _ _ _ _ Hwa)) as Hrow.
  assert (¬ about u ev → is_Some (onlineNodes (cl_nodes (cluster_apply c ev)) !! u)) as Hon.
  { intros Ha. rewrite (apply_keeps u c ev Hu Ht Hq Ha (wa_deleted _ _ _ _ Hwa)). apply Hwa. }
  destruct c as [s e ks].
  destruct ev as [fault uuid now req|fault clk req|now|fault now|fault now id|fault now id]; cbn [beat].
  - destruct (register_effect fault uuid now req s e ks) as (Hl & Hr & Hw & Hdel).
    eapply watched_other; [exact Hwa| |exact Hr|apply Hw, not_eq_sym, (proj2 Hq)|exact Hdel|exact (Hon (λ x, x))|exact Hrow].
    apply Hl, other_key; [done|apply Hq..].
  - case_bool_decide as Hid; [by apply (watched_beat u l (last + 30 * second)); [|done|apply Hlive]|].
    destruct (heartbeat_effect fault clk req s e ks) as (Hl & Hr & Hw & _ & Hdel).
    eapply watched_other; [exact Hwa| |exact Hr|by apply Hw, not_eq_sym|exact Hdel|exact (Hon Hid)|exact Hrow].
    apply Hl. by apply (wa_own _ _ _ _ Hwa).
  - destruct Hwa as [Ho Hw Hk Hl Hown Hdel _]. cbn [cl_nodes cl_etcd cl_deleted] in *.
    revert Hrow. cbn [cluster_apply]. pose proof (ls_expire_events now e (nodeKey u)) as Hev.
    pose proof (ls_expire_keys now e (nodeKey u)) as Hk'. pose proof (ls_expire_leases now e l) as Hl'.
    unfold lease_left in Hl'. rewrite Hl, (proj2 (Z.leb_gt _ now) Hlive) in Hl'. rewrite Hk, Hl' in Hk'.
    destruct (ls_expire now e) as [gone e']. cbn [fst snd cl_nodes cl_etcd cl_deleted] in *. intros Hrow.
    split; try done. intros [Hin|Hin]%elem_of_app; [done|]. apply Hev in Hin as [_ Hin]. congruence.
  - destruct ks as [|k ks]; [exact Hwa|]. specialize (Hon (λ x, x)).
    destruct Hwa as [Ho Hw Hk Hl Hown Hdel _]. cbn [cluster_apply cl_nodes cl_etcd cl_deleted] in *.
    destruct (td_deleted _ Ht k) as (x & Hx & ->); [by left|].
    assert (x ≠ u) as Hne by (intros ->; apply Hdel; by left).
    split; cbn [cl_nodes cl_etcd cl_deleted]; try done.
    + unfold node_watch_event, node_watch_delete. rewrite extract_nodeKey by apply Hx.
      case_bool_decide; [done|]. by rewrite markOffline_watchers_ne.
    + intros id Hid. unfold node_watch_event, node_watch_delete. case_bool_decide; [by apply Hown|].
      intros Heq%markOffline_watchers. by apply (Hown id).
    + intros Hin. apply Hdel. by right.
  - destruct Hwa as [Ho Hw Hk Hl Hown Hdel _].
    split; cbn; unfold DrainNode; rewrite ?set_node_status_watchers; try done. by apply set_node_status_online.
  - destruct Hwa as [Ho Hw Hk Hl Hown Hdel _].
    split; cbn; unfold UncordonNode; rewrite ?set_node_status_watchers; try done. by apply set_node_status_online.
Qed.

(** A registration that etcd answers. *)
Lemma register_watched u now req c :
  uuid_ok u → tidy c → node_rows (nodes_tbl (cl_nodes c)) !! u = None → nodeKey u ∉ cl_deleted c →
  answering (Some (register_replies u now (cl_etcd c))) →
  let c' := cluster_apply c (CRegister None u now req) in
  tidy c' ∧ ∃ l, watched u l (now + 30 * second) c'.
Proof.
  intros Hu Ht Hrow Hdel Hans. split.
  { by apply tidy_apply. }
  destruct c as [s e ks]. cbn [cl_nodes cl_etcd cl_deleted] in *.
  destruct (register_effect None u now req s e ks) as (_ & _ & _ & Hdel'). revert Hdel'.
  cbn [cluster_apply]. unfold AgentRegister. set (r := register_replies u now e) in *. destruct Hans as [Hg Hp].
  destruct (Register_calls r None u now req s) as [[Hc Hw]|[(err & Hg' & _)|(l & n & Hg' & Hc & Hw)]].
  - exfalso. revert Hc. unfold Register, NodeStore.Create. cbn. rewrite Hrow. cbn.
    destruct (grant r); [|done]. destruct (NodeManager.put r); cbn;
      intros Hc; apply (f_equal length) in Hc; rewrite !length_app in Hc; cbn in Hc; lia.
  - by rewrite Hg' in Hg.
  - assert (onlineNodes (Register (Some r) None u now req s).2 !! u ≠ None ∧
            watchers (Register (Some r) None u now req s).2 !! u = Some l ∧
            node_rows (nodes_tbl (Register (Some r) None u now req s).2) !! u ≠ None) as (Hon & Hwa & Hro).
    { unfold Register, NodeStore.Create. cbn. rewrite Hrow. cbn. rewrite Hg'. cbn. rewrite Hp. cbn.
      by rewrite !lookup_insert_eq. }
    set (s' := (Register _ _ _ _ _ _).2) in *. cbn. rewrite (replay_calls _ _ _ _ _ Hc). cbn. intros _.
    unfold r in Hg', Hp. rewrite register_grant in Hg'. unfold register_replies in Hp.
    pose proof (ls_grant_ok 30 now e l Hg') as (Hnew & _ & Hlease).
    destruct (ls_grant 30 now e) as [g e1]. cbn in Hg', Hp, Hlease. subst g.
    pose proof (ls_put_ok (nodeKey u) l now e1 Hp) as Hkey. pose proof (ls_put_leases (nodeKey u) l now e1) as Hle.
    exists l. split; cbn; try done.
    + destruct (onlineNodes s' !! u); [by eexists|done].
    + by rewrite Hle.
    + intros id Hid Heq. destruct Hw as [Hw|Hw]; rewrite Hw in Heq; [|rewrite lookup_insert_ne in Heq by done];
        by apply Hnew, (td_leases _ Ht id).
    + destruct (node_rows (nodes_tbl s') !! u); [by eexists|done].
Qed.

Lemma living_watched u l last c evs :
  uuid_ok u → tidy c → watched u l (last + 30 * second) c → living u last c evs →
  let c' := foldl cluster_apply c evs in
  tidy c' ∧ watched u l (foldl (beat u) last evs + 30 * second) c'.
Proof.
  intros Hu. revert last c. induction evs as [|ev evs IH]; intros last c Ht Hwa Hlive; [done|].
  destruct Hlive as [Hev Hlive]. cbn [foldl]. apply IH; [|by apply watched_apply|done].
  apply tidy_apply; [eapply quiet_drawn, Hev|done].
Qed.

(** *** Delivering the deletions *)

Definition gone u s : Prop :=
  onlineNodes s !! u = None ∧ ∃ row, node_rows (nodes_tbl s) !! u = Some row ∧ NStatus row = NodeStatusOffline.

Lemma deliver_gone fault now u x s :
  uuid_ok u → uuid_ok x → manager_ok s → (∀ i, fault i = None) →
  is_Some (node_rows (nodes_tbl s) !! u) → x = u ∨ gone u s →
  gone u (node_watch_event true fault now (nodeKey x) s).
Proof.
  intros Hu [Hx Hslash] Hs Hf [row Hrow] Hor.
  destruct (lease_expiry_marks_node s x fault now ∅ Hx Hslash Hs Hf) as (_ & Hon & _ & Hoff & Hne).
  unfold gone, node_watch_event. rewrite Hon. destruct (decide (x = u)) as [->|Hxu].
  - split; [by rewrite lookup_delete_eq|]. by apply (Hoff row).
  - destruct Hor as [?|[Hno Hrow']]; [done|]. rewrite lookup_delete_ne, Hne by done. by split.
Qed.

(** All pending deletions, one after the other. *)
Definition deliver_all (fault : nat → option error) (now : Time) c : cluster :=
  foldl cluster_apply c (replicate (length (cl_deleted c)) (CDeliver fault now)).

Lemma deliver_all_gone fault now u c :
  uuid_ok u → tidy c → (∀ i, fault i = None) → is_Some (node_rows (nodes_tbl (cl_nodes c)) !! u) →
  nodeKey u ∈ cl_deleted c ∨ gone u (cl_nodes c) → gone u (cl_nodes (deliver_all fault now c)).
Proof.
  intros Hu Ht Hf Hrow. unfold deliver_all. destruct c as [s e ks]. cbn [cl_deleted cl_nodes] in *.
  revert s Ht Hrow. induction ks as [|k ks IH]; intros s Ht Hrow Hor.
  { by destruct Hor as [Hin%elem_of_nil|?]. }
  cbn [length replicate foldl]. pose proof (tidy_apply _ (CDeliver fault now) I Ht) as Ht'.
  pose proof (row_apply u (mkCluster s e (k :: ks)) (CDeliver fault now) Hrow) as Hrow'.
  destruct (td_deleted _ Ht k) as (x & Hx & ->); [by left|].
  apply IH; [done|done|]. cbn [cluster_apply cl_nodes] in *.
  destruct Hor as [[Hin|Hin]%elem_of_cons|Hg].
  - right. apply deliver_gone; [done..|apply Ht|done|done|]. left. by apply nodeKey_inj.
  - by left.
  - right. apply deliver_gone; [done..|apply Ht|done|done|by right].
Qed.

(** C27 A node that falls silent is found out.  With etcd, from a registration
    that is answered on, whatever other nodes, drains, failing statements and
    deliveries of the watch there are, the node stays in the cache as long as
    its heartbeats reach etcd in time; and when 30 seconds after its last one
    the leases that are due are revoked and the watch has delivered the
    deletions, it is out of the cache and of every selection, and its row is
    offline. *)
Theorem silent_node_detected u t0 req c0 evs :
  uuid_ok u → tidy c0 → node_rows (nodes_tbl (cl_nodes c0)) !! u = None → nodeKey u ∉ cl_deleted c0 →
  answering (Some (register_replies u t0 (cl_etcd c0))) →
  let c1 := cluster_apply c0 (CRegister None u t0 req) in
  living u t0 c1 evs →
  let c2 := foldl cluster_apply c1 evs in
  is_Some (onlineNodes (cl_nodes c2) !! u) ∧
  ∀ now fault t, foldl (beat u) t0 evs + 30 * second <= now → (∀ i, fault i = None) →
    let s3 := cl_nodes (deliver_all fault t (cluster_apply c2 (CExpire now))) in
    onlineNodes s3 !! u = None ∧
    ∃ row, node_rows (nodes_tbl s3) !! u = Some row ∧ NStatus row = NodeStatusOffline.
Proof.
  intros Hu Ht Hrow Hdel Hans c1 Hlive c2.
  destruct (register_watched u t0 req c0) as [Ht1 [l Hwa1]]; [done..|].
  destruct (living_watched u l t0 c1 evs Hu Ht1 Hwa1 Hlive) as [Ht2 Hwa2]. fold c2 in Ht2, Hwa2.
  split; [apply Hwa2|]. intros now fault t Hnow Hf. apply deliver_all_gone; [done| |done| |].
  - by apply tidy_apply.
  - apply row_apply, Hwa2.
  - left. destruct Hwa2 as [_ _ Hk Hl _ _ _]. clearbody c2. destruct c2 as [s e ks]. cbn [cl_nodes cl_etcd] in *.
    cbn [cluster_apply]. pose proof (ls_expire_keys now e (nodeKey u)) as Hk'.
    pose proof (ls_expire_leases now e l) as Hl'. pose proof (ls_expire_events now e (nodeKey u)) as Hev.
    unfold lease_left in Hl'. rewrite Hl, (proj2 (Z.leb_le _ now) Hnow) in Hl'. rewrite Hk, Hl' in Hk'.
    destruct (ls_expire now e) as [ks' e']. cbn in *. apply elem_of_app. right. apply Hev. split; [by eexists|done].
Qed.

Lemma deliver_none fault now c : cl_deleted (deliver_all fault now c) = [].
Proof.
  unfold deliver_all. destruct c as [s e ks]. cbn [cl_deleted]. revert s.
  induction ks as [|k ks IH]; intros s; [done|]. apply IH.
Qed.

Lemma unreported_delivered fault now u c :
  uuid_ok u → unreported u c → unreported u (deliver_all fault now c).
Proof. intros Hu. apply unreported_applies; [done|]. by apply Forall_replicate. Qed.

(** A heartbeat of a node that is not cached takes its row into the cache; one of
    a cached node makes it online. *)
Lemma beat_returns u c fault clk req :
  hb_node_id req = u → fault 0%nat = None → is_Some (node_rows (nodes_tbl (cl_nodes c)) !! u) →
  is_Some (onlineNodes (cl_nodes (cluster_apply c (CHeartbeat fault clk req))) !! u).
Proof.
  intros <- Hf [row Hrow]. destruct c as [s e ks]. cbn [cl_nodes cluster_apply] in *. rewrite AgentHeartbeat_state.
  destruct (onlineNodes s !! hb_node_id req) as [n|] eqn:Hn.
  - rewrite (proj1 (Heartbeat_cached _ fault clk req s n Hn)), lookup_insert_eq. by eexists.
  - unfold Heartbeat. rewrite Hn. unfold NodeStore.GetByNodeID. rewrite Hf, Hrow.
    rewrite (proj1 (store_heartbeat_same _ _ _ _)). cbn. rewrite lookup_insert_eq. by eexists.
Qed.

Lemma beat_online u c fault clk req :
  hb_node_id req = u → is_Some (onlineNodes (cl_nodes c) !! u) →
  ∃ n, onlineNodes (cl_nodes (cluster_apply c (CHeartbeat fault clk req))) !! u = Some n ∧
       NStatus n = NodeStatusOnline.
Proof.
  intros <- [n Hn]. destruct c as [s e ks]. cbn [cl_nodes cluster_apply] in *. rewrite AgentHeartbeat_state.
  exists (refresh (clk 0%nat) req n).
  rewrite (proj1 (Heartbeat_cached _ fault clk req s n Hn)), lookup_insert_eq. split; [done|].
  unfold refresh. by destruct (hb_resources req).
Qed.

(** C28 After a restart of the server the leases mean nothing.  The new server
    does not know the lease of a node and grants another, and only a
    registration puts the key: so the old lease runs out however regularly the
    node beats, and its deletion comes to the watch; when it is delivered, the
    healthy node is taken out of the cache and its row set to offline.  One
    heartbeat takes it into the cache again and the next one makes it online;
    and from then on no deletion of its key ever comes: whatever happens to
    other nodes, however many leases end and events are delivered, and however
    long it is silent, it stays in the cache, online, and a candidate of every
    selection its labels match. *)
Theorem restart_breaks_detection u tbl e l ttl due evs now :
  uuid_ok u → tidy (mkCluster (NewNodeManager <| nodes_tbl := tbl |>) e []) →
  is_Some (node_rows tbl !! u) →
  ls_keys e !! nodeKey u = Some l → ls_leases e !! l = Some (ttl, due) →
  Forall (quiet u) evs → Forall (expires_before due) evs → due <= now →
  let c0 := mkCluster (NewNodeManager <| nodes_tbl := tbl |>) e [] in
  let c1 := cluster_apply (foldl cluster_apply c0 evs) (CExpire now) in
  nodeKey u ∈ cl_deleted c1 ∧
  ∀ fault t, (∀ i, fault i = None) →
    let c2 := deliver_all fault t c1 in
    onlineNodes (cl_nodes c2) !! u = None ∧
    (∃ row, node_rows (nodes_tbl (cl_nodes c2)) !! u = Some row ∧ NStatus row = NodeStatusOffline) ∧
    (∀ fault' clk req, hb_node_id req = u → fault' 0%nat = None →
       is_Some (onlineNodes (cl_nodes (cluster_apply c2 (CHeartbeat fault' clk req))) !! u)) ∧
    ∀ evs2 fault' clk req evs3,
      Forall (quiet u) evs2 → hb_node_id req = u → Forall (quiet u) evs3 → Forall (λ ev, ¬ about u ev) evs3 →
      is_Some (onlineNodes (cl_nodes (foldl cluster_apply c2 evs2)) !! u) →
      let c3 := cluster_apply (foldl cluster_apply c2 evs2) (CHeartbeat fault' clk req) in
      let c4 := foldl cluster_apply c3 evs3 in
      ∃ n, onlineNodes (cl_nodes c4) !! u = Some n ∧ NStatus n = NodeStatusOnline ∧
        ∀ sel, (∀ k v, sel !! k = Some v → k +:+ "=" +:+ v ∈ Labels n ∨ v ∈ Labels n ∨ k ∈ Labels n) →
               n ∈ FindByLabels sel (cl_nodes c4).
Proof.
  intros Hu Ht Hrow Hk Hl Hq Hex Hnow c0 c1.
  assert (abandoned l ttl due u (foldl cluster_apply c0 evs)) as Hab.
  { apply abandoned_applies; [done..|]. split; [done..|]. intros id. cbn. by rewrite lookup_empty. }
  destruct (abandoned_expires l ttl due u _ now Hab Hnow) as [Hin Hno]. fold c1 in Hin, Hno.
  assert (tidy c1) as Ht1 by (apply tidy_apply; [done|by apply (tidy_applies u)]).
  assert (is_Some (node_rows (nodes_tbl (cl_nodes c1)) !! u)) as Hrow1.
  { by apply row_apply, row_applies. }
  split; [exact Hin|]. intros fault t Hf c2.
  destruct (deliver_all_gone fault t u c1) as (Hoff & row & Hr & Hs); [done..|by left|]. fold c2 in Hoff, Hr.
  split; [exact Hoff|]. split; [by exists row|]. split; [intros; apply beat_returns; [done..|by exists row]|].
  intros evs2 fault' clk req evs3 Hq2 Hid Hq3 Ha Hon c3 c4.
  assert (tidy c2) as Ht2 by (apply (tidy_applies u); [by apply Forall_replicate|done]).
  assert (Forall (quiet u) (evs2 ++ [CHeartbeat fault' clk req])) as Hq2' by (apply Forall_app; by repeat constructor).
  destruct (unreported_stays u c2 (evs2 ++ [CHeartbeat fault' clk req]) Hu Ht2 Hq2') as (Hno3 & Hdel3 & _).
  { by apply unreported_delivered. }
  { unfold c2. rewrite deliver_none. apply not_elem_of_nil. }
  rewrite foldl_app in Hno3, Hdel3.
  assert (tidy c3) as Ht3 by (apply tidy_apply; [done|by apply (tidy_applies u)]).
  destruct (unreported_stays u c3 evs3 Hu Ht3 Hq3 Hno3 Hdel3) as (_ & _ & Hstay).
  destruct (beat_online u _ fault' clk req Hid Hon) as (n & Hn & Hst). exists n.
  assert (onlineNodes (cl_nodes c4) !! u = Some n) as Hn4 by (unfold c4; by rewrite Hstay).
  split; [exact Hn4|]. split; [done|]. intros sel Hsel. apply elem_of_FindByLabels. by split; [exists u|].
Qed.
End leases.

(** ** Witnesses: a lease service that keeps the leases it has ended *)

Module SimpleLeases.
Record t : Type := mk { granted : gmap Z (Z * Time * bool); keys : gmap string Z }.

Definition live (x : Z * Time * bool) : option (Z * Time) := if x.2 then Some x.1 else None.
Definition leases (e : t) : gmap Z (Z * Time) := omap live (granted e).
Definition id (e : t) : Z := fresh (dom (granted e)).

Definition grant (ttl : Z) (now : Time) (e : t) : result Z * t :=
  (Ok (id e), mk (<[id e := (ttl, now + ttl * second, true)]> (granted e)) (keys e)).

Definition put (key : string) (lease : Z) (now : Time) (e : t) : option error * t :=
  match leases e !! lease with
  | Some _ => (None, mk (granted e) (<[key := lease]> (keys e)))
  | None => (Some (ErrorString "requested lease not found"), e)
  end.

Definition keepalive (lease : Z) (now : Time) (e : t) : option error * t :=
  match leases e !! lease with
  | Some (ttl, _) => (None, mk (<[lease := (ttl, now + ttl * second, true)]> (granted e)) (keys e))
  | None => (Some (ErrorString "requested lease not found"), e)
  end.

Definition end_due (now : Time) (x : Z * Time * bool) : Z * Time * bool :=
  (x.1, x.2 && negb (x.1.2 <=? now)).

Definition kept (now : Time) (e : t) (kl : string * Z) : Prop :=
  is_Some ((omap live (end_due now <$> granted e)) !! kl.2).
#[export] Instance kept_dec now e kl : Decision (kept now e kl).
Proof. unfold kept. apply _. Defined.

Definition expire (now : Time) (e : t) : list string * t :=
  ((map_to_list (filter (λ kl, ¬ kept now e kl) (keys e))).*1,
   mk (end_due now <$> granted e) (filter (kept now e) (keys e))).
End SimpleLeases.

#[export] Instance simple_leases : LeaseService SimpleLeases.t := {|
  ls_grant := SimpleLeases.grant; ls_put := SimpleLeases.put;
  ls_keepalive := SimpleLeases.keepalive; ls_expire := SimpleLeases.expire |}.

Lemma simple_end_due now (x : option (Z * Time * bool)) :
  (x ≫= λ y, SimpleLeases.live (SimpleLeases.end_due now y)) = lease_left now (x ≫= SimpleLeases.live).
Proof.
  destruct x as [[[ttl due] []]|]; [|done..]. unfold SimpleLeases.live, SimpleLeases.end_due, lease_left.
  cbn [mbind option_bind fst snd andb]. by destruct (due <=? now).
Qed.

#[export] Program Instance simple_leases_ok : LeaseServiceOk SimpleLeases.t := {|
  ls_leases := SimpleLeases.leases; ls_keys := SimpleLeases.keys;
  ls_used e := dom (SimpleLeases.granted e) |}.
Next Obligation.
  intros e l [x Hx]. unfold SimpleLeases.leases in Hx. apply lookup_omap_Some in Hx as (y & _ & Hy).
  by apply elem_of_dom_2 in Hy.
Qed.
Next Obligation. done. Qed.
Next Obligation.
  intros ttl now e l x Hx. cbn. unfold SimpleLeases.leases in *. cbn. rewrite omap_insert. cbn.
  rewrite lookup_insert_ne; [done|]. intros <-. apply lookup_omap_Some in Hx as (y & _ & Hy).
  apply elem_of_dom_2 in Hy. by apply (is_fresh (dom (SimpleLeases.granted e))).
Qed.
Next Obligation.
  intros ttl now e l [= <-]. split_and!; [apply (is_fresh (dom (SimpleLeases.granted e)))|apply elem_of_dom; cbn; rewrite lookup_insert_eq; by eexists|].
  cbn. unfold SimpleLeases.leases. cbn. rewrite omap_insert; cbn; by rewrite lookup_insert_eq.
Qed.
Next Obligation. intros ttl now e. cbn. rewrite dom_insert_L. apply union_subseteq_r. Qed.
Next Obligation. intros key lease now e. cbn. unfold SimpleLeases.put. by destruct (SimpleLeases.leases e !! lease). Qed.
Next Obligation.
  intros lease now e. cbn. unfold SimpleLeases.keepalive, SimpleLeases.leases. rewrite lookup_omap.
  destruct (SimpleLeases.granted e !! lease) as [[[ttl due] []]|] eqn:Hl; cbn; try done.
  rewrite dom_insert_lookup_L; [done|by eexists].
Qed.
Next Obligation. intros now e. cbn. by rewrite dom_fmap_L. Qed.
Next Obligation. intros key lease now e. cbn. unfold SimpleLeases.put. by destruct (SimpleLeases.leases e !! lease). Qed.
Next Obligation.
  intros key lease now e k Hk. cbn. unfold SimpleLeases.put. destruct (SimpleLeases.leases e !! lease); [|done]. cbn.
  by rewrite lookup_insert_ne.
Qed.
Next Obligation.
  intros key lease now e. cbn. unfold SimpleLeases.put. destruct (SimpleLeases.leases e !! lease); [|done]. cbn.
  by rewrite lookup_insert_eq.
Qed.
Next Obligation. intros lease now e. cbn. unfold SimpleLeases.keepalive. by destruct (SimpleLeases.leases e !! lease) as [[? ?]|]. Qed.
Next Obligation.
  intros lease now e l Hl. cbn. unfold SimpleLeases.keepalive.
  destruct (SimpleLeases.leases e !! lease) as [[ttl due]|]; [|done]. cbn. unfold SimpleLeases.leases.
  cbn. rewrite omap_insert; cbn; by rewrite lookup_insert_ne.
Qed.
Next Obligation.
  intros lease now e. cbn. unfold SimpleLeases.keepalive.
  destruct (SimpleLeases.leases e !! lease) as [[ttl due]|] eqn:Hl; [|done]. intros _. exists ttl, due.
  split; [done|]. cbn. unfold SimpleLeases.leases. cbn. rewrite omap_insert; cbn; by rewrite lookup_insert_eq.
Qed.
Next Obligation.
  intros now e l. cbn. unfold SimpleLeases.leases. cbn. rewrite !lookup_omap, lookup_fmap.
  destruct (SimpleLeases.granted e !! l) as [x|]; [|done]. apply (simple_end_due now (Some x)).
Qed.
Next Obligation.
  intros now e k. cbn. rewrite map_lookup_filter. destruct (SimpleLeases.keys e !! k) as [l|]; [|done]. cbn.
  unfold SimpleLeases.leases. cbn. destruct (decide (SimpleLeases.kept now e (k, l))) as [Hl|Hl].
  - rewrite option_guard_True by done. destruct Hl as [x Hx]. cbn in Hx. by rewrite Hx.
  - rewrite option_guard_False by done. unfold SimpleLeases.kept in Hl. cbn in Hl.
    destruct (omap SimpleLeases.live _ !! l); [by destruct Hl|done].
Qed.
Next Obligation.
  intros now e k. cbn. rewrite list_elem_of_fmap. split.
  - intros ([k' l] & -> & Hin). apply elem_of_map_to_list, map_lookup_filter_Some in Hin as [Hk Hno].
    cbn. split; [by eexists|]. apply map_lookup_filter_None. right. intros l' Hl'. by assert (l' = l) as -> by congruence.
  - intros [[l Hk] Hno]. exists (k, l). split; [done|]. apply elem_of_map_to_list, map_lookup_filter_Some.
    split; [done|]. apply map_lookup_filter_None in Hno as [Hno|Hno]; [congruence|by apply Hno].
Qed.

(** A node that registers and beats twice, with another beside it. *)
Definition demo_beat (t : Time) : cluster_event := CHeartbeat (λ _, None) (λ _, t) sample_heartbeat.

Definition demo_cluster : cluster := mkCluster NewNodeManager (SimpleLeases.mk ∅ ∅) [].

Definition demo_life : list cluster_event :=
  [demo_beat (10 * second); CRegister None "n2" (12 * second) sample_register;
   CExpire (15 * second); demo_beat (20 * second); CExpire (49 * second); CDeliver (λ _, None) 0].

Lemma demo_named (u : string) : u = "n1"%string ∨ u = "n2"%string → uuid_ok u.
Proof. by intros [-> | ->]. Qed.

Lemma demo_cluster_tidy : tidy demo_cluster.
Proof.
  split; cbn.
  - apply NewNodeManager_ok.
  - intros k [l Hl]. by rewrite lookup_empty in Hl.
  - intros k Hk. by apply elem_of_nil in Hk.
  - intros id l. by rewrite lookup_empty.
Qed.

Lemma silent_node_detected_witness :
  let c1 := cluster_apply demo_cluster (CRegister None "n1" 0 sample_register) in
  let c2 := foldl cluster_apply c1 demo_life in
  is_Some (onlineNodes (cl_nodes c2) !! "n1"%string) ∧
  onlineNodes (cl_nodes (deliver_all (λ _, None) 0 (cluster_apply c2 (CExpire (50 * second))))) !! "n1"%string = None.
Proof.
  intros c1 c2.
  destruct (silent_node_detected "n1" 0 sample_register demo_cluster demo_life) as [Hon Hoff].
  - apply demo_named. by left.
  - exact demo_cluster_tidy.
  - reflexivity.
  - intros Hk. by apply elem_of_nil in Hk.
  - vm_compute. by split.
  - assert (uuid_ok "n2") by (apply demo_named; by right).
    split; [split; [exact I|vm_compute; reflexivity]|].
    split; [split; [split; [assumption|discriminate]|exact I]|].
    split; [split; [exact I|vm_compute; reflexivity]|].
    split; [split; [exact I|vm_compute; reflexivity]|].
    split; [split; [exact I|vm_compute; reflexivity]|].
    split; [split; [exact I|exact I]|exact I].
  - split; [exact Hon|]. apply (Hoff (50 * second) (λ _, None) 0); [vm_compute; discriminate|done].
Defined.

(** The server restarts two seconds after the registration of the node. *)
Definition demo_registered : cluster := cluster_apply demo_cluster (CRegister None "n1" 0 sample_register).

Definition demo_restarted : cluster :=
  mkCluster (NewNodeManager <| nodes_tbl := nodes_tbl (cl_nodes demo_registered) |>) (cl_etcd demo_registered) [].

Lemma demo_restarted_tidy : tidy demo_restarted.
Proof.
  assert (tidy demo_registered) as [[_ Hrows] Hk _ _].
  { apply tidy_apply; [apply demo_named; by left|exact demo_cluster_tidy]. }
  split; cbn [cl_nodes cl_etcd cl_deleted demo_restarted].
  - split; [|exact Hrows]. intros id n. cbn. by rewrite lookup_empty.
  - exact Hk.
  - intros k Hin. by apply elem_of_nil in Hin.
  - intros id l. cbn. by rewrite lookup_empty.
Qed.

(** It beats every ten seconds and is expelled; then it beats twice more and
    falls silent for eleven days. *)
Lemma restart_breaks_detection_witness :
  let c1 := cluster_apply (foldl cluster_apply demo_restarted
              [demo_beat (5 * second); demo_beat (15 * second); demo_beat (25 * second)]) (CExpire (30 * second)) in
  let c2 := deliver_all (λ _, None) 0 c1 in
  let c3 := cluster_apply (foldl cluster_apply c2 [demo_beat (35 * second)]) (demo_beat (45 * second)) in
  let c4 := foldl cluster_apply c3 [CExpire (1000000 * second); CDeliver (λ _, None) 0] in
  nodeKey "n1" ∈ cl_deleted c1 ∧ onlineNodes (cl_nodes c2) !! "n1"%string = None ∧
  ∃ n, onlineNodes (cl_nodes c4) !! "n1"%string = Some n ∧ NStatus n = NodeStatusOnline.
Proof.
  intros c1 c2 c3 c4.
  destruct (restart_breaks_detection "n1" (nodes_tbl (cl_nodes demo_registered)) (cl_etcd demo_registered)
    0 30 (30 * second) [demo_beat (5 * second); demo_beat (15 * second); demo_beat (25 * second)] (30 * second))
    as [Hin Hstay].
  - apply demo_named. by left.
  - exact demo_restarted_tidy.
  - apply (bool_decide_unpack _). vm_compute. exact I.
  - vm_compute. reflexivity.
  - vm_compute. reflexivity.
  - repeat constructor.
  - repeat constructor.
  - vm_compute. discriminate.
  - destruct (Hstay (λ _, None) 0 (λ _, eq_refl)) as (Hoff & _ & _ & Hon).
    split; [exact Hin|]. split; [exact Hoff|].
    destruct (Hon [demo_beat (35 * second)] (λ _, None) (λ _, 45 * second) sample_heartbeat
                [CExpire (1000000 * second); CDeliver (λ _, None) 0]) as (n & Hn & Hst & _).
    + repeat constructor.
    + reflexivity.
    + repeat constructor.
    + constructor; [by intros []|constructor; [by intros []|constructor]].
    + apply (bool_decide_unpack _). vm_compute. exact I.
    + exists n. exact (conj Hn Hst).
Defined.
