(* ===== verification/Agent.v ===== *)
(** * The agent ([cmd/agent/main.go])

    One round of the agent's polling loop: the task it builds from the answer
    to [PullTask], the run of that task on the agent's machine, and the report
    it sends back.  What it reads of its machine is in the file Machine, its
    start and its heartbeats in the file Membership. *)

From S2P Require Import Prelude GoStrings Model TaskQueue InMemQueue TaskStore NodeStore.
From S2P Require Import NodeManager Runtime Invariant TaskService Scheduler Executor.
From S2P Require Import SchedulerSpec GrpcServer Concrete.

(** The task [executeTask] builds; [uid] is the one [NewTask] draws and the
    answer's replaces. *)
Definition agent_task (uid : string) (now : Time) (req : PullTaskResponse) : Task :=
  (NewTask uid now (pull_Name req) (pull_Command req))
    <| TaskUID := pull_TaskUid req |> <| Workdir := pull_Workdir req |>
    <| Model.Env := pull_Env req |> <| TimeoutSec := pull_TimeoutSec req |>.

Definition report (req : PullTaskResponse) (result : TaskResult) : ResultRequest := {|
  res_TaskUid := pull_TaskUid req;
  res_ExitCode := wrap32 (tr_ExitCode result);
  res_Stdout := tr_Stdout result;
  res_Stderr := tr_Stderr result;
  res_ErrorMessage := match tr_Error result with Some e => Error e | None => EmptyString end;
  res_TimedOut := tr_TimedOut result |}.

Definition executeTask `{MapRange} (environ : list string) (os : Cmd → Process) (uid : string)
    (now : Time) (req : PullTaskResponse) : ResultRequest :=
  report req (Run environ os (agent_task uid now req)).

(** One tick of [taskPollLoop]: the run it starts, if any; [None] as the answer
    is a failed call. *)
Definition poll (resp : option PullTaskResponse) : option PullTaskResponse :=
  match resp with
  | None => None
  | Some resp => if bool_decide (pull_TaskUid resp = EmptyString) then None else Some resp
  end.

Section protocol.
Context {Q K R : Type} `{HostOk} `{TaskQueue Q} `{Etcd K} `{Redis R}.
Abbreviation W := (World Q K R).
Implicit Types (w : W).

(** Only the text of an error reaches the table. *)
Lemma HandleRemoteResult_text uid result result' w :
  tr_ExitCode result = tr_ExitCode result' → tr_Stdout result = tr_Stdout result' →
  tr_Stderr result = tr_Stderr result' → tr_TimedOut result = tr_TimedOut result' →
  Error <$> tr_Error result = Error <$> tr_Error result' →
  HandleRemoteResult uid result w = HandleRemoteResult uid result' w.
Proof.
  intros Hx Ho Hoe Ht He. unfold HandleRemoteResult, completeTask. rewrite Hx, Ho, Hoe, Ht.
  destruct (tr_Error result) as [e|], (tr_Error result') as [e'|]; try done.
  injection He as He. by rewrite He.
Qed.

Lemma report_result w (req : PullTaskResponse) (result : TaskResult) :
  in_i32 (tr_ExitCode result) → (∀ e, tr_Error result = Some e → Error e ≠ EmptyString) →
  (ReportResult true (report req result) w).2
    = (HandleRemoteResult (pull_TaskUid req) result w).2.
Proof.
  intros Hx He. unfold ReportResult, mbind, M_bind. cbn [negb fst snd mret M_ret].
  erewrite HandleRemoteResult_text; [reflexivity|..]; try done.
  - cbn. by rewrite wrap_id.
  - cbn. destruct (tr_Error result) as [e|]; [|done].
    rewrite bool_decide_eq_false_2 by by apply He. done.
Qed.

(** The answer to an agent that polls a node with one task waiting. *)
Lemma PullTask_one w nodeID l :
  channel w nodeID = [l] → in_i32 (TimeoutSec (deref (w_mem w) l)) →
  let t := deref (w_mem w) l in
  ∃ w', PullTask true nodeID w =
          (mkPull (TaskUID t) (Name t) (Command t) (Workdir t) (Model.Env t) (TimeoutSec t), w') ∧
        channel w' nodeID = [] ∧ w_db w' = w_db w ∧ w_queue w' = w_queue w.
Proof.
  unfold channel, PullTask, GetNextTaskForNode, mbind, M_bind. cbn [negb].
  destruct (nodeTasks (w_sched w) !! nodeID) as [ch|] eqn:Hn; cbn [default from_option id]; [|done].
  intros -> Ht. eexists. split; [cbn; unfold response_of; by rewrite wrap_id|].
  cbn. by rewrite lookup_insert_eq.
Qed.

(** A report loses nothing the server uses: when the exit code fits the
    message's 32 bits and an error has a text, reporting a result has the
    effect of handing the result itself to [HandleRemoteResult]. *)
Lemma report_roundtrip w (req : PullTaskResponse) (result : TaskResult) :
  in_i32 (tr_ExitCode result) → (∀ e, tr_Error result = Some e → Error e ≠ EmptyString) →
  (ReportResult true (report req result) w).2
    = (HandleRemoteResult (pull_TaskUid req) result w).2.
Proof. apply report_result. Qed.

(** C18 A remote execution from end to end, when the database answers.  A pending
    task dispatched to a node with an empty channel is the answer to the
    agent's next poll, with its command, directory, environment and timeout;
    the agent starts it, and its report ends the row: as success with the
    process's exit code and output and nothing enqueued, or, when the run
    failed and retries are left, as pending with one more retry and the
    failure's message.  The channel is empty again. *)
Theorem remote_execution w l (node : Node) (r : TaskRow) (environ : list string)
    (os : Cmd → Process) (uid : string) (n : Time) :
  (∀ i, db_fault i = None) → in_mem (w_mem w) l →
  let t := deref (w_mem w) l in
  Status t = TaskStatusPending → rows (w_db w) !! TaskUID t = Some r → c_task_uid r = TaskUID t →
  in_i32 (TimeoutSec t) → TaskUID t ≠ EmptyString → channel w (NodeID node) = [] →
  let w1 := (dispatchRemote l node w).2 in
  let (resp, w2) := PullTask true (NodeID node) w1 in
  let result := Run environ os (agent_task uid n resp) in
  in_i32 (tr_ExitCode result) → (∀ e, tr_Error result = Some e → Error e ≠ EmptyString) →
  let w3 := (ReportResult true (executeTask environ os uid n resp) w2).2 in
  poll (Some resp) = Some resp ∧
  resp = mkPull (TaskUID t) (Name t) (Command t) (Workdir t) (Model.Env t) (TimeoutSec t) ∧
  channel w3 (NodeID node) = [] ∧
  match tr_Error result with
  | None =>
      w_queue w3 = w_queue w ∧
      ∃ r', rows (w_db w3) !! TaskUID t = Some r' ∧ c_status r' = TaskStatusSuccess ∧
        c_exit_code r' = Some (tr_ExitCode result) ∧ c_stdout r' = Some (tr_Stdout result) ∧
        c_stderr r' = Some (tr_Stderr result)
  | Some e =>
      RetryCount t < MaxRetries t →
      ∃ r', rows (w_db w3) !! TaskUID t = Some r' ∧ c_status r' = TaskStatusPending ∧
        c_retry_count r' = RetryCount t +64 1 ∧
        c_error_message r' = Some (if tr_TimedOut result then "task timed out"%string else Error e)
  end.
Proof.
  intros Hf Hl t Hs Hr Hu Ht Hne Hch w1.
  destruct (dispatchRemote_result w l t node Hl Hf Hs) as (wa & Hd & Hm & Hsv & _ & Hn & Hq).
  replace (put w l t) with w in Hd by (symmetry; by apply put_self). set (t1 := remote_start w node t) in *.
  destruct (hand_over_result (put wa l t1) (w_ctx w) l (NodeID node)) as (Em & Edb & Eq & _ & Hch1).
  assert (channel (put wa l t1) (NodeID node) = []) as Hch0.
  { unfold channel in *. cbn. by rewrite Hn. }
  rewrite Hch0, decide_True in Hch1 by (simpl; lia). destruct Hch1 as [Hch1 _].
  subst w1. rewrite Hd. set (w1 := (hand_over _ _ _ _).2) in *.
  assert (deref (w_mem w1) l = t1) as Ht1 by (rewrite Em; apply deref_put; by rewrite Hm).
  destruct (PullTask_one w1 (NodeID node) l Hch1) as (w2 & Hpull & Hch2 & Hdb2 & Hq2).
  { rewrite Ht1. exact Ht. }
  rewrite Ht1 in Hpull. rewrite Hpull. intros result Hx He w3.
  assert (rows (w_db w2) !! TaskUID t = Some (update_row t1 r)) as Hrow.
  { rewrite Hdb2, Edb. exact (saved_row w wa t1 r Hsv Hr). }
  assert (w3 = (HandleRemoteResult (TaskUID t) result w2).2) as -> by (by apply report_result).
  split; [unfold poll; by rewrite bool_decide_eq_false_2|]. split; [done|].
  destruct (tr_Error result) as [e|] eqn:Herr.
  - destruct (error_report_result w2 (TaskUID t) (update_row t1 r) result e Hf Hrow Hu Herr)
      as (Hnt & Hrow').
    split; [unfold channel in *; by rewrite Hnt|]. intros Hretry.
    destruct (Hrow' Hretry) as (l' & r' & Hlook & Hst & _ & Hrc & Hmsg & _). by exists r'.
  - destruct (success_report_result w2 (TaskUID t) (update_row t1 r) result Hf Hrow Hu eq_refl Herr)
      as (Hnt & Hqr & Hrow').
    split; [unfold channel in *; by rewrite Hnt|]. split; [|done]. rewrite Hqr, Hq2, Eq. exact Hq.
Qed.
End protocol.

(** ** Witnesses: the demo task on a node whose process prints a line *)

Definition greeting : Cmd → Process := λ _,
  mkProcess None None ("hi" +:+ String newline EmptyString) EmptyString Exited None.

Lemma report_roundtrip_witness :
  let req := mkPull "uuid-0" "demo" "make" "/tmp" ∅ 300 in
  status_of (exec (ReportResult true (report req succeeded)) demo_running) "uuid-0" = Some TaskStatusSuccess.
Proof.
  intros req. unfold exec.
  rewrite (report_roundtrip demo_running req succeeded) by (by vm_compute). vm_compute. reflexivity.
Defined.

Lemma remote_execution_witness :
  let node := NewNode "node-1" 0 "h" "i" "v" 16 4096 100 [] in
  let w := exec (assign 0 (λ t, t <| Status := TaskStatusPending |>)) demo_created in
  let w1 := (dispatchRemote 0 node w).2 in
  let resp := (PullTask true "node-1" w1).1 in
  let w3 := (ReportResult true (executeTask [] greeting "u" 0 resp) (PullTask true "node-1" w1).2).2 in
  pull_Command resp = "make" ∧
  ∃ r', rows (w_db w3) !! "uuid-0"%string = Some r' ∧ c_status r' = TaskStatusSuccess ∧
        c_stdout r' = Some ("hi" +:+ String newline EmptyString).
Proof.
  intros node w w1 resp w3.
  destruct (rows (w_db w) !! "uuid-0"%string) as [r|] eqn:Hr; [|vm_compute in Hr; discriminate].
  assert (c_task_uid r = "uuid-0") as Hu.
  { assert (c_task_uid <$> rows (w_db w) !! "uuid-0"%string = Some "uuid-0") as Hc by (vm_compute; reflexivity).
    rewrite Hr in Hc. by injection Hc. }
  assert (in_mem (w_mem w) 0) as Hl by (vm_compute; lia).
  pose proof (remote_execution w 0 node r [] greeting "u" 0 (λ _, eq_refl) Hl eq_refl Hr Hu) as Hex.
  cbv zeta in Hex. fold w1 in Hex. unfold w3, resp.
  change (NodeID node) with "node-1" in Hex.
  destruct (PullTask true "node-1" w1) as [resp' w2]. cbn [fst snd].
  destruct Hex as (_ & -> & _ & Hout); [by vm_compute|done|by vm_compute|by vm_compute|done|].
  split; [reflexivity|]. destruct Hout as (_ & r' & Hlook & Hst & _ & Ho & _).
  exists r'. split; [exact Hlook|]. split; [exact Hst|]. exact Ho.
Defined.
