(* ===== verification/AgentProcess.v ===== *)
(** * The agent's process ([cmd/agent/main.go])

    What goes on after the registration: the heartbeat and the polling loop, the
    executions they start, each in a goroutine of its own, and the signal that
    ends them all.  A tick of a loop and the end of an execution are events; what
    the agent sends to the server is its output. *)

From S2P Require Import Prelude GoStrings Model TaskStore NodeStore NodeManager GrpcServer.
From S2P Require Import Runtime Invariant TaskService Scheduler Executor Machine Membership Agent.

(** The goroutines that execute a task, and whether [main] is still waiting for
    the signal. *)
Record AgentState : Type := mkAgent {
  ag_node : string;
  ag_executing : list PullTaskResponse;
  ag_alive : bool }.

(** The agent after [main] has started its loops. *)
Definition start_loops (nodeID : string) : AgentState := mkAgent nodeID [] true.

(** The calls of the agent; the last two are the deferred ones of [main]. *)
Inductive agent_call : Type :=
| CallHeartbeat (req : HeartbeatRequest)
| CallPullTask (nodeID : string)
| CallReportResult (req : ResultRequest)
| CloseConn
| CancelDial.

(** A tick of the heartbeats, a tick of the polling loop with the answer to its
    call ([None] is a failed one), the end of the [i]-th execution, a signal. *)
Inductive agent_event : Type :=
| HeartbeatTick (m : Machine)
| PollTick (resp : option PullTaskResponse)
| ExecutionEnds (i : nat) (result : TaskResult)
| Interrupt.

Definition agent_event_step (a : AgentState) (ev : agent_event) : AgentState * list agent_call :=
  if ag_alive a then
    match ev with
    | HeartbeatTick m => (a, [CallHeartbeat (heartbeat_request (ag_node a) m)])
    | PollTick resp =>
        (mkAgent (ag_node a) (ag_executing a ++ option_list (poll resp)) true, [CallPullTask (ag_node a)])
    | ExecutionEnds i result =>
        match ag_executing a !! i with
        | Some req =>
            (mkAgent (ag_node a) (delete i (ag_executing a)) true, [CallReportResult (report req result)])
        | None => (a, [])
        end
    | Interrupt => (mkAgent (ag_node a) [] false, [CloseConn; CancelDial])
    end
  else (a, []).

Fixpoint agent_run (a : AgentState) (evs : list agent_event) : AgentState * list agent_call :=
  match evs with
  | [] => (a, [])
  | ev :: evs =>
      let '(a, out) := agent_event_step a ev in
      let '(a, outs) := agent_run a evs in (a, out ++ outs)
  end.

(** ** Every task that is pulled is reported once *)

Definition pulled (ev : agent_event) : list string :=
  match ev with PollTick resp => pull_TaskUid <$> option_list (poll resp) | _ => [] end.

Definition reported_uid (c : agent_call) : list string :=
  match c with CallReportResult req => [res_TaskUid req] | _ => [] end.

Abbreviation executing a := (pull_TaskUid <$> ag_executing a).

Lemma step_reports a ev :
  ag_alive a = true → ev ≠ Interrupt →
  let '(a', out) := agent_event_step a ev in
  ag_alive a' = true ∧
  mbind reported_uid out ++ executing a' ≡ₚ executing a ++ pulled ev.
Proof.
  intros Ha Hev. unfold agent_event_step. rewrite Ha.
  destruct ev as [m|resp|i result|]; [..|done]; cbn [pulled]; rewrite ?app_nil_r.
  - by split.
  - split; [done|]. cbn. by rewrite fmap_app.
  - destruct (ag_executing a !! i) as [req|] eqn:Hi; [|by split]. split; [done|]. cbn.
    symmetry. apply (fmap_Permutation pull_TaskUid _ (req :: delete i (ag_executing a))).
    by apply delete_Permutation.
Qed.

(** Until a signal arrives, the tasks pulled are those reported and those still
    executing. *)
Lemma run_reports a evs :
  ag_alive a = true → Interrupt ∉ evs →
  let '(a', outs) := agent_run a evs in
  ag_alive a' = true ∧
  mbind reported_uid outs ++ executing a' ≡ₚ executing a ++ mbind pulled evs.
Proof.
  revert a. induction evs as [|ev evs IH]; intros a Ha Hev; [by rewrite app_nil_r|].
  rewrite not_elem_of_cons in Hev. destruct Hev as [Hne Hev]. cbn [agent_run].
  pose proof (step_reports a ev Ha ltac:(congruence)) as Hstep.
  destruct (agent_event_step a ev) as [a1 out]. destruct Hstep as [Ha1 Hp].
  specialize (IH a1 Ha1 Hev). destruct (agent_run a1 evs) as [a2 outs]. destruct IH as [Ha2 Hq].
  split; [done|]. rewrite bind_app, bind_cons, <- app_assoc, Hq, app_assoc, Hp. by rewrite app_assoc.
Qed.

Lemma pulls_reported nodeID evs :
  Interrupt ∉ evs →
  let '(a, outs) := agent_run (start_loops nodeID) evs in
  mbind reported_uid outs ++ executing a ≡ₚ mbind pulled evs.
Proof.
  intros Hev. pose proof (run_reports (start_loops nodeID) evs eq_refl Hev) as Hrun.
  destruct (agent_run _ evs) as [a outs]. by destruct Hrun as [_ ->].
Qed.

(** A signal ends the process at once: what it executes is not reported, then or
    later.  On the server these tasks stay running until their deadline. *)
Lemma interrupt_loses a evs1 evs2 :
  ag_alive a = true → Interrupt ∉ evs1 →
  let '(a1, outs1) := agent_run a evs1 in
  agent_run a (evs1 ++ Interrupt :: evs2) = (mkAgent (ag_node a1) [] false, outs1 ++ [CloseConn; CancelDial]).
Proof.
  revert a. induction evs1 as [|ev evs IH]; intros a Ha Hev.
  - cbn [agent_run app]. unfold agent_event_step. rewrite Ha. cbv iota beta.
    assert (∀ b, ag_alive b = false → agent_run b evs2 = (b, [])) as Hdead; [|by rewrite Hdead].
    intros b Hb. induction evs2 as [|ev evs IH]; [done|]. cbn [agent_run]. unfold agent_event_step.
    by rewrite Hb, IH.
  - rewrite not_elem_of_cons in Hev. destruct Hev as [Hne Hev]. cbn [agent_run app].
    pose proof (step_reports a ev Ha ltac:(congruence)) as Hstep.
    destruct (agent_event_step a ev) as [a1 out]. destruct Hstep as [Ha1 _].
    specialize (IH a1 Ha1 Hev). destruct (agent_run a1 evs) as [a2 outs]. rewrite IH. by rewrite app_assoc.
Qed.
