(* ===== verification/System.v ===== *)
(** * The server as a transition system

    Requests, agents, executions that end, messages, configuration changes
    and the scheduling cycle interleave.  Each handler is one step; the cycle
    is cut at its iterations, so that anything can happen between reading the
    running tasks, failing the timed-out ones, and dispatching each task of
    the queue.  The services outside the program (Redis, etcd) and the node
    manager may change in any way at any time. *)

From stdpp Require Import relations.
From S2P Require Import Prelude GoStrings GoFormat Model TaskQueue TaskStore NodeStore.
From S2P Require Import NodeManager Runtime Invariant TaskService Scheduler InMemQueue.
From S2P Require Import Concrete SchedulerSpec.

(** Where the scheduling cycle is. *)
Inductive phase : Type :=
| Idle
| Scanning (n : Time) (todo : list loc) (allocatedCPU allocatedMem running : Z)
| Popping (b : avail).

Section system.
Context {Q K R : Type} `{HostOk} `{TaskQueueOk Q} `{Etcd K} `{Redis R}.
Context (L : Limits).
Abbreviation W := (World Q K R).
Implicit Types (w : W) (p : phase).

(** The configured maximum never exceeds the limit. *)
Definition config_within (key value : string) : Prop :=
  HasSuffix key "/max_concurrent_tasks" = true → Sscanf_d value <= cap L.

(** *** Everything but the scheduling cycle *)

Inductive other_step w : W → Prop :=
| other_create req : other_step w (CreateTask req w).2
| other_get uid : other_step w (GetTask uid w).2
| other_cancel uid : other_step w (CancelTask uid w).2
| other_rerun uid : other_step w (RerunTask uid w).2
| other_pull nodeID : other_step w (GetNextTaskForNode nodeID w).2
| other_report uid result : other_step w (HandleRemoteResult uid result w).2
| other_done ctx l result :
    (ctx, l) ∈ w_running w → other_step w (execution_done ctx l result w).2
| other_message ch rest :
    w_pubsub w = ch :: rest → other_step w (cancel_message ch (w <| w_pubsub := rest |>)).2
| other_lost ch rest : w_pubsub w = ch :: rest → other_step w (w <| w_pubsub := rest |>)
| other_config key value :
    config_within key value → other_step w (config_changed key value w).2
| other_background n : other_step w (w <| w_queue := q_background n (w_queue w) |>)
| other_nodes nm : other_step w (w <| w_nodes := Some nm |>)
| other_redis r : is_Some (w_redis w) → other_step w (w <| w_redis := Some r |>)
| other_etcd k : is_Some (w_etcd w) → other_step w (w <| w_etcd := Some k |>).

Definition state : Type := W * phase.

(** *** The scheduling cycle, cut at its iterations *)

Inductive cycle_step : state → state → Prop :=
| step_tick_failed w w' e :
    store_GetRunningTasks w = (Err e, w') → cycle_step (w, Idle) (w', Idle)
| step_tick w w' w'' ls n :
    store_GetRunningTasks w = (Ok ls, w') → now w' = (n, w'') →
    cycle_step (w, Idle) (w'', Scanning n ls 0 0 (Z.of_nat (length ls)))
| step_scan w n l ls c m k :
    let t := deref (w_mem w) l in
    cycle_step (w, Scanning n (l :: ls) c m k)
         ((scan_one n l w).2, Scanning n ls (c +64 CPULimit t) (m +64 MemoryLimit t) k)
| step_scanned w n c m k :
    cycle_step (w, Scanning n [] c m k) (w, Popping (available (w_sched w) c m k))
| step_pop w w' b b' :
    0 < b.2 → pop_one b w = (Some b', w') → cycle_step (w, Popping b) (w', Popping b')
| step_empty w w' b :
    0 < b.2 → pop_one b w = (None, w') → cycle_step (w, Popping b) (w', Idle)
| step_full w b : b.2 <= 0 → cycle_step (w, Popping b) (w, Idle).

Inductive step : state → state → Prop :=
| step_other w w' p : other_step w w' → step (w, p) (w', p)
| step_cycle s s' : cycle_step s s' → step s s'.

(** A server that has just started, on a table that may hold tasks of an
    earlier run. *)
Definition initial w : Prop := w_ok L w ∧ within L b000 w.

Definition reachable w0 (s : state) : Prop := rtc step (w0, Idle) s.

(** *** The invariant of the cycle *)

Abbreviation Inv := (Inv (Q:=Q) (K:=K) (R:=R) L).

Definition phase_inv (s : state) : Prop :=
  let '(w, p) := s in
  match p with
  | Idle => Inv (w_mem w) b000 w
  | Scanning n todo c m k =>
      let b := (cpus L - (c + sum_cpu (w_mem w) todo), mems L - (m + sum_mem (w_mem w) todo),
                cap L - k) in
      Inv (w_mem w) b w ∧ budget_le b000 b ∧ (0 <= c ∧ 0 <= m ∧ 0 <= k) ∧
      Forall (good (w_mem w)) todo
  | Popping b => Inv (w_mem w) (b.1.1, b.1.2, Z.max 0 b.2) w ∧ avail_ok b
  end.

Lemma sum_frozen m m' ls :
  frozen m m' → Forall (good m) ls → sum_cpu m' ls = sum_cpu m ls ∧ sum_mem m' ls = sum_mem m ls.
Proof.
  intros [_ Hf] Hls. unfold sum_cpu, sum_mem.
  induction Hls as [|l ls [Hl _] Hls [IH1 IH2]]; [done|].
  rewrite !fmap_cons, !zsum_cons. pose proof (Hf l Hl) as [= _ -> ->]. lia.
Qed.

Lemma good_frozen m b w ls : Inv m b w → Forall (good m) ls → Forall (good (w_mem w)) ls.
Proof.
  intros HI Hls. eapply Forall_impl; [exact Hls|]. intros l [Hl _].
  pose proof (Inv_in_mem _ _ _ _ _ HI Hl). split; [done|]. by apply (w_ok_deref L w l (proj1 HI)).
Qed.

Lemma other_Inv b w w' : other_step w w' → Inv (w_mem w) b w → Inv (w_mem w) b w'.
Proof.
  intros Hstep HI. destruct Hstep as [req|uid|uid|uid|nid|uid result|ctx l result Hin|ch rest Hps
    |ch rest Hps|key value Hcfg|n|nm|r|k].
  - by apply CreateTask_Inv.
  - by apply GetTask_Inv.
  - by apply CancelTask_Inv.
  - by apply RerunTask_Inv.
  - by apply GetNextTaskForNode_Inv.
  - by apply HandleRemoteResult_Inv.
  - apply execution_done_Inv; [|done].
    pose proof (ok_running _ _ (proj1 HI)) as Hrun. rewrite Forall_forall in Hrun.
    by apply (Hrun (ctx, l)).
  - apply (cancel_message_Inv L (w_mem w) b ch). eapply Inv_core; [|exact HI]. done.
  - eapply Inv_core; [|exact HI]. done.
  - unfold config_changed. destruct (HasSuffix key "/max_concurrent_tasks") eqn:Hk.
    + destruct (Z.ltb_spec 0 (Sscanf_d value)) as [Hv|]; [|done].
      apply sched_modify_Inv; [|done|done]. intros s _. cbn. specialize (Hcfg Hk). lia.
    + destruct (HasSuffix key "/tick_interval_ms"); [|done].
      destruct (0 <? Sscanf_d value); [|done]. by apply sched_modify_Inv.
  - destruct HI as (Hw & Hb & Hf). split_and!; [|done..].
    apply w_ok_queue; [done|]. by apply q_background_inv, (ok_queue L).
  - eapply Inv_core; [|exact HI]. done.
  - eapply Inv_core; [|exact HI]. done.
  - eapply Inv_core; [|exact HI]. done.
Qed.

Lemma step_other_inv w w' p :
  other_step w w' → phase_inv (w, p) → phase_inv (w', p).
Proof.
  intros Hstep. assert (∀ b, Inv (w_mem w) b w → Inv (w_mem w) b w' ∧ Inv (w_mem w') b w') as Hw'.
  { intros b HI. apply (other_Inv b) in Hstep; [|done]. split; [done|by eapply Inv_self]. }
  destruct p as [|n todo c m k|b]; cbn.
  - intros HI. by apply Hw'.
  - intros (HI & Hb & Hnn & Hgood). apply Hw' in HI as [HI HI'].
    destruct (sum_frozen (w_mem w) (w_mem w') todo) as [-> ->]; [by destruct HI as (_&_&?)|done|].
    split; [exact HI'|]. split; [exact Hb|]. split; [exact Hnn|].
    eapply good_frozen; [exact HI|done].
  - intros [HI Hb]. split; [by apply Hw'|done].
Qed.

Lemma tick_phase w w' ls n :
  store_GetRunningTasks w = (Ok ls, w') → phase_inv (w, Idle) →
  phase_inv (w' <| w_clk := S (w_clk w') |>, Scanning n ls 0 0 (Z.of_nat (length ls))).
Proof.
  cbn. intros Hg HI. pose proof (store_GetRunningTasks_Inv L (w_mem w) b000 w HI) as HI'.
  rewrite Hg in HI'. cbn in HI'. destruct HI' as (HI' & Hfree & Hgood).
  rewrite !Z.add_0_l. split; [|by split; [|split; [lia|]]].
  apply Inv_self in HI'. by eapply Inv_core; [|exact HI'].
Qed.

Lemma scan_phase w n l ls c m k :
  let t := deref (w_mem w) l in
  phase_inv (w, Scanning n (l :: ls) c m k) →
  phase_inv ((scan_one n l w).2, Scanning n ls (c +64 CPULimit t) (m +64 MemoryLimit t) k).
Proof.
  intros t. cbn [phase_inv]. intros (HI & Hb & (Hc & Hm & Hk) & Hgood).
  apply Forall_cons_1 in Hgood as [[Hl Hok] Hgood].
  apply (scan_one_Inv L (w_mem w) _ n l Hl w) in HI as HI'. cbn beta in HI'.
  pose proof (sums_nonneg (w_mem w) ls Hgood) as [S1 S2].
  assert (sum_cpu (w_mem w) (l :: ls) = CPULimit t + sum_cpu (w_mem w) ls) as E1 by done.
  assert (sum_mem (w_mem w) (l :: ls) = MemoryLimit t + sum_mem (w_mem w) ls) as E2 by done.
  rewrite E1, E2 in HI', Hb. unfold budget_le, b000 in Hb. cbn [fst snd] in Hb.
  destruct Hb as (B1 & B2 & B3).
  pose proof (ok_cpu _ Hok : 0 <= CPULimit t). pose proof (ok_memory _ Hok : 0 <= MemoryLimit t).
  destruct (ok_total_cpu _ _ (proj1 HI)) as [_ T1]. destruct (ok_total_mem _ _ (proj1 HI)) as [_ T2].
  rewrite !add64_id by int_lia.
  destruct (sum_frozen (w_mem w) (w_mem (scan_one n l w).2) ls) as [-> ->];
    [by destruct HI' as (_&_&?)|done|].
  split; [|split; [unfold budget_le; cbn; lia|split; [lia|eapply good_frozen; [exact HI'|done]]]].
  eapply Inv_self. rewrite <- !Z.add_assoc. exact HI'.
Qed.

Lemma scanned_phase w n c m k :
  phase_inv (w, Scanning n [] c m k) → phase_inv (w, Popping (available (w_sched w) c m k)).
Proof.
  cbn. intros (HI & Hb & (Hc & Hm & Hk) & _). unfold sum_cpu, sum_mem in *. cbn in HI, Hb.
  rewrite !Z.add_0_r in *. destruct Hb as (B1 & B2 & B3). cbn in B1, B2, B3.
  pose proof (proj1 HI) as Hw.
  destruct (ok_total_cpu _ _ Hw) as [T1 T1']. destruct (ok_total_mem _ _ Hw) as [T2 T2'].
  pose proof (ok_slots _ _ Hw). pose proof (ok_cap _ _ Hw).
  unfold available. cbn [fst snd]. rewrite T1, T2, !sub64_id by int_lia. split.
  - eapply Inv_budget; [|exact HI]. unfold budget_le. cbn. lia.
  - unfold avail_ok. cbn. lia.
Qed.

Lemma pop_phase w w' b r :
  0 < b.2 → pop_one b w = (r, w') → phase_inv (w, Popping b) →
  phase_inv (w', match r with Some b' => Popping b' | None => Idle end).
Proof.
  intros Hpos Hp [HI Hb]. assert ((b.1.1, b.1.2, Z.max 0 b.2) = b) as Eb.
  { destruct b as [[? ?] ?]. cbn in *. f_equal. lia. }
  rewrite Eb in HI. pose proof (pop_one_Inv L (w_mem w) b Hb Hpos w HI) as HI'.
  rewrite Hp in HI'. cbn in HI'. destruct r as [b'|]; cbn.
  - destruct HI' as [[Hb' Hk] HI']. split; [|done]. rewrite Z.max_r by done.
    apply Inv_self in HI'. by destruct b' as [[? ?] ?].
  - apply Inv_self in HI'. eapply Inv_budget; [|exact HI'].
    destruct Hb as (? & ? & ?). unfold budget_le. cbn. lia.
Qed.

Lemma step_inv s s' : step s s' → phase_inv s → phase_inv s'.
Proof.
  intros [w w' p Ho|s1 s1' [w w' e Hg|w w' w'' ls n Hg Hn|w n l ls c m k t
    |w n c m k|w w' b b' Hpos Hp|w w' b Hpos Hp|w b Hb]].
  - by apply step_other_inv.
  - cbn. intros HI. pose proof (store_GetRunningTasks_Inv L (w_mem w) b000 w HI) as HI'.
    rewrite Hg in HI'. cbn in HI'. by eapply Inv_self.
  - injection Hn as _ <-. by apply tick_phase.
  - by apply scan_phase.
  - apply scanned_phase.
  - by apply (pop_phase w w' b (Some b')).
  - by apply (pop_phase w w' b None).
  - cbn. intros [HI (H1' & H2' & H3')]. eapply Inv_budget; [|exact HI]. unfold budget_le. cbn. lia.
Qed.

Lemma reachable_inv w0 s : initial w0 → reachable w0 s → phase_inv s.
Proof.
  intros [Hw Hb] Hr. unfold reachable in Hr.
  assert (∀ s1 s2, rtc step s1 s2 → phase_inv s1 → phase_inv s2) as Hind.
  { induction 1; eauto using step_inv. }
  apply (Hind _ _ Hr). cbn. by split; [|split].
Qed.

Lemma phase_w_ok w p : phase_inv (w, p) → w_ok L w ∧ within L b000 w.
Proof.
  assert (∀ m b, budget_le b000 b → Inv m b w → w_ok L w ∧ within L b000 w) as Hend.
  { intros m b Hb HI. apply (Inv_budget L m b b000) in HI; [|done]. by destruct HI as (? & ? & _). }
  destruct p; cbn.
  - intros HI. by eapply Hend.
  - intros (HI & Hb & _). by eapply Hend.
  - intros [HI (? & ? & ?)]. eapply Hend; [|exact HI]. unfold budget_le. cbn. lia.
Qed.

(** *** The cycle as steps *)

Lemma scan_steps n ls c m k w :
  let '(al, w') := scan_running n ls c m w in
  rtc cycle_step (w, Scanning n ls c m k) (w', Scanning n [] al.1 al.2 k).
Proof.
  revert c m w. induction ls as [|l ls IH]; intros c m w; cbn; [apply rtc_refl|].
  unfold mbind, M_bind. cbn [load gets fst snd].
  set (t := deref (w_mem w) l).
  specialize (IH (c +64 CPULimit t) (m +64 MemoryLimit t) (scan_one n l w).2).
  destruct (scan_running n ls _ _ _) as [al w']. eapply rtc_l; [apply step_scan|exact IH].
Qed.

Lemma dispatch_steps fuel b w w' :
  dispatch_loop fuel b w = (true, w') → rtc cycle_step (w, Popping b) (w', Idle).
Proof.
  revert b w. induction fuel as [|fuel IH]; intros b w; cbn [dispatch_loop];
    destruct (Z.ltb_spec 0 b.2) as [Hb|Hb].
  - by intros [= ?].
  - intros [= <-]. by apply rtc_once, step_full.
  - unfold mbind, M_bind. destruct (pop_one b w) as [[b'|] w1] eqn:Hp; cbn [fst snd].
    + intros Hd. eapply rtc_l; [by eapply step_pop|]. by apply IH.
    + intros [= <-]. by apply rtc_once, step_empty.
  - intros [= <-]. by apply rtc_once, step_full.
Qed.

Lemma tick_steps fuel w w' :
  tick fuel w = (true, w') → rtc cycle_step (w, Idle) (w', Idle).
Proof.
  unfold tick, mbind, M_bind. destruct (store_GetRunningTasks w) as [[ls|e] w1] eqn:Hg; cbn [fst snd].
  - pose proof (scan_steps (now w1).1 ls 0 0 (Z.of_nat (length ls)) (now w1).2) as Hscan.
    destruct (scan_running _ _ _ _ _) as [al w2]. cbn [fst snd gets]. intros Hd.
    eapply rtc_l; [by eapply step_tick|]. etrans; [exact Hscan|].
    eapply rtc_l; [apply step_scanned|]. by eapply dispatch_steps.
  - intros [= <-]. by eapply rtc_once, step_tick_failed.
Qed.

(** Left to itself, a cycle reaches its end from wherever it is. *)
Lemma cycle_ends s : eventually cycle_step (λ s, s.2 = Idle) s.
Proof.
  assert (∀ w b, eventually cycle_step (λ s, s.2 = Idle) (w, Popping b)) as Hpop.
  { intros w b. remember (q_ready (w_queue w)) as n eqn:Hn. revert w b Hn.
    induction (lt_wf n) as [n _ IH]. intros w b ->. apply eventually_later.
    - destruct (Z.ltb_spec 0 b.2) as [Hb|Hb]; [|by eexists; apply step_full].
      destruct (pop_one b w) as [[b'|] w'] eqn:Hp; eexists; [by eapply step_pop|by eapply step_empty].
    - intros s' Hs. inversion Hs as [| | | |w0 w' b0 b' Hb Hp| |]; subst;
        [|by apply eventually_now..].
      apply (IH (q_ready (w_queue w'))); [by eapply pop_one_ready|done]. }
  assert (∀ n k ls w c m, eventually cycle_step (λ s, s.2 = Idle) (w, Scanning n ls c m k)) as Hscan.
  { intros n k ls. induction ls as [|l ls IH]; intros w c m; apply eventually_later.
    - eexists. apply step_scanned.
    - intros s' Hs. inversion Hs; subst. apply Hpop.
    - eexists. apply step_scan.
    - intros s' Hs. inversion Hs; subst. apply IH. }
  destruct s as [w [|n ls c m k|b]]; [by apply eventually_now|apply Hscan|apply Hpop].
Qed.

Lemma cycle_run s s' : rtc cycle_step s s' → rtc step s s'.
Proof. apply rtc_subrel. intros ??. apply step_cycle. Qed.

(** The function [tick] refines the transition system: a cycle that runs
    to its end without interruption is a run of the steps of the system, from
    idle to idle. *)
Lemma tick_is_steps fuel w w' :
  tick fuel w = (true, w') → rtc step (w, Idle) (w', Idle).
Proof. intros Ht. by apply cycle_run, (tick_steps fuel). Qed.

(** *** Safety *)

(** C1 Resource safety.  In every reachable state, whatever requests, agent
    reports, cancellations, configuration changes and faults have happened,
    and wherever the scheduling cycle is, the running tasks of the table
    together ask for no more CPU and memory than the machine has, and are no
    more than the largest number of slots ever configured.  The limit is that
    of the server for all nodes together: a task that asks for more than the
    server has is never executed anywhere. *)
Theorem resource_safety w0 w p :
  initial w0 → reachable w0 (w, p) →
  msum row_cpu (rows (w_db w)) <= totalCPU (w_sched w) ∧
  msum row_mem (rows (w_db w)) <= totalMemMB (w_sched w) ∧
  msum row_one (rows (w_db w)) <= cap L ∧
  (∀ uid r, rows (w_db w) !! uid = Some r →
     totalCPU (w_sched w) < c_cpu_limit r ∨ totalMemMB (w_sched w) < c_memory_limit r →
     c_status r ≠ TaskStatusRunning).
Proof.
  intros Hi Hr. apply (reachable_inv w0 (w, p) Hi), phase_w_ok in Hr as [Hw (B1 & B2 & B3)].
  destruct (ok_total_cpu L w Hw) as [-> _], (ok_total_mem L w Hw) as [-> _]. cbn in B1, B2, B3.
  split_and!; [lia..|]. intros uid r Hrow Hbig Hrun.
  pose proof (msum_ge row_cpu _ _ _ Hrow (λ k v H, proj1 (row_use_nonneg L w k v Hw H))) as Hc.
  pose proof (msum_ge row_mem _ _ _ Hrow (λ k v H, proj1 (proj2 (row_use_nonneg L w k v Hw H)))) as Hm.
  assert (row_cpu r = c_cpu_limit r ∧ row_mem r = c_memory_limit r) as [E1 E2].
  { unfold row_cpu, row_mem, is_running. by rewrite bool_decide_eq_true_2. }
  lia.
Qed.

(** C10 Every task of a reachable state, object or row, is well-formed: its
    status is one of the six, its limits are not negative, and it has been
    retried at most three times.  The delay of its next retry, if it has one,
    is two, four or eight seconds: the computation does not overflow and the
    cap of five minutes is never reached.  A node's channel holds at most ten
    tasks, all of them allocated. *)
Theorem reachable_well_formed w0 w p :
  initial w0 → reachable w0 (w, p) →
  let good_task t :=
    Status t ∈ known_statuses ∧ 0 <= CPULimit t ∧ 0 <= MemoryLimit t ∧ 0 < TimeoutSec t ∧
    0 <= RetryCount t <= 3 ∧
    (CanRetry t = true →
     retry_delay (t <| RetryCount := RetryCount t +64 1 |>) ∈ [2 * second; 4 * second; 8 * second]) in
  Forall good_task (w_mem w) ∧
  (∀ uid r, rows (w_db w) !! uid = Some r → c_task_uid r = uid ∧ good_task (scanTask r)) ∧
  (∀ n ch, nodeTasks (w_sched w) !! n = Some ch →
     (length ch ≤ 10)%nat ∧ Forall (λ l, l < length (w_mem w))%nat ch).
Proof.
  intros Hi Hr good_task. apply (reachable_inv w0 (w, p) Hi), phase_w_ok in Hr as [Hw _].
  assert (∀ t, task_ok t → good_task t) as Hgood.
  { intros t [Hs Hmax Hint Hc Hcpu Hmem Hto]. split_and!; try done; [lia..|].
    unfold CanRetry. rewrite Z.ltb_lt, Hmax. intros Hlt. rewrite add64_id by int_lia.
    rewrite retry_delay_value by (done || (cbn; lia)). cbn [RetryCount setf set_RetryCount].
    assert (RetryCount t = 0 ∨ RetryCount t = 1 ∨ RetryCount t = 2) as [-> | [-> | ->]] by lia;
      rewrite !elem_of_cons; vm_compute; auto. }
  split_and!.
  - eapply Forall_impl; [by apply (ok_mem L)|exact Hgood].
  - intros uid r Hr. destruct (ok_rows L w Hw uid r Hr). auto.
  - apply (ok_channels L w Hw).
Qed.
End system.

(** ** Witnesses *)

Definition demo_limits : Limits := mkLimits 8 8192 4.

Lemma demo_initial : initial demo_limits (start None None None 4 8).
Proof.
  split.
  - split; cbn; try done; try lia.
    all: try apply Forall_nil_2.
  - split_and!; vm_compute; discriminate.
Qed.

Lemma demo_reachable : reachable demo_limits (start None None None 4 8) (demo_running, Idle).
Proof.
  eapply rtc_l; [apply step_other, (other_create _ _ demo_request)|].
  apply cycle_run, (tick_steps 10). vm_compute. reflexivity.
Qed.

Lemma tick_is_steps_witness :
  rtc (step demo_limits) (demo_created, Idle) (demo_running, Idle).
Proof. apply (tick_is_steps demo_limits 10 demo_created demo_running). vm_compute. reflexivity. Defined.

Lemma resource_safety_witness :
  msum row_cpu (rows (w_db demo_running)) = 2 ∧
  msum row_cpu (rows (w_db demo_running)) <= totalCPU (w_sched demo_running).
Proof.
  split; [vm_compute; reflexivity|].
  apply (resource_safety demo_limits _ demo_running Idle demo_initial demo_reachable).
Defined.

Lemma reachable_well_formed_witness :
  Forall (λ t, 0 <= RetryCount t <= 3) (w_mem demo_running).
Proof.
  destruct (reachable_well_formed demo_limits _ demo_running Idle demo_initial demo_reachable)
    as [H _].
  eapply Forall_impl; [exact H|]. cbv beta. intros t Ht. apply Ht.
Defined.
