(* ===== verification/Election.v ===== *)
(** * Leader election and the scheduler's main loop

    [internal/election/election.go], and [Start] and [runTickLoop] of
    [internal/scheduler/scheduler.go].

    [Campaign] blocks twice: until etcd answers, and until the session of the
    winner ends.  It is a small machine that moves on the events of etcd, which
    is outside the program.  The goroutine of [Start] is a second machine on
    top of it; the scheduling cycle it runs and the other handlers that
    interleave with it are the steps of the file System. *)

From stdpp Require Import relations.
From S2P Require Import Prelude GoStrings GoFormat Model TaskQueue TaskStore NodeStore.
From S2P Require Import NodeManager Runtime Invariant TaskService Scheduler InMemQueue.
From S2P Require Import Concrete SchedulerSpec System.

(** ** election.go *)

(** [LeaderElection]: the session and the election are etcd's. *)
Record LeaderElection : Type := mkElection { isLeader : bool }.

(** [session] is the outcome of [concurrency.NewSession]. *)
Definition NewLeaderElection (session : result unit) : result LeaderElection :=
  match session with
  | Err err => Err (WrapError "create session" err)
  | Ok _ => Ok (mkElection false)
  end.

Definition IsLeader (le : LeaderElection) : bool := isLeader le.

(** [reply] is the outcome of [le.election.Resign]. *)
Definition Resign (reply : option error) (le : LeaderElection) : option error * LeaderElection :=
  match reply with
  | Some err => (Some (WrapError "resign" err), le)
  | None => (None, mkElection false)
  end.

(** Where [Campaign] is: in etcd's own [Campaign], in the receive from
    [session.Done()], or back at its caller. *)
Inductive campaign_pc : Type :=
| Asking
| Leading
| Returned (err : option error).

(** What etcd's [Campaign] answers, and the end of the session. *)
Inductive etcd_event : Type :=
| Refused (err : error)
| Elected
| SessionDone.

(** [Campaign] moves on the events it waits for, and blocks on the others. *)
Definition Campaign (pc : campaign_pc) (ev : etcd_event) (le : LeaderElection)
  : option (campaign_pc * LeaderElection) :=
  match pc, ev with
  | Asking, Refused err => Some (Returned (Some (WrapError "campaign" err)), mkElection false)
  | Asking, Elected => Some (Leading, mkElection true)
  | Leading, SessionDone => Some (Returned (Some (ErrorString "session expired")), mkElection false)
  | _, _ => None
  end.

(** ** The goroutine of [Start] *)

Inductive start_pc : Type :=
| AtSelect                         (* select on ctx.Done() with a default *)
| InCampaign (pc : campaign_pc)
| Sleeping                         (* time.Sleep after a failed campaign *)
| LoopTop                          (* runTickLoop: the leader check *)
| Waiting                          (* runTickLoop: select on ctx.Done() and the ticker *)
| Ticking                          (* inside tick *)
| Stopped
| Crashed.                         (* time.NewTicker panicked *)

Section start.
Context {Q K R : Type} `{HostOk} `{TaskQueueOk Q} `{Etcd K} `{Redis R}.
Context (L : Limits).
Abbreviation W := (World Q K R).
Implicit Types (w : W) (p : phase) (le : LeaderElection) (n : nat).

Record Process : Type := mkProc {
  p_state : state (Q:=Q) (K:=K) (R:=R);    (* the server and the phase of the cycle *)
  p_election : option LeaderElection;      (* s.election *)
  p_done : bool;                           (* the context is cancelled *)
  p_at : start_pc;
  p_ticks : nat;                           (* cycles begun *)
}.

(** [runTickLoop] first makes its ticker, which panics when the interval is not
    positive and takes the program down. *)
Definition enter_loop (w : W) : start_pc :=
  if 0 <? tickInterval (w_sched w) then LoopTop else Crashed.

(** [Start] begins with the tick loop, or with the election if there is one. *)
Definition Start (election : option LeaderElection) (w : W) : Process :=
  mkProc (w, Idle) election false (if election is Some _ then AtSelect else enter_loop w) 0.

(** [s.election == nil || s.election.IsLeader()] *)
Definition may_tick (election : option LeaderElection) : bool :=
  match election with None => true | Some le => IsLeader le end.

(** Where [runTickLoop] returns to: the end of [Start] or the election loop. *)
Definition after_loop (election : option LeaderElection) : start_pc :=
  if election is Some _ then AtSelect else Stopped.

Definition at_phase (s : state (Q:=Q) (K:=K) (R:=R)) : start_pc :=
  match s.2 with Idle => LoopTop | _ => Ticking end.

(** The goroutine. *)
Inductive own_step : Process → Process → Prop :=
| own_select_done s e n : own_step (mkProc s e true AtSelect n) (mkProc s e true Stopped n)
| own_select s e n :
    own_step (mkProc s e false AtSelect n) (mkProc s e false (InCampaign Asking) n)
| own_campaign s le d pc ev pc' le' n :
    Campaign pc ev le = Some (pc', le') →
    own_step (mkProc s (Some le) d (InCampaign pc) n) (mkProc s (Some le') d (InCampaign pc') n)
| own_campaign_failed s e d err n :
    own_step (mkProc s e d (InCampaign (Returned (Some err))) n) (mkProc s e d Sleeping n)
| own_campaign_won s e d n :
    own_step (mkProc s e d (InCampaign (Returned None)) n) (mkProc s e d (enter_loop s.1) n)
| own_awake s e d n : own_step (mkProc s e d Sleeping n) (mkProc s e d AtSelect n)
| own_not_leader s e d n :
    may_tick e = false → own_step (mkProc s e d LoopTop n) (mkProc s e d (after_loop e) n)
| own_leader s e d n :
    may_tick e = true → own_step (mkProc s e d LoopTop n) (mkProc s e d Waiting n)
| own_loop_done s e n :
    own_step (mkProc s e true Waiting n) (mkProc s e true (after_loop e) n)
| own_ticker s e d s' n :
    cycle_step s s' → own_step (mkProc s e d Waiting n) (mkProc s' e d (at_phase s') (S n))
| own_tick s e d s' n :
    cycle_step s s' → own_step (mkProc s e d Ticking n) (mkProc s' e d (at_phase s') n).

(** The rest of the server, the cancellation of the context, a resignation. *)
Inductive env_step : Process → Process → Prop :=
| env_other w w' p e d pc n :
    other_step L w w' → env_step (mkProc (w, p) e d pc n) (mkProc (w', p) e d pc n)
| env_cancel s e d pc n : env_step (mkProc s e d pc n) (mkProc s e true pc n)
| env_resign s le d pc n reply :
    env_step (mkProc s (Some le) d pc n) (mkProc s (Some (Resign reply le).2) d pc n).

Definition proc_step (x y : Process) : Prop := own_step x y ∨ env_step x y.

Definition started (election : option LeaderElection) w (x : Process) : Prop :=
  rtc proc_step (Start election w) x.

(** ** Without an election *)

Lemma cycle_step_idle_dec (s : state (Q:=Q) (K:=K) (R:=R)) :
  (at_phase s = LoopTop ∧ s.2 = Idle) ∨ (at_phase s = Ticking ∧ s.2 ≠ Idle).
Proof. unfold at_phase. destruct s as [w []]; cbn; auto. Qed.

Definition single_inv w0 (x : Process) : Prop :=
  p_election x = None ∧ reachable L w0 (p_state x) ∧
  match p_at x with
  | LoopTop | Waiting => (p_state x).2 = Idle
  | Ticking => (p_state x).2 ≠ Idle
  | Stopped => p_done x = true
  | _ => False
  end.

Lemma single_started w0 x :
  0 < tickInterval (w_sched w0) → started None w0 x → single_inv w0 x.
Proof.
  intros Hint Hs. unfold started in Hs.
  assert (∀ y z, rtc proc_step y z → single_inv w0 y → single_inv w0 z) as Hind.
  { induction 1 as [|y y' z Hstep _ IH]; [done|]. intros Hy. apply IH. clear IH.
    destruct Hy as (He & Hr & Hp).
    assert (∀ st st', cycle_step st st' → reachable L w0 st → reachable L w0 st') as Hcyc.
    { intros st st' Hc Hst. eapply rtc_r; [exact Hst|]. by apply step_cycle. }
    assert (∀ st : state, match at_phase st with LoopTop | Waiting => st.2 = Idle
              | Ticking => st.2 ≠ Idle | _ => False end) as Hat.
    { intros st. by destruct (cycle_step_idle_dec st) as [[-> ?]|[-> ?]]. }
    destruct Hstep as [Ho|Ho]; destruct Ho; cbn in *; try done; subst; try by split_and!.
    - split_and!; [done|by eapply Hcyc|]. specialize (Hat s'). by destruct (at_phase s').
    - split_and!; [done|by eapply Hcyc|]. specialize (Hat s'). by destruct (at_phase s').
    - split_and!; [done| |by destruct pc]. eapply rtc_r; [exact Hr|]. by apply step_other.
    - split_and!; [done..|]. by destruct pc. }
  apply (Hind _ _ Hs). split_and!; [done|apply rtc_refl|]. cbn. unfold enter_loop.
  by destruct (Z.ltb_spec 0 (tickInterval (w_sched w0))); [|lia].
Qed.

(** A cycle in progress is run to its end. *)
Lemma ticking_ends s n :
  s.2 ≠ Idle →
  eventually own_step (λ x, ∃ s', x = mkProc s' None false LoopTop n ∧ s'.2 = Idle)
    (mkProc s None false Ticking n).
Proof.
  intros Hs. induction (cycle_ends s) as [s Hidle|s [s1 Hs1] Hall IH]; [done|].
  apply eventually_later; [by eexists; apply own_tick|].
  intros x Hx. inversion Hx as [| | | | | | | | | |s0 e d s' n0 Hc]; subst.
  destruct (cycle_step_idle_dec s') as [[-> Hi]|[-> Hi]]; [|by apply IH].
  apply eventually_now. eauto.
Qed.

Lemma loop_ticks s n :
  s.2 = Idle →
  eventually own_step (λ x, ∃ s', x = mkProc s' None false LoopTop (S n) ∧ s'.2 = Idle)
    (mkProc s None false Waiting n).
Proof.
  intros Hs. apply eventually_later.
  - destruct s as [w p]. cbn in Hs. subst p.
    destruct (store_GetRunningTasks w) as [[ls|e] w'] eqn:Hg.
    + destruct (now w') as [t w''] eqn:Hn. eexists. by eapply own_ticker, step_tick.
    + eexists. by eapply own_ticker, step_tick_failed.
  - intros x Hx. inversion Hx as [| | | | | | | | |s0 e d s' n0 Hc|]; subst.
    destruct (cycle_step_idle_dec s') as [[-> Hi]|[-> Hi]]; [|by apply ticking_ends].
    apply eventually_now. eauto.
Qed.

Lemma looptop_ticks s n :
  s.2 = Idle →
  eventually own_step (λ x, ∃ s', x = mkProc s' None false LoopTop (S n) ∧ s'.2 = Idle)
    (mkProc s None false LoopTop n).
Proof.
  intros Hs. eapply (eventually_step _ _ _ (mkProc s None false Waiting n));
    [by apply own_leader| |by apply loop_ticks].
  intros x Hx. by inversion Hx.
Qed.

(** C12 Without an election the scheduler never stops scheduling.  Started with a
    positive tick interval, whatever requests, reports and faults have happened,
    the server is in a state of the transition system of the file System, so
    all its invariants hold; the goroutine has ended only if the context is
    cancelled; and as long as it is not, one more scheduling cycle is
    inevitably begun and run to its end. *)
Theorem single_scheduler_ticks w0 (x : Process) :
  0 < tickInterval (w_sched w0) → started None w0 x →
  reachable L w0 (p_state x) ∧
  (p_at x = Stopped → p_done x = true) ∧
  (p_done x = false →
   eventually own_step
     (λ y, (p_state y).2 = Idle ∧ p_at y = LoopTop ∧ (p_ticks x < p_ticks y)%nat) x).
Proof.
  intros Hint Hs. destruct (single_started w0 x Hint Hs) as (He & Hr & Hp). split; [done|].
  destruct x as [s e d pc n]. cbn in *. subst e. split; [by intros ->|]. intros ->.
  assert (∀ m, (n ≤ m)%nat → ∀ y, (∃ s', y = mkProc s' None false LoopTop (S m) ∧ s'.2 = Idle) →
            (p_state y).2 = Idle ∧ p_at y = LoopTop ∧ (n < p_ticks y)%nat) as Hgoal.
  { intros m Hm y (s' & -> & Hi). cbn. split_and!; [done..|lia]. }
  destruct pc; try done.
  - eapply eventually_trans; [by apply looptop_ticks|]. intros y Hy.
    apply eventually_now. by apply (Hgoal n).
  - eapply eventually_trans; [by apply loop_ticks|]. intros y Hy.
    apply eventually_now. by apply (Hgoal n).
  - eapply eventually_trans; [by apply ticking_ends|]. intros y (s' & -> & Hi).
    eapply eventually_trans; [by apply looptop_ticks|]. intros y Hy.
    apply eventually_now. by apply (Hgoal n).
Qed.
End start.

(** ** With an election *)

Section elected.
Context {Q K R : Type} `{HostOk} `{TaskQueueOk Q} `{Etcd K} `{Redis R}.
Context (L : Limits).
Abbreviation W := (World Q K R).
Implicit Types (w : W) (l : loc) (t : Task).

(** Nothing runs: no object, no row, no goroutine. *)
Definition resting (s : TaskStatus) : Prop := s ≠ TaskStatusRunning.
Record quiet w : Prop := {
  quiet_mem : Forall (λ t, resting (Status t)) (w_mem w);
  quiet_rows uid r : rows (w_db w) !! uid = Some r → resting (c_status r);
  quiet_running : w_running w = [] }.

Lemma quiet_deref w l : quiet w → resting (Status (deref (w_mem w) l)).
Proof.
  intros Hq. destruct (lt_dec l (length (w_mem w))) as [Hl|Hl].
  - apply (Forall_deref (λ t, resting (Status t))); [by apply quiet_mem|done].
  - unfold deref. rewrite list_lookup_total_alt, lookup_ge_None_2 by lia. done.
Qed.

Lemma quiet_write w l t : resting (Status t) → quiet w → quiet (put w l t).
Proof. intros Ht [Hm Hr Hn]. split; [|done..]. by apply Forall_insert. Qed.

Lemma quiet_save w l t tbl :
  resting (Status t) → (∀ uid r, rows tbl !! uid = Some r → resting (c_status r)) → quiet w →
  quiet (w <| w_mem := <[l := t]> (w_mem w) |> <| w_db := tbl |>).
Proof. intros Ht Htbl [Hm Hr Hn]. split; [|done..]. by apply Forall_insert. Qed.

Lemma core_quiet {A} (c : M W A) :
  (∀ w, core (c w).2 = core w) → preserves quiet c.
Proof.
  intros Hc w [Hm Hr Hn]. specialize (Hc w). unfold core in Hc. injection Hc as H1' H2' _ _ H5'.
  split; by rewrite ?H1', ?H2', ?H5'.
Qed.

Lemma assign_quiet l f :
  (∀ t, resting (Status t) → resting (Status (f t))) → preserves quiet (assign l f).
Proof. intros Hf w Hq. apply quiet_write; [|done]. by apply Hf, quiet_deref. Qed.

Lemma transition_quiet target l : resting target → preserves quiet (transition target l).
Proof.
  intros Ht. unfold transition. apply preserves_bind; [by apply core_quiet|]. intros n w Hq.
  unfold mbind, M_bind, load, gets, assign, modify. cbn [fst snd].
  pose proof (quiet_deref w l Hq) as Hd. rewrite TransitionTo_spec.
  case_decide; by apply (quiet_write w l).
Qed.

Lemma new_quiet t : resting (Status t) → preserves quiet (new t).
Proof. intros Ht w [Hm Hr Hn]. split; [|done..]. by apply Forall_app_2; [|constructor]. Qed.

Lemma store_Update_quiet l : preserves quiet (store_Update l).
Proof.
  unfold store_Update. apply preserves_bind; [by apply core_quiet|]. intros n.
  apply preserves_bind; [by apply core_quiet|]. intros fault w Hq.
  pose proof (quiet_deref w l Hq) as Hd. unfold action, Update. destruct fault.
  { apply quiet_save; [done|by apply quiet_rows|done]. }
  apply quiet_save; [done| |done]. intros uid r.
  destruct (decide (uid = TaskUID (deref (w_mem w) l))) as [->|Hne].
  - cbn. rewrite lookup_alter_eq. intros (r0 & _ & ->)%fmap_Some_1. done.
  - cbn. rewrite lookup_alter_ne by done. by apply quiet_rows.
Qed.

Lemma store_Create_quiet l : preserves quiet (store_Create l).
Proof.
  unfold store_Create. apply preserves_bind; [by apply core_quiet|]. intros fault w Hq.
  pose proof (quiet_deref w l Hq) as Hd. unfold action, Create.
  destruct fault; [apply quiet_save; [done|by apply quiet_rows|done]|].
  destruct (rows (w_db w) !! _); [apply quiet_save; [done|by apply quiet_rows|done]|].
  apply quiet_save; [done| |done]. intros uid r. cbn.
  rewrite lookup_insert_Some. intros [[_ <-]|[_ Hr]]; [done|]. by eapply quiet_rows.
Qed.

Lemma store_GetByUID_quiet uid : preserves quiet (store_GetByUID uid).
Proof.
  unfold store_GetByUID. apply preserves_bind; [by apply core_quiet|]. intros fault w Hq.
  unfold mbind, M_bind, gets. cbn [fst snd]. unfold GetByUID. destruct fault; [done|].
  destruct (rows (w_db w) !! uid) as [r|] eqn:Hr; [|done].
  apply (new_quiet (scanTask r)); [|done]. by apply (quiet_rows w Hq uid).
Qed.

Lemma queue_quiet (op : Mem → loc → Q → option error * Q) l :
  preserves quiet (λ w, let '(e, q) := op (w_mem w) l (w_queue w) in (e, w <| w_queue := q |>)).
Proof. intros w [Hm Hr Hn]. by destruct (op _ _ _). Qed.

Lemma queue_PushDelayed_quiet l d : preserves quiet (queue_PushDelayed l d).
Proof.
  unfold queue_PushDelayed. apply preserves_bind; [by apply core_quiet|]. intros n.
  apply (queue_quiet (λ m l q, q_PushDelayed n m l d q)).
Qed.

Lemma sched_quiet f : preserves quiet (sched_modify f).
Proof. by intros w [Hm Hr Hn]. Qed.

Lemma queue_Push_quiet l : preserves quiet (queue_Push l).
Proof. apply (queue_quiet q_Push). Qed.

Lemma queue_PushPriority_quiet l : preserves quiet (queue_PushPriority l).
Proof. apply (queue_quiet q_PushPriority). Qed.

#[local] Hint Resolve store_Update_quiet store_Create_quiet store_GetByUID_quiet sched_quiet
  queue_PushDelayed_quiet queue_Push_quiet queue_PushPriority_quiet : preserve.

Ltac keep_quiet :=
  repeat first
    [ done | apply preserves_ret | solve [auto with preserve nocore]
    | apply core_quiet; first [apply count_daily_core | apply redis_do_core | apply redis_Publish_core]
    | by apply assign_quiet | by apply transition_quiet | by apply core_quiet
    | apply preserves_bind; [|intros ?]
    | match goal with |- preserves _ (match ?x with _ => _ end) => destruct x end ].

Lemma CreateTask_quiet req : preserves quiet (CreateTask req).
Proof.
  unfold CreateTask. apply preserves_bind; [by apply core_quiet|]. intros n.
  apply preserves_bind; [by apply core_quiet|]. intros uid.
  apply preserves_bind; [apply new_quiet|intros l; keep_quiet].
  destruct (requested_ok uid n req) as [_ ->]. done.
Qed.

Lemma CancelTask_quiet uid : preserves quiet (CancelTask uid).
Proof. unfold CancelTask. keep_quiet. Qed.

Lemma RerunTask_quiet uid : preserves quiet (RerunTask uid).
Proof.
  unfold RerunTask. apply preserves_bind; [apply store_GetByUID_quiet|]. intros [l|e]; [|keep_quiet].
  apply preserves_bind; [by apply core_quiet|]. intros t. apply CreateTask_quiet.
Qed.

Lemma HandleRemoteResult_quiet uid result : preserves quiet (HandleRemoteResult uid result).
Proof. unfold HandleRemoteResult, completeTask, failTask. keep_quiet. Qed.

Lemma other_quiet w w' : other_step L w w' → quiet w → quiet w'.
Proof.
  intros Hstep Hq. destruct Hstep as [req|uid|uid|uid|nid|uid result|ctx l result Hin|ch rest Hps
    |ch rest Hps|key value Hcfg|n|nm|r|k].
  - by apply CreateTask_quiet.
  - by apply store_GetByUID_quiet.
  - by apply CancelTask_quiet.
  - by apply RerunTask_quiet.
  - unfold GetNextTaskForNode. destruct (_ !! nid) as [[|]|]; by destruct Hq.
  - by apply HandleRemoteResult_quiet.
  - rewrite (quiet_running w Hq) in Hin. by apply not_elem_of_nil in Hin.
  - unfold cancel_message. destruct (cancelFuncs _ !! _); by destruct Hq.
  - by destruct Hq.
  - unfold config_changed. repeat case_match; try done; by destruct Hq.
  - by destruct Hq.
  - by destruct Hq.
  - by destruct Hq.
  - by destruct Hq.
Qed.
(** [Campaign] never returns without an error. *)
Lemma Campaign_fails pc ev le r le' : Campaign pc ev le = Some (Returned r, le') → r ≠ None.
Proof. by destruct pc, ev; intros [= <- <-]. Qed.

(** [IsLeader] is true only while [Campaign] waits for the end of the session. *)
Lemma Campaign_leader pc ev le pc' le' :
  Campaign pc ev le = Some (pc', le') → IsLeader le' = true → pc' = Leading.
Proof. by destruct pc, ev; intros [= <- <-]. Qed.

Definition elected_inv (x : Process (Q:=Q) (K:=K) (R:=R)) : Prop :=
  (∃ le, p_election x = Some le ∧ (IsLeader le = true → p_at x = InCampaign Leading)) ∧
  (p_state x).2 = Idle ∧ p_ticks x = 0%nat ∧ quiet (p_state x).1 ∧
  match p_at x with
  | AtSelect | Sleeping | Stopped => True
  | InCampaign pc => pc ≠ Returned None
  | LoopTop | Waiting | Ticking | Crashed => False
  end.

Lemma elected_step x y : proc_step L x y → elected_inv x → elected_inv y.
Proof.
  intros Hstep ((le & He & Hl) & Hi & Hn & Hq & Hp).
  destruct Hstep as [Ho|Ho]; destruct Ho; cbn in *; try done; subst;
    try (split_and!; try done; exists le; split; [done|naive_solver]).
  - injection He as ->. split_and!; try done.
    + exists le'. split; [done|]. intros Hle. cbn. f_equal. by eapply Campaign_leader.
    + intros ->. by eapply Campaign_fails.
  - split_and!; try done; [by exists le|]. by eapply other_quiet.
  - injection He as ->. split_and!; try done. exists (Resign reply le).2. split; [done|].
    by destruct reply.
Qed.

(** C7 With an election the scheduler never schedules.  [Campaign] returns only
    when it has failed or when the session is over, always with an error, and
    [Start] runs the tick loop only after a campaign without error.  So however
    often this instance is elected, no scheduling cycle is ever begun; it counts
    as the leader only while it waits for its session to end, and on a table
    without running tasks no task ever becomes running, whatever is
    requested. *)
Theorem elected_never_ticks w0 x le0 :
  NewLeaderElection (Ok tt) = Ok le0 → w_mem w0 = [] → w_running w0 = [] →
  (∀ uid r, rows (w_db w0) !! uid = Some r → c_status r ≠ TaskStatusRunning) →
  started L (Some le0) w0 x →
  p_ticks x = 0%nat ∧ (p_state x).2 = Idle ∧
  (∀ le, p_election x = Some le → IsLeader le = true → p_at x = InCampaign Leading) ∧
  (∀ uid r, rows (w_db (p_state x).1) !! uid = Some r → c_status r ≠ TaskStatusRunning).
Proof.
  intros [= <-] Hm Hrun Hrows Hs. assert (elected_inv x) as ((le & He & Hl) & Hi & Hn & Hq & _).
  { unfold started in Hs.
    assert (∀ y z, rtc (proc_step L) y z → elected_inv y → elected_inv z) as Hind
      by (induction 1; eauto using elected_step).
    apply (Hind _ _ Hs). split_and!; try done; [by eexists|]. split; cbn; [by rewrite Hm|done|done]. }
  split_and!; [done..| |].
  - intros le' He'. rewrite He in He'. by injection He' as <-.
  - intros uid r Hr. by apply (quiet_rows _ Hq uid).
Qed.
End elected.

(** ** Witnesses *)

(** A task is created, this instance is elected and stays the leader. *)
Definition demo_leading : Process (Q:=InMemQueue) (K:=SimpleEtcd) (R:=SimpleRedis) :=
  mkProc (exec (CreateTask demo_request) (start None (Some new_etcd) None 4 8), Idle)
    (Some (mkElection true)) false (InCampaign Leading) 0.

Lemma demo_leading_started :
  started demo_limits (Some (mkElection false)) (start None (Some new_etcd) None 4 8) demo_leading.
Proof.
  unfold started. eapply rtc_l; [right; apply (env_other _ _ _ _ _ _ _ _ (other_create _ _ demo_request))|].
  eapply rtc_l; [left; apply own_select|].
  eapply rtc_l; [left; by apply (own_campaign _ _ _ _ Elected)|]. apply rtc_refl.
Qed.

Lemma elected_never_ticks_witness :
  IsLeader (default (mkElection false) (p_election demo_leading)) = true ∧
  status_of (p_state demo_leading).1 "uuid-0" = Some TaskStatusCreated ∧
  p_ticks demo_leading = 0%nat.
Proof.
  split; [reflexivity|]. split; [vm_compute; reflexivity|].
  refine (proj1 (elected_never_ticks demo_limits (start None (Some new_etcd) None 4 8) demo_leading
    (mkElection false) eq_refl eq_refl eq_refl _ demo_leading_started)).
  intros uid r Hr. cbn in Hr. by rewrite lookup_empty in Hr.
Defined.

Definition demo_single : Process (Q:=InMemQueue) (K:=SimpleEtcd) (R:=SimpleRedis) :=
  mkProc (demo_created, Idle) None false LoopTop 0.

Lemma demo_single_started : started demo_limits None (start None None None 4 8) demo_single.
Proof.
  unfold started. eapply rtc_l; [right; apply (env_other _ _ _ _ _ _ _ _ (other_create _ _ demo_request))|].
  apply rtc_refl.
Qed.

Lemma single_scheduler_ticks_witness :
  eventually own_step
    (λ y, (p_state y).2 = Idle ∧ p_at y = LoopTop ∧ (0 < p_ticks y)%nat) demo_single.
Proof.
  destruct (single_scheduler_ticks demo_limits (start None None None 4 8) demo_single
              eq_refl demo_single_started) as (_ & _ & Hlive).
  exact (Hlive eq_refl).
Defined.
