(* ===== verification/Progress.v ===== *)
(** * Progress: an accepted task comes to an end

    A task on an otherwise idle server, from its creation to its end: each
    round is a pass of the queue's drain goroutine, one scheduling cycle, and
    the end of the execution the cycle has started.  Rounds are composed with
    the operations of the service, the queue and the scheduler as they are; the
    results of the executions are arbitrary. *)

From S2P Require Import Prelude GoStrings GoFormat Sha256 Model Heap TaskQueue TaskStore NodeStore.
From S2P Require Import NodeManager Runtime Invariant TaskService Scheduler InMemQueue.
From S2P Require Import Concrete TaskServiceSpec SchedulerSpec.

Section progress.
Context {K R : Type} `{HostOk} `{Etcd K} `{Redis R}.
Abbreviation W := (World InMemQueue K R).
Implicit Types (w : W) (l : loc) (t : Task) (q : InMemQueue).

(** ** Rounds *)

(** The drain goroutine runs at time [n], then a scheduling cycle, and then
    the execution it has started ends with [out]. *)
Definition round (n : Time) (fuel : nat) (out : TaskResult) w : option W :=
  let '(ended, w) := tick fuel (w <| w_queue := drainDelayed n (w_queue w) |>) in
  match ended, w_running w with
  | true, [(ctx, l)] => Some (execution_done ctx l out w).2
  | _, _ => None
  end.

(** Each round happens, at any time that is late enough, and in the end [P]
    holds. *)
Fixpoint rounds (outs : list TaskResult) (P : W → Prop) w : Prop :=
  match outs with
  | [] => P w
  | out :: outs =>
      ∃ n0, ∀ n fuel, n0 <= n → (2 ≤ fuel)%nat →
        ∃ w', round n fuel out w = Some w' ∧ rounds outs P w'
  end.

Lemma rounds_app outs outs' P w :
  rounds outs (rounds outs' P) w → rounds (outs ++ outs') P w.
Proof.
  revert w. induction outs as [|out outs IH]; intros w; [done|]. cbn.
  intros [n0 Hn]. exists n0. intros n fuel Hle Hfuel.
  destruct (Hn n fuel Hle Hfuel) as (w' & Hw' & Hr). eauto.
Qed.

Lemma rounds_impl outs (P P' : W → Prop) w :
  (∀ w, P w → P' w) → rounds outs P w → rounds outs P' w.
Proof.
  intros HP. revert w. induction outs as [|out outs IH]; intros w; [apply HP|]. cbn.
  intros [n0 Hn]. exists n0. intros n fuel Hle Hfuel.
  destruct (Hn n fuel Hle Hfuel) as (w' & Hw' & Hr). eauto.
Qed.

(** ** The queue *)

Lemma drain_pointers q l :
  pointers q = [l] → closed q = false →
  ∃ n0, ∀ n, n0 <= n →
    let q' := drainDelayed n q in
    items q' ++ pq q' = [l] ∧ delayed q' = [] ∧ closed q' = false.
Proof.
  intros Hp Hc. unfold pointers in Hp.
  destruct (delayed q) as [|[l' due] ds] eqn:Hd.
  - exists 0. intros n _. unfold drainDelayed. rewrite Hc, Hd. cbn in *. by rewrite app_nil_r in Hp.
  - assert (pq q = [] ∧ items q = [] ∧ l' = l ∧ ds = []) as (Ep & Ei & -> & ->).
    { destruct (items q) as [|x p]; cbn in Hp; [|by destruct p, (pq q)].
      destruct (pq q) as [|x i]; cbn in Hp; [|by destruct i].
      injection Hp as -> Hds. by destruct ds. }
    exists due. intros n Hn. unfold drainDelayed. rewrite Hc, Hd, drain_items_spec.
    assert (is_due n due = true) as Hdue by by apply is_due_iff.
    rewrite !filter_cons. cbn. rewrite Hdue. cbn. by rewrite Ep, Ei.
Qed.

Lemma pop_single m q l :
  items q ++ pq q = [l] → delayed q = [] →
  ∃ q', popInternal m q = (Some l, q') ∧ pointers q' = [] ∧ closed q' = closed q.
Proof.
  intros Hp Hd. unfold popInternal, pointers. destruct (pq q) as [|x p] eqn:Ep.
  - rewrite app_nil_r in Hp. rewrite Hp. cbn. eexists. split; [done|]. cbn. by rewrite Ep, Hd.
  - assert (p = [] ∧ items q = [] ∧ x = l) as (-> & Ei & ->).
    { destruct (items q) as [|y i]; cbn in Hp; [by injection Hp as -> ->|by destruct i]. }
    cbn. eexists. split; [done|]. cbn. by rewrite Ei, Hd.
Qed.

Lemma queue_Pop_single w l d :
  items (w_queue w) ++ pq (w_queue w) = [l] → delayed (w_queue w) = [] →
  ∃ k q, queue_Pop d w = (Ok (Some l), w <| w_clk := k |> <| w_queue := q |>) ∧
         pointers q = [] ∧ closed q = closed (w_queue w).
Proof.
  intros Hp Hd. destruct (pop_single (w_mem w) (w_queue w) l Hp Hd) as (q & Hpop & Hq & Hc).
  unfold queue_Pop. cbn [q_Pop InMem_TaskQueue]. unfold Pop.
  assert (∃ f, pop_fuel d = S f) as [f ->] by (unfold pop_fuel; eexists; apply Nat.add_succ_r).
  cbn [pop_loop]. rewrite Hpop. eexists _, q. split; [|done]. by destruct w.
Qed.

Lemma queue_Pop_nothing w d :
  pq (w_queue w) = [] → items (w_queue w) = [] →
  ∃ k, queue_Pop d w = (Ok None, w <| w_clk := k |>).
Proof.
  intros Ep Ei. assert (popInternal (w_mem w) (w_queue w) = (None, w_queue w)) as Hpop.
  { unfold popInternal. by rewrite Ep, Ei. }
  unfold queue_Pop. cbn [q_Pop InMem_TaskQueue]. unfold Pop.
  destruct (pop_loop _ _ _ _ _ _) as [[[r k] q]|] eqn:Hl.
  - assert (r = None ∧ q = w_queue w) as [-> ->].
    { revert Hl. generalize (pop_fuel d), 1%nat.
      intros f. induction f as [|f IH]; [done|]. intros i. cbn [pop_loop]. rewrite Hpop.
      destruct (time_after _ _); [by intros [= <- _ <-]|apply IH]. }
    eexists. by destruct w.
  - eexists. by destruct w.
Qed.

(** A dispatch loop with nothing ready ends at once. *)
Lemma dispatch_loop_nothing fuel b w :
  pq (w_queue w) = [] → items (w_queue w) = [] →
  ∃ k, dispatch_loop (S fuel) b w = (true, w <| w_clk := k |>).
Proof.
  intros Ep Ei. rewrite dispatch_loop_step. destruct (0 <? b.2); [|by exists (w_clk w); destruct w].
  destruct (queue_Pop_nothing w (100 * millisecond) Ep Ei) as [k Hpop]. destruct b as [[c m] s].
  unfold pop_one, mbind, M_bind. rewrite Hpop. by exists k.
Qed.

(** ** What the handlers leave alone *)

Definition kept w := (w_etcd w, w_nodes w, w_running w, w_sched w).
Definition plan t : string * Z * Z * Z := (TaskUID t, CPULimit t, MemoryLimit t, MaxRetries t).

Lemma count_daily_put w l t f : count_daily f (put w l t) = (tt, put (count_daily f w).2 l t).
Proof.
  pose proof (run_count_daily w l t f (λ u, mret u)) as Hrun. unfold mbind, M_bind in Hrun.
  destruct (count_daily f (put w l t)) as [[] w']. exact Hrun.
Qed.

Lemma count_daily_kept w f :
  kept (count_daily f w).2 = kept w ∧ w_mem (count_daily f w).2 = w_mem w.
Proof.
  unfold count_daily, has_redis, redis_do, mbind, M_bind, gets. cbn.
  case_bool_decide as Hr; [|done]. destruct Hr as [r Hr]. cbn. rewrite Hr.
  by destruct (r_HIncrBy _ _ _ _).
Qed.

Definition same_frame (w w' : W) l : Prop :=
  kept w' = kept w ∧ plan (deref (w_mem w') l) = plan (deref (w_mem w) l) ∧
  length (w_mem w') = length (w_mem w).

Lemma frame_put w w' l t :
  in_mem (w_mem w) l → kept w' = kept w → length (w_mem w') = length (w_mem w) →
  plan t = plan (deref (w_mem w) l) → same_frame w (put w' l t) l.
Proof.
  intros Hl Hk Hm Hp. unfold in_mem in Hl. split; [exact Hk|].
  rewrite deref_put by (unfold in_mem; lia). split; [exact Hp|]. cbn. by rewrite length_insert.
Qed.

Lemma frame_count_daily w w' l t f :
  in_mem (w_mem w) l → kept w' = kept w → length (w_mem w') = length (w_mem w) →
  plan t = plan (deref (w_mem w) l) → same_frame w (count_daily f (put w' l t)).2 l.
Proof.
  intros Hl Hk Hm Hp. rewrite count_daily_put. destruct (count_daily_kept w' f) as [Ek Em].
  apply frame_put; [done|congruence|by rewrite Em|done].
Qed.

Lemma failTask_frame w l msg :
  in_mem (w_mem w) l → (∀ i, db_fault i = None) → same_frame w (failTask l msg w).2 l.
Proof.
  intros Hl Hf. set (t := deref (w_mem w) l).
  assert (failTask l msg w = failTask l msg (put w l t)) as -> by (unfold t; by rewrite put_self).
  unfold failTask. run.
  destruct (CanRetry _); run; cbv zeta.
  - rewrite Hf. run. cbv zeta. by apply frame_put.
  - rewrite TransitionTo_spec. case_decide; cbn [fst snd]; [|by apply frame_put].
    run. cbv zeta. rewrite Hf. by apply frame_count_daily.
Qed.

Lemma completeTask_frame w l result :
  in_mem (w_mem w) l → (∀ i, db_fault i = None) → same_frame w (completeTask l result w).2 l.
Proof.
  intros Hl Hf. destruct (tr_Error result) as [e|] eqn:He.
  - rewrite (completeTask_error w l result e) by done. set (w1 := put _ l _).
    assert (same_frame w w1 l) as (E1 & E2 & E3) by by apply frame_put.
    assert (in_mem (w_mem w1) l) as Hl1 by (unfold in_mem in *; lia).
    destruct (failTask_frame w1 l (if tr_TimedOut result then "task timed out"%string else Error e) Hl1 Hf)
      as (F1 & F2 & F3). split_and!; congruence.
  - set (t := deref (w_mem w) l).
    assert (completeTask l result w = completeTask l result (put w l t)) as ->
      by (unfold t; by rewrite put_self).
    unfold completeTask. run. rewrite He. run.
    rewrite TransitionTo_spec. case_decide; cbn [fst snd]; [|by apply frame_put].
    run. cbv zeta. rewrite Hf. by apply frame_count_daily.
Qed.

(** ** Dispatch on a server without nodes and etcd *)

Lemma dispatch_frame w l :
  in_mem (w_mem w) l → (∀ i, db_fault i = None) → w_etcd w = None → w_nodes w = None →
  let t := deref (w_mem w) l in
  Status t = TaskStatusCreated ∨ Status t = TaskStatusPending →
  let w' := (dispatch l w).2 in
  let t' := deref (w_mem w') l in
  w_etcd w' = None ∧ w_nodes w' = None ∧ plan t' = plan t ∧ RetryCount t' = RetryCount t ∧
  length (w_mem w') = length (w_mem w) ∧
  maxConcurrent (w_sched w') = maxConcurrent (w_sched w) ∧
  totalCPU (w_sched w') = totalCPU (w_sched w) ∧
  totalMemMB (w_sched w') = totalMemMB (w_sched w).
Proof.
  intros Hl Hf He Hn t Hs. cbv zeta.
  assert (∀ w1 t1, w_mem w1 = w_mem w → w_etcd w1 = None → w_nodes w1 = None →
     w_sched w1 = w_sched w → plan t1 = plan t → RetryCount t1 = RetryCount t →
     Status t1 = TaskStatusPending →
     let w' := (place l (put w1 l t1)).2 in let t' := deref (w_mem w') l in
     w_etcd w' = None ∧ w_nodes w' = None ∧ plan t' = plan t ∧ RetryCount t' = RetryCount t ∧
     length (w_mem w') = length (w_mem w) ∧
     maxConcurrent (w_sched w') = maxConcurrent (w_sched w) ∧
     totalCPU (w_sched w') = totalCPU (w_sched w) ∧
     totalMemMB (w_sched w') = totalMemMB (w_sched w)) as Hplace.
  { intros w1 t1 Em E1 E2 E3 E4 E5 E6. assert (in_mem (w_mem w1) l) as Hl1 by by rewrite Em.
    unfold place. run. rewrite E2. cbn [SelectNode]. unfold dispatchLocal. run.
    rewrite TransitionTo_ok by (rewrite E6; reflexivity). cbn [fst snd]. run. cbv zeta.
    rewrite Hf. rewrite run_register_cancel by done. rewrite run_spawn. cbn [snd].
    rewrite deref_put by done. cbn. rewrite length_insert, E3, Em. by split_and!. }
  assert (dispatch l w = dispatch l (put w l t)) as -> by (unfold t; by rewrite put_self).
  unfold dispatch. run. rewrite run_ClaimTask by done. case_bool_decide as Hc.
  - run. rewrite TransitionTo_ok by (rewrite Hc; reflexivity). cbn [fst snd]. run. cbv zeta.
    rewrite Hf. by apply Hplace.
  - apply Hplace; try done. by destruct Hs.
Qed.
(** ** One round *)

(** The task waits in the queue of an idle server with room for it, having been
    retried [k] times. *)
Record waiting (uid : string) (k : Z) l w : Prop := {
  wt_mem : in_mem (w_mem w) l;
  wt_uid : TaskUID (deref (w_mem w) l) = uid;
  wt_status : Status (deref (w_mem w) l) = TaskStatusCreated ∨
              Status (deref (w_mem w) l) = TaskStatusPending;
  wt_count : RetryCount (deref (w_mem w) l) = k;
  wt_max : MaxRetries (deref (w_mem w) l) = 3;
  wt_fits : canAllocate (deref (w_mem w) l) (totalCPU (w_sched w)) (totalMemMB (w_sched w)) = true;
  wt_row : is_Some (rows (w_db w) !! uid);
  wt_idle u r : rows (w_db w) !! u = Some r → c_status r ≠ TaskStatusRunning;
  wt_running : w_running w = [];
  wt_etcd : w_etcd w = None;
  wt_nodes : w_nodes w = None;
  wt_queue : pointers (w_queue w) = [l];
  wt_open : closed (w_queue w) = false;
  wt_cpu : in_i64 (totalCPU (w_sched w));
  wt_memory : in_i64 (totalMemMB (w_sched w));
  wt_slots : 0 < maxConcurrent (w_sched w) < 2 ^ 63 }.

(** The task runs, and nothing else. *)
Record executing (uid : string) (k : Z) l w : Prop := {
  ex_mem : in_mem (w_mem w) l;
  ex_uid : TaskUID (deref (w_mem w) l) = uid;
  ex_status : Status (deref (w_mem w) l) = TaskStatusRunning;
  ex_count : RetryCount (deref (w_mem w) l) = k;
  ex_max : MaxRetries (deref (w_mem w) l) = 3;
  ex_fits : canAllocate (deref (w_mem w) l) (totalCPU (w_sched w)) (totalMemMB (w_sched w)) = true;
  ex_row : is_Some (rows (w_db w) !! uid);
  ex_idle u r : u ≠ uid → rows (w_db w) !! u = Some r → c_status r ≠ TaskStatusRunning;
  ex_running : ∃ ctx, w_running w = [(ctx, l)];
  ex_etcd : w_etcd w = None;
  ex_nodes : w_nodes w = None;
  ex_queue : pointers (w_queue w) = [];
  ex_open : closed (w_queue w) = false;
  ex_cpu : in_i64 (totalCPU (w_sched w));
  ex_memory : in_i64 (totalMemMB (w_sched w));
  ex_slots : 0 < maxConcurrent (w_sched w) < 2 ^ 63 }.

Lemma canAllocate_plan t t' c m : plan t' = plan t → canAllocate t' c m = canAllocate t c m.
Proof. unfold plan, canAllocate. by intros [= _ -> -> _]. Qed.

(** The cycle finds no running task. *)
Lemma tick_idle fuel w :
  (∀ i, db_fault i = None) → (∀ u r, rows (w_db w) !! u = Some r → c_status r ≠ TaskStatusRunning) →
  tick fuel w =
    dispatch_loop fuel (available (w_sched w) 0 0 0)
      (w <| w_stm := S (w_stm w) |> <| w_clk := S (w_clk w) |>).
Proof.
  intros Hf Hidle. assert (select TaskStatusRunning (w_db w) = []) as Hsel.
  { destruct (select TaskStatusRunning (w_db w)) as [|r rs] eqn:Hs; [done|].
    assert (r ∈ select TaskStatusRunning (w_db w)) as Hr by (rewrite Hs; left).
    unfold select in Hr. rewrite sort_by_perm in Hr.
    apply list_elem_of_filter in Hr as [[Hr|Hr] Hin]; [done|].
    apply list_elem_of_fmap in Hin as ([u r'] & -> & Hin). apply elem_of_map_to_list in Hin.
    by apply Hidle in Hin. }
  unfold tick, store_GetRunningTasks, GetRunningTasks, GetByStatus, statement, gets, mbind, M_bind.
  cbn [fst snd]. rewrite Hf. cbn [w_db setf set_w_stm]. rewrite Hsel. reflexivity.
Qed.

Lemma tick_starts fuel uid k l w :
  (∀ i, db_fault i = None) → waiting uid k l w →
  items (w_queue w) ++ pq (w_queue w) = [l] → delayed (w_queue w) = [] → (2 ≤ fuel)%nat →
  ∃ w', tick fuel w = (true, w') ∧ executing uid k l w'.
Proof.
  intros Hf [] Hq Hd Hfuel. rewrite tick_idle by done.
  set (w1 := w <| w_stm := _ |> <| w_clk := _ |>).
  destruct fuel as [|fuel]; [lia|]. rewrite dispatch_loop_step. unfold available.
  rewrite !sub64_id, !Z.sub_0_r by (rewrite ?Z.sub_0_r; done || int_lia). cbn [snd].
  destruct (Z.ltb_spec 0 (maxConcurrent (w_sched w))) as [_|]; [|lia].
  destruct (queue_Pop_single w1 l (100 * millisecond) Hq Hd) as (c & q & Hpop & Hq' & Ho').
  unfold pop_one, mbind, M_bind. rewrite Hpop. cbn [fst snd load gets].
  set (w2 := w1 <| w_clk := c |> <| w_queue := q |>).
  change (w_mem w2) with (w_mem w). rewrite wt_fits0. cbn [fst snd].
  pose proof (dispatch_frame w2 l wt_mem0 Hf wt_etcd0 wt_nodes0 wt_status0)
    as (E1 & E2 & E3 & E4 & E5 & E6 & E7 & E8).
  destruct wt_row0 as [r Hr]. rewrite <- wt_uid0 in Hr.
  pose proof (dispatch_result w2 l (deref (w_mem w) l) r Hf wt_etcd0 wt_nodes0 wt_mem0 wt_status0 Hr) as Hres.
  assert (put w2 l (deref (w_mem w) l) = w2) as Hput by exact (put_self w2 l wt_mem0).
  rewrite Hput in Hres. clear Hput.
  destruct Hres as (D1 & _ & D3 & D4 & _ & (r' & D6 & D7) & D8).
  set (w3 := (dispatch l w2).2) in *. set (t := deref (w_mem w3) l) in *.
  assert (executing uid k l w3) as Hex.
  { split; fold t; try done.
    - unfold in_mem. rewrite E5. done.
    - unfold plan in E3. injection E3 as -> _ _ _. done.
    - by rewrite E4.
    - unfold plan in E3. injection E3 as _ _ _ ->. done.
    - rewrite (canAllocate_plan (deref (w_mem w2) l)) by done. rewrite E7, E8. exact wt_fits0.
    - rewrite <- wt_uid0. by exists r'.
    - intros u r0 Hu. rewrite D8 by congruence. apply wt_idle0.
    - exists (w_ctx w2). rewrite D3. change (w_running w2) with (w_running w). by rewrite wt_running0.
    - by rewrite D4.
    - rewrite D4. change (w_queue w2) with q. by rewrite Ho'.
    - by rewrite E7.
    - by rewrite E8.
    - by rewrite E6. }
  destruct fuel as [|fuel]; [lia|]. unfold mret, M_ret. cbn [fst snd]. fold w3.
  pose proof (ex_queue _ _ _ _ Hex) as Hq3. apply app_nil in Hq3 as [Ei Hq3]. apply app_nil in Hq3 as [Ep _].
  match goal with |- ∃ _, dispatch_loop _ ?b _ = _ ∧ _ =>
    destruct (dispatch_loop_nothing fuel b w3 Ep Ei) as [k' Hloop] end.
  eexists. split; [exact Hloop|]. by destruct Hex.
Qed.

(** The end of the execution, up to what [completeTask] does. *)
Lemma execution_done_world ctx l out w :
  w_running w = [(ctx, l)] →
  ∃ s, let w1 := (completeTask l out (w <| w_running := [] |>)).2 in
    (execution_done ctx l out w).2 = w1 <| w_sched := s |> ∧
    maxConcurrent s = maxConcurrent (w_sched w1) ∧
    totalCPU s = totalCPU (w_sched w1) ∧ totalMemMB s = totalMemMB (w_sched w1).
Proof.
  intros Hr. unfold execution_done, mbind, M_bind, modify, load, gets, sched_modify. cbn [fst snd].
  assert (filter (λ x, x ≠ (ctx, l)) (w_running w) = []) as ->.
  { rewrite Hr, filter_cons_False; [done|]. tauto. }
  by eexists.
Qed.

(** What the table says of a task whose row was rewritten. *)
Lemma saved_rows w w' uid t' :
  saved w w' t' → TaskUID t' = uid → is_Some (rows (w_db w) !! uid) →
  (∃ r, rows (w_db w') !! uid = Some (update_row t' r)) ∧
  ∀ u, u ≠ uid → rows (w_db w') !! u = rows (w_db w) !! u.
Proof.
  intros Hs <- [r Hr]. split.
  - exists r. by apply (saved_row w).
  - intros u Hu. rewrite Hs. by apply lookup_alter_ne.
Qed.

Lemma done_success uid k l out ctx w :
  (∀ i, db_fault i = None) → executing uid k l w → w_running w = [(ctx, l)] → tr_Error out = None →
  let w' := (execution_done ctx l out w).2 in
  w_running w' = [] ∧ pointers (w_queue w') = [] ∧
  ∃ r, rows (w_db w') !! uid = Some r ∧ c_status r = TaskStatusSuccess ∧ c_retry_count r = k ∧
       c_exit_code r = Some (tr_ExitCode out) ∧ c_stdout r = Some (tr_Stdout out) ∧
       c_stderr r = Some (tr_Stderr out).
Proof.
  intros Hf [] Hrun He. cbv zeta.
  destruct (execution_done_world ctx l out w Hrun) as (s & -> & _).
  set (w0 := w <| w_running := [] |>).
  destruct (completeTask_success w0 l out ex_mem0 (Hf _) He) as (Hu & _ & Hq & Ho & Hoe & Hx & Hout).
  rewrite bool_decide_eq_true_2 in Hout by exact ex_status0. destruct Hout as [Hst Hsv].
  destruct (completeTask_frame w0 l out ex_mem0 Hf) as (Hk & _ & _).
  assert (RetryCount (deref (w_mem (completeTask l out w0).2) l) = k) as Hrc.
  { rewrite <- ex_count0.
    assert (completeTask l out w0 = completeTask l out (put w0 l (deref (w_mem w0) l))) as ->
      by (by rewrite put_self).
    unfold completeTask. run. rewrite He. run. rewrite TransitionTo_ok.
    - cbn [fst snd]. run. cbv zeta. rewrite Hf, count_daily_put. cbn [snd].
      rewrite deref_put; [done|]. unfold in_mem. by rewrite (proj2 (count_daily_kept _ _)).
    - change (w_mem w0) with (w_mem w).
      cbn [Status setf set_FinishedAt set_ExitCode set_Stdout set_Stderr]. by rewrite ex_status0. }
  set (w1 := (completeTask l out w0).2) in *. set (t' := deref (w_mem w1) l) in *.
  destruct (saved_rows w0 w1 uid t') as [[r Hr] _]; [done|by rewrite Hu|done|].
  unfold kept in Hk. injection Hk as _ _ Hk _.
  split; [exact Hk|]. split; [by rewrite <- ex_queue0; cbn; rewrite Hq|].
  exists (update_row t' r). split; [exact Hr|]. cbn. by rewrite Hst, Hrc, Hx, Ho, Hoe.
Qed.

Definition end_message (out : TaskResult) : string :=
  match tr_Error out with
  | Some e => if tr_TimedOut out then "task timed out" else Error e
  | None => EmptyString
  end.

(** Without retries left the count stays. *)
Lemma failTask_count w l msg :
  in_mem (w_mem w) l → (∀ i, db_fault i = None) → CanRetry (deref (w_mem w) l) = false →
  RetryCount (deref (w_mem (failTask l msg w).2) l) = RetryCount (deref (w_mem w) l).
Proof.
  intros Hl Hf. set (t := deref (w_mem w) l). intros Hc.
  assert (failTask l msg w = failTask l msg (put w l t)) as -> by (unfold t; by rewrite put_self).
  unfold failTask. run. change (CanRetry (t <| ErrorMessage := msg |>)) with (CanRetry t).
  rewrite Hc. run. rewrite TransitionTo_spec. case_decide; cbn [fst snd].
  - run. cbv zeta. rewrite Hf, count_daily_put. cbn [snd]. rewrite deref_put; [done|].
    unfold in_mem. by rewrite (proj2 (count_daily_kept _ _)).
  - unfold mret, M_ret. cbn [snd]. by rewrite deref_put.
Qed.

(** Nothing runs or waits, and the object [l] of the task is about to fail. *)
Record failing (uid : string) (k : Z) l w : Prop := {
  fl_mem : in_mem (w_mem w) l;
  fl_uid : TaskUID (deref (w_mem w) l) = uid;
  fl_count : RetryCount (deref (w_mem w) l) = k;
  fl_max : MaxRetries (deref (w_mem w) l) = 3;
  fl_fits : canAllocate (deref (w_mem w) l) (totalCPU (w_sched w)) (totalMemMB (w_sched w)) = true;
  fl_row : is_Some (rows (w_db w) !! uid);
  fl_idle u r : u ≠ uid → rows (w_db w) !! u = Some r → c_status r ≠ TaskStatusRunning;
  fl_running : w_running w = [];
  fl_etcd : w_etcd w = None;
  fl_nodes : w_nodes w = None;
  fl_queue : pointers (w_queue w) = [];
  fl_open : closed (w_queue w) = false;
  fl_cpu : in_i64 (totalCPU (w_sched w));
  fl_memory : in_i64 (totalMemMB (w_sched w));
  fl_slots : 0 < maxConcurrent (w_sched w) < 2 ^ 63 }.

(** With retries left it waits again. *)
Lemma failed_waits uid k l msg w :
  (∀ i, db_fault i = None) → failing uid k l w → 0 <= k < 3 →
  waiting uid (k + 1) l (failTask l msg w).2.
Proof.
  intros Hf [] Hk. destruct (failTask_frame w l msg fl_mem0 Hf) as (Fk & Fp & Fl).
  destruct (failTask_result w l msg fl_mem0 (Hf _)) as (_ & _ & Hu & Hout).
  set (w1 := (failTask l msg w).2) in *. set (t' := deref (w_mem w1) l) in *.
  unfold CanRetry in Hout. rewrite fl_max0, fl_count0 in Hout.
  rewrite (proj2 (Z.ltb_lt k 3)) in Hout by lia. destruct Hout as (Hst & Hrc & _ & Hsv & Hq).
  destruct (saved_rows w w1 uid t') as [[r Hr] Hne]; [done|by rewrite Hu|done|].
  unfold kept in Fk. injection Fk as K1 K2 K3 K4.
  split; fold t'; rewrite ?K1, ?K2, ?K3, ?K4; try done.
  - unfold in_mem. by rewrite Fl.
  - by rewrite Hu.
  - by right.
  - rewrite Hrc. apply add64_id. int_lia.
  - unfold plan in Fp. injection Fp as _ _ _ ->. exact fl_max0.
  - by rewrite (canAllocate_plan _ _ _ _ Fp).
  - intros u r0. destruct (decide (u = uid)) as [->|Hu'].
    + rewrite Hr. intros [= <-]. cbn. by rewrite Hst.
    + rewrite Hne by done. by apply fl_idle0.
  - rewrite Hq. cbn. unfold pointers in *. cbn. rewrite fmap_app.
    apply app_nil in fl_queue0 as [E1 E2]. apply app_nil in E2 as [E2 E3].
    cbn in *. by rewrite E1, E2, E3.
  - by rewrite Hq.
Qed.

(** The cancel functions and the clock do not matter. *)
Lemma waiting_sched uid k l w s :
  maxConcurrent s = maxConcurrent (w_sched w) → totalCPU s = totalCPU (w_sched w) →
  totalMemMB s = totalMemMB (w_sched w) → waiting uid k l w → waiting uid k l (w <| w_sched := s |>).
Proof. intros E1 E2 E3 []. split; cbn; by rewrite ?E1, ?E2, ?E3. Qed.

Lemma waiting_clk uid k l w n : waiting uid k l w → waiting uid k l (w <| w_clk := n |>).
Proof. by intros []. Qed.

(** The result of a failed execution. *)
Lemma done_error uid k l out e ctx w :
  (∀ i, db_fault i = None) → executing uid k l w → w_running w = [(ctx, l)] →
  tr_Error out = Some e → 0 <= k <= 3 →
  let w' := (execution_done ctx l out w).2 in
  if k <? 3 then waiting uid (k + 1) l w'
  else w_running w' = [] ∧ pointers (w_queue w') = [] ∧
       ∃ r, rows (w_db w') !! uid = Some r ∧ c_status r = TaskStatusFailed ∧ c_retry_count r = 3 ∧
            c_error_message r = Some (end_message out).
Proof.
  intros Hf [] Hrun He Hk. cbv zeta.
  destruct (execution_done_world ctx l out w Hrun) as (s & -> & S). cbv zeta in *.
  set (w0 := w <| w_running := [] |>) in *. rewrite (completeTask_error w0 l out e) in * by done.
  assert ((if tr_TimedOut out then "task timed out"%string else Error e) = end_message out) as Hm
    by by unfold end_message; rewrite He.
  rewrite Hm in *. clear Hm.
  set (w2 := put _ l _) in *.
  assert (deref (w_mem w2) l = reported (clock (w_clk w0)) out (deref (w_mem w0) l)) as Ht2
    by by apply deref_put.
  assert (failing uid k l w2) as Hend.
  { split; rewrite ?Ht2; try done. unfold in_mem, w2. cbn. by rewrite length_insert. }
  destruct (Z.ltb_spec k 3) as [Hlt|Hge].
  { destruct S as (S1 & S2 & S3). apply waiting_sched; [exact S1|exact S2|exact S3|]. apply failed_waits; [done..|lia]. }
  destruct Hend. destruct (failTask_frame w2 l (end_message out) fl_mem0 Hf) as (Fk & _ & _).
  destruct (failTask_result w2 l (end_message out) fl_mem0 (Hf _)) as (_ & Hmsg & Hu & Hout).
  assert (CanRetry (deref (w_mem w2) l) = false) as Hcan.
  { unfold CanRetry. rewrite fl_count0, fl_max0. by apply Z.ltb_ge. }
  rewrite Hcan, bool_decide_eq_true_2 in Hout by by rewrite Ht2. destruct Hout as (Hst & _ & Hsv & Hq).
  pose proof (failTask_count w2 l (end_message out) fl_mem0 Hf Hcan) as Hct.
  set (w1 := (failTask l (end_message out) w2).2) in *. set (t' := deref (w_mem w1) l) in *.
  destruct (saved_rows w2 w1 uid t') as [[r Hr] _]; [done|by rewrite Hu|done|].
  unfold kept in Fk. injection Fk as _ _ K3 _. split; [exact K3|]. split; [cbn; by rewrite Hq|].
  exists (update_row t' r). split; [exact Hr|]. cbn. rewrite Hst, Hmsg, Hct, fl_count0.
  split_and!; try done. lia.
Qed.

Lemma round_waiting uid k l out w :
  (∀ i, db_fault i = None) → waiting uid k l w →
  ∃ n0, ∀ n fuel, n0 <= n → (2 ≤ fuel)%nat →
    ∃ ctx w2, executing uid k l w2 ∧ w_running w2 = [(ctx, l)] ∧
              round n fuel out w = Some (execution_done ctx l out w2).2.
Proof.
  intros Hf Hw. destruct (drain_pointers (w_queue w) l) as [n0 Hn0]; [by apply Hw..|].
  exists n0. intros n fuel Hn Hfuel. destruct (Hn0 n Hn) as (Hq & Hd & Hc).
  set (w1 := w <| w_queue := drainDelayed n (w_queue w) |>).
  assert (waiting uid k l w1) as Hw1.
  { destruct Hw. split; try done. unfold pointers. cbn. rewrite app_assoc, Hq, Hd. done. }
  destruct (tick_starts fuel uid k l w1 Hf Hw1 Hq Hd Hfuel) as (w2 & Ht & Hex).
  destruct (ex_running _ _ _ _ Hex) as [ctx Hrun]. exists ctx, w2. split; [done|]. split; [done|].
  unfold round. fold w1. by rewrite Ht, Hrun.
Qed.

(** Failures use up the retries. *)
Lemma rounds_failures uid fails k l w :
  (∀ i, db_fault i = None) → waiting uid k l w → 0 <= k → k + Z.of_nat (length fails) <= 3 →
  Forall (λ out, tr_Error out ≠ None) fails →
  rounds fails (waiting uid (k + Z.of_nat (length fails)) l) w.
Proof.
  intros Hf Hw Hk Hlen Hfails. revert k w Hw Hk Hlen.
  induction Hfails as [|out fails Hout Hfails IH]; intros k w Hw Hk Hlen; cbn [rounds length] in *.
  { by rewrite Z.add_0_r. }
  destruct (round_waiting uid k l out w Hf Hw) as [n0 Hn]. exists n0. intros n fuel Hle Hfuel.
  destruct (Hn n fuel Hle Hfuel) as (ctx & w2 & Hex & Hrun & Hround).
  eexists. split; [exact Hround|].
  destruct (tr_Error out) as [e|] eqn:He; [|done].
  pose proof (done_error uid k l out e ctx w2 Hf Hex Hrun He ltac:(lia)) as Hend.
  cbv zeta in Hend. destruct (Z.ltb_spec k 3); [|lia].
  replace (k + Z.of_nat (S (length fails))) with (k + 1 + Z.of_nat (length fails)) by lia.
  apply IH; [done|lia|lia].
Qed.

(** ** Creation *)

(** Nothing waits or runs; no etcd, no nodes. *)
Record idle w : Prop := {
  id_queue : pointers (w_queue w) = [];
  id_open : closed (w_queue w) = false;
  id_running : w_running w = [];
  id_rows u r : rows (w_db w) !! u = Some r → c_status r ≠ TaskStatusRunning;
  id_etcd : w_etcd w = None;
  id_nodes : w_nodes w = None;
  id_cpu : in_i64 (totalCPU (w_sched w));
  id_memory : in_i64 (totalMemMB (w_sched w));
  id_slots : 0 < maxConcurrent (w_sched w) < 2 ^ 63 }.

Definition outside w := (w_etcd w, w_nodes w).

Lemma outside_keep {A} x (c : M W A) :
  (∀ w, outside (c w).2 = outside w) → preserves (λ w, outside w = x) c.
Proof. intros Hc w <-. apply Hc. Qed.

Lemma CreateTask_outside req w : outside (CreateTask req w).2 = outside w.
Proof.
  enough (preserves (λ w', outside w' = outside w) (CreateTask req)) as Hkeep by by apply Hkeep.
  assert (∀ x f, preserves (λ w, outside w = x) (count_daily f)) as Hcount.
  { intros x f. apply outside_keep. intros w'. destruct (count_daily_kept w' f) as [Hk _].
    unfold kept in Hk. unfold outside. congruence. }
  assert (∀ x B (cmd : R → B * R), preserves (λ w, outside w = x) (redis_do cmd)) as Hredis.
  { intros x B cmd. apply outside_keep. intros w'. unfold redis_do. destruct (w_redis w') as [r|]; [|done].
    by destruct (cmd r). }
  assert (∀ x l, preserves (λ w, outside w = x) (store_Create l)) as Hstore.
  { intros x l. apply outside_keep. intros w'. unfold store_Create, mbind, M_bind, action. cbn.
    by destruct (Create _ _ _) as [[e t] tbl]. }
  unfold CreateTask.
  repeat first
    [ apply preserves_ret | apply Hcount | apply Hredis | apply Hstore | by apply outside_keep
    | apply preserves_bind; [|intros ?]
    | match goal with |- preserves _ (match ?x with _ => _ end) => destruct x end ].
Qed.

Lemma CreateTask_length req w : (length (w_mem w) < length (w_mem (CreateTask req w).2))%nat.
Proof.
  assert (∀ A (c : M W A), (∀ w, length (w_mem (c w).2) = length (w_mem w)) →
            preserves (λ w', length (w_mem w) < length (w_mem w'))%nat c) as Hkeep.
  { intros A c Hc w' Hw'. by rewrite Hc. }
  set (n := length (w_mem w)) in *.
  enough (hoare (λ w', w' = w) (CreateTask req) (λ _ w', n < length (w_mem w'))%nat) as Hh by by apply Hh.
  unfold CreateTask.
  apply (hoare_bind (λ w', w' = w) (λ _ w', w_mem w' = w_mem w)); [by intros ? ->|]. intros now0.
  apply (hoare_bind _ (λ _ w', w_mem w' = w_mem w)); [by intros w' Hw'|]. intros uid.
  apply (hoare_bind _ (λ _ w', n < length (w_mem w'))%nat).
  { intros w' Hw'. cbn. rewrite length_app, Hw'. cbn. lia. }
  intros l.
  assert (∀ f, preserves (λ w', n < length (w_mem w'))%nat (count_daily f)) as Hcount.
  { intros f. apply Hkeep. intros w'. by destruct (count_daily_kept w' f) as [_ ->]. }
  assert (∀ B (cmd : R → B * R), preserves (λ w', n < length (w_mem w'))%nat (redis_do cmd)) as Hredis.
  { intros B cmd. apply Hkeep. intros w'. unfold redis_do. destruct (w_redis w') as [r|]; [|done].
    by destruct (cmd r). }
  assert (preserves (λ w', n < length (w_mem w'))%nat (store_Create l)) as Hstore.
  { apply Hkeep. intros w'. unfold store_Create, mbind, M_bind, action. cbn.
    destruct (Create _ _ _) as [[e t] tbl]. cbn. by rewrite length_insert. }
  repeat first
    [ apply preserves_ret | apply Hcount | apply Hredis | apply Hstore | by apply Hkeep
    | apply preserves_bind; [|intros ?]
    | match goal with |- preserves _ (match ?x with _ => _ end) => destruct x end ].
Qed.

Lemma created_waiting w req l w1 :
  let t := requested (new_uuid (w_uuids w)) (clock (w_clk w)) req in
  (∀ i, db_fault i = None) → idle w → rows (w_db w) !! TaskUID t = None →
  CreateTask req w = (Ok l, w1) →
  canAllocate t (totalCPU (w_sched w)) (totalMemMB (w_sched w)) = true →
  waiting (TaskUID t) 0 l w1.
Proof.
  intros t Hf [] Hfresh Hcreate Hfits. pose proof (CreateTask_outside req w) as Hout.
  pose proof (CreateTask_result w req Hfresh) as Hres. rewrite Hcreate in Hres, Hout. cbn [snd] in Hout.
  unfold outside in Hout. injection Hout as Oe On. fold t in Hres.
  destruct Hres as (Hrun & Hsched & Hres). rewrite Hf in Hres.
  assert (l = length (w_mem w) ∧ deref (w_mem w1) l = t <| ID := next_id (w_db w) |> ∧
      w_db w1 = mkTaskTable (<[TaskUID t := insert_row (next_id (w_db w)) t]> (rows (w_db w)))
                  (next_id (w_db w) + 1) ∧
      w_queue w1 = (if 0 <? Priority t then q_PushPriority (w_mem w1) l (w_queue w)
                    else q_Push (w_mem w1) l (w_queue w)).2) as (Hl & Ht & Hdb & Hq).
  { destruct (dedup_reply w t) as [[[]|]|];
      [| destruct Hres as ([s Hs] & _); discriminate Hs | |];
      destruct Hres as ([= ->] & ? & ? & ?); by split_and!. }
  destruct (requested_counts (new_uuid (w_uuids w)) (clock (w_clk w)) req) as (Ec & Em & _).
  destruct (requested_ok (new_uuid (w_uuids w)) (clock (w_clk w)) req) as [_ Est]. fold t in Ec, Em, Est.
  assert (pointers (w_queue w1) = [l] ∧ closed (w_queue w1) = false) as [Hp Ho].
  { apply app_nil in id_queue0 as [E1 E2]. apply app_nil in E2 as [E2 E3]. rewrite Hq.
    destruct (w_queue w) as [its p c ds]. cbn in E1, E2, E3, id_open0.
    apply fmap_nil_inv in E3. subst. by destruct (0 <? Priority t). }
  assert (in_mem (w_mem w1) l) as Hin.
  { unfold in_mem. rewrite Hl. pose proof (CreateTask_length req w) as Hlen. by rewrite Hcreate in Hlen. }
  split; rewrite ?Ht, ?Hsched, ?Hrun, ?Oe, ?On, ?Hdb; try done.
  - by left.
  - cbn. rewrite lookup_insert_eq. by eexists.
  - intros u r. cbn. rewrite lookup_insert_Some. intros [[_ <-]|[_ Hr]]; [|by eapply id_rows0].
    change (Status t ≠ TaskStatusRunning). by rewrite Est.
Qed.

(** ** The property *)

(** The table at the end: the row says [r], nothing runs and nothing waits. *)
Definition settled (uid : string) (P : TaskRow → Prop) w : Prop :=
  w_running w = [] ∧ pointers (w_queue w) = [] ∧ ∃ r, rows (w_db w) !! uid = Some r ∧ P r.

(** A waiting task comes to an end: each execution that fails uses up a retry. *)
Lemma waiting_finishes uid k l w fails out :
  (∀ i, db_fault i = None) → waiting uid k l w → 0 <= k → k + Z.of_nat (length fails) <= 3 →
  Forall (λ out, tr_Error out ≠ None) fails →
  (tr_Error out = None →
   rounds (fails ++ [out])
     (settled uid (λ r,
        c_status r = TaskStatusSuccess ∧ c_retry_count r = k + Z.of_nat (length fails) ∧
        c_exit_code r = Some (tr_ExitCode out) ∧ c_stdout r = Some (tr_Stdout out) ∧
        c_stderr r = Some (tr_Stderr out))) w) ∧
  (tr_Error out ≠ None → k + Z.of_nat (length fails) = 3 →
   rounds (fails ++ [out])
     (settled uid (λ r,
        c_status r = TaskStatusFailed ∧ c_retry_count r = 3 ∧
        c_error_message r = Some (end_message out))) w).
Proof.
  intros Hf Hw Hk Hlen Hfails. pose proof (rounds_failures uid fails k l w Hf Hw Hk Hlen Hfails) as Hr.
  split; [intros He|intros He H3]; apply rounds_app; revert Hr; apply rounds_impl; intros w2 Hw2; cbn [rounds];
    destruct (round_waiting _ _ l out w2 Hf Hw2) as [n0 Hn]; exists n0; intros n fuel Hle Hfuel;
    destruct (Hn n fuel Hle Hfuel) as (ctx & w3 & Hex & Hrun & Hround); eexists; (split; [exact Hround|]).
  - by apply (done_success _ _ l out ctx w3 Hf Hex Hrun He).
  - destruct (tr_Error out) as [e|] eqn:He'; [|done].
    pose proof (done_error _ _ l out e ctx w3 Hf Hex Hrun He' ltac:(lia)) as Hend.
    rewrite H3 in Hend. exact Hend.
Qed.

(** C3 Every accepted task that fits the machine comes to an end.  On an idle
    server without nodes and etcd, whose database answers, a created task is
    inevitably executed, and executed again after each failure: at every round
    the drain loop (from the time its delay is over on) makes it ready, the
    next scheduling cycle starts exactly this task, and the end of its
    execution is recorded.  If one of its first four executions succeeds, the
    row ends as success with the output of that execution and the number of
    failures as its retry count; if all four fail, it ends as failed with
    the message of the last.  Either way nothing is left in the queue and
    nothing runs. *)
Theorem accepted_task_finishes w req l w1 fails out :
  let t := requested (new_uuid (w_uuids w)) (clock (w_clk w)) req in
  (∀ i, db_fault i = None) → idle w → rows (w_db w) !! TaskUID t = None →
  CreateTask req w = (Ok l, w1) →
  canAllocate t (totalCPU (w_sched w)) (totalMemMB (w_sched w)) = true →
  Forall (λ out, tr_Error out ≠ None) fails → (length fails ≤ 3)%nat →
  (tr_Error out = None →
   rounds (fails ++ [out])
     (settled (TaskUID t) (λ r,
        c_status r = TaskStatusSuccess ∧ c_retry_count r = Z.of_nat (length fails) ∧
        c_exit_code r = Some (tr_ExitCode out) ∧ c_stdout r = Some (tr_Stdout out) ∧
        c_stderr r = Some (tr_Stderr out))) w1) ∧
  (tr_Error out ≠ None → length fails = 3%nat →
   rounds (fails ++ [out])
     (settled (TaskUID t) (λ r,
        c_status r = TaskStatusFailed ∧ c_retry_count r = 3 ∧
        c_error_message r = Some (end_message out))) w1).
Proof.
  intros t Hf Hidle Hfresh Hcreate Hfits Hfails Hlen.
  pose proof (created_waiting w req l w1 Hf Hidle Hfresh Hcreate Hfits) as Hw. fold t in Hw.
  destruct (waiting_finishes (TaskUID t) 0 l w1 fails out Hf Hw ltac:(lia) ltac:(lia) Hfails) as [Hok Hbad].
  rewrite Z.add_0_l in Hok, Hbad. split; [exact Hok|]. intros He H3. apply Hbad; [done|by rewrite H3].
Qed.
End progress.

(** ** Witness *)

(** The demo task fails twice and then succeeds. *)
Lemma accepted_task_finishes_witness :
  rounds [broken; broken; succeeded]
    (settled "uuid-0" (λ r, c_status r = TaskStatusSuccess ∧ c_retry_count r = 2 ∧
       c_stdout r = Some "out"%string)) demo_created.
Proof.
  destruct (accepted_task_finishes (start None None None 4 8) demo_request 0 demo_created
              [broken; broken] succeeded) as [Hok _].
  - done.
  - split; done.
  - vm_compute. reflexivity.
  - vm_compute. reflexivity.
  - vm_compute. reflexivity.
  - repeat constructor; discriminate.
  - cbn. lia.
  - specialize (Hok eq_refl). revert Hok. apply rounds_impl.
    intros w (Hrun & Hq & r & Hr & H1 & H2 & _ & H3 & _). split; [exact Hrun|]. split; [exact Hq|].
    exists r. split; [exact Hr|]. by split_and!.
Defined.
