(* ===== verification/Held.v ===== *)
(** * What the server holds

    The queue, the channels of the nodes and the goroutines hold pointers to
    task objects.  [HeldInv] is an interface for properties of these pointers:
    a condition on the objects and the table, a property of each pointer that
    changes of the state cannot falsify, and one law per effect of a handler.
    From the laws alone the property is shown of every pointer the server holds,
    through every step of the transition system of the file System, with the
    in-memory queue.  The files Restart and Integrity are its instances. *)

From stdpp Require Import relations.
From S2P Require Import Prelude GoStrings GoFormat Model TaskQueue TaskStore NodeStore.
From S2P Require Import NodeManager Runtime Invariant TaskService Scheduler InMemQueue.
From S2P Require Import TaskServiceSpec System.

(** The fields of a task that come from its request and never change. *)
Definition request_of (t : Task) :=
  (TaskUID t, Name t, Command t, Workdir t, Model.Env t, CPULimit t, MemoryLimit t, TimeoutSec t,
   Priority t, MaxRetries t, RetryIntervalSec t, NodeSelector t).

Lemma request_uid t t' : request_of t = request_of t' → TaskUID t = TaskUID t'.
Proof. by intros [= ->]. Qed.

(** The objects and the table. *)
Definition heap : Type := Mem * TaskTable.

Definition allocated (h : heap) (l : loc) : Prop := (l < length h.1)%nat.

(** The table after the row of an object has been written. *)
Definition updated `{PgTime} (t : Task) (d : TaskTable) : TaskTable :=
  mkTaskTable (alter (update_row t) (TaskUID t) (rows d)) (next_id d).

(** The table after the row of a new task has been inserted. *)
Definition inserted `{PgTime} (t : Task) (d : TaskTable) : TaskTable :=
  mkTaskTable (<[TaskUID t := insert_row (next_id d) t]> (rows d)) (next_id d + 1).

(** [I]: the objects and the table; [P]: a pointer the server holds; [O]: a
    pointer just read from the table, for a cancellation; [N]: a pointer to a
    task that is not in the table yet; [allowed]: the tasks agents report on;
    [le]: how objects and table change. *)
Class HeldInv `{Host} (I : heap → Prop) (P O N : heap → loc → Prop) (allowed : string → Prop)
    (le : heap → heap → Prop) : Prop := {
  hi_preorder :: PreOrder le;
  hi_mono h h' l : le h h' → P h l → P h' l;
  hi_own h l : P h l → O h l;
  hi_alloc m d l : O (m, d) l → (l < length m)%nat;
  hi_dec u : allowed u ∨ ¬ allowed u;

  (** A handler changes an object it holds, but not its request. *)
  hi_write m d l t :
    I (m, d) → P (m, d) l → request_of t = request_of (deref m l) →
    I (<[l := t]> m, d) ∧ le (m, d) (<[l := t]> m, d);
  (** A cancellation changes the status of the object it has read. *)
  hi_cancel m d l t :
    I (m, d) → O (m, d) l → request_of t = request_of (deref m l) →
    Status t = Status (deref m l) ∨ Status t = TaskStatusCanceled →
    I (<[l := t]> m, d) ∧ le (m, d) (<[l := t]> m, d) ∧ O (<[l := t]> m, d) l;
  hi_update m d l :
    I (m, d) → O (m, d) l →
    let h' := (m, updated (deref m l) d) in I h' ∧ le (m, d) h' ∧ O h' l;
  hi_new m d t i :
    I (m, d) → TaskUID t = new_uuid i →
    I (m ++ [t], d) ∧ le (m, d) (m ++ [t], d) ∧ N (m ++ [t], d) (length m);
  hi_create m d l :
    I (m, d) → N (m, d) l → rows d !! TaskUID (deref m l) = None →
    let t := deref m l in
    let h' := (<[l := t <| ID := next_id d |>]> m, inserted t d) in
    I h' ∧ le (m, d) h' ∧ P h' l;
  hi_read m d u r :
    I (m, d) → rows d !! u = Some r →
    let h' := (m ++ [scanTask r], d) in
    I h' ∧ le (m, d) h' ∧ O h' (length m) ∧
    (allowed u ∨ c_status r = TaskStatusRunning → P h' (length m));
}.

Lemma insert_deref (m : Mem) l : <[l := deref m l]> m = m.
Proof.
  destruct (lt_dec l (length m)) as [Hl|Hl].
  - destruct (lookup_lt_is_Some_2 _ _ Hl) as [t Ht]. by rewrite (deref_lookup _ _ _ Ht), list_insert_id.
  - by apply list_insert_ge; lia.
Qed.

(** A server as [main] starts it: nothing in memory, on the table [tbl]. *)
Definition restarted {K R} (tbl : TaskTable) (w : World InMemQueue K R) : Prop :=
  w_db w = tbl ∧ w_mem w = [] ∧ w_running w = [] ∧ w_queue w = NewInMemQueue ∧
  nodeTasks (w_sched w) = ∅.

(** The table is keyed by the ids of its rows. *)
Definition keyed (tbl : TaskTable) : Prop := ∀ k r, rows tbl !! k = Some r → c_task_uid r = k.

Section held.
Context {K R : Type} `{HostOk} `{Etcd K} `{Redis R}.
Context (I : heap → Prop) (P O N : heap → loc → Prop) (allowed : string → Prop) (le : heap → heap → Prop).
Context `{!HeldInv I P O N allowed le}.
Abbreviation W := (World InMemQueue K R).
Implicit Types (w : W) (l : loc) (t : Task) (m : Mem) (h : heap).

Definition heap_of w : heap := (w_mem w, w_db w).

Record held w : Prop := {
  hd_heap : I (heap_of w);
  hd_queue : Forall (P (heap_of w)) (pointers (w_queue w));
  hd_channels n ch : nodeTasks (w_sched w) !! n = Some ch → Forall (P (heap_of w)) ch;
  hd_running : Forall (λ x, P (heap_of w) x.2) (w_running w) }.

(** [w] has come from a state with the objects and the table [h]. *)
Definition Since h w : Prop := held w ∧ le h (heap_of w).
(** The same, with a pointer that is held, read, or new. *)
Definition Holds h l w : Prop := Since h w ∧ P (heap_of w) l.
Definition Reads h l w : Prop := Since h w ∧ O (heap_of w) l.
Definition Makes h l w : Prop := Since h w ∧ N (heap_of w) l.

Lemma Holds_Since h l w : Holds h l w → Since h w.
Proof. by intros []. Qed.

Lemma Holds_Reads h l w : Holds h l w → Reads h l w.
Proof. intros [Hs Hl]. split; [done|]. by apply hi_own. Qed.

Lemma core_heap w w' : core w' = core w → heap_of w' = heap_of w.
Proof. unfold core, heap_of. by intros [= -> -> _ _ _]. Qed.

Lemma held_core w w' : core w' = core w → held w → held w'.
Proof.
  intros Hc []. pose proof (core_heap w w' Hc) as Hh. unfold core in Hc. injection Hc as _ _ E3 E4 E5.
  split; by rewrite ?Hh, ?E3, ?E4, ?E5.
Qed.

Lemma Since_core h w w' : core w' = core w → Since h w → Since h w'.
Proof. intros Hc [Hw Hle]. split; [by apply (held_core w)|]. by rewrite (core_heap w w' Hc). Qed.

Lemma Holds_core h l w w' : core w' = core w → Holds h l w → Holds h l w'.
Proof. intros Hc [Hw Hl]. split; [by apply (Since_core h w)|]. by rewrite (core_heap w w' Hc). Qed.

Lemma core_Since {A} h (c : M W A) : (∀ w, core (c w).2 = core w) → preserves (Since h) c.
Proof. intros Hc w. by apply Since_core. Qed.

Lemma core_Holds {A} h l (c : M W A) : (∀ w, core (c w).2 = core w) → preserves (Holds h l) c.
Proof. intros Hc w. by apply Holds_core. Qed.

Lemma core_Makes {A} h l (c : M W A) : (∀ w, core (c w).2 = core w) → preserves (Makes h l) c.
Proof. intros Hc w [Hw Hl]. split; [by apply (Since_core h w)|]. by rewrite (core_heap w _ (Hc w)). Qed.

(** *** Changing objects and rows *)

(** Pointers stay good when the objects and the table change as [le] says. *)
Lemma held_heap w w' :
  held w → I (heap_of w') → le (heap_of w) (heap_of w') →
  w_queue w' = w_queue w → w_sched w' = w_sched w → w_running w' = w_running w → held w'.
Proof.
  intros [] HI Hle Eq Es Er.
  assert (∀ ls, Forall (P (heap_of w)) ls → Forall (P (heap_of w')) ls) as Hls.
  { intros ls Hls. eapply Forall_impl; [exact Hls|]. intros l. by apply hi_mono. }
  split; [done|..]; rewrite ?Eq, ?Es, ?Er.
  - by apply Hls.
  - intros n ch Hch. by eapply Hls, hd_channels0.
  - eapply Forall_impl; [exact hd_running0|]. intros x. by apply hi_mono.
Qed.

Lemma Since_heap h w w' :
  Since h w → I (heap_of w') → le (heap_of w) (heap_of w') →
  w_queue w' = w_queue w → w_sched w' = w_sched w → w_running w' = w_running w → Since h w'.
Proof. intros [Hw Hh] HI Hle Eq Es Er. split; [by eapply held_heap|by etrans]. Qed.

Lemma Holds_put h l w t :
  Holds h l w → request_of t = request_of (deref (w_mem w) l) → Holds h l (put w l t).
Proof.
  intros [Hw Hl] Ht. destruct (hi_write _ _ l t (hd_heap w (proj1 Hw)) Hl Ht) as [HI Hle].
  split; [by apply (Since_heap h w)|]. by apply (hi_mono (heap_of w)).
Qed.

Lemma assign_Holds h l f :
  (∀ t, request_of (f t) = request_of t) → preserves (Holds h l) (assign l f : M W unit).
Proof. intros Hf w Hw. apply (Holds_put h l w); [done|apply Hf]. Qed.

Lemma TransitionTo_request n target t : request_of (TransitionTo n target t).2 = request_of t.
Proof. rewrite TransitionTo_spec. by case_decide. Qed.

Lemma transition_Holds h l target : preserves (Holds h l) (transition target l : M W (option error)).
Proof.
  unfold transition. apply preserves_bind; [by apply core_Holds|]. intros n w Hw.
  unfold mbind, M_bind, load, gets, assign, modify. cbn [fst snd].
  pose proof (TransitionTo_request n target (deref (w_mem w) l)) as Hu.
  destruct (TransitionTo _ _ _) as [e t']. by apply (Holds_put h l w).
Qed.

Lemma Reads_put h l w t :
  Reads h l w → request_of t = request_of (deref (w_mem w) l) →
  Status t = Status (deref (w_mem w) l) ∨ Status t = TaskStatusCanceled → Reads h l (put w l t).
Proof.
  intros [Hw Hl] Ht Hst.
  destruct (hi_cancel _ _ l t (hd_heap w (proj1 Hw)) Hl Ht Hst) as (HI & Hle & HO).
  split; [by apply (Since_heap h w)|done].
Qed.

Lemma transition_Reads h l :
  preserves (Reads h l) (transition TaskStatusCanceled l : M W (option error)).
Proof.
  unfold transition. intros w Hw. unfold mbind, M_bind, now, load, gets, assign, modify. cbn [fst snd].
  set (w' := w <| w_clk := _ |>). assert (Reads h l w') as Hw'.
  { destruct Hw as [Hw Hl]. split; [by apply (Since_core h w)|done]. }
  pose proof (TransitionTo_request (clock (w_clk w)) TaskStatusCanceled (deref (w_mem w) l)) as Hr.
  assert (Status (TransitionTo (clock (w_clk w)) TaskStatusCanceled (deref (w_mem w) l)).2
          = Status (deref (w_mem w) l) ∨
          Status (TransitionTo (clock (w_clk w)) TaskStatusCanceled (deref (w_mem w) l)).2
          = TaskStatusCanceled) as Hst.
  { rewrite TransitionTo_spec. case_decide; [by right|by left]. }
  change (w_mem w') with (w_mem w). destruct (TransitionTo _ _ _) as [e t'].
  by apply (Reads_put h l w').
Qed.

(** A server that has just started holds nothing. *)
Lemma restarted_held tbl w : restarted tbl w → I ([], tbl) → held w.
Proof.
  intros (Hdb & Hm & Hrun & Hq & Hch) HI. split; unfold heap_of; rewrite ?Hdb, ?Hm, ?Hrun, ?Hq.
  - done.
  - constructor.
  - intros n ch. by rewrite Hch, lookup_empty.
  - constructor.
Qed.

(** What keeps everything held keeps a held pointer too. *)
Lemma Holds_Since_iff {A} (c : M W A) h l w :
  Holds h l w → Since (heap_of w) (c w).2 → Holds h l (c w).2.
Proof.
  intros [[Hw Hh] Hl] [Hw' Hle]. split; [split; [done|by etrans]|]. by apply (hi_mono (heap_of w)).
Qed.

(** *** Statements *)

Lemma store_Update_Reads h l : preserves (Reads h l) (store_Update l : M W (option error)).
Proof.
  intros w Hw. unfold store_Update, mbind, M_bind, now, statement, action. cbn. unfold Update.
  set (t := (deref (w_mem w) l) <| UpdatedAt := clock (w_clk w) |>).
  assert (Reads h l (put w l t)) as Hput by (apply Reads_put; [done|done|by left]).
  pose proof (hi_alloc _ _ _ (proj2 Hw)) as Hl.
  destruct (db_fault (w_stm w)).
  { destruct Hput as [Hs HO]. split; [|exact HO]. by eapply Since_core, Hs. }
  destruct (hi_update _ _ _ (hd_heap _ (proj1 (proj1 Hput))) (proj2 Hput)) as (HI & Hle & HO).
  cbn in HI, Hle, HO. rewrite deref_insert in HI, Hle, HO by done.
  split; [|exact HO]. apply (Since_heap h (put w l t)); [apply Hput|done..].
Qed.

Lemma Since_refl w : held w → Since (heap_of w) w.
Proof. by split. Qed.

Lemma store_Update_Holds h l : preserves (Holds h l) (store_Update l : M W (option error)).
Proof.
  intros w Hw. apply Holds_Since_iff; [done|].
  apply (store_Update_Reads (heap_of w) l). apply Holds_Reads. split; [|apply Hw].
  apply Since_refl, Hw.
Qed.

Lemma new_Makes h t i : TaskUID t = new_uuid i → hoare (Since h) (new t : M W loc) (λ l, Makes h l).
Proof.
  intros Ht w Hw. change (Makes h (length (w_mem w)) (w <| w_mem := w_mem w ++ [t] |>)).
  destruct (hi_new _ _ t i (hd_heap w (proj1 Hw)) Ht) as (HI & Hle & HN).
  split; [|done]. by apply (Since_heap h w).
Qed.

(** A task that has been inserted is held; an insertion that failed changes
    nothing. *)
Lemma store_Create_Makes h l :
  hoare (Makes h l) (store_Create l : M W (option error))
    (λ e w, Since h w ∧ (e = None → Holds h l w)).
Proof.
  intros w Hw. unfold store_Create, mbind, M_bind, statement, action. cbn. unfold Create.
  set (t := deref (w_mem w) l).
  assert (Since h (w <| w_stm := S (w_stm w) |> <| w_mem := <[l := t]> (w_mem w) |>)) as Hnone.
  { unfold t. rewrite insert_deref. by apply (Since_core h w), Hw. }
  destruct (db_fault (w_stm w)) as [e|]; [|destruct (rows (w_db w) !! TaskUID t) eqn:Hr].
  - split; [|done]. by eapply Since_core, Hnone.
  - split; [|done]. by eapply Since_core, Hnone.
  - destruct (hi_create _ _ l (hd_heap w (proj1 (proj1 Hw))) (proj2 Hw) Hr) as (HI & Hle & HP).
    assert (Since h (w <| w_stm := S (w_stm w) |> <| w_mem := <[l := t <| ID := next_id (w_db w) |>]> (w_mem w) |>
      <| w_db := inserted t (w_db w) |>)) as Hs by (apply (Since_heap h w); [apply Hw|done..]).
    split; [exact Hs|]. intros _. split; [exact Hs|exact HP].
Qed.

(** The object read under an id. *)
Lemma store_GetByUID_Reads h u :
  hoare (Since h) (store_GetByUID u : M W (result loc))
    (λ r w, Since h w ∧ ∀ l, r = Ok l → Reads h l w ∧ (allowed u → Holds h l w)).
Proof.
  unfold store_GetByUID. eapply hoare_bind; [by apply core_Since|]. intros fault.
  eapply hoare_bind; [apply hoare_gets|]. intros tbl w [-> Hw]. unfold GetByUID.
  destruct fault as [e|]; [by split|]. destruct (rows (w_db w) !! u) as [r|] eqn:Hr; [|by split].
  destruct (hi_read _ _ u r (hd_heap w (proj1 Hw)) Hr) as (HI & Hle & HO & HP).
  assert (Since h (w <| w_mem := w_mem w ++ [scanTask r] |>)) as Hs by (by apply (Since_heap h w)).
  split; [exact Hs|]. intros l [= <-]. split; [by split|]. intros Hu. split; [done|]. by apply HP; left.
Qed.

Lemma new_all_Since d rs w :
  held w → w_db w = d → Forall (λ r, c_status r = TaskStatusRunning ∧ ∃ u, rows d !! u = Some r) rs →
  let '(ls, w') := new_all (scanTask <$> rs) w in
  Since (heap_of w) w' ∧ Forall (P (heap_of w')) ls.
Proof.
  intros Hw Hd Hrs. revert w Hw Hd. induction Hrs as [|r rs [Hrun [u Hr]] Hrs IH]; intros w Hw Hd.
  { split; [by apply Since_refl|constructor]. }
  rewrite fmap_cons. cbn [new_all]. unfold mbind, M_bind.
  rewrite <- Hd in Hr. destruct (hi_read _ _ u r (hd_heap w Hw) Hr) as (HI & Hle & _ & HP).
  specialize (HP (or_intror Hrun)). set (w1 := w <| w_mem := w_mem w ++ [scanTask r] |>).
  change (new (scanTask r) w) with (length (w_mem w), w1). cbn [fst snd].
  assert (held w1) as Hw1 by (by apply (held_heap w)).
  specialize (IH w1 Hw1 Hd). destruct (new_all (scanTask <$> rs) w1) as [ls w2].
  destruct IH as [[Hw2 Hle2] Hls]. cbn. split; [split; [done|by etrans]|].
  constructor; [|done]. by apply (hi_mono (heap_of w1)).
Qed.

Lemma GetRunningTasks_Holds h :
  hoare (Since h) (store_GetRunningTasks : M W (result (list loc)))
    (λ r w, Since h w ∧ ∀ ls, r = Ok ls → Forall (P (heap_of w)) ls).
Proof.
  unfold store_GetRunningTasks. eapply hoare_bind; [by apply core_Since|]. intros fault.
  eapply hoare_bind; [apply hoare_gets|]. intros tbl w [-> Hw]. unfold GetRunningTasks, GetByStatus.
  destruct fault as [e|]; [by split|]. unfold mbind, M_bind.
  assert (Forall (λ r, c_status r = TaskStatusRunning ∧ ∃ u, rows (w_db w) !! u = Some r)
    (select TaskStatusRunning (w_db w))) as Hrs.
  { apply Forall_forall. intros r Hr. apply elem_of_select in Hr as (Hrun & u & Hr); [|done]. eauto. }
  pose proof (new_all_Since (w_db w) _ w (proj1 Hw) eq_refl Hrs) as Hall.
  destruct (new_all _ w) as [ls w']. destruct Hall as [[Hw' Hle] Hls]. cbn.
  split; [split; [done|]|by intros ? [= <-]]. etrans; [apply Hw|done].
Qed.

(** *** The queue, the channels and the goroutines *)

Lemma Since_queue h w q :
  Since h w → Forall (P (heap_of w)) (pointers q) → Since h (w <| w_queue := q |>).
Proof. by intros [[] ?]. Qed.

Lemma queue_Holds h l (op : Mem → loc → InMemQueue → option error * InMemQueue) :
  (∀ P m l q, Forall P (pointers q) → P l → Forall P (pointers (op m l q).2)) →
  preserves (Holds h l)
    (λ w : W, let '(e, q) := op (w_mem w) l (w_queue w) in (e, w <| w_queue := q |>)).
Proof.
  intros Hop w [Hs Hl].
  specialize (Hop (P (heap_of w)) (w_mem w) l (w_queue w) (hd_queue w (proj1 Hs)) Hl).
  destruct (op _ _ _) as [e q]. split; [|done]. by apply Since_queue.
Qed.

Lemma queue_Push_Holds h l : preserves (Holds h l) (queue_Push l).
Proof. apply (queue_Holds h l q_Push), Push_pointers. Qed.

Lemma queue_PushPriority_Holds h l : preserves (Holds h l) (queue_PushPriority l).
Proof. apply (queue_Holds h l q_PushPriority), PushPriority_pointers. Qed.

Lemma queue_PushDelayed_Holds h l d : preserves (Holds h l) (queue_PushDelayed l d).
Proof.
  unfold queue_PushDelayed. apply preserves_bind; [by apply core_Holds|]. intros n.
  apply (queue_Holds h l (λ m l q, q_PushDelayed n m l d q)). intros P' m' l' q. apply PushDelayed_pointers.
Qed.

Lemma queue_Pop_Holds h d :
  hoare (Since h) (queue_Pop d) (λ r w, Since h w ∧ ∀ l, r = Ok (Some l) → Holds h l w).
Proof.
  intros w Hw. unfold queue_Pop. cbn [q_Pop InMem_TaskQueue].
  destruct (Pop _ d (w_mem w) (w_queue w)) as [[[r k] m'] q] eqn:Hpop.
  apply (Pop_pointers _ _ _ _ _ _ _ _ _ (hd_queue w (proj1 Hw))) in Hpop as (-> & Hq & Hl).
  assert (Since h (w <| w_clk := (w_clk w + k)%nat |> <| w_mem := w_mem w |> <| w_queue := q |>)) as Hw'.
  { eapply Since_core, (Since_queue h w q); done. }
  split; [exact Hw'|]. intros l Hr. split; [exact Hw'|]. by apply Hl.
Qed.

(** A change of the scheduler that leaves the channels alone. *)
Lemma sched_Since h f :
  (∀ s, nodeTasks (f s) = nodeTasks s) → preserves (Since h) (sched_modify f : M W unit).
Proof. intros Hf w [[] Hg]. split; [|done]. split; try done. cbn. by rewrite Hf. Qed.

Lemma sched_Holds h l f :
  (∀ s, nodeTasks (f s) = nodeTasks s) → preserves (Holds h l) (sched_modify f : M W unit).
Proof. intros Hf w [Hs Ha]. split; [by apply sched_Since|done]. Qed.

Lemma spawn_Holds h ctx l : preserves (Holds h l) (spawn ctx l : M W unit).
Proof.
  intros w [[[] Hg] Ha]. split; [|done]. split; [|done]. split; try done.
  cbn. apply Forall_app_2; [done|]. by constructor.
Qed.

Lemma register_cancel_Holds h l : preserves (Holds h l) (register_cancel l : M W nat).
Proof.
  unfold register_cancel. apply preserves_bind; [by apply core_Holds|]. intros ctx.
  apply preserves_bind; [by apply core_Holds|]. intros t.
  apply preserves_bind; [by apply sched_Holds|]. intros _. apply preserves_ret.
Qed.

(** A channel that gets a pointer, or loses one. *)
Lemma Since_channel h w n ch :
  Since h w → Forall (P (heap_of w)) ch →
  Since h (w <| w_sched := (w_sched w) <| nodeTasks := <[n := ch]> (nodeTasks (w_sched w)) |> |>).
Proof.
  intros [[] Hg] Hch. split; [|done]. split; try done. cbn.
  intros n' ch'. rewrite lookup_insert_Some. intros [[_ <-]|[_ Hn]]; [done|by eapply hd_channels0].
Qed.

Lemma hand_over_Holds h ctx l nodeID :
  preserves (Holds h l)
    (ch ← getOrCreateNodeQueue nodeID;
     if (length ch <? channel_capacity)%nat then
       sched_modify (λ s, s <| nodeTasks := <[nodeID := ch ++ [l]]> (nodeTasks s) |>)
     else spawn ctx l : M W unit).
Proof.
  apply (hoare_bind _ (λ ch w, Holds h l w ∧ Forall (P (heap_of w)) ch)).
  - intros w Hw. unfold getOrCreateNodeQueue. destruct (nodeTasks (w_sched w) !! nodeID) as [ch|] eqn:Hn.
    + split; [done|]. by apply (hd_channels w (proj1 (proj1 Hw)) nodeID).
    + split; [|constructor]. split; [by apply Since_channel, Forall_nil_2; apply Hw|apply Hw].
  - intros ch w [[Hw Hl] Hch]. destruct (length ch <? channel_capacity)%nat; [|by apply spawn_Holds].
    split; [|exact Hl]. apply (Since_channel h w nodeID (ch ++ [l])); [done|].
    by apply Forall_app_2, Forall_singleton.
Qed.

(** ** The handlers *)

#[local] Hint Resolve store_Update_Holds queue_Push_Holds queue_PushPriority_Holds
  queue_PushDelayed_Holds transition_Holds register_cancel_Holds spawn_Holds : preserve.

Ltac keep :=
  repeat first
    [ done | apply preserves_ret | solve [auto with preserve nocore]
    | apply core_Holds; first [apply count_daily_core | apply redis_do_core | apply redis_Publish_core | apply ClaimTask_core]
    | by apply assign_Holds | by apply sched_Holds | by apply core_Holds
    | apply preserves_bind; [|intros ?]
    | match goal with |- preserves _ (match ?x with _ => _ end) => destruct x end ].

(** A computation that keeps a held pointer keeps the rest. *)
Lemma hoare_Holds {A} (Pre : W → Prop) h l (c : M W A) :
  (∀ w, Pre w → Holds h l w) → preserves (Holds h l) c → hoare Pre c (λ _, Since h).
Proof. intros Hpre Hc. eapply hoare_conseq; [exact Hpre| |exact Hc]. intros ?. apply Holds_Since. Qed.

Lemma failTask_Holds h l msg : preserves (Holds h l) (failTask l msg : M W unit).
Proof. unfold failTask. keep. Qed.

Lemma completeTask_Holds h l result : preserves (Holds h l) (completeTask l result : M W unit).
Proof. unfold completeTask. pose proof (failTask_Holds h l). keep. Qed.

Lemma place_Holds h l : preserves (Holds h l) (place l : M W unit).
Proof.
  assert (preserves (Holds h l) (dispatchLocal l : M W unit)) as Hlocal by (unfold dispatchLocal; keep).
  assert (∀ node, preserves (Holds h l) (dispatchRemote l node : M W unit)) as Hremote.
  { intros node. unfold dispatchRemote. pose proof (λ ctx, hand_over_Holds h ctx l (NodeID node)). keep. }
  unfold place. keep.
Qed.

Lemma dispatch_Holds h l : preserves (Holds h l) (dispatch l : M W unit).
Proof. unfold dispatch. pose proof (place_Holds h l). keep. Qed.

Lemma scan_one_Holds h n l : preserves (Holds h l) (scan_one n l : M W unit).
Proof. unfold scan_one. pose proof (failTask_Holds h l). keep. Qed.

Lemma pop_one_Since h b : preserves (Since h) (pop_one b : M W (option avail)).
Proof.
  unfold pop_one. destruct b as [[cpu mem] slots]. eapply hoare_bind; [apply queue_Pop_Holds|].
  intros [[l|]|e]; [|by apply hoare_ret; intros w []..].
  apply (hoare_Holds _ h l); [intros w [_ Ha]; by apply (Ha l)|].
  pose proof (dispatch_Holds h l). keep.
Qed.

Lemma CreateTask_Since h req : preserves (Since h) (CreateTask req : M W (result loc)).
Proof.
  unfold CreateTask. apply preserves_bind; [by apply core_Since|]. intros n.
  apply (hoare_bind _ (λ u w, (∃ i, u = new_uuid i) ∧ Since h w)).
  { intros w Hw. split; [by eexists|]. by apply (core_Since h uuid). }
  intros u. apply hoare_pure. intros [i Hu]. eapply hoare_bind.
  { apply (new_Makes h _ i). by destruct (requested_counts u n req) as (_ & _ & ->). }
  intros l. assert (hoare (Makes h l)
    (err ← store_Create l;
     match err with
     | Some e => mret (Err e)
     | None => count_daily "submitted" ;; t ← load l;
               (if 0 <? Priority t then queue_PushPriority l else queue_Push l) ;; mret (Ok l)
     end : M W (result loc)) (λ _, Since h)) as Hinsert.
  { eapply hoare_bind; [apply store_Create_Makes|]. intros [e|]; [by apply hoare_ret; intros w []|].
    apply (hoare_Holds _ h l); [intros w [_ Hl]; by apply Hl|]. keep. }
  apply (hoare_bind _ (λ _, Makes h l)); [by apply core_Makes|]. intros t.
  apply (hoare_bind _ (λ _, Makes h l)); [by apply core_Makes, redis_do_core|].
  intros [[[|]|e]|]; [exact Hinsert| |exact Hinsert..].
  apply (hoare_bind _ (λ _, Makes h l)); [by apply core_Makes, redis_do_core|].
  intros uid. by apply hoare_ret; intros w [].
Qed.

Lemma CancelTask_Since h u : preserves (Since h) (CancelTask u : M W (option error)).
Proof.
  unfold CancelTask. eapply hoare_bind; [apply store_GetByUID_Reads|].
  intros [l|e]; [|by apply hoare_ret; intros w []].
  apply (hoare_conseq (Reads h l) _ (λ _, Since h)); [intros w [_ Hl]; by apply Hl|done|].
  apply (hoare_bind _ (λ _, Reads h l)); [intros w Hw; exact Hw|]. intros t.
  destruct (IsTerminal (Status t)); [by apply hoare_ret; intros w []|].
  apply (hoare_bind _ (λ _, Reads h l)); [apply transition_Reads|].
  intros [e|]; [by apply hoare_ret; intros w []|].
  apply (hoare_bind _ (λ _, Reads h l)); [apply store_Update_Reads|].
  intros [e|]; [by apply hoare_ret; intros w []|].
  apply (hoare_conseq (Since h) _ (λ _, Since h)); [by intros w []|done|].
  apply preserves_bind; [apply core_Since, redis_Publish_core|]. intros [e|]; apply preserves_ret.
Qed.

Lemma RerunTask_Since h u : preserves (Since h) (RerunTask u : M W (result loc)).
Proof.
  unfold RerunTask. eapply hoare_bind; [apply store_GetByUID_Reads|].
  intros [l|e]; [|by apply hoare_ret; intros w []].
  apply (hoare_conseq (Since h) _ (λ _, Since h)); [by intros w []|done|].
  apply preserves_bind; [by apply core_Since|]. intros t. apply CreateTask_Since.
Qed.

Lemma HandleRemoteResult_Since h u result :
  allowed u → preserves (Since h) (HandleRemoteResult u result : M W unit).
Proof.
  intros Hu. unfold HandleRemoteResult. eapply hoare_bind; [apply store_GetByUID_Reads|].
  intros [l|e]; [|by apply hoare_ret; intros w []].
  apply (hoare_Holds _ h l); [intros w [_ Hl]; by apply (Hl l)|].
  apply preserves_bind; [by apply sched_Holds|]. intros _. apply completeTask_Holds.
Qed.

Lemma execution_done_Since h ctx l result w :
  (ctx, l) ∈ w_running w → Since h w → Since h (execution_done ctx l result w).2.
Proof.
  intros Hin Hw. assert (Holds h l w) as Ha.
  { split; [done|]. pose proof (hd_running w (proj1 Hw)) as Hr. rewrite Forall_forall in Hr. by apply (Hr (ctx, l)). }
  apply (Holds_Since h l). clear Hin Hw. revert w Ha. unfold execution_done. apply preserves_bind.
  - intros w [[[] Hg] Ha]. split; [|done]. split; [|done]. split; try done. cbn. by apply Forall_filter_list.
  - intros _. apply preserves_bind; [apply completeTask_Holds|]. intros _. keep.
Qed.

(** ** The steps *)

(** [HandleRemoteResult] is called for a task and the database answers. *)
Definition report_answered (u : string) (w w' : W) : Prop :=
  db_fault (w_stm w) = None ∧ ∃ result, w' = (HandleRemoteResult u result w).2.

(** A step that is not a report on a task that is not allowed one. *)
Definition allowed_step (L : Limits) (s s' : state (Q:=InMemQueue) (K:=K) (R:=R)) : Prop :=
  step L s s' ∧ ∀ u, ¬ allowed u → ¬ report_answered u s.1 s'.1.

Definition held_inv (s : state (Q:=InMemQueue) (K:=K) (R:=R)) : Prop :=
  held s.1 ∧ match s.2 with Scanning _ todo _ _ _ => Forall (P (heap_of s.1)) todo | _ => True end.

Lemma other_Since L w w' :
  other_step L w w' → (∀ u, ¬ allowed u → ¬ report_answered u w w') → held w → Since (heap_of w) w'.
Proof.
  intros Hstep Hno Hw. apply Since_refl in Hw.
  destruct Hstep as [req|u|u|u|nid|u result|ctx l result Hin|ch rest Hps|ch rest Hps|key value Hcfg|n|nm|r|k].
  - by apply CreateTask_Since.
  - by apply store_GetByUID_Reads.
  - by apply CancelTask_Since.
  - by apply RerunTask_Since.
  - unfold GetNextTaskForNode. destruct (nodeTasks (w_sched w) !! nid) as [[|l ch]|] eqn:Hn; [done| |done].
    apply Since_channel; [done|]. by eapply Forall_inv_tail, (hd_channels w (proj1 Hw)).
  - destruct (hi_dec u) as [Hu|Hu]; [by apply HandleRemoteResult_Since|].
    destruct (db_fault (w_stm w)) as [e|] eqn:Hf.
    + unfold HandleRemoteResult, store_GetByUID, mbind, M_bind, statement, gets. cbn.
      unfold GetByUID. rewrite Hf. by apply (Since_core (heap_of w) w).
    + exfalso. apply (Hno u Hu). split; [done|by eexists].
  - by apply execution_done_Since.
  - unfold cancel_message. cbn. destruct Hw as [[] Hle].
    destruct (cancelFuncs (w_sched w) !! _); (split; [by split|done]).
  - by apply (Since_core (heap_of w) w).
  - unfold config_changed. destruct (HasSuffix key _); [|destruct (HasSuffix key _); [|done]];
      (destruct (0 <? Sscanf_d value); [|done]); by apply sched_Since.
  - apply Since_queue; [done|]. apply drainDelayed_pointers, Hw.
  - by apply (Since_core (heap_of w) w).
  - by apply (Since_core (heap_of w) w).
  - by apply (Since_core (heap_of w) w).
Qed.

Lemma cycle_held s s' :
  cycle_step s s' → held_inv s → held_inv s' ∧ le (heap_of s.1) (heap_of s'.1).
Proof.
  intros Hstep [Hw Htodo]. apply Since_refl in Hw.
  destruct Hstep as [w w' e Hg|w w' w'' ls n Hg Hn|w n l ls c m k t|w n c m k|w w' b b' Hpos Hp
    |w w' b Hpos Hp|w b Hb]; cbn in *.
  - pose proof (GetRunningTasks_Holds _ w Hw) as [[HS Hle] _]. by rewrite Hg in HS, Hle.
  - pose proof (GetRunningTasks_Holds _ w Hw) as [HS Hls]. rewrite Hg in HS, Hls.
    unfold now in Hn. injection Hn as <- <-.
    pose proof (core_Since _ now ltac:(done) w' HS) as [HS' Hle]. split; [split; [exact HS'|]|exact Hle].
    by apply Hls.
  - apply Forall_cons in Htodo as [Hl Hls].
    destruct (scan_one_Holds (heap_of w) n l w (conj Hw Hl)) as [[Hs Hle] _].
    split; [split; [done|]|done]. eapply Forall_impl; [exact Hls|]. intros l'. by apply hi_mono.
  - by repeat split; try apply Hw.
  - pose proof (pop_one_Since _ b w Hw) as [HS Hle]. by rewrite Hp in HS, Hle.
  - pose proof (pop_one_Since _ b w Hw) as [HS Hle]. by rewrite Hp in HS, Hle.
  - by repeat split; try apply Hw.
Qed.

(** Every step keeps what is held, and changes the heap as [le] says. *)
Lemma step_held L s s' :
  allowed_step L s s' → held_inv s → held_inv s' ∧ le (heap_of s.1) (heap_of s'.1).
Proof.
  intros [Hstep Hno] Hinv. destruct Hstep as [w w' p Ho|s1 s1' Hc]; [|by eapply cycle_held].
  destruct Hinv as [Hw Htodo]. destruct (other_Since L w w' Ho Hno Hw) as [Hw' Hle].
  cbn in *. split; [split; [done|]|done]. destruct p; [done| |done].
  eapply Forall_impl; [exact Htodo|]. intros l. by apply hi_mono.
Qed.

Lemma run_held L s s' :
  rtc (allowed_step L) s s' → held_inv s → held_inv s' ∧ le (heap_of s.1) (heap_of s'.1).
Proof.
  intros Hrun. induction Hrun as [|s1 s2 s3 Hstep _ IH]; intros Hinv; [done|].
  apply (step_held L) in Hstep as [Hinv2 Hle]; [|done]. destruct (IH Hinv2) as [Hinv3 Hle'].
  split; [done|by etrans].
Qed.
End held.
