(* ===== verification/Ownership.v ===== *)
(** * Ownership: every task is in one place

    A task that has been accepted is in the queue, in the channel of a node or
    with a goroutine that executes it.  [owners] lists the objects in these
    places; the handlers are shown to add at most the object they were given,
    and from this that no task is in two places at once, as long as nobody
    fails a task that somebody else still holds. *)

From stdpp Require Import relations.
From S2P Require Import Prelude GoStrings GoFormat Model Heap TaskQueue TaskStore NodeStore.
From S2P Require Import NodeManager Runtime Invariant TaskService Scheduler InMemQueue.
From S2P Require Import Concrete SchedulerSpec TaskServiceSpec System Progress Held.

(** ** The objects in the queue, the channels and the goroutines *)

Definition channel_tasks (m : gmap string (list loc)) : list loc := concat (map_to_list m).*2.

Lemma channel_split m n :
  channel_tasks m ≡ₚ default [] (m !! n) ++ channel_tasks (delete n m).
Proof.
  unfold channel_tasks. destruct (m !! n) as [ch|] eqn:Hn; cbn.
  - rewrite <- (insert_delete_id m n ch Hn) at 1. by rewrite map_to_list_insert by apply lookup_delete_eq.
  - by rewrite delete_id.
Qed.

Lemma channel_insert m n ch :
  channel_tasks (<[n := ch]> m) ≡ₚ ch ++ channel_tasks (delete n m).
Proof. rewrite (channel_split _ n), lookup_insert_eq. cbn. by rewrite delete_insert_eq. Qed.

(** The elements on which a test succeeds, and the others. *)
Lemma filter_split {A} (f : A → bool) (l : list A) :
  filter (λ x, f x = true) l ++ filter (λ x, f x = false) l ≡ₚ l.
Proof.
  induction l as [|x l IH]; [done|]. destruct (f x) eqn:Hx.
  - rewrite (filter_cons_True (λ x, f x = true)), (filter_cons_False (λ x, f x = false)) by congruence.
    cbn. by f_equiv.
  - rewrite (filter_cons_False (λ x, f x = true)), (filter_cons_True (λ x, f x = false)) by congruence.
    rewrite <- Permutation_middle. by f_equiv.
Qed.

Lemma submseteq_NoDup {A} (l k : list A) : l ⊆+ k → NoDup k → NoDup l.
Proof. intros (r & ->)%submseteq_Permutation. by intros [? _]%NoDup_app. Qed.

Lemma NoDup_fmap_eq {A B} (f : A → B) (l : list A) x y :
  NoDup (f <$> l) → x ∈ l → y ∈ l → f x = f y → x = y.
Proof.
  intros Hn [i Hi]%list_elem_of_lookup [j Hj]%list_elem_of_lookup Heq.
  assert (i = j) as ->; [|congruence].
  apply (NoDup_lookup _ i j (f x) Hn); rewrite list_lookup_fmap; [by rewrite Hi|by rewrite Hj, Heq].
Qed.

Section owners.
Context {K R : Type} `{HostOk} `{Etcd K} `{Redis R}.
Abbreviation W := (World InMemQueue K R).
Implicit Types (w : W) (l : loc) (ls : list loc) (D : gset string).

Definition owners w : list loc :=
  pointers (w_queue w) ++ channel_tasks (nodeTasks (w_sched w)) ++ (w_running w).*2.

(** The owners are among [ls], and the rows [D] are there. *)
Definition Own ls D w : Prop := owners w ⊆+ ls ∧ D ⊆ dom (rows (w_db w)).

(** A computation that puts no object anywhere, and one that puts only [l]. *)
Definition puts_none {A} (c : M W A) : Prop := ∀ ls D, preserves (Own ls D) c.
Definition adds {A} l (c : M W A) : Prop := ∀ ls D, hoare (Own ls D) c (λ _, Own (l :: ls) D).

Create HintDb own discriminated.

Lemma puts_none_ret {A} (a : A) : puts_none (mret a).
Proof. intros ls D. apply preserves_ret. Qed.

Lemma puts_none_bind {A B} (c : M W A) (f : A → M W B) : puts_none c → (∀ a, puts_none (f a)) → puts_none (c ≫= f).
Proof. intros Hc Hf ls D. apply preserves_bind; [apply Hc|]. intros a. apply Hf. Qed.

Lemma puts_none_gets {A} (f : W → A) : puts_none (gets f).
Proof. intros ls D. apply preserves_gets. Qed.

Lemma adds_puts_none {A} l (c : M W A) : puts_none c → adds l c.
Proof.
  intros Hc ls D w Hw. destruct (Hc ls D w Hw) as [Ho Hd]. split; [|done]. by apply submseteq_cons.
Qed.

Lemma adds_after {A B} l (c : M W A) (f : A → M W B) : puts_none c → (∀ a, adds l (f a)) → adds l (c ≫= f).
Proof. intros Hc Hf ls D. eapply hoare_bind; [apply Hc|]. intros a. apply Hf. Qed.

Lemma adds_before {A B} l (c : M W A) (f : A → M W B) : adds l c → (∀ a, puts_none (f a)) → adds l (c ≫= f).
Proof. intros Hc Hf ls D. eapply hoare_bind; [apply Hc|]. intros a. apply Hf. Qed.

(** The parts of the state it reads. *)
Definition places w := (w_queue w, nodeTasks (w_sched w), w_running w, dom (rows (w_db w))).

Lemma Own_places ls D w w' : places w' = places w → Own ls D w → Own ls D w'.
Proof. unfold places, Own, owners. by intros [= -> -> -> ->]. Qed.

Lemma places_puts_none {A} (c : M W A) : (∀ w, places (c w).2 = places w) → puts_none c.
Proof. intros Hc ls D w. apply Own_places, Hc. Qed.

(** *** Effects *)

Lemma now_puts_none : puts_none now.
Proof. by apply places_puts_none. Qed.
Lemma statement_puts_none : puts_none statement.
Proof. by apply places_puts_none. Qed.
Lemma uuid_puts_none : puts_none uuid.
Proof. by apply places_puts_none. Qed.
Lemma load_puts_none l : puts_none (load l).
Proof. by apply places_puts_none. Qed.
Lemma assign_puts_none l f : puts_none (assign l f).
Proof. by apply places_puts_none. Qed.
Lemma new_puts_none t : puts_none (new t).
Proof. by apply places_puts_none. Qed.

Lemma core_puts_none {A} (c : M W A) : (∀ w, core (c w).2 = core w) → puts_none c.
Proof. intros Hc. apply places_puts_none. intros w. specialize (Hc w). unfold core in Hc. unfold places. by injection Hc as _ -> -> -> ->. Qed.

Lemma redis_do_puts_none {A} (cmd : R → A * R) : puts_none (redis_do cmd).
Proof. apply core_puts_none, redis_do_core. Qed.
Lemma count_daily_puts_none f : puts_none (count_daily f).
Proof. apply core_puts_none, count_daily_core. Qed.
Lemma redis_Publish_puts_none ch : puts_none (redis_Publish ch).
Proof. apply core_puts_none, redis_Publish_core. Qed.

Lemma sched_puts_none f : (∀ s, nodeTasks (f s) = nodeTasks s) → puts_none (sched_modify f).
Proof. intros Hf. apply places_puts_none. intros w. unfold places. cbn. by rewrite Hf. Qed.

Lemma ClaimTask_puts_none u : puts_none (ClaimTask u).
Proof. apply places_puts_none. intros w. unfold ClaimTask. destruct (w_etcd w) as [k|]; [by destruct (e_txn _ k)|done]. Qed.

Lemma store_Update_puts_none l : puts_none (store_Update l).
Proof.
  apply places_puts_none. intros w. unfold store_Update, mbind, M_bind, now, statement, action, places. cbn [fst snd].
  destruct (Update _ _ _ _) as [[e t] tbl] eqn:HU. apply Update_rows in HU as [_ [[Htbl _]|[_ Hrows]]]; cbn.
  - by rewrite Htbl.
  - rewrite Hrows. by rewrite dom_alter_L.
Qed.

Lemma new_all_puts_none ts : puts_none (new_all ts).
Proof.
  induction ts as [|t ts IH]; cbn; [apply puts_none_ret|]. apply puts_none_bind; [apply new_puts_none|]. intros l.
  apply puts_none_bind; [exact IH|]. intros ls. apply puts_none_ret.
Qed.

#[local] Hint Resolve puts_none_ret puts_none_gets now_puts_none statement_puts_none uuid_puts_none load_puts_none assign_puts_none
  new_puts_none new_all_puts_none redis_do_puts_none count_daily_puts_none redis_Publish_puts_none ClaimTask_puts_none
  store_Update_puts_none : own.

Ltac own :=
  repeat first
    [ solve [eauto with own]
    | match goal with
      | |- puts_none (match ?x with _ => _ end) => destruct x
      | |- adds _ (match ?x with _ => _ end) => destruct x
      | |- puts_none (sched_modify _) => apply sched_puts_none; by intros
      | |- puts_none (_ ≫= _) => apply puts_none_bind; [|intros ?]
      | |- adds _ (mret _) => apply adds_puts_none, puts_none_ret
      | |- adds _ (_ ≫= _) =>
          first [ apply adds_before; [solve [eauto with own]|intros ?]
                | apply adds_after; [solve [own]|intros ?] ]
      | |- adds _ _ => apply adds_puts_none
      end ].

(** Adding one object to the queue, and taking one out. *)
Lemma Push_owns m l q : pointers (Push m l q).2 ≡ₚ l :: pointers q.
Proof. unfold pointers, Push. cbn. rewrite <- app_assoc. simpl. by rewrite <- Permutation_middle. Qed.

Lemma PushPriority_owns m l q : pointers (PushPriority m l q).2 ≡ₚ l :: pointers q.
Proof. unfold pointers, PushPriority. cbn. rewrite heap_Push_Permutation. simpl. by rewrite <- Permutation_middle. Qed.

Lemma PushDelayed_owns now m l d q : pointers (PushDelayed now m l d q).2 ≡ₚ l :: pointers q.
Proof. unfold pointers, PushDelayed. cbn. rewrite fmap_app, !app_assoc. cbn. by rewrite Permutation_app_comm. Qed.

Lemma drain_owns n q : pointers (drainDelayed n q) ≡ₚ pointers q.
Proof.
  unfold drainDelayed. destruct (closed q); [done|]. rewrite drain_items_spec. unfold pointers. cbn.
  rewrite <- app_assoc. f_equiv.
  rewrite (Permutation_app_comm (fst <$> _)), <- app_assoc. f_equiv. rewrite <- fmap_app.
  apply fmap_Permutation. rewrite Permutation_app_comm. apply (filter_split (λ d, is_due n d.2)).
Qed.

Lemma Own_add ls D w q l :
  pointers q ≡ₚ l :: pointers (w_queue w) → Own ls D w → Own (l :: ls) D (w <| w_queue := q |>).
Proof. intros Hq [Ho Hd]. split; [|done]. unfold owners in *. cbn. rewrite Hq. cbn. by apply submseteq_skip. Qed.

Lemma queue_Push_adds l : adds l (queue_Push l).
Proof. intros ls D w. apply Own_add, (Push_owns (w_mem w)). Qed.
Lemma queue_PushPriority_adds l : adds l (queue_PushPriority l).
Proof. intros ls D w. apply Own_add, (PushPriority_owns (w_mem w)). Qed.
Lemma queue_PushDelayed_adds l d : adds l (queue_PushDelayed l d).
Proof. apply adds_after; [apply now_puts_none|]. intros n ls D w. apply Own_add, (PushDelayed_owns n (w_mem w)). Qed.
#[local] Hint Resolve queue_Push_adds queue_PushPriority_adds queue_PushDelayed_adds : own.

(** The popped object is not in any place; the others are where they were. *)
Lemma queue_Pop_Own ls D d :
  hoare (Own ls D) (queue_Pop d)
    (λ r w, match r with Ok (Some l) => ∃ ls', ls ≡ₚ l :: ls' ∧ Own ls' D w | _ => Own ls D w end).
Proof.
  intros w [Ho Hd]. unfold queue_Pop, Own, owners in *. cbn [q_Pop InMem_TaskQueue].
  destruct (Pop _ _ _ _) as [[[r k] m'] q'] eqn:Hp. cbn.
  apply Pop_popInternal in Hp as (-> & o & -> & Hp). destruct o as [l|].
  - apply popInternal_pointers in Hp as [Hp _]. rewrite Hp in Ho.
    apply submseteq_cons_l in Ho as (ls' & Hls & Ho). by exists ls'.
  - by rewrite (popInternal_None _ _ _ Hp).
Qed.

(** *** Handlers *)

Lemma transition_puts_none target l : puts_none (transition target l).
Proof. unfold transition. own. Qed.
#[local] Hint Resolve transition_puts_none : own.

Lemma failTask_adds l msg : adds l (failTask l msg).
Proof. unfold failTask. own. Qed.
#[local] Hint Resolve failTask_adds : own.

Lemma completeTask_adds l result : adds l (completeTask l result).
Proof. unfold completeTask. own. Qed.

Lemma scan_one_adds n l : adds l (scan_one n l).
Proof. unfold scan_one. own. Qed.

Lemma spawn_adds ctx l : adds l (spawn ctx l).
Proof.
  intros ls D w [Ho Hd]. split; [|done]. unfold owners in *. cbn. rewrite fmap_app, !app_assoc. cbn.
  rewrite Permutation_app_comm, <- app_assoc. cbn. by apply submseteq_skip.
Qed.

Lemma register_cancel_puts_none l : puts_none (register_cancel l).
Proof.
  unfold register_cancel. apply puts_none_bind; [by apply places_puts_none|]. intros ctx. own.
Qed.
#[local] Hint Resolve spawn_adds register_cancel_puts_none : own.

Lemma getOrCreate_Own ls D n :
  hoare (Own ls D) (getOrCreateNodeQueue n) (λ ch w, Own ls D w ∧ nodeTasks (w_sched w) !! n = Some ch).
Proof.
  intros w [Ho Hd]. unfold getOrCreateNodeQueue. destruct (nodeTasks _ !! n) as [ch|] eqn:Hn; [done|].
  split; [|apply lookup_insert_eq]. split; [|done]. unfold owners in *. cbn.
  by rewrite channel_insert, delete_id.
Qed.

Lemma hand_over_adds ctx l n :
  adds l (ch ← getOrCreateNodeQueue n;
          if (length ch <? channel_capacity)%nat then
            sched_modify (λ s, s <| nodeTasks := <[n := ch ++ [l]]> (nodeTasks s) |>)
          else spawn ctx l).
Proof.
  intros ls D. eapply hoare_bind; [apply getOrCreate_Own|]. intros ch w [[Ho Hd] Hn].
  destruct (length ch <? channel_capacity)%nat; [|by apply spawn_adds].
  split; [|done]. unfold owners in *. cbn. rewrite (channel_split _ n), Hn in Ho. cbn in Ho.
  rewrite channel_insert, <- (Permutation_cons_append ch). cbn.
  rewrite <- Permutation_middle. by apply submseteq_skip.
Qed.

Lemma dispatchLocal_adds l : adds l (dispatchLocal l).
Proof. unfold dispatchLocal. own. Qed.

Lemma dispatchRemote_adds l node : adds l (dispatchRemote l node).
Proof. unfold dispatchRemote. pose proof (λ ctx, hand_over_adds ctx l (NodeID node)). own. Qed.
#[local] Hint Resolve dispatchLocal_adds dispatchRemote_adds : own.

Lemma dispatch_adds l : adds l (dispatch l).
Proof. unfold dispatch, place. own. Qed.

(** What is popped is dispatched, delayed or dropped. *)
Lemma pop_one_puts_none b : puts_none (pop_one b).
Proof.
  unfold pop_one. destruct b as [[cpu mem] slots]. intros ls D.
  eapply hoare_bind; [apply queue_Pop_Own|]. intros [[l|]|e]; [|apply hoare_ret; done..].
  intros w (ls' & Hls & Hw).
  assert (adds l (task ← load l;
    if canAllocate task cpu mem
    then dispatch l ;; task ← load l;
         mret (Some (cpu -64 CPULimit task, mem -64 MemoryLimit task, slots -64 1))
    else queue_PushDelayed l second ;; mret (Some ((cpu, mem, slots) : avail)))) as Hadd.
  { pose proof (dispatch_adds l). own. }
  destruct (Hadd ls' D w Hw) as [Ho Hd]. split; [|done]. by rewrite Hls.
Qed.

Lemma execution_done_Own ls D ctx l result w :
  (ctx, l) ∈ w_running w → Own ls D w → Own ls D (execution_done ctx l result w).2.
Proof.
  intros Hin [Ho Hd]. set (rest := filter (λ x, x ≠ (ctx, l)) (w_running w)).
  assert (l :: rest.*2 ⊆+ (w_running w).*2) as Hrest.
  { assert ((ctx, l) :: rest ⊆+ w_running w) as Hr.
    { apply list_elem_of_split in Hin as (l1 & l2 & Heq). unfold rest. rewrite Heq, <- Permutation_middle.
      apply submseteq_skip. rewrite filter_cons_False by tauto. apply sublist_submseteq, sublist_filter. }
    apply (fmap_submseteq snd) in Hr. exact Hr. }
  assert (∃ ls', ls ≡ₚ l :: ls' ∧ Own ls' D (w <| w_running := rest |>)) as (ls' & Hls & Hw).
  { assert (l :: owners (w <| w_running := rest |>) ⊆+ ls) as Hsub.
    { etrans; [|exact Ho]. unfold owners. cbn [w_queue w_sched w_running setf set_w_running].
      rewrite !app_assoc, Permutation_middle. by apply submseteq_app. }
    apply submseteq_cons_l in Hsub as (ls' & Hls & Hsub). by exists ls'. }
  assert (adds l (completeTask l result ;; t ← load l;
                  sched_modify (λ s, s <| cancelFuncs := delete (TaskUID t) (cancelFuncs s) |>))) as Hadd.
  { pose proof (completeTask_adds l result). own. }
  destruct (Hadd ls' D _ Hw) as [Ho' Hd']. split; [|exact Hd']. by rewrite Hls.
Qed.

Lemma GetNextTaskForNode_puts_none n : puts_none (GetNextTaskForNode n).
Proof.
  intros ls D w [Ho Hd]. unfold GetNextTaskForNode.
  destruct (nodeTasks _ !! n) as [[|l ch]|] eqn:Hn; [done| |done]. split; [|done].
  etrans; [|exact Ho]. unfold owners. cbn. rewrite (channel_split (nodeTasks (w_sched w)) n), Hn, channel_insert.
  cbn. rewrite <- Permutation_middle. by apply submseteq_cons.
Qed.

Lemma cancel_message_puts_none ch : puts_none (cancel_message ch).
Proof. apply places_puts_none. intros w. unfold cancel_message. by destruct (cancelFuncs _ !! _). Qed.

Lemma config_changed_puts_none key value : puts_none (config_changed key value).
Proof. unfold config_changed. own. Qed.

Lemma store_GetByUID_puts_none u : puts_none (store_GetByUID u).
Proof. unfold store_GetByUID. own. Qed.
#[local] Hint Resolve store_GetByUID_puts_none : own.

Lemma CancelTask_puts_none u : puts_none (CancelTask u).
Proof. unfold CancelTask. own. Qed.

Lemma store_GetRunningTasks_puts_none : puts_none store_GetRunningTasks.
Proof. unfold store_GetRunningTasks. own. Qed.

(** *** New tasks *)

(** Nothing was added, or the object of a task that had no row. *)
Definition grown ls D w : Prop :=
  Own ls D w ∨
  ∃ l, let u := TaskUID (deref (w_mem w) l) in (u ∉ D) ∧ Own (l :: ls) ({[u]} ∪ D) w.

(** The object [l] of the task [u] has been made and is nowhere yet. *)
Definition made ls D l u w : Prop :=
  Own ls D w ∧ dom (rows (w_db w)) = D ∧ TaskUID (deref (w_mem w) l) = u ∧ in_mem (w_mem w) l.

(** Its row has been inserted too. *)
Definition stored ls D l u w : Prop := Own ls ({[u]} ∪ D) w ∧ TaskUID (deref (w_mem w) l) = u.

Lemma core_made {A} ls D l u (c : M W A) : (∀ w, core (c w).2 = core w) → preserves (made ls D l u) c.
Proof.
  intros Hc w (Ho & Hd & Hu & Hl). specialize (Hc w). unfold core in Hc. injection Hc as Em Ed Eq Es Er. unfold made, Own, owners in *.
  by rewrite Em, Ed, Eq, Es, Er.
Qed.

Lemma core_stored {A} ls D l u (c : M W A) : (∀ w, core (c w).2 = core w) → preserves (stored ls D l u) c.
Proof.
  intros Hc w (Ho & Hu). specialize (Hc w). unfold core in Hc. injection Hc as Em Ed Eq Es Er.
  unfold stored, Own, owners in *. by rewrite Em, Ed, Eq, Es, Er.
Qed.

Lemma store_Create_made ls D l u :
  hoare (made ls D l u) (store_Create l)
    (λ e w, match e with Some _ => Own ls D w | None => (u ∉ D) ∧ stored ls D l u w end).
Proof.
  intros w ([Ho Hd] & HD & Hu & Hl). unfold store_Create, mbind, M_bind, statement, action. cbn [fst snd].
  unfold Create. cbn [w_mem w_db setf set_w_stm]. rewrite Hu. destruct (db_fault _) as [e|]; [done|].
  destruct (rows (w_db w) !! u) as [r|] eqn:Hr; [done|]. cbn.
  split; [by rewrite <- HD, not_elem_of_dom|]. unfold stored, Own. cbn.
  rewrite deref_insert by done. split; [|done]. split; [exact Ho|]. by rewrite dom_insert_L, HD.
Qed.

Lemma insert_and_push_made ls D l u : hoare (made ls D l u) (insert_and_push l) (λ _, grown ls D).
Proof.
  unfold insert_and_push. eapply hoare_bind; [apply store_Create_made|].
  intros [e|]; [apply hoare_ret; by left|]. apply hoare_pure. intros Hu.
  eapply hoare_bind; [apply core_stored, count_daily_core|]. intros [].
  eapply hoare_bind; [by apply core_stored|]. intros t.
  assert (∀ c : M W (option error), adds l c → (∀ w, w_mem (c w).2 = w_mem w) →
    hoare (stored ls D l u) (c ;; mret (Ok l)) (λ _ : result loc, grown ls D)) as Hpush.
  { intros c Hc Hm w [Ho Hl]. right. exists l. unfold mbind, M_bind, mret, M_ret. cbn [fst snd].
    rewrite Hm, Hl. split; [exact Hu|]. by apply Hc. }
  destruct (0 <? Priority t); by apply Hpush; eauto with own.
Qed.

Lemma CreateTask_grown ls D req :
  hoare (λ w, Own ls D w ∧ dom (rows (w_db w)) = D) (CreateTask req) (λ _, grown ls D).
Proof.
  unfold CreateTask. apply (hoare_bind _ (λ _ w, Own ls D w ∧ dom (rows (w_db w)) = D)); [by intros w|].
  intros n. apply (hoare_bind _ (λ _ w, Own ls D w ∧ dom (rows (w_db w)) = D)); [by intros w|].
  intros u. apply (hoare_bind _ (λ l, made ls D l (TaskUID (requested u n req)))).
  { intros w [Ho HD]. unfold new. cbn. unfold made, in_mem. cbn. rewrite deref_last, length_app. cbn.
    split_and!; [done..|lia]. }
  intros l. eapply hoare_bind; [by apply core_made|]. intros t.
  eapply hoare_bind; [apply core_made, redis_do_core|].
  intros [[[]|e]|]; [apply insert_and_push_made| |apply insert_and_push_made..].
  eapply hoare_bind; [apply core_made, redis_do_core|]. intros u'. apply hoare_ret. intros w [Ho _]. by left.
Qed.

Lemma RerunTask_grown ls D u :
  hoare (λ w, Own ls D w ∧ dom (rows (w_db w)) = D) (RerunTask u) (λ _, grown ls D).
Proof.
  unfold RerunTask. apply (hoare_bind _ (λ _ w, Own ls D w ∧ dom (rows (w_db w)) = D)).
  { intros w Hw. unfold store_GetByUID, mbind, M_bind, statement, gets. cbn [fst snd].
    by destruct (GetByUID _ _ _). }
  intros [l|e]; [|apply hoare_ret; intros w [? _]; by left].
  eapply hoare_bind; [|intros t; apply CreateTask_grown]. by intros w.
Qed.

(** Reading a row by its key. *)
Lemma store_GetByUID_reads u w r w' :
  store_GetByUID u w = (r, w') → keyed (w_db w) →
  w_db w' = w_db w ∧
  ∀ l, r = Ok l → db_fault (w_stm w) = None ∧ TaskUID (deref (w_mem w') l) = u ∧ u ∈ dom (rows (w_db w)).
Proof.
  unfold store_GetByUID, mbind, M_bind, statement, gets, GetByUID. cbn [fst snd]. intros Hg Hk.
  cbn [w_db setf set_w_stm] in Hg. destruct (db_fault (w_stm w)) as [e|] eqn:Hf; [by injection Hg as <- <-|].
  destruct (rows (w_db w) !! u) as [x|] eqn:Hx; [|by injection Hg as <- <-].
  injection Hg as <- <-. split; [done|]. intros l [= <-]. split; [done|]. split; [|by apply elem_of_dom].
  cbn. rewrite deref_last. exact (Hk _ _ Hx).
Qed.

(** ** One place for each task *)

Definition uids w : list string := (λ l, TaskUID (deref (w_mem w) l)) <$> owners w.

Definition single w : Prop := NoDup (uids w) ∧ Forall (λ u, u ∈ dom (rows (w_db w))) (uids w).

Lemma uids_frozen m m' ls :
  frozen m m' → Forall (in_mem m) ls →
  ((λ l, TaskUID (deref m' l)) <$> ls) = ((λ l, TaskUID (deref m l)) <$> ls).
Proof.
  intros [_ Hf] Hls. apply list_fmap_ext. intros i l Hl.
  rewrite Forall_lookup in Hls. specialize (Hf l (Hls i l Hl)). by injection Hf.
Qed.

Lemma single_keeps w w' :
  frozen (w_mem w) (w_mem w') → Forall (in_mem (w_mem w)) (owners w) →
  Own (owners w) (dom (rows (w_db w))) w' → single w → single w'.
Proof.
  intros Hf Hm [Ho Hd] [Hn Hr]. assert (uids w' ⊆+ uids w) as Hu.
  { unfold uids. rewrite <- (uids_frozen _ _ _ Hf Hm). by apply fmap_submseteq. }
  split; [by eapply submseteq_NoDup|].
  apply Forall_forall. intros u Hin. rewrite Forall_forall in Hr. by eapply Hd, Hr, elem_of_submseteq.
Qed.

Lemma single_adds w w' l :
  let u := TaskUID (deref (w_mem w') l) in
  frozen (w_mem w) (w_mem w') → Forall (in_mem (w_mem w)) (owners w) →
  Own (l :: owners w) ({[u]} ∪ dom (rows (w_db w))) w' → u ∉ uids w → single w → single w'.
Proof.
  intros u Hf Hm [Ho Hd] Hu [Hn Hr]. assert (uids w' ⊆+ u :: uids w) as Hsub.
  { unfold uids. rewrite <- (uids_frozen _ _ _ Hf Hm). apply (fmap_submseteq (λ l, TaskUID (deref (w_mem w') l))) in Ho.
    exact Ho. }
  split; [eapply submseteq_NoDup; [exact Hsub|by apply NoDup_cons]|].
  apply Forall_forall. intros x Hin. apply Hd, elem_of_union.
  pose proof (elem_of_submseteq _ _ _ Hin Hsub) as [->|Hx]%elem_of_cons; [left; by apply elem_of_singleton|right].
  rewrite Forall_forall in Hr. by apply Hr.
Qed.

Section steps.
Context (L : Limits).
Abbreviation Inv := (Inv (Q:=InMemQueue) (K:=K) (R:=R) L).
Abbreviation state := (state (Q:=InMemQueue) (K:=K) (R:=R)).

Lemma owners_in_mem w : w_ok L w → Forall (in_mem (w_mem w)) (owners w).
Proof.
  intros Hw. unfold owners. rewrite !Forall_app. split_and!.
  - exact (ok_queue L w Hw).
  - apply Forall_forall. intros l. unfold channel_tasks. rewrite list_elem_of_In, in_concat.
    intros (ch & Hch & Hl). rewrite <- !list_elem_of_In in *.
    apply list_elem_of_fmap in Hch as ([n ch'] & -> & Hn). apply elem_of_map_to_list in Hn.
    destruct (ok_channels L w Hw n ch' Hn) as [_ Hall]. rewrite Forall_forall in Hall. by apply Hall.
  - rewrite Forall_fmap. exact (ok_running L w Hw).
Qed.

Lemma phase_Inv w p : phase_inv L (w, p) → ∃ b, Inv (w_mem w) b w.
Proof. destruct p; cbn; [eauto|intros (HI & _); eauto|intros [HI _]; eauto]. Qed.

Lemma report_single u result w b :
  Inv (w_mem w) b w → single w → (db_fault (w_stm w) = None → u ∉ uids w) →
  let w' := (HandleRemoteResult u result w).2 in single w' ∧ dom (rows (w_db w)) ⊆ dom (rows (w_db w')).
Proof.
  intros HI Hs Hno w'. unfold w'. assert (keyed (w_db w)) as Hk by (intros k r Hr; apply (ok_rows L w (proj1 HI) k r Hr)).
  pose proof (owners_in_mem w (proj1 HI)) as Hm. set (D := dom (rows (w_db w))).
  assert (Own (owners w) D w) as Hw by done.
  pose proof (HandleRemoteResult_Inv L _ _ u result w HI) as (_ & _ & Hf).
  pose proof (store_GetByUID_Inv L _ _ u w HI) as [HI0 Hl]. pose proof (store_GetByUID_puts_none u _ _ w Hw) as Hw0.
  revert Hf. unfold HandleRemoteResult, mbind, M_bind.
  destruct (store_GetByUID u w) as [r w0] eqn:Hg. cbn [fst snd] in *.
  apply store_GetByUID_reads in Hg as [Hdb Hread]; [|done].
  destruct r as [l|e]; [|intros Hf; split; [by eapply single_keeps|apply Hw0]].
  destruct (Hread l eq_refl) as (Hfault & Hu & Hin). specialize (Hl l eq_refl).
  match goal with |- context [sched_modify ?f] =>
    pose proof (sched_modify_Inv L _ _ f (λ s Hs, Hs) (λ s, conj eq_refl (conj eq_refl eq_refl)) w0 HI0) as HI1;
    pose proof (sched_puts_none f (λ s, eq_refl) _ _ w0 Hw0) as Hw1
  end.
  unfold sched_modify, modify in *. cbn [fst snd] in *. set (w1 := w0 <| w_sched := _ |>) in *.
  intros Hf. apply Inv_self in HI1. pose proof (completeTask_Inv L _ _ l result Hl w1 HI1) as (_ & _ & [_ Hid]).
  specialize (Hid l Hl). injection Hid as Hid _ _. cbn in Hid. rewrite Hu in Hid.
  pose proof (single_adds w (completeTask l result w1).2 l Hf Hm) as Hadd. cbv zeta in Hadd.
  destruct (completeTask_adds l result _ _ w1 Hw1) as [Ho Hd]. split; [|exact Hd].
  rewrite Hid in Hadd. apply Hadd; [|by apply Hno|done]. split; [exact Ho|].
  apply union_subseteq. split; [|exact Hd]. apply singleton_subseteq_l. by apply Hd.
Qed.

(** Objects keep their ids, and rows are never deleted. *)
Lemma other_single w w' :
  other_step L w w' → (∀ u, u ∈ uids w → ¬ report_answered u w w') → (∃ b, Inv (w_mem w) b w) →
  single w → single w' ∧ dom (rows (w_db w)) ⊆ dom (rows (w_db w')).
Proof.
  intros Hstep Hno [b HI] Hs. pose proof (other_Inv L b w w' Hstep HI) as (_ & _ & Hf).
  pose proof (owners_in_mem w (proj1 HI)) as Hm. set (D := dom (rows (w_db w))).
  assert (Own (owners w) D w) as Hw by done.
  assert (Own (owners w) D w' → single w' ∧ D ⊆ dom (rows (w_db w'))) as Hkeep
    by (intros Ho; split; [by eapply single_keeps|apply Ho]).
  assert (grown (owners w) D w' → single w' ∧ D ⊆ dom (rows (w_db w'))) as Hgrow.
  { intros [?|(l & Hu & Ho)]; [by apply Hkeep|].
    split; [|by destruct Ho as [_ [_ ?]%union_subseteq]]. eapply single_adds; [done..| |done].
    intros Hin. apply Hu. destruct Hs as [_ Hr]. rewrite Forall_forall in Hr. by apply Hr. }
  destruct Hstep as [req|u|u|u|nid|u result|ctx l result Hin|ch rest Hps|ch rest Hps|key value Hcfg|n|nm|r|k].
  - by apply Hgrow, CreateTask_grown.
  - by apply Hkeep, store_GetByUID_puts_none.
  - by apply Hkeep, CancelTask_puts_none.
  - by apply Hgrow, RerunTask_grown.
  - by apply Hkeep, GetNextTaskForNode_puts_none.
  - eapply report_single; [exact HI|done|]. intros Hdb Hin. apply (Hno u Hin). by split; [|eexists].
  - by apply Hkeep, execution_done_Own.
  - by apply Hkeep, cancel_message_puts_none.
  - by apply Hkeep.
  - by apply Hkeep, config_changed_puts_none.
  - apply Hkeep. split; [|done]. unfold owners. cbn. by rewrite drain_owns.
  - by apply Hkeep.
  - by apply Hkeep.
  - by apply Hkeep.
Qed.
(** *** The scheduling cycle *)

(** A task is failed by somebody who does not hold it: a report comes in, or the
    scan finds its deadline passed, while it is still here. *)
Definition orderly (s s' : state) : Prop :=
  step L s s' ∧
  (∀ u, u ∈ uids s.1 → ¬ report_answered u s.1 s'.1) ∧
  (∀ n l ls c m k, s.2 = Scanning n (l :: ls) c m k →
     timed_out n (deref (w_mem s.1) l) = true → TaskUID (deref (w_mem s.1) l) ∉ uids s.1).

(** The tasks still to be scanned have rows. *)
Definition recorded w ls : Prop := Forall (λ l, TaskUID (deref (w_mem w) l) ∈ dom (rows (w_db w))) ls.

Definition single_inv (s : state) : Prop :=
  phase_inv L s ∧ single s.1 ∧ match s.2 with Scanning _ todo _ _ _ => recorded s.1 todo | _ => True end.

Lemma recorded_keeps w w' ls D :
  frozen (w_mem w) (w_mem w') → Forall (good (w_mem w)) ls → dom (rows (w_db w)) ⊆ D →
  D ⊆ dom (rows (w_db w')) → recorded w ls → recorded w' ls.
Proof.
  intros [_ Hf] Hg Hd Hd' Hr. apply Forall_forall. intros l Hl. unfold recorded in Hr.
  rewrite Forall_forall in Hg, Hr. specialize (Hf l (proj1 (Hg l Hl))). injection Hf as -> _ _.
  by apply Hd', Hd, Hr.
Qed.

Lemma tick_single w w' ls :
  store_GetRunningTasks w = (Ok ls, w') → phase_inv L (w, Idle) → single w → single w' ∧ recorded w' ls.
Proof.
  intros Hg [b HI]%phase_Inv Hs. pose proof (store_GetRunningTasks_Inv L _ _ w HI) as HI'.
  pose proof (store_GetRunningTasks_puts_none (owners w) (dom (rows (w_db w))) w) as Hq.
  rewrite Hg in HI', Hq. cbn [fst snd] in *. destruct HI' as ((_ & _ & Hf) & _).
  split; [eapply single_keeps; [exact Hf|apply owners_in_mem, HI|by apply Hq|done]|].
  unfold store_GetRunningTasks, mbind, M_bind, statement, gets, GetRunningTasks, GetByStatus in Hg.
  cbn [fst snd] in Hg. destruct (db_fault (w_stm w)); [done|]. cbn in Hg. rewrite new_all_spec in Hg.
  injection Hg as <- <-. set (ts := scanTask <$> _). unfold recorded.
  pose proof (deref_new_all (w_mem w) ts) as Hall. apply Forall_forall. intros l Hl.
  apply (list_elem_of_fmap_2 (deref (w_mem w ++ ts))) in Hl. rewrite Hall in Hl.
  apply list_elem_of_fmap in Hl as (r & Heq & Hr).
  cbn. rewrite Heq. apply elem_of_select in Hr as (_ & u & Hr); [|done].
  destruct (ok_rows L w (proj1 HI) u r Hr) as [Hu _]. cbn. rewrite Hu. by apply elem_of_dom.
Qed.

Lemma scan_single w n l ls c m k :
  phase_inv L (w, Scanning n (l :: ls) c m k) → single w → recorded w (l :: ls) →
  (timed_out n (deref (w_mem w) l) = true → TaskUID (deref (w_mem w) l) ∉ uids w) →
  single (scan_one n l w).2 ∧ recorded (scan_one n l w).2 ls.
Proof.
  intros Hp Hs [Hr Hrs]%Forall_cons Hno. pose proof Hp as (_ & _ & _ & Hgood).
  apply Forall_cons_1 in Hgood as [[Hl _] Hgood]. apply phase_Inv in Hp as [b HI].
  destruct (timed_out n (deref (w_mem w) l)) eqn:Hto; cycle 1.
  { assert ((scan_one n l w).2 = w) as ->; [|done].
    unfold scan_one, mbind, M_bind, load, gets. cbn [fst snd]. by rewrite Hto. }
  pose proof (scan_one_Inv L _ _ n l Hl w HI) as (_ & _ & Hf).
  destruct (scan_one_adds n l (owners w) (dom (rows (w_db w))) w) as [Ho Hd]; [done|].
  split; [|by eapply recorded_keeps].
  pose proof (single_adds w (scan_one n l w).2 l Hf) as Hadd. cbv zeta in Hadd.
  pose proof (proj2 Hf l Hl) as Hid. injection Hid as Hid _ _. rewrite Hid in Hadd.
  apply Hadd; [apply owners_in_mem, HI| |by apply Hno|done]. split; [exact Ho|].
  apply union_subseteq. split; [|exact Hd]. apply singleton_subseteq_l. by apply Hd.
Qed.

Lemma pop_one_single w w' b r :
  0 < b.2 → pop_one b w = (r, w') → phase_inv L (w, Popping b) → single w → single w'.
Proof.
  intros Hpos Hp Hi Hs. pose proof Hi as [HI Hb]. pose proof (pop_one_puts_none b (owners w) (dom (rows (w_db w))) w) as Hq.
  assert ((b.1.1, b.1.2, Z.max 0 b.2) = b) as Eb by (destruct b as [[? ?] ?]; cbn in *; f_equal; lia).
  rewrite Eb in HI. pose proof (pop_one_Inv L (w_mem w) b Hb Hpos w HI) as HI'.
  rewrite Hp in Hq, HI'. cbn in HI'.
  eapply single_keeps; [|apply owners_in_mem, HI|by apply Hq|done].
  destruct r as [b'|]; [by destruct HI' as (_ & _ & _ & Hf)|by destruct HI' as (_ & _ & Hf)].
Qed.

Lemma orderly_single s s' : orderly s s' → single_inv s → single_inv s'.
Proof.
  intros (Hstep & Hno & Hscan) (Hp & Hs & Htodo).
  split; [by eapply step_inv|].
  destruct Hstep as [w w' p Ho|s1 s1' [w w' e Hg|w w' w'' ls n Hg Hn|w n l ls c m k t
    |w n c m k|w w' b b' Hpos Hpop|w w' b Hpos Hpop|w b Hb]]; cbn [fst snd] in *.
  - pose proof (phase_Inv w p Hp) as [b HI]. destruct (other_single w w' Ho Hno (ex_intro _ b HI) Hs) as [Hs' Hd].
    split; [done|].
    destruct p as [|n todo c m k|b']; [done| |done].
    pose proof (other_Inv L b w w' Ho HI) as (_ & _ & Hf). destruct Hp as (_ & _ & _ & Hgood).
    by eapply recorded_keeps.
  - split; [|done]. pose proof (store_GetRunningTasks_puts_none (owners w) (dom (rows (w_db w))) w) as Hq.
    apply phase_Inv in Hp as [b HI]. pose proof (store_GetRunningTasks_Inv L _ _ w HI) as HI'.
    rewrite Hg in Hq, HI'. destruct HI' as (_ & _ & Hf).
    eapply single_keeps; [exact Hf|apply owners_in_mem, HI|by apply Hq|done].
  - injection Hn as _ <-. by apply tick_single in Hg.
  - eapply scan_single; [exact Hp|done|done|]. by eapply Hscan.
  - done.
  - split; [by eapply pop_one_single|done].
  - split; [by eapply pop_one_single|done].
  - done.
Qed.

(** C6 Every task is in one place.  On a server that has started with empty queue
    and channels, as long as no task is failed behind the back of its holder (by
    a report of an agent or by the scan of the deadlines), the objects in the
    queue, in the channels of the nodes and with the goroutines belong to
    different tasks, whatever requests, reruns, cancellations, faults, dropped
    messages and retries have happened: no task waits twice, none waits while it
    is executed or handed out, and no two executions of one task ever run at the
    same time.  Each of these tasks has a row. *)
Theorem one_place_per_task w0 s :
  initial L w0 → owners w0 = [] → rtc orderly (w0, Idle) s →
  let uid := λ l, TaskUID (deref (w_mem s.1) l) in
  NoDup (uid <$> pointers (w_queue s.1) ++ channel_tasks (nodeTasks (w_sched s.1)) ++ (w_running s.1).*2) ∧
  (∀ x y, x ∈ w_running s.1 → y ∈ w_running s.1 → uid x.2 = uid y.2 → x = y) ∧
  ∀ l, l ∈ owners s.1 → is_Some (rows (w_db s.1) !! uid l).
Proof.
  intros [Hw Hb] Hempty Hrun uid. assert (single_inv s) as (_ & [Hn Hr] & _).
  { assert (single_inv (w0, Idle)) as Hi.
    { split; [by split_and!|]. unfold single, uids. cbn. rewrite Hempty. split; [|done]. split; constructor. }
    clear Hw Hb Hempty. remember (w0, Idle) as s0 eqn:Hs0. clear Hs0.
    induction Hrun as [|s1 s2 s3 Hstep _ IH]; [done|]. by apply IH, (orderly_single s1). }
  split; [exact Hn|]. split.
  - intros x y Hx Hy Heq. unfold uids, owners in Hn. rewrite !fmap_app, !NoDup_app in Hn.
    destruct Hn as (_ & _ & _ & _ & Hn). rewrite <- list_fmap_compose in Hn. by apply (NoDup_fmap_eq _ _ _ _ Hn).
  - intros l Hl. rewrite Forall_forall in Hr. apply elem_of_dom, Hr, list_elem_of_fmap. by exists l.
Qed.

End steps.
End owners.

(** ** Witness: a task that is created and executed *)

Definition placed_start : CWorld := start None None None 4 8.
Definition placed_created : CWorld := exec (CreateTask demo_request) placed_start.
Definition placed_read : CWorld := exec now (exec store_GetRunningTasks placed_created).
Definition placed_popped : CWorld := exec (pop_one (available (w_sched placed_read) 0 0 0)) placed_read.

(** A report on a task with a row makes an object. *)
Lemma no_report u (w w' : CWorld) :
  length (w_mem w') = length (w_mem w) → is_Some (rows (w_db w) !! u) → ¬ report_answered u w w'.
Proof.
  intros Hlen [r Hr] [_ [result ->]]. revert Hlen.
  unfold HandleRemoteResult. rewrite (run_store_GetByUID w u r) by done.
  match goal with |- context [completeTask ?l _] => set (l0 := l) end.
  unfold mbind, M_bind, sched_modify, modify. cbn [fst snd]. set (w1 := _ <| w_sched := _ |>).
  assert (length (w_mem w1) = S (length (w_mem w))) as Hl1.
  { unfold w1. cbn. rewrite length_insert, length_app. cbn. lia. }
  assert (in_mem (w_mem w1) l0) as Hl0 by (unfold in_mem, l0; lia).
  destruct (completeTask_frame w1 l0 result Hl0) as (_ & _ & ->); [done|]. lia.
Qed.

(** A step that makes no object and scans none is orderly. *)
Lemma orderly_still u (w w' : CWorld) p p' :
  step demo_limits (w, p) (w', p') → uids w = [u] → is_Some (rows (w_db w) !! u) →
  length (w_mem w') = length (w_mem w) → match p with Scanning _ (_ :: _) _ _ _ => False | _ => True end →
  orderly demo_limits (w, p) (w', p').
Proof.
  intros Hstep Hu Hr Hlen Hp. split_and!; [exact Hstep| |].
  - cbn [fst]. rewrite Hu. intros u' ->%list_elem_of_singleton. by apply no_report.
  - cbn [snd]. intros n l ls c m k ->. done.
Qed.

Lemma placed_run : rtc (orderly demo_limits) (placed_start, Idle) (placed_popped, Popping (6, 8092, 3)).
Proof.
  apply (rtc_l _ _ (placed_created, Idle)).
  { split_and!; [apply step_other, (other_create demo_limits placed_start demo_request)| |intros; discriminate].
    assert (uids placed_start = []) as U0 by (vm_compute; reflexivity).
    intros u Hu. cbn [fst] in Hu. rewrite U0 in Hu. destruct (not_elem_of_nil u Hu). }
  apply (rtc_l _ _ (placed_read, Scanning (clock (w_clk placed_created)) [] 0 0 0)).
  { apply (orderly_still "uuid-0"); [|vm_compute; reflexivity|vm_compute; by eexists|vm_compute; reflexivity|exact I].
    apply step_cycle, (step_tick _ (exec store_GetRunningTasks placed_created) _ []).
    - rewrite (surjective_pairing (store_GetRunningTasks placed_created)).
      unfold exec. refine (f_equal2 pair _ eq_refl). vm_compute. reflexivity.
    - rewrite (surjective_pairing (now _)). unfold placed_read, exec.
      refine (f_equal2 pair _ eq_refl). vm_compute. reflexivity. }
  apply (rtc_l _ _ (placed_read, Popping (available (w_sched placed_read) 0 0 0))).
  { apply (orderly_still "uuid-0"); [|vm_compute; reflexivity|vm_compute; by eexists|vm_compute; reflexivity|exact I].
    apply step_cycle, step_scanned. }
  apply rtc_once, (orderly_still "uuid-0");
    [|vm_compute; reflexivity|vm_compute; by eexists|vm_compute; reflexivity|exact I].
  apply step_cycle, step_pop; [vm_compute; reflexivity|]. rewrite (surjective_pairing (pop_one _ placed_read)).
  unfold placed_popped, exec. refine (f_equal2 pair _ eq_refl). vm_compute. reflexivity.
Qed.

Lemma one_place_per_task_witness :
  w_running placed_popped = [(0, 0)]%nat ∧
  NoDup ((λ l, TaskUID (deref (w_mem placed_popped) l)) <$> owners placed_popped).
Proof.
  split; [vm_compute; reflexivity|].
  destruct (one_place_per_task demo_limits placed_start _ demo_initial eq_refl placed_run) as [H _]. exact H.
Defined.
