(* ===== verification/Restart.v ===== *)
(** * Restart: a server that has just started on the table of an earlier run

    The in-memory queue starts empty, and nothing reads the waiting tasks of
    the table back into it.  The rows that an earlier run has left as created or
    pending are followed through the transition system of the file System: no
    queue, channel or goroutine of the new run ever holds such a task. *)

From stdpp Require Import relations.
From S2P Require Import Prelude GoStrings GoFormat Model TaskQueue TaskStore NodeStore.
From S2P Require Import NodeManager Runtime Invariant TaskService Scheduler InMemQueue.
From S2P Require Import Concrete TaskServiceSpec SchedulerSpec System Held.

Section restart.
Context {K R : Type} `{HostOk} `{Etcd K} `{Redis R}.
Context (L : Limits).
(** The task, and the status its row has been left with. *)
Context (uid : string) (left : TaskStatus).
Hypothesis left_waiting : left = TaskStatusCreated ∨ left = TaskStatusPending.
(** [uuid.New] does not draw the id of an existing row. *)
Hypothesis fresh : ∀ i, new_uuid i ≠ uid.
Abbreviation W := (World InMemQueue K R).
Implicit Types (w : W) (l : loc) (t : Task) (m : Mem).

(** ** The instance of [HeldInv] *)

(** As it was left, or cancelled on request. *)
Definition waits (s : TaskStatus) : Prop := s = left ∨ s = TaskStatusCanceled.

Lemma waits_not_running s : waits s → s ≠ TaskStatusRunning.
Proof. unfold waits. by intros [->| ->]; [destruct left_waiting as [-> | ->]|]. Qed.

(** The row waits, and so does every object of the task. *)
Record row_waits (h : heap) : Prop := {
  rw_row : ∃ r, rows h.2 !! uid = Some r ∧ waits (c_status r);
  rw_keys : keyed h.2;
  rw_mem : Forall (λ t, TaskUID t = uid → waits (Status t)) h.1 }.

(** A pointer to another task. *)
Definition alien (h : heap) l : Prop := allocated h l ∧ TaskUID (deref h.1 l) ≠ uid.

(** Objects are only added and keep their ids. *)
Definition grows (h h' : heap) : Prop :=
  (length h.1 ≤ length h'.1)%nat ∧ ∀ l, allocated h l → TaskUID (deref h'.1 l) = TaskUID (deref h.1 l).

#[local] Instance grows_preorder : PreOrder grows.
Proof.
  split; [done|]. intros h1 h2 h3 [H12 E12] [H23 E23]. split; [lia|].
  intros l Hl. rewrite E23 by (unfold allocated in *; lia). by apply E12.
Qed.

Lemma grows_insert m d l t : TaskUID t = TaskUID (deref m l) → grows (m, d) (<[l := t]> m, d).
Proof.
  intros Ht. split; [cbn; by rewrite length_insert|]. intros l' Hl'. cbn.
  destruct (decide (l = l')) as [<-|Hne]; [by rewrite deref_insert|by rewrite deref_insert_ne].
Qed.

Lemma grows_app m d ts : grows (m, d) (m ++ ts, d).
Proof. split; [cbn; rewrite length_app; lia|]. intros l Hl. cbn. by rewrite deref_app. Qed.

Lemma waits_insert m d l t :
  row_waits (m, d) → (TaskUID t = uid → waits (Status t)) → row_waits (<[l := t]> m, d).
Proof. intros [] Ht. split; [done..|]. by apply Forall_insert. Qed.

Lemma waits_app m d t :
  row_waits (m, d) → (TaskUID t = uid → waits (Status t)) → row_waits (m ++ [t], d).
Proof. intros [] Ht. split; [done..|]. by apply Forall_app_2, Forall_singleton. Qed.

(** A row written from an object that waits. *)
Lemma waits_updated m d t :
  row_waits (m, d) → (TaskUID t = uid → waits (Status t)) → row_waits (m, updated t d).
Proof.
  intros [(r & Hr & Hw) Hk Hm] Ht. cbn in *. split; [cbn|cbn|done].
  - destruct (decide (TaskUID t = uid)) as [Hu|Hne].
    + exists (update_row t r). rewrite Hu, lookup_alter_eq, Hr. auto.
    + exists r. by rewrite lookup_alter_ne.
  - intros k r'. cbn. rewrite lookup_alter_Some. intros [(<- & r0 & Hr0 & ->)|[_ Hr']]; [exact (Hk _ _ Hr0)|by apply Hk].
Qed.

#[local] Instance alien_held : HeldInv row_waits alien allocated alien (λ u, u ≠ uid) grows.
Proof.
  split.
  - apply _.
  - intros h h' l [Hle He] [Hl Hu]. split; [unfold allocated in *; lia|]. by rewrite He.
  - by intros h l [].
  - done.
  - intros u. destruct (decide (u = uid)); auto.
  - intros m d l t HI [_ Hne] Ht%request_uid. split; [|by apply grows_insert].
    apply waits_insert; [done|]. cbn in *. congruence.
  - intros m d l t HI Hl Ht%request_uid Hst. split_and!; [|by apply grows_insert|].
    + apply waits_insert; [done|]. intros Hu. destruct Hst as [-> | ->]; [|by right].
      apply (Forall_deref _ _ _ (rw_mem _ HI) Hl). cbn; by rewrite <- Ht.
    + unfold allocated in *. cbn in *. by rewrite length_insert.
  - intros m d l HI Hl. split_and!; [|done|done]. apply waits_updated; [done|].
    apply (Forall_deref _ _ _ (rw_mem _ HI) Hl).
  - intros m d t i HI Ht. assert (TaskUID t ≠ uid) as Hne by (rewrite Ht; apply fresh).
    split_and!; [by apply waits_app|apply grows_app|].
    split; [unfold allocated; cbn; rewrite length_app; cbn; lia|]. cbn. by rewrite deref_last.
  - intros m d l HI [Hl Hne] Hr. cbn in *. set (t := deref m l) in *.
    assert (grows (m, d) (<[l := t <| ID := next_id d |>]> m, d)) as Hg by (by apply grows_insert).
    split_and!; [|exact Hg|].
    + destruct HI as [(r & Hr0 & Hw) Hk Hm]. cbn in *. split; [cbn|cbn|by apply Forall_insert].
      * exists r. by rewrite lookup_insert_ne.
      * intros k r'. cbn. rewrite lookup_insert_Some. intros [[<- <-]|[_ Hr']]; [done|by apply Hk].
    + split; [unfold allocated in *; cbn in *; by rewrite length_insert|]. cbn.
      by rewrite deref_insert.
  - intros m d u r HI Hr. pose proof (rw_keys _ HI u r Hr) as Hk. cbn in Hr.
    assert (u = uid → waits (c_status r)) as Hwait.
    { intros ->. destruct (rw_row _ HI) as (r' & Hr' & Hw). cbn in Hr'. congruence. }
    assert (allocated (m ++ [scanTask r], d) (length m)) as Hl.
    { unfold allocated. cbn. rewrite length_app. cbn. lia. }
    split_and!; [|apply grows_app|exact Hl|].
    + apply waits_app; [done|]. cbn. rewrite Hk. exact Hwait.
    + intros Hu. split; [exact Hl|]. cbn. rewrite deref_last. cbn. rewrite Hk.
      destruct Hu as [Hu|Hrun]; [exact Hu|]. intros Heq. by apply (waits_not_running _ (Hwait Heq)).
Qed.

(** ** The runs *)

(** A step that is not a report on the task. *)
Definition unreported_step (s s' : state (Q:=InMemQueue) (K:=K) (R:=R)) : Prop :=
  step L s s' ∧ ¬ report_answered uid s.1 s'.1.

Lemma unreported_allowed s s' :
  unreported_step s s' → allowed_step (λ u, u ≠ uid) L s s'.
Proof.
  intros [Hstep Hno]. split; [done|]. intros u Hu. destruct (decide (u = uid)) as [->|]; [done|by destruct Hu].
Qed.

Abbreviation stranded := (held (K:=K) (R:=R) row_waits alien).

Lemma restarted_strand tbl w r :
  restarted tbl w → keyed tbl → rows tbl !! uid = Some r → c_status r = left → stranded w.
Proof.
  intros Hw Hk Hr Hst. apply (restarted_held _ _ tbl w Hw). split; [|done|constructor].
  exists r. split; [done|by left].
Qed.

(** C25 A waiting task does not survive a restart of a server with the in-memory
    queue.  The queue starts empty and nothing fills it from the table, so
    whatever happens in the new run (new tasks, reruns, faults, configuration
    changes, any number of scheduling cycles), as long as no agent still
    reports on the task, its row stays as created or pending for ever or is
    cancelled on request; no execution of it is ever started or handed to a
    node. *)
Theorem restart_strands tbl w0 s r :
  restarted tbl w0 → keyed tbl →
  rows tbl !! uid = Some r → c_status r = left →
  rtc unreported_step (w0, Idle) s →
  (∃ r', rows (w_db s.1) !! uid = Some r' ∧ (c_status r' = left ∨ c_status r' = TaskStatusCanceled)) ∧
  Forall (λ x, TaskUID (deref (w_mem s.1) x.2) ≠ uid) (w_running s.1) ∧
  (∀ n ch, nodeTasks (w_sched s.1) !! n = Some ch → Forall (λ l, TaskUID (deref (w_mem s.1) l) ≠ uid) ch) ∧
  Forall (λ l, TaskUID (deref (w_mem s.1) l) ≠ uid) (pointers (w_queue s.1)).
Proof.
  intros Hw0 Hk Hr Hst Hrun.
  assert (rtc (allowed_step (λ u, u ≠ uid) L) (w0, Idle) s) as Hallowed.
  { revert Hrun. apply rtc_subrel. intros ??. apply unreported_allowed. }
  apply (run_held row_waits alien allocated alien _ grows) in Hallowed as [[[] _] _];
    [|split; [by eapply restarted_strand|done]].
  assert (∀ ls, Forall (alien (heap_of s.1)) ls → Forall (λ l, TaskUID (deref (w_mem s.1) l) ≠ uid) ls) as Hal.
  { intros ls Hls. eapply Forall_impl; [exact Hls|]. by intros l []. }
  split_and!; [by destruct hd_heap|..|by apply Hal].
  - eapply Forall_impl; [exact hd_running|]. by intros x [].
  - intros n ch Hn. by eapply Hal, hd_channels.
Qed.
End restart.

(** ** Witness: a created task of an earlier run, and a new one *)

Definition old_table : TaskTable := (Create None (NewTask "old" 0 "demo" "make") empty_table).2.

Definition restarted_world : CWorld := (start None None None 4 8) <| w_db := old_table |>.

Lemma restart_strands_witness :
  let w := exec (CreateTask demo_request) restarted_world in
  rtc (unreported_step demo_limits "old") (restarted_world, Idle) (w, Idle) ∧
  (∃ r', rows (w_db w) !! "old"%string = Some r' ∧
     (c_status r' = TaskStatusCreated ∨ c_status r' = TaskStatusCanceled)).
Proof.
  intros w. assert (rtc (unreported_step demo_limits "old") (restarted_world, Idle) (w, Idle)) as Hrun.
  { apply rtc_once. split; [apply step_other, (other_create demo_limits restarted_world demo_request)|].
    intros [_ [result Heq]]. apply (f_equal w_uuids) in Heq. cbn [fst] in Heq.
    destruct result as [code out err late [e|]]; vm_compute in Heq; discriminate. }
  split; [exact Hrun|].
  destruct (rows old_table !! "old"%string) as [r|] eqn:Hr; [|vm_compute in Hr; discriminate].
  assert (c_status r = TaskStatusCreated) as Hst.
  { assert (c_status <$> rows old_table !! "old"%string = Some TaskStatusCreated) as Hc by (vm_compute; reflexivity).
    rewrite Hr in Hc. by injection Hc. }
  refine (proj1 (restart_strands demo_limits "old" TaskStatusCreated (or_introl eq_refl) _ old_table
    restarted_world (w, Idle) r _ _ Hr Hst Hrun)).
  - intros i Hi. discriminate Hi.
  - by repeat split.
  - intros k r' Hk. change (<["old"%string := insert_row 1 (NewTask "old" 0 "demo" "make")]> (∅ : gmap string TaskRow) !! k = Some r') in Hk. apply lookup_insert_Some in Hk as [[<- <-]|[_ Hk]]; [done|].
    by rewrite lookup_empty in Hk.
Defined.
