(* ===== verification/Integrity.v ===== *)
(** * Integrity: a task runs as it was submitted

    Between a request and the command a shell runs lie the table, the JSON
    columns, the queue, the channels of the nodes, the retries and the agents.
    Here the interface of the file Held is instantiated with the property that
    a pointer's object and the row of its task stand for the same request. *)

From stdpp Require Import relations.
From S2P Require Import Prelude GoStrings GoFormat Model TaskQueue TaskStore NodeStore.
From S2P Require Import NodeManager Runtime Invariant TaskService Scheduler InMemQueue.
From S2P Require Import Concrete TaskServiceSpec SchedulerSpec Executor GrpcServer Agent System Held.

Section integrity.
Context `{Host}.
Implicit Types (m : Mem) (d : TaskTable) (h : heap) (l : loc) (t : Task).

(** ** Requests in the table *)

(** What a row keeps of a task's request. *)
Definition row_request (r : TaskRow) := request_of (scanTask r).

Lemma insert_request id t : row_request (insert_row id t) = request_of t.
Proof. done. Qed.

Lemma update_request t r : c_task_uid r = TaskUID t → row_request (update_row t r) = request_of t.
Proof. unfold row_request, request_of. cbn. by intros ->. Qed.

(** Rows stay, and keep their requests. *)
Definition rows_kept d d' : Prop :=
  ∀ k r, rows d !! k = Some r → ∃ r', rows d' !! k = Some r' ∧ row_request r' = row_request r.

(** So do objects. *)
Definition kept h h' : Prop :=
  (length h.1 ≤ length h'.1)%nat ∧
  (∀ l, (l < length h.1)%nat → request_of (deref h'.1 l) = request_of (deref h.1 l)) ∧
  rows_kept h.2 h'.2.

#[local] Instance rows_kept_preorder : PreOrder rows_kept.
Proof.
  split; [by intros d k r; eauto|]. intros d1 d2 d3 H12 H23 k r Hr.
  destruct (H12 k r Hr) as (r2 & Hr2 & E2). destruct (H23 k r2 Hr2) as (r3 & Hr3 & E3).
  exists r3. split; [done|]. congruence.
Qed.

#[local] Instance kept_preorder : PreOrder kept.
Proof.
  split; [by intros h; split_and!|]. intros h1 h2 h3 (L12 & M12 & D12) (L23 & M23 & D23).
  split_and!; [lia| |by etrans]. intros l Hl. rewrite M23 by lia. by apply M12.
Qed.

Lemma kept_insert m d l t :
  request_of t = request_of (deref m l) → kept (m, d) (<[l := t]> m, d).
Proof.
  intros Ht. split_and!; [cbn; by rewrite length_insert| |done]. intros l' Hl'. cbn in *.
  destruct (decide (l = l')) as [<-|Hne]; [by rewrite deref_insert|by rewrite deref_insert_ne].
Qed.

Lemma kept_app m d t : kept (m, d) (m ++ [t], d).
Proof.
  split_and!; [cbn; rewrite length_app; lia| |done]. intros l Hl. cbn. by rewrite deref_app.
Qed.

(** ** The instance of [HeldInv] *)

Definition keyed_heap h : Prop := keyed h.2.

(** The task has a row, with the request of the object. *)
Definition faithful h l : Prop :=
  allocated h l ∧ ∃ r, rows h.2 !! TaskUID (deref h.1 l) = Some r ∧ row_request r = request_of (deref h.1 l).

Lemma kept_faithful h h' l : kept h h' → faithful h l → faithful h' l.
Proof.
  intros (Hlen & Hm & Hd) (Hl & r & Hr & Er). specialize (Hm l Hl).
  destruct (Hd _ r Hr) as (r' & Hr' & Er'). split; [unfold allocated in *; lia|].
  exists r'. rewrite (request_uid _ _ Hm), Hm. split; [done|]. congruence.
Qed.

(** Writing the row of a faithful object back changes no request. *)
Lemma kept_updated m d l :
  keyed d → faithful (m, d) l →
  keyed (updated (deref m l) d) ∧ kept (m, d) (m, updated (deref m l) d).
Proof.
  intros Hk (Hl & r & Hr & Er). cbn in *. set (t := deref m l) in *.
  assert (∀ r', rows (updated t d) !! TaskUID t = Some r' → r' = update_row t r) as Hup.
  { intros r'. cbn. rewrite lookup_alter_eq, Hr. by intros [= <-]. }
  pose proof (Hk _ _ Hr) as Hu. split.
  - intros k r'. destruct (decide (k = TaskUID t)) as [->|Hne]; [by intros ->%Hup|].
    cbn. rewrite lookup_alter_ne by done. apply Hk.
  - split_and!; [done..|]. intros k r'. cbn. destruct (decide (k = TaskUID t)) as [->|Hne].
    + rewrite Hr, lookup_alter_eq, Hr. intros [= <-]. eexists. split; [done|].
      by rewrite update_request.
    + rewrite lookup_alter_ne by done. eauto.
Qed.

#[local] Instance faithful_held : HeldInv keyed_heap faithful faithful allocated (λ _, True) kept.
Proof.
  split.
  - apply _.
  - apply kept_faithful.
  - done.
  - by intros m d l [].
  - auto.
  - intros m d l t HI _ Ht. split; [done|by apply kept_insert].
  - intros m d l t HI Hl Ht _. pose proof (kept_insert m d l t Ht) as Hg.
    split_and!; [done|done|by eapply kept_faithful].
  - intros m d l HI Hl. destruct (kept_updated m d l HI Hl) as [Hk Hg].
    split_and!; [done|done|by eapply kept_faithful].
  - intros m d t i HI _. split_and!; [done|apply kept_app|].
    unfold allocated. cbn. rewrite length_app. cbn. lia.
  - intros m d l HI Hl Hr. cbn. unfold allocated in Hl. cbn in Hl. set (t := deref m l) in *.
    assert (kept (m, d) (<[l := t <| ID := next_id d |>]> m, d)) as (Hlen & Hm & _) by (by apply kept_insert).
    split_and!.
    + intros k r. cbn. rewrite lookup_insert_Some. intros [[<- <-]|[_ Hr']]; [done|by apply HI].
    + split_and!; [exact Hlen|exact Hm|]. intros k r Hk. exists r. cbn. split; [|done].
      rewrite lookup_insert_ne; [done|]. intros <-. cbn in Hk. congruence.
    + split; [unfold allocated; cbn; by rewrite length_insert|]. cbn. rewrite deref_insert by done.
      exists (insert_row (next_id d) t). cbn. by rewrite lookup_insert_eq.
  - intros m d u r HI Hr. pose proof (kept_app m d (scanTask r)) as Hg.
    assert (faithful (m ++ [scanTask r], d) (length m)) as Hl.
    { split; [unfold allocated; cbn; rewrite length_app; cbn; lia|]. cbn. rewrite deref_last. cbn.
      exists r. by rewrite (HI _ _ Hr). }
    by split_and!.
Qed.

(** ** The commands *)

Lemma command_request environ t t' :
  request_of t = request_of t' → Executor.command environ t = Executor.command environ t'.
Proof. unfold request_of, Executor.command. by intros [= _ _ -> -> -> _ _ -> _ _ _ _]. Qed.

(** What an agent is sent is enough to build the same command. *)
Lemma agent_command environ u n t :
  in_i32 (TimeoutSec t) →
  Executor.command environ (agent_task u n (response_of t)) = Executor.command environ t.
Proof.
  intros Ht. unfold Executor.command, agent_task, response_of. cbn. by rewrite wrap_id.
Qed.

Section runs.
Context {K R : Type} `{!HostOk} `{Etcd K} `{Redis R}.
Context (L : Limits).
Abbreviation W := (World InMemQueue K R).
Implicit Types (w : W) (s : state (Q:=InMemQueue) (K:=K) (R:=R)).

Abbreviation faithful_inv := (held_inv (K:=K) (R:=R) keyed_heap faithful).

Lemma steps_faithful s s' :
  rtc (step L) s s' → faithful_inv s → faithful_inv s' ∧ kept (heap_of s.1) (heap_of s'.1).
Proof.
  intros Hrun. assert (rtc (allowed_step (λ _, True) L) s s') as Hallowed.
  { revert Hrun. apply rtc_subrel. intros ?? Hs. split; [done|]. by intros u []. }
  by apply (run_held keyed_heap faithful faithful allocated (λ _, True) kept L).
Qed.

(** An object the server holds has the request of its row. *)
Lemma faithful_row w l u r :
  faithful (heap_of w) l → TaskUID (deref (w_mem w) l) = u → rows (w_db w) !! u = Some r →
  request_of (deref (w_mem w) l) = row_request r.
Proof. intros (_ & r' & Hr' & Er') <- Hr. cbn in *. congruence. Qed.

Lemma pulled_faithful w nodeID resp :
  held keyed_heap faithful w → poll (Some (PullTask true nodeID w).1) = Some resp →
  ∃ l, faithful (heap_of w) l ∧ resp = response_of (deref (w_mem w) l).
Proof.
  intros Hw. unfold poll. case_bool_decide as Hne; [done|]. intros [= <-].
  unfold PullTask, GetNextTaskForNode, mbind, M_bind in *. cbn [negb] in *.
  destruct (nodeTasks (w_sched w) !! nodeID) as [[|l ch]|] eqn:Hch; [by destruct Hne| |by destruct Hne].
  exists l. split; [|done]. by eapply Forall_inv, (hd_channels _ _ w Hw).
Qed.

(** C5 A task runs as it was submitted.  Take a server started on any table, and
    a request accepted at any time.  Whatever happens then (other requests,
    faults, retries, timeouts, cancellations, reports, restarts of agents), the
    row of the task is there with the name, command, directory, environment,
    limits, timeout, priority, retry settings and selector of the request; every
    execution of the task on the server starts the very command, directory,
    environment and timeout that were asked for; and so does an agent that is
    given the task, when the timeout fits its 32 bits. *)
Theorem runs_as_submitted tbl w0 w1 p req l w2 s environ :
  restarted tbl w0 → keyed tbl → rtc (step L) (w0, Idle) (w1, p) →
  let t := requested (new_uuid (w_uuids w1)) (clock (w_clk w1)) req in
  rows (w_db w1) !! TaskUID t = None → CreateTask req w1 = (Ok l, w2) → rtc (step L) (w2, p) s →
  (∃ r, rows (w_db s.1) !! TaskUID t = Some r ∧ row_request r = request_of t) ∧
  (∀ ctx l', (ctx, l') ∈ w_running s.1 → TaskUID (deref (w_mem s.1) l') = TaskUID t →
     Executor.command environ (deref (w_mem s.1) l') = Executor.command environ t) ∧
  (∀ nodeID resp u n,
     poll (Some (PullTask true nodeID s.1).1) = Some resp → pull_TaskUid resp = TaskUID t →
     in_i32 (TimeoutSec t) →
     Executor.command environ (agent_task u n resp) = Executor.command environ t).
Proof.
  intros Hw0 Hk Hrun1 t Hfresh Hcreate Hrun2.
  apply steps_faithful in Hrun1 as [[Hw1 Htodo] _]; [|split; [by eapply restarted_held|done]].
  assert (step L (w1, p) (w2, p)) as Hstep.
  { apply step_other. pose proof (other_create L w1 req) as Ho. by rewrite Hcreate in Ho. }
  assert (rtc (step L) (w1, p) s) as [[Hs _] _]%steps_faithful by (by eapply rtc_l); [|by split].
  assert (rtc (step L) (w1, p) (w2, p)) as [Hinv2 _]%steps_faithful by (by apply rtc_once); [|by split].
  apply steps_faithful in Hrun2 as [_ (_ & _ & Hrows)]; [|done].
  assert (∃ r, rows (w_db w2) !! TaskUID t = Some r ∧ row_request r = request_of t) as (r2 & Hr2 & E2).
  { rewrite (CreateTask_Ok w1 req l w2 Hfresh Hcreate). exists (insert_row (next_id (w_db w1)) t).
    cbn. by rewrite lookup_insert_eq. }
  destruct (Hrows _ r2 Hr2) as (r & Hr & Er). assert (row_request r = request_of t) as Ert by congruence.
  split_and!; [by exists r|..].
  - intros ctx l' Hin Hu. apply command_request. rewrite <- Ert. eapply faithful_row; [|exact Hu|exact Hr].
    pose proof (hd_running _ _ s.1 Hs) as Hall. rewrite Forall_forall in Hall. by apply (Hall (ctx, l')).
  - intros nodeID resp u n Hpoll Hu Hti. destruct (pulled_faithful _ _ _ Hs Hpoll) as (l' & Hl' & ->).
    pose proof (faithful_row _ _ _ r Hl' Hu Hr) as Heq. rewrite Ert in Heq.
    rewrite agent_command; [by apply command_request|]. by injection Heq as _ _ _ _ _ _ _ -> _ _ _ _.
Qed.
End runs.
End integrity.

(** ** Witness: the demo task, created and started by a cycle *)

Lemma runs_as_submitted_witness :
  w_running demo_running = [(0%nat, 0%nat)] ∧
  Executor.command [] (deref (w_mem demo_running) 0) =
    mkCmd ["sh"; "-c"; "make"] "/tmp" [] (300 * second).
Proof.
  split; [vm_compute; reflexivity|].
  assert (rtc (step demo_limits) (demo_created, Idle) (demo_running, Idle)) as Hrun.
  { apply cycle_run, (tick_steps 10). vm_compute. reflexivity. }
  assert (restarted empty_table (start None None None 4 8)) as Hstart by (by repeat split).
  assert (keyed empty_table) as Hk by (intros k r; cbn; by rewrite lookup_empty).
  assert (CreateTask demo_request (start None None None 4 8) = (Ok 0%nat, demo_created)) as Hcreate
    by (vm_compute; reflexivity).
  destruct (runs_as_submitted demo_limits empty_table _ _ Idle demo_request 0%nat demo_created
    (demo_running, Idle) [] Hstart Hk (rtc_refl _ _) eq_refl Hcreate Hrun) as (_ & Hex & _).
  etrans; [apply (Hex 0%nat)|]; vm_compute; [left|reflexivity..].
Defined.
