(* ===== verification/Recovery.v ===== *)
(** * Recovery: tasks whose deadline has passed

    The scan of the scheduling cycle fails every running task of the table
    whose deadline has passed, whoever runs it: an agent that is gone, an
    earlier run of the server, or a goroutine of this one that is about to end.
    The first two are recovered by this, the third is run twice. *)

From stdpp Require Import relations.
From S2P Require Import Prelude GoStrings GoFormat Model Heap TaskQueue TaskStore NodeStore.
From S2P Require Import NodeManager Runtime Invariant TaskService Scheduler InMemQueue.
From S2P Require Import Concrete TaskServiceSpec SchedulerSpec System Held Progress.

Section recovery.
Context {K R : Type} `{HostOk} `{Etcd K} `{Redis R}.
Abbreviation W := (World InMemQueue K R).
Implicit Types (w : W) (l : loc) (t : Task) (q : InMemQueue).
Hypothesis answers : ∀ i, db_fault i = None.

(** ** What failing a task leaves alone *)

Record local_to l (u : string) w w' : Prop := {
  lc_length : length (w_mem w') = length (w_mem w);
  lc_mem l' : l' ≠ l → deref (w_mem w') l' = deref (w_mem w) l';
  lc_rows u' : u' ≠ u → rows (w_db w') !! u' = rows (w_db w) !! u';
  lc_ready : pq (w_queue w') = pq (w_queue w) ∧ items (w_queue w') = items (w_queue w) ∧
             closed (w_queue w') = closed (w_queue w);
  lc_delayed x : x ∈ delayed (w_queue w) → x ∈ delayed (w_queue w') }.

Lemma local_put l u w w' t :
  w_mem w' = w_mem w → w_db w' = w_db w → w_queue w' = w_queue w → local_to l u w (put w' l t).
Proof.
  intros Em Ed Eq. split; cbn; rewrite ?Em, ?Ed, ?Eq; try done.
  - by rewrite length_insert.
  - intros l' Hne. by rewrite deref_insert_ne.
Qed.

Lemma local_core l u w w1 w2 : core w2 = core w1 → local_to l u w w1 → local_to l u w w2.
Proof. unfold core. intros [= Em Ed Eq _ _] []. split; by rewrite ?Em, ?Ed, ?Eq. Qed.

Lemma local_update l u w t w' ds :
  TaskUID t = u →
  w_mem w' = w_mem w →
  pq (w_queue w') = pq (w_queue w) → items (w_queue w') = items (w_queue w) →
  closed (w_queue w') = closed (w_queue w) → delayed (w_queue w') = delayed (w_queue w) ++ ds →
  rows (w_db w') = alter (update_row t) (TaskUID t) (rows (w_db w)) →
  local_to l u w (put w' l t).
Proof.
  intros <- Em Ep Ei Ec Ed Hr. split; cbn; rewrite ?Em, ?Ep, ?Ei, ?Ec, ?Ed, ?Hr; try done.
  - by rewrite length_insert.
  - intros l' Hne. by rewrite deref_insert_ne.
  - intros u' Hne. by rewrite lookup_alter_ne.
  - intros x Hx. apply elem_of_app. by left.
Qed.

Lemma failTask_local w l msg :
  in_mem (w_mem w) l → local_to l (TaskUID (deref (w_mem w) l)) w (failTask l msg w).2.
Proof.
  intros Hl. set (t := deref (w_mem w) l).
  assert (failTask l msg w = failTask l msg (put w l t)) as -> by (unfold t; by rewrite put_self).
  unfold failTask. run.
  destruct (CanRetry _); run; cbv zeta.
  - rewrite answers. run. cbv zeta. by eapply local_update.
  - rewrite TransitionTo_spec. case_decide; cbn [fst snd]; [|by apply local_put].
    run. cbv zeta. rewrite answers. eapply local_core; [apply count_daily_core|].
    eapply (local_update _ _ _ _ _ []); try done. by rewrite app_nil_r.
Qed.

Lemma scan_one_local w n l :
  in_mem (w_mem w) l → local_to l (TaskUID (deref (w_mem w) l)) w (scan_one n l w).2.
Proof.
  intros Hl. unfold scan_one, mbind, M_bind, load, gets. cbn [fst snd].
  destruct (timed_out _ _); [by apply failTask_local|]. by split.
Qed.

(** ** What failing a task does *)

(** The task [t] of the object [l] has timed out: with retries left it is
    pending and delayed, otherwise it has failed. *)
Definition recovered t l w : Prop :=
  TaskUID (deref (w_mem w) l) = TaskUID t ∧
  ∃ r, rows (w_db w) !! TaskUID t = Some r ∧ c_error_message r = Some "task timed out"%string ∧
  if CanRetry t then
    Status (deref (w_mem w) l) = TaskStatusPending ∧ l ∈ (delayed (w_queue w)).*1 ∧
    c_status r = TaskStatusPending ∧ c_retry_count r = RetryCount t +64 1
  else c_status r = TaskStatusFailed.

Lemma local_recovered l' u' w w' t l :
  local_to l' u' w w' → l ≠ l' → TaskUID t ≠ u' → recovered t l w → recovered t l w'.
Proof.
  intros [] Hl Hu [Hid (r & Hr & Hm & Hout)]. unfold recovered. rewrite lc_mem0, lc_rows0 by done.
  split; [done|]. exists r. split; [done|]. split; [done|].
  destruct (CanRetry t); [|done]. destruct Hout as (Hs & Hd & Hrow). split; [done|]. split; [|done].
  apply list_elem_of_fmap in Hd as (x & -> & Hx). apply list_elem_of_fmap. eauto.
Qed.

Lemma scan_one_recovers w n l r :
  in_mem (w_mem w) l → let t := deref (w_mem w) l in
  Status t = TaskStatusRunning → timed_out n t = true → rows (w_db w) !! TaskUID t = Some r →
  recovered t l (scan_one n l w).2.
Proof.
  intros Hl t Hst Hto Hr. unfold scan_one, mbind, M_bind, load, gets. cbn [fst snd]. fold t. rewrite Hto.
  destruct (failTask_result w l "task timed out" Hl (answers _)) as (_ & Hm & Hu & Hout). fold t in Hu, Hout.
  set (w' := (failTask l "task timed out" w).2) in *. set (t' := deref (w_mem w') l) in *.
  split; [exact Hu|].
  assert (∀ w2, saved w2 w' t' → w2 = w → ∃ r', rows (w_db w') !! TaskUID t = Some r' ∧ r' = update_row t' r) as Hrow.
  { intros w2 Hs ->. exists (update_row t' r). split; [|done]. rewrite <- Hu in *. by apply (saved_row w). }
  rewrite Hst, bool_decide_eq_true_2 in Hout by done. destruct (CanRetry t).
  - destruct Hout as (Hp & Hc & _ & Hs & Hq). destruct (Hrow w Hs eq_refl) as (r' & Hr' & ->).
    exists (update_row t' r). split; [exact Hr'|]. cbn. rewrite Hm, Hp, Hc. split_and!; try done.
    rewrite Hq. cbn. rewrite fmap_app. apply elem_of_app. right. cbn. by left.
  - destruct Hout as (Hp & _ & Hs & Hq). destruct (Hrow w Hs eq_refl) as (r' & Hr' & ->).
    exists (update_row t' r). split; [exact Hr'|]. cbn. by rewrite Hm, Hp.
Qed.

(** ** The scan *)

(** The objects of the scan: allocated, of different tasks. *)
Definition distinct_tasks (m : Mem) (ls : list loc) : Prop :=
  NoDup ls ∧ NoDup ((λ l, TaskUID (deref m l)) <$> ls) ∧ Forall (in_mem m) ls.

Lemma distinct_cons m l ls l' :
  distinct_tasks m (l :: ls) → l' ∈ ls →
  l' ≠ l ∧ TaskUID (deref m l') ≠ TaskUID (deref m l).
Proof.
  intros ([Hl _]%NoDup_cons & [Hu _]%NoDup_cons & _) Hin. split; [by intros ->|].
  intros Heq. apply Hu. rewrite <- Heq. apply list_elem_of_fmap. eauto.
Qed.

Lemma local_distinct l ls u w w' :
  local_to l u w w' → distinct_tasks (w_mem w) (l :: ls) →
  distinct_tasks (w_mem w') ls ∧ ∀ l', l' ∈ ls → deref (w_mem w') l' = deref (w_mem w) l'.
Proof.
  intros Hloc Hd. assert (∀ l', l' ∈ ls → deref (w_mem w') l' = deref (w_mem w) l') as Hm.
  { intros l' Hl'. apply (lc_mem _ _ _ _ Hloc). by destruct (distinct_cons _ _ _ _ Hd Hl'). }
  split; [|exact Hm]. destruct Hd as ([_ Hn]%NoDup_cons & [_ Hu]%NoDup_cons & [_ Ha]%Forall_cons).
  split_and!; [done| |].
  - rewrite <- (list_fmap_ext (λ l, TaskUID (deref (w_mem w) l)) _ ls); [done|].
    intros i l' Hl'. rewrite Hm; [done|]. by apply (list_elem_of_lookup_2 _ i).
  - eapply Forall_impl; [exact Ha|]. intros l'. unfold in_mem. by rewrite (lc_length _ _ _ _ Hloc).
Qed.

Lemma scan_running_cons n l ls c m w :
  (scan_running n (l :: ls) c m w).2 =
    (scan_running n ls (c +64 CPULimit (deref (w_mem w) l)) (m +64 MemoryLimit (deref (w_mem w) l))
      (scan_one n l w).2).2.
Proof. done. Qed.

(** A task that has been recovered stays so while others are scanned. *)
Lemma scan_keeps n ls c m w t l :
  distinct_tasks (w_mem w) ls → l ∉ ls → TaskUID t ∉ (λ l, TaskUID (deref (w_mem w) l)) <$> ls →
  recovered t l w → recovered t l (scan_running n ls c m w).2.
Proof.
  revert c m w. induction ls as [|l' ls IH]; intros c m w Hd Hl Hu Hr; [done|].
  rewrite scan_running_cons. rewrite not_elem_of_cons in Hl. rewrite fmap_cons, not_elem_of_cons in Hu.
  destruct Hl as [Hne Hl], Hu as [Hue Hu]. pose proof (proj2 (proj2 Hd)) as [Hl' _]%Forall_cons.
  pose proof (scan_one_local w n l' Hl') as Hloc. destruct (local_distinct _ _ _ _ _ Hloc Hd) as [Hd' Hm].
  apply IH; [done|done| |by eapply local_recovered].
  intros (x & Hx & Hin)%list_elem_of_fmap. apply Hu, list_elem_of_fmap. exists x. by rewrite <- Hm.
Qed.

Lemma scan_recovers n ls c m w l r :
  distinct_tasks (w_mem w) ls → l ∈ ls → let t := deref (w_mem w) l in
  Status t = TaskStatusRunning → timed_out n t = true → rows (w_db w) !! TaskUID t = Some r →
  recovered t l (scan_running n ls c m w).2.
Proof.
  revert c m w. induction ls as [|l' ls IH]; intros c m w Hd Hin t Hst Hto Hr; [by apply not_elem_of_nil in Hin|].
  rewrite scan_running_cons. pose proof (proj2 (proj2 Hd)) as [Hl' _]%Forall_cons.
  pose proof (scan_one_local w n l' Hl') as Hloc. destruct (local_distinct _ _ _ _ _ Hloc Hd) as [Hd' Hm].
  apply elem_of_cons in Hin as [->|Hin].
  - apply scan_keeps; [done|..|by eapply scan_one_recovers].
    + apply (NoDup_cons_1_1 l'), Hd.
    + intros (x & Hx & Hxl)%list_elem_of_fmap. destruct (distinct_cons _ _ _ _ Hd Hxl) as [_ Hne].
      apply Hne. rewrite <- Hm by done. by rewrite <- Hx.
  - destruct (distinct_cons _ _ _ _ Hd Hin) as [Hne Hue].
    unfold t in *. rewrite <- (Hm l Hin). apply IH; rewrite ?(Hm l Hin); try done.
    by rewrite (lc_rows _ _ _ _ Hloc).
Qed.

(** ** The running tasks of the table *)

Lemma select_distinct st d : keyed d → NoDup (c_task_uid <$> select st d).
Proof.
  intros Hk. assert (∀ r, r ∈ select st d → ∃ u, rows d !! u = Some r) as Hin.
  { intros r. unfold select. rewrite sort_by_perm. intros [_ Hr]%list_elem_of_filter.
    apply list_elem_of_fmap in Hr as ([u r'] & -> & Hr). exists u. by apply elem_of_map_to_list. }
  apply NoDup_fmap_2_strong.
  - intros r1 r2 (u1 & Hr1)%Hin (u2 & Hr2)%Hin Heq.
    rewrite (Hk _ _ Hr1), (Hk _ _ Hr2) in Heq. congruence.
  - unfold select. rewrite sort_by_perm. apply NoDup_filter, NoDup_fmap_2_strong; [|apply NoDup_map_to_list].
    intros [u1 r1] [u2 r2] Hr1%elem_of_map_to_list Hr2%elem_of_map_to_list Heq. cbn in *. subst r2.
    by rewrite <- (Hk _ _ Hr1), <- (Hk _ _ Hr2).
Qed.

(** The objects a cycle reads: one for each running row. *)
Lemma running_objects w :
  let rs := select TaskStatusRunning (w_db w) in
  let ls := seq (length (w_mem w)) (length rs) in
  let w1 := w <| w_stm := S (w_stm w) |> <| w_mem := w_mem w ++ (scanTask <$> rs) |> in
  store_GetRunningTasks w = (Ok ls, w1) ∧ deref (w_mem w1) <$> ls = scanTask <$> rs.
Proof.
  intros rs ls w1. split.
  - unfold store_GetRunningTasks, mbind, M_bind, statement, gets, GetRunningTasks, GetByStatus. cbn.
    rewrite answers, new_all_spec, length_fmap. done.
  - pose proof (deref_new_all (w_mem w) (scanTask <$> rs)) as Hall. by rewrite length_fmap in Hall.
Qed.

Lemma running_read w :
  keyed (w_db w) →
  let rs := select TaskStatusRunning (w_db w) in
  let ls := seq (length (w_mem w)) (length rs) in
  let w1 := w <| w_stm := S (w_stm w) |> <| w_mem := w_mem w ++ (scanTask <$> rs) |> in
  store_GetRunningTasks w = (Ok ls, w1) ∧ distinct_tasks (w_mem w1) ls ∧
  deref (w_mem w1) <$> ls = scanTask <$> rs.
Proof.
  intros Hk rs ls w1. pose proof (running_objects w) as [Hread Hall].
  change (deref (w_mem w1) <$> ls = scanTask <$> rs) in Hall.
  split_and!; [exact Hread| |exact Hall]. split_and!; [apply NoDup_seq| |].
  - change (NoDup ((TaskUID ∘ deref (w_mem w1)) <$> ls)). rewrite list_fmap_compose, Hall.
    rewrite <- list_fmap_compose. by apply select_distinct.
  - apply Forall_forall. intros l Hl%elem_of_seq. unfold in_mem. cbn. rewrite length_app, length_fmap. lia.
Qed.

Lemma running_object w u r :
  keyed (w_db w) → rows (w_db w) !! u = Some r → c_status r = TaskStatusRunning →
  let ls := seq (length (w_mem w)) (length (select TaskStatusRunning (w_db w))) in
  let m := w_mem w ++ (scanTask <$> select TaskStatusRunning (w_db w)) in
  ∃ l, l ∈ ls ∧ deref m l = scanTask r.
Proof.
  intros Hk Hr Hst ls m. destruct (running_read w Hk) as (_ & _ & Hall).
  assert (scanTask r ∈ deref m <$> ls) as (l & Hl & Hin)%list_elem_of_fmap; [|by exists l].
  rewrite (Hall : deref m <$> ls = _). apply list_elem_of_fmap. exists r. split; [done|]. by apply elem_of_select; [|eauto].
Qed.

(** ** A goroutine that is about to end *)

Lemma scan_one_frame w n l :
  in_mem (w_mem w) l → kept (scan_one n l w).2 = kept w.
Proof.
  intros Hl. unfold scan_one, mbind, M_bind, load, gets. cbn [fst snd].
  destruct (timed_out _ _); [|done]. by destruct (failTask_frame w l "task timed out" Hl answers).
Qed.

Lemma scan_frame n ls c m w l :
  distinct_tasks (w_mem w) ls → l ∉ ls → let w' := (scan_running n ls c m w).2 in
  kept w' = kept w ∧ length (w_mem w') = length (w_mem w) ∧ deref (w_mem w') l = deref (w_mem w) l.
Proof.
  revert c m w. induction ls as [|l' ls IH]; intros c m w Hd Hl; [done|].
  cbv zeta. rewrite scan_running_cons. rewrite not_elem_of_cons in Hl. destruct Hl as [Hne Hl].
  pose proof (proj2 (proj2 Hd)) as [Hl' _]%Forall_cons.
  pose proof (scan_one_local w n l' Hl') as Hloc. destruct (local_distinct _ _ _ _ _ Hloc Hd) as [Hd' _].
  destruct (IH (c +64 CPULimit (deref (w_mem w) l')) (m +64 MemoryLimit (deref (w_mem w) l')) _ Hd' Hl)
    as (-> & -> & ->).
  rewrite scan_one_frame by done. by destruct Hloc as [-> -> _ _ _].
Qed.

(** The scan of a cycle, as steps, with what becomes of one running row and of
    the objects there were before. *)
Lemma cycle_scans w u r :
  keyed (w_db w) → rows (w_db w) !! u = Some r → c_status r = TaskStatusRunning →
  timed_out (clock (w_clk w)) (scanTask r) = true →
  ∃ w' b l2,
    rtc cycle_step (w, Idle) (w', Popping b) ∧ recovered (scanTask r) l2 w' ∧ (length (w_mem w) <= l2)%nat ∧
    w_running w' = w_running w ∧
    ∀ l, in_mem (w_mem w) l → in_mem (w_mem w') l ∧ deref (w_mem w') l = deref (w_mem w) l.
Proof.
  intros Hk Hr Hst Hto. destruct (running_read w Hk) as (Hread & Hd & _).
  destruct (running_object w u r Hk Hr Hst) as (l2 & Hl & Hobj). cbv zeta in *.
  set (ls := seq _ _) in *. set (w1 := w <| w_stm := _ |> <| w_mem := _ |>) in *.
  set (n := clock (w_clk w)). set (w2 := w1 <| w_clk := S (w_clk w) |>).
  assert (recovered (scanTask r) l2 (scan_running n ls 0 0 w2).2) as Hrec.
  { pose proof (scan_recovers n ls 0 0 w2 l2 r Hd Hl) as Hrec. cbv zeta in Hrec.
    change (deref (w_mem w2) l2) with (deref (w_mem w1) l2) in Hrec.
    rewrite (Hobj : deref (w_mem w1) l2 = scanTask r) in Hrec. apply Hrec; [done|done|].
    change (rows (w_db w) !! c_task_uid r = Some r). by rewrite (Hk _ _ Hr). }
  assert (∀ l, in_mem (w_mem w) l → l ∉ ls) as Hold.
  { intros l Hin Hls%elem_of_seq. unfold in_mem in Hin. lia. }
  pose proof (λ l H, scan_frame n ls 0 0 w2 l Hd H) as Hframe. cbv zeta in Hframe.
  pose proof (scan_steps n ls 0 0 (Z.of_nat (length ls)) w2) as Hscan.
  destruct (scan_running n ls 0 0 w2) as [al w3]. cbn [snd] in *.
  exists w3, (available (w_sched w3) al.1 al.2 (Z.of_nat (length ls))), l2. split_and!; [|done| | |].
  - eapply rtc_l; [by eapply step_tick|]. etrans; [exact Hscan|]. apply rtc_once, step_scanned.
  - by apply elem_of_seq in Hl as [? _].
  - assert (length (w_mem w1) ∉ ls) as Hout.
    { intros Hin. apply elem_of_seq in Hin. cbn in Hin. rewrite length_app, length_fmap in Hin. lia. }
    destruct (Hframe _ Hout) as [Hkept _]. unfold kept in Hkept. by injection Hkept.
  - intros l Hin. destruct (Hframe l (Hold l Hin)) as (_ & Hlen & Hder). unfold in_mem in *.
    rewrite Hlen, Hder. cbn. rewrite length_app, deref_app by done. split; [lia|done].
Qed.

(** Every task whose deadline has passed is recovered by the next cycle.
    When the database answers, a running row whose start time and timeout put
    its deadline before the time the cycle reads is, by the time the cycle has
    scanned the running tasks, pending again with one more retry counted, the
    message that it timed out, and an object of its own in the delayed queue;
    or it has failed, when its retries are used up.  The table alone decides:
    rows left running by an earlier run of the server and tasks of agents that
    never report are recovered like all others, and so is any number at a
    time. *)
Lemma overdue_recovered w u r :
  keyed (w_db w) → rows (w_db w) !! u = Some r → c_status r = TaskStatusRunning →
  timed_out (clock (w_clk w)) (scanTask r) = true →
  ∃ w' b l r',
    rtc cycle_step (w, Idle) (w', Popping b) ∧ rows (w_db w') !! u = Some r' ∧
    c_error_message r' = Some "task timed out"%string ∧
    if CanRetry (scanTask r) then
      c_status r' = TaskStatusPending ∧ c_retry_count r' = c_retry_count r +64 1 ∧
      l ∈ (delayed (w_queue w')).*1 ∧ TaskUID (deref (w_mem w') l) = u ∧
      Status (deref (w_mem w') l) = TaskStatusPending
    else c_status r' = TaskStatusFailed.
Proof.
  intros Hk Hr Hst Hto.
  destruct (cycle_scans w u r Hk Hr Hst Hto) as (w' & b & l & Hrun & [Hu (r' & Hr' & Hm & Hout)] & _).
  change (TaskUID (scanTask r)) with (c_task_uid r) in *. rewrite (Hk _ _ Hr) in *.
  exists w', b, l, r'. split_and!; [done..|].
  destruct (CanRetry (scanTask r)); [|done]. by destruct Hout as (? & ? & ? & ?).
Qed.

(** The end of a failed execution of an object with retries left, among others. *)
Lemma done_delays w ctx l out e :
  in_mem (w_mem w) l → CanRetry (deref (w_mem w) l) = true → tr_Error out = Some e →
  let w' := (execution_done ctx l out w).2 in
  TaskUID (deref (w_mem w') l) = TaskUID (deref (w_mem w) l) ∧
  Status (deref (w_mem w') l) = TaskStatusPending ∧ l ∈ (delayed (w_queue w')).*1 ∧
  (∀ l', l' ≠ l → deref (w_mem w') l' = deref (w_mem w) l') ∧
  (∀ l', l' ∈ (delayed (w_queue w)).*1 → l' ∈ (delayed (w_queue w')).*1).
Proof.
  intros Hl Hc He. unfold execution_done, mbind, M_bind, modify, load, gets, sched_modify. cbn [fst snd].
  set (w1 := w <| w_running := _ |>). rewrite (completeTask_error w1 l out e) by done.
  set (msg := if tr_TimedOut out then _ else _). set (t := reported _ _ _). set (w2 := put _ l t).
  assert (in_mem (w_mem w2) l) as Hl2 by (unfold in_mem, w2; cbn; by rewrite length_insert).
  assert (deref (w_mem w2) l = t) as Ht2 by by apply deref_put.
  destruct (failTask_result w2 l msg Hl2 (answers _)) as (_ & _ & Hu & Hout). rewrite Ht2 in Hu, Hout.
  change (CanRetry t) with (CanRetry (deref (w_mem w) l)) in Hout. rewrite Hc in Hout.
  destruct Hout as (Hst & _ & _ & _ & Hq). destruct (failTask_local w2 l msg Hl2).
  split_and!; [exact Hu|exact Hst|..].
  - cbn. rewrite Hq. cbn. rewrite fmap_app. apply elem_of_app. right. cbn. by left.
  - intros l' Hne. cbn. rewrite lc_mem0 by done. unfold w2. cbn. by rewrite deref_insert_ne.
  - intros l' (x & -> & Hx)%list_elem_of_fmap. apply list_elem_of_fmap. exists x. split; [done|]. by apply lc_delayed0.
Qed.

(** C33 A task that times out here is run twice.  The scan works on an object it
    has just read from the table, while the goroutine of the task goes on with
    its own.  When the deadline passes at a cycle and the goroutine then ends
    with an error (the executor's own timeout, which starts later than the
    deadline's clock, is one), both retry: the queue holds two objects of the
    same task, both pending, each to be dispatched on its own. *)
Theorem timeout_retried_twice w u r ctx l out e :
  keyed (w_db w) → rows (w_db w) !! u = Some r → c_status r = TaskStatusRunning →
  timed_out (clock (w_clk w)) (scanTask r) = true → CanRetry (scanTask r) = true →
  (ctx, l) ∈ w_running w → in_mem (w_mem w) l → TaskUID (deref (w_mem w) l) = u →
  CanRetry (deref (w_mem w) l) = true → tr_Error out = Some e →
  ∃ w1 b l2,
    rtc cycle_step (w, Idle) (w1, Popping b) ∧ (ctx, l) ∈ w_running w1 ∧ l2 ≠ l ∧
    let w2 := (execution_done ctx l out w1).2 in
    (∀ l', l' = l ∨ l' = l2 →
       l' ∈ (delayed (w_queue w2)).*1 ∧ TaskUID (deref (w_mem w2) l') = u ∧
       Status (deref (w_mem w2) l') = TaskStatusPending).
Proof.
  intros Hk Hr Hst Hto Hc Hrun Hl Hu Hcl He.
  destruct (cycle_scans w u r Hk Hr Hst Hto) as (w1 & b & l2 & Hsteps & [Hu2 Hout] & Hfresh & Er & Hold).
  destruct Hout as (r' & _ & _ & Hout). rewrite Hc in Hout. destruct Hout as (Hs2 & Hd2 & _).
  destruct (Hold l Hl) as [Hl1 Hder]. assert (l2 ≠ l) as Hne by (unfold in_mem in Hl; lia).
  destruct (done_delays w1 ctx l out e Hl1) as (Hu1 & Hs1 & Hd1 & Hm1 & Hq1); [by rewrite Hder|done|].
  exists w1, b, l2. split_and!; [done|by rewrite Er|done|]. intros w2 l' [-> | ->]; split_and!.
  - exact Hd1.
  - fold w2 in Hu1. congruence.
  - exact Hs1.
  - by apply Hq1.
  - unfold w2. rewrite Hm1, Hu2 by done. exact (Hk _ _ Hr).
  - unfold w2. by rewrite Hm1.
Qed.

(** ** From the table of an earlier run to the end *)

(** Nothing waits or runs on the server, and one row of the table is running:
    its deadline has passed, it has retries left and it fits the machine. *)
Record left_running (uid : string) (r : TaskRow) w : Prop := {
  lr_keyed : keyed (w_db w);
  lr_row : rows (w_db w) !! uid = Some r;
  lr_status : c_status r = TaskStatusRunning;
  lr_alone u r' : rows (w_db w) !! u = Some r' → c_status r' = TaskStatusRunning → u = uid;
  lr_max : c_max_retries r = 3;
  lr_count : 0 <= c_retry_count r < 3;
  lr_overdue : timed_out (clock (w_clk w)) (scanTask r) = true;
  lr_fits : canAllocate (scanTask r) (totalCPU (w_sched w)) (totalMemMB (w_sched w)) = true;
  lr_queue : pointers (w_queue w) = [];
  lr_open : closed (w_queue w) = false;
  lr_running : w_running w = [];
  lr_etcd : w_etcd w = None;
  lr_nodes : w_nodes w = None;
  lr_cpu : in_i64 (totalCPU (w_sched w));
  lr_memory : in_i64 (totalMemMB (w_sched w));
  lr_slots : 0 < maxConcurrent (w_sched w) < 2 ^ 63 }.

Lemma select_alone uid r w : left_running uid r w → select TaskStatusRunning (w_db w) = [r].
Proof.
  intros []. assert (∀ x, x ∈ select TaskStatusRunning (w_db w) → x = r) as Hall.
  { intros x (Hx & u & Hu)%elem_of_select; [|done]. rewrite (lr_alone0 u x Hu Hx) in Hu. congruence. }
  assert (r ∈ select TaskStatusRunning (w_db w)) as Hin by (apply elem_of_select; eauto).
  pose proof (select_distinct TaskStatusRunning (w_db w) lr_keyed0) as Hd.
  destruct (select TaskStatusRunning (w_db w)) as [|x [|y rs]]; [by apply not_elem_of_nil in Hin| |].
  - f_equal. apply Hall. left.
  - exfalso. rewrite (Hall x), (Hall y) in Hd by (repeat constructor). apply NoDup_cons in Hd as [Hd _].
    apply Hd. left.
Qed.

(** The cycle that finds the row puts it back into the queue. *)
Lemma tick_recovers fuel uid r w :
  left_running uid r w → (1 ≤ fuel)%nat →
  ∃ w' l, tick fuel w = (true, w') ∧ waiting uid (c_retry_count r + 1) l w'.
Proof.
  intros Hleft Hfuel. destruct (running_read w (lr_keyed _ _ _ Hleft)) as (Hread & _ & Hobj).
  pose proof (select_alone _ _ _ Hleft) as Hsel. cbv zeta in Hread, Hobj. rewrite Hsel in Hread, Hobj.
  set (l := length (w_mem w)) in *. set (w1 := w <| w_stm := _ |> <| w_mem := _ |>) in *.
  assert (deref (w_mem w1) l = scanTask r) as Hl by by injection Hobj.
  set (w2 := w1 <| w_clk := S (w_clk w) |>). destruct Hleft.
  assert (failing uid (c_retry_count r) l w2) as Hend.
  { split; change (w_mem w2) with (w_mem w1); rewrite ?Hl; try done.
    - unfold in_mem. cbn. rewrite length_app. cbn. unfold l. lia.
    - by apply lr_keyed0.
    - intros u x Hne Hx Hrun. by apply Hne, (lr_alone0 u x). }
  pose proof (failed_waits uid _ l "task timed out" w2 answers Hend lr_count0) as Hw.
  pose proof (failTask_local w2 l "task timed out" (fl_mem _ _ _ _ Hend)) as [_ _ _ (Ep & Ei & _) _].
  set (w3 := (failTask l "task timed out" w2).2) in *.
  apply app_nil in lr_queue0 as [E1 E2]. apply app_nil in E2 as [E2 E3].
  destruct fuel as [|fuel]; [lia|].
  destruct (dispatch_loop_nothing fuel (available (w_sched w3) (0 +64 CPULimit (scanTask r))
    (0 +64 MemoryLimit (scanTask r)) 1) w3) as [k Hloop]; [by rewrite Ep|by rewrite Ei|].
  exists (w3 <| w_clk := k |>), l. split; [|by apply waiting_clk].
  unfold tick, mbind, M_bind. rewrite Hread. cbn [fst snd]. unfold now. cbn [fst snd length seq].
  change (w1 <| w_clk := S (w_clk w1) |>) with w2. cbn [scan_running].
  unfold scan_one, mbind, M_bind, load, gets. cbn [fst snd].
  change (deref (w_mem w2) l) with (deref (w_mem w1) l). rewrite Hl.
  change (clock (w_clk w1)) with (clock (w_clk w)). rewrite lr_overdue0. exact Hloop.
Qed.

(** C32 A task that was running when the server died is run again and ends.  On
    a server that has just started without nodes and etcd, on a table where
    one row is still running and its deadline has passed, the first cycle
    returns the task to the queue with one retry more, and from there on it is
    inevitably executed: if an execution succeeds before the retries are used
    up, the row ends as success with its output and the retry count of all
    failures and the lost run; otherwise it ends as failed after the third. *)
Theorem left_running_finishes uid r w fails out :
  left_running uid r w → Forall (λ out, tr_Error out ≠ None) fails →
  let k := c_retry_count r + 1 + Z.of_nat (length fails) in
  k <= 3 →
  ∃ w', tick 1 w = (true, w') ∧
    (tr_Error out = None →
     rounds (fails ++ [out])
       (settled uid (λ r',
          c_status r' = TaskStatusSuccess ∧ c_retry_count r' = k ∧
          c_exit_code r' = Some (tr_ExitCode out) ∧ c_stdout r' = Some (tr_Stdout out) ∧
          c_stderr r' = Some (tr_Stderr out))) w') ∧
    (tr_Error out ≠ None → k = 3 →
     rounds (fails ++ [out])
       (settled uid (λ r',
          c_status r' = TaskStatusFailed ∧ c_retry_count r' = 3 ∧
          c_error_message r' = Some (end_message out))) w').
Proof.
  intros Hleft Hfails k Hk. destruct (tick_recovers 1 uid r w Hleft) as (w' & l & Htick & Hw); [done|].
  exists w'. split; [exact Htick|]. pose proof (lr_count _ _ _ Hleft).
  apply (waiting_finishes _ _ l); try done; lia.
Qed.
End recovery.

(** ** Witnesses: a task with a timeout of one second, two seconds later *)

Definition quick_running : CWorld :=
  exec (tick 10) (exec (CreateTask (mkRequest "demo" "make" EmptyString None 2 100 1 0 None))
    (start None None None 4 8)).

Definition quick_row : TaskRow := default (insert_row 0 inhabitant) (rows (w_db quick_running) !! "uuid-0"%string).

Definition quick_late : CWorld := quick_running <| w_clk := 2000%nat |>.

(** Another server on the same table. *)
Definition quick_restarted : CWorld := (start None None None 4 8) <| w_db := w_db quick_running |> <| w_clk := 2000%nat |>.

Lemma late_db (w : CWorld) n : w_db (w <| w_clk := n |>) = w_db w.
Proof. done. Qed.

Lemma quick_late_db : w_db quick_late = w_db quick_running.
Proof. unfold quick_late. apply late_db. Qed.

Lemma quick_restarted_db : w_db quick_restarted = w_db quick_running.
Proof. unfold quick_restarted. by rewrite late_db. Qed.

Lemma quick_answers : ∀ i, db_fault i = None.
Proof. done. Qed.

Lemma quick_row_found : rows (w_db quick_running) !! "uuid-0"%string = Some quick_row.
Proof.
  assert (is_Some (c_id <$> rows (w_db quick_running) !! "uuid-0"%string)) as Hs by (vm_compute; by eexists).
  unfold quick_row. destruct (rows (w_db quick_running) !! "uuid-0"%string) as [r|]; [done|by destruct Hs].
Qed.

Lemma quick_rows k r : rows (w_db quick_running) !! k = Some r → k = "uuid-0"%string ∧ r = quick_row.
Proof.
  assert ((map_to_list (rows (w_db quick_running))).*1 = ["uuid-0"%string]) as Hl by (vm_compute; reflexivity).
  intros Hr. assert (k ∈ (map_to_list (rows (w_db quick_running))).*1) as Hk.
  { apply list_elem_of_fmap. exists (k, r). split; [done|]. by apply elem_of_map_to_list. }
  rewrite Hl in Hk. apply list_elem_of_singleton in Hk as ->. split; [done|].
  pose proof quick_row_found. congruence.
Qed.

Lemma quick_keyed : keyed (w_db quick_running).
Proof. intros k r [-> ->]%quick_rows. vm_compute. reflexivity. Qed.

Lemma overdue_recovered_witness :
  ∃ w' b r', rtc cycle_step (quick_late, Idle) (w', Popping b) ∧
    rows (w_db w') !! "uuid-0"%string = Some r' ∧ c_status r' = TaskStatusPending ∧
    c_retry_count r' = c_retry_count quick_row +64 1.
Proof.
  destruct (overdue_recovered quick_answers quick_late "uuid-0" quick_row) as (w' & b & l & r' & H1 & H2 & _ & H3).
  - rewrite quick_late_db; exact quick_keyed.
  - rewrite quick_late_db; exact quick_row_found.
  - vm_compute. reflexivity.
  - vm_compute. reflexivity.
  - assert (CanRetry (scanTask quick_row) = true) as Hc by (vm_compute; reflexivity).
    rewrite Hc in H3. destruct H3 as (H3 & H4 & _). exists w', b, r'.
    split; [exact H1|]. split; [exact H2|]. split; [exact H3|exact H4].
Defined.

(** The two objects are both run by the next cycle, once their delays are over. *)
Lemma timeout_retried_twice_witness :
  (∃ w1 b l2, rtc cycle_step (quick_late, Idle) (w1, Popping b) ∧ l2 ≠ 0%nat ∧
     l2 ∈ (delayed (w_queue (execution_done 0 0 broken w1).2)).*1) ∧
  let w2 := exec (execution_done 0 0 broken) (exec (tick 10) quick_late) in
  let w3 := exec (tick 10) (w2 <| w_queue := drainDelayed (100 * second) (w_queue w2) |>) in
  map (λ x, TaskUID (deref (w_mem w3) x.2)) (w_running w3) = ["uuid-0"; "uuid-0"]%string.
Proof.
  split; [|vm_compute; reflexivity].
  destruct (timeout_retried_twice quick_answers quick_late "uuid-0" quick_row 0 0 broken
    (ErrorString "exit status 1")) as (w1 & b & l2 & H1 & _ & H2 & H3).
  - rewrite quick_late_db; exact quick_keyed.
  - rewrite quick_late_db; exact quick_row_found.
  - vm_compute. reflexivity.
  - vm_compute. reflexivity.
  - vm_compute. reflexivity.
  - vm_compute. left.
  - vm_compute. lia.
  - vm_compute. reflexivity.
  - vm_compute. reflexivity.
  - reflexivity.
  - exists w1, b, l2. split; [exact H1|]. split; [exact H2|]. apply (H3 l2). right. reflexivity.
Defined.

Lemma left_running_finishes_witness :
  ∃ w', tick 1 quick_restarted = (true, w') ∧
    rounds [broken; succeeded]
      (settled "uuid-0" (λ r', c_status r' = TaskStatusSuccess ∧ c_retry_count r' = 2)) w'.
Proof.
  destruct (left_running_finishes quick_answers "uuid-0" quick_row quick_restarted [broken] succeeded)
    as (w' & Ht & Hok & _).
  - split.
    + rewrite quick_restarted_db; exact quick_keyed.
    + rewrite quick_restarted_db; exact quick_row_found.
    + vm_compute. reflexivity.
    + rewrite quick_restarted_db. intros u r' [Hu _]%quick_rows _. exact Hu.
    + vm_compute. reflexivity.
    + vm_compute. split; [discriminate|reflexivity].
    + vm_compute. reflexivity.
    + vm_compute. reflexivity.
    + reflexivity.
    + reflexivity.
    + reflexivity.
    + reflexivity.
    + reflexivity.
    + vm_compute. split; [discriminate|reflexivity].
    + vm_compute. split; [discriminate|reflexivity].
    + vm_compute. split; reflexivity.
  - repeat constructor. discriminate.
  - vm_compute. discriminate.
  - exists w'. split; [exact Ht|]. specialize (Hok eq_refl). revert Hok. apply rounds_impl.
    intros w (Hr & Hp & r & Hrow & Hs & Hc & _). split; [exact Hr|]. split; [exact Hp|].
    exists r. split; [exact Hrow|]. split; [exact Hs|]. rewrite Hc. vm_compute. reflexivity.
Defined.
