(* ===== verification/Cycle.v ===== *)
(** * The scheduling cycle as one pass

    What a whole cycle of a server without nodes does to the tasks that wait,
    compared with a pure function on the list of them: the queue fixes an order,
    and the cycle goes through it once, starting what fits into what is left of
    the resources and putting off the rest, until the slots are used up. *)

From S2P Require Import Prelude GoStrings GoFormat Model Heap TaskQueue TaskStore NodeStore.
From S2P Require Import NodeManager Runtime Invariant TaskService Scheduler InMemQueue.
From S2P Require Import Concrete TaskServiceSpec SchedulerSpec System Held Progress Recovery.

(** ** The order of the queue *)

Definition ready_count (q : InMemQueue) : nat := (length (pq q) + length (items q))%nat.

(** What repeated pops return. *)
Fixpoint pops (n : nat) (m : Mem) (q : InMemQueue) : list loc :=
  match n with
  | O => []
  | S n => match popInternal m q with
           | (Some l, q') => l :: pops n m q'
           | (None, _) => []
           end
  end.

Definition ready (m : Mem) (q : InMemQueue) : list loc := pops (ready_count q) m q.

Lemma popInternal_cases m q :
  (∃ l h, heap_Pop (prio m) (pq q) = (Some l, h) ∧ pq q ≡ₚ l :: h ∧
     popInternal m q = (Some l, q <| pq := h |>)) ∨
  pq q = [] ∧ popInternal m q = match items q with
                                | l :: its => (Some l, q <| items := its |>)
                                | [] => (None, q)
                                end.
Proof.
  unfold popInternal. destruct (pq q) as [|x p] eqn:Hp; [by right|left]. cbn [length Nat.ltb Nat.leb].
  destruct (heap_Pop_Permutation (prio m) (x :: p) x) as (h & Hpop & Hperm); [done|].
  exists x, h. rewrite Hpop. by split_and!.
Qed.

Lemma popInternal_count m q l q' :
  popInternal m q = (Some l, q') → ready_count q = S (ready_count q').
Proof.
  intros Hp. destruct (popInternal_cases m q) as [(x & h & _ & Hperm & Heq)|[Hnil Heq]]; rewrite Heq in Hp.
  - injection Hp as -> <-. unfold ready_count. cbn. by rewrite Hperm.
  - destruct (items q) as [|x its] eqn:Hi; [done|]. injection Hp as -> <-.
    unfold ready_count. cbn. by rewrite Hnil, Hi.
Qed.

Lemma ready_cons m q l q' : popInternal m q = (Some l, q') → ready m q = l :: ready m q'.
Proof.
  intros Hp. unfold ready. rewrite (popInternal_count _ _ _ _ Hp). cbn [pops]. by rewrite Hp.
Qed.

Lemma ready_nil m q q' : popInternal m q = (None, q') → ready m q = [].
Proof. intros Hp. unfold ready. destruct (ready_count q); cbn [pops]; by rewrite ?Hp. Qed.

Lemma ready_empty m q : ready m q = [] → pq q = [] ∧ items q = [].
Proof.
  destruct (popInternal_cases m q) as [(x & h & _ & Hperm & Heq)|[Hnil Heq]].
  - by rewrite (ready_cons _ _ _ _ Heq).
  - destruct (items q) as [|x its] eqn:Hi; [done|]. by rewrite (ready_cons _ _ _ _ Heq).
Qed.

(** The priorities of the heap decide the order. *)
Definition same_prio m m' (q : InMemQueue) : Prop := ∀ l, l ∈ pq q → prio m l = prio m' l.

Lemma popInternal_ext m m' q : same_prio m m' q → popInternal m q = popInternal m' q.
Proof. intros Hs. unfold popInternal. by rewrite (heap_Pop_ext (prio m) (prio m') (pq q) Hs). Qed.

Lemma ready_ext m m' q : same_prio m m' q → ready m q = ready m' q.
Proof.
  intros Hs. unfold ready. generalize (ready_count q). intros n. revert q Hs.
  induction n as [|n IH]; intros q Hs; [done|]. cbn [pops]. rewrite (popInternal_ext m m' q Hs).
  destruct (popInternal_cases m' q) as [(x & h & _ & Hperm & ->)|[Hnil ->]].
  - f_equal. apply IH. intros l Hl. apply Hs. rewrite Hperm. by right.
  - destruct (items q) as [|x its]; [done|]. f_equal. apply IH. intros l Hl. cbn in Hl. apply Hs, Hl.
Qed.

(** Tasks with a priority come first, the highest first; the others follow in
    the order they came in. *)
Lemma ready_sorted m q :
  queue_ok m q →
  ∃ ps, ready m q = ps ++ items q ∧ ps ≡ₚ pq q ∧ StronglySorted (λ a b, prio m b <= prio m a) ps.
Proof.
  remember (ready_count q) as n eqn:Hn. revert q Hn. induction n as [|n IH]; intros q Hn Hok.
  - exists []. unfold ready. rewrite <- Hn. unfold ready_count in Hn.
    destruct (pq q), (items q); try (cbn in Hn; lia). split_and!; [done|done|constructor].
  - destruct (popInternal m q) as [[l|] q'] eqn:Hp; cycle 1.
    { exists []. destruct (ready_empty m q) as [-> ->]; [by eapply ready_nil|].
      rewrite (ready_nil _ _ _ Hp). split_and!; [done|done|constructor]. }
    pose proof (popInternal_refines m q _ _ Hok Hp) as (_ & Hok' & _).
    rewrite (ready_cons _ _ _ _ Hp).
    assert (n = ready_count q') as Hn' by (apply popInternal_count in Hp; congruence).
    destruct (IH q' Hn' Hok') as (ps & -> & Hps & Hs).
    destruct (popInternal_cases m q) as [(x & h & Hpop & Hperm & Heq)|[Hnil Heq]]; rewrite Heq in Hp.
    + injection Hp as -> <-. cbn in *. exists (l :: ps). split_and!; [done|by rewrite Hps|].
      constructor; [done|].
      destruct (heap_Pop_spec (prio m) (pq q) Hok) as (x & h' & Hpop' & _ & Hmax & _).
      { intros E. by rewrite E in Hperm; apply Permutation_nil_cons in Hperm. }
      rewrite Hpop in Hpop'. injection Hpop' as <- <-.
      apply Forall_forall. intros y Hy. apply Hmax. rewrite Hperm. right. by rewrite <- Hps.
    + destruct (items q) as [|x its] eqn:Hi; [done|]. injection Hp as -> <-. cbn in *.
      rewrite Hnil in Hps. apply Permutation_nil_r in Hps as ->. exists []. rewrite Hnil. by split_and!.
Qed.

Lemma ready_perm m q : ready m q ≡ₚ pq q ++ items q.
Proof.
  remember (ready_count q) as n eqn:Hn. revert q Hn. induction n as [|n IH]; intros q Hn.
  - unfold ready. rewrite <- Hn. unfold ready_count in Hn. by destruct (pq q), (items q).
  - destruct (popInternal_cases m q) as [(x & h & _ & Hperm & Heq)|[Hnil Heq]].
    + rewrite (ready_cons _ _ _ _ Heq), IH by (apply popInternal_count in Heq; congruence).
      cbn. by rewrite Hperm.
    + destruct (items q) as [|x its] eqn:Hi; [by unfold ready_count in Hn; rewrite Hnil, Hi in Hn|].
      rewrite (ready_cons _ _ _ _ Heq), IH by (apply popInternal_count in Heq; congruence).
      cbn. by rewrite Hnil.
Qed.

Lemma popInternal_delayed m q :
  delayed (popInternal m q).2 = delayed q ∧ closed (popInternal m q).2 = closed q.
Proof. by destruct (popInternal_cases m q) as [(x & h & _ & _ & ->)|[_ ->]]; [|destruct (items q)]. Qed.

(** Delayed tasks are not popped. *)
Lemma ready_delayed m q ds : ready m (q <| delayed := ds |>) = ready m q.
Proof.
  unfold ready. change (ready_count (q <| delayed := ds |>)) with (ready_count q).
  generalize (ready_count q). intros n. revert q.
  induction n as [|n IH]; intros [its p c d]; [done|]. cbn [pops].
  unfold popInternal. cbn [pq items setf set_delayed eta_InMem]. destruct (0 <? length p)%nat.
  - destruct (heap_Pop (prio m) p) as [[l|] h]; [|done]. f_equal. apply (IH (mkInMem its h c d)).
  - destruct its as [|l its]; [done|]. f_equal. apply (IH (mkInMem its p c d)).
Qed.

(** ** The reference *)

(** One pass with the CPU, memory and slots [b]: the tasks that are started, the
    ones put off, and the ones not looked at. *)
Fixpoint first_fit (m : Mem) (b : avail) (ls : list loc) : list loc * list loc * list loc :=
  if 0 <? b.2 then
    match ls with
    | [] => ([], [], [])
    | l :: ls =>
        let t := deref m l in
        if canAllocate t b.1.1 b.1.2 then
          let '(s, p, r) := first_fit m (b.1.1 -64 CPULimit t, b.1.2 -64 MemoryLimit t, b.2 -64 1) ls in
          (l :: s, p, r)
        else
          let '(s, p, r) := first_fit m b ls in (s, l :: p, r)
    end
  else ([], [], ls).

(** Every task is in one of the three. *)
Lemma first_fit_perm m b ls s p r : first_fit m b ls = (s, p, r) → s ++ p ++ r ≡ₚ ls.
Proof.
  revert b s p r. induction ls as [|l ls IH]; intros b s p r; cbn [first_fit].
  { by destruct (0 <? b.2); intros [= <- <- <-]. }
  destruct (0 <? b.2); [|by intros [= <- <- <-]]. destruct (canAllocate _ _ _).
  - destruct (first_fit m (_, _) ls) as [[s' p'] r'] eqn:Hf. intros [= <- <- <-].
    cbn. by rewrite (IH _ _ _ _ Hf).
  - destruct (first_fit m b ls) as [[s' p'] r'] eqn:Hf. intros [= <- <- <-].
    cbn. by rewrite <- Permutation_middle, (IH _ _ _ _ Hf).
Qed.

(** With one slot left only the head is started, so the tasks behind it wait for
    another cycle, and those without a priority for ever as long as each cycle
    finds one with a priority that fits. *)
Lemma one_slot m c mm l ls :
  canAllocate (deref m l) c mm = true → first_fit m (c, mm, 1) (l :: ls) = ([l], [], ls).
Proof. intros Hl. cbn [first_fit fst snd]. rewrite Hl. by destruct ls. Qed.

Lemma first_fit_ext m m' b ls :
  (∀ l, l ∈ ls → deref m l = deref m' l) → first_fit m b ls = first_fit m' b ls.
Proof.
  revert b. induction ls as [|l ls IH]; intros b Hl; [done|]. cbn [first_fit].
  rewrite (Hl l) by by left. rewrite !IH by (intros; apply Hl; by right). done.
Qed.

Section cycle.
Context {K R : Type} `{HostOk} `{Etcd K} `{Redis R}.
Abbreviation W := (World InMemQueue K R).
Implicit Types (w : W) (l : loc) (ls : list loc).
Hypothesis answers : ∀ i, db_fault i = None.

(** *** Dispatching changes one object *)

Definition only l (m : Mem) w : Prop :=
  length (w_mem w) = length m ∧ ∀ l', l' ≠ l → deref (w_mem w) l' = deref m l'.

Lemma only_mem {A} l m (c : M W A) : (∀ w, w_mem (c w).2 = w_mem w) → preserves (only l m) c.
Proof. intros Hc w Hw. unfold only. by rewrite Hc. Qed.

Lemma only_assign l m f : preserves (only l m) (assign l f).
Proof. intros w [Hlen Hm]. split; cbn; [by rewrite length_insert|]. intros l' Hne. by rewrite deref_insert_ne, Hm. Qed.

Lemma only_Update l m : preserves (only l m) (store_Update l).
Proof.
  intros w [Hlen Hm]. unfold store_Update, mbind, M_bind, now, statement, action. cbn [fst snd].
  destruct (Update _ _ _ _) as [[e t] tbl]. cbn. split; cbn; [by rewrite length_insert|].
  intros l' Hne. by rewrite deref_insert_ne, Hm.
Qed.

Lemma only_transition l m target : preserves (only l m) (transition target l).
Proof.
  unfold transition. apply preserves_bind; [by apply only_mem|]. intros n.
  apply preserves_bind; [by apply only_mem|]. intros t. destruct (TransitionTo _ _ _) as [e t'].
  apply preserves_bind; [apply only_assign|]. intros _. apply preserves_ret.
Qed.

Lemma only_hand_over l m ctx n :
  preserves (only l m) (ch ← getOrCreateNodeQueue n;
    if (length ch <? channel_capacity)%nat then
      sched_modify (λ s, s <| nodeTasks := <[n := ch ++ [l]]> (nodeTasks s) |>)
    else spawn ctx l).
Proof.
  apply preserves_bind.
  - apply only_mem. intros w. unfold getOrCreateNodeQueue. by destruct (nodeTasks _ !! n).
  - intros ch. by destruct (length ch <? channel_capacity)%nat; apply only_mem.
Qed.

Lemma only_count l m f : preserves (only l m) (count_daily f).
Proof. apply only_mem. intros w. apply count_daily_kept. Qed.

Ltac only_steps :=
  repeat first [ apply preserves_ret | apply only_assign | apply only_Update | apply only_transition
    | apply only_hand_over | apply only_count | assumption | solve [auto] | by apply only_mem
    | match goal with |- preserves _ (match ?x with _ => _ end) => destruct x end
    | apply preserves_bind; [|intros ?] ].

Lemma dispatch_only l m : preserves (only l m) (dispatch l).
Proof.
  assert (preserves (only l m) (register_cancel l)) as Hreg by (unfold register_cancel; only_steps).
  assert (∀ u, preserves (only l m) (ClaimTask u)) as Hclaim.
  { intros u. apply only_mem. intros w. unfold ClaimTask. destruct (w_etcd w) as [k|]; [by destruct (e_txn _ k)|done]. }
  assert (preserves (only l m) (place l)) as Hplace by (unfold place, dispatchLocal, dispatchRemote; only_steps).
  unfold dispatch. only_steps.
Qed.

Lemma failTask_only l m msg : preserves (only l m) (failTask l msg).
Proof. unfold failTask. only_steps. Qed.

Lemma completeTask_only l m out : preserves (only l m) (completeTask l out).
Proof. pose proof (failTask_only l m). unfold completeTask. only_steps. Qed.

(** *** The loop *)

Lemma queue_Pop_some w l q d :
  popInternal (w_mem w) (w_queue w) = (Some l, q) →
  ∃ k, queue_Pop d w = (Ok (Some l), w <| w_clk := k |> <| w_queue := q |>).
Proof.
  intros Hpop. unfold queue_Pop. cbn [q_Pop InMem_TaskQueue]. unfold Pop.
  assert (∃ f, pop_fuel d = S f) as [f ->] by (unfold pop_fuel; eexists; apply Nat.add_succ_r).
  cbn [pop_loop]. rewrite Hpop. eexists. by destruct w.
Qed.

(** A task that can be started. *)
Record startable w l : Prop := {
  st_mem : in_mem (w_mem w) l;
  st_status : Status (deref (w_mem w) l) = TaskStatusCreated ∨ Status (deref (w_mem w) l) = TaskStatusPending;
  st_row : is_Some (rows (w_db w) !! TaskUID (deref (w_mem w) l)) }.

Abbreviation ids w := (fmap (M := list) (λ l, TaskUID (deref (w_mem w) l))).

Record waits_for w ls : Prop := {
  wf_ready : ready (w_mem w) (w_queue w) = ls;
  wf_all : Forall (startable w) ls;
  wf_ids : NoDup (ids w ls);
  wf_etcd : w_etcd w = None;
  wf_nodes : w_nodes w = None }.

(** What no cycle changes. *)
Definition machine w :=
  (w_etcd w, w_nodes w, closed (w_queue w), maxConcurrent (w_sched w), totalCPU (w_sched w), totalMemMB (w_sched w)).

(** A task that has been started, in its object and in its row. *)
Definition launched l w w' : Prop :=
  let t := deref (w_mem w) l in
  let t' := deref (w_mem w') l in
  Status t' = TaskStatusRunning ∧ plan t' = plan t ∧ RetryCount t' = RetryCount t ∧
  ∃ r, rows (w_db w') !! TaskUID t = Some r ∧ c_status r = TaskStatusRunning.

(** What a pass has done to the state. *)
Record passed w w' (spr : list loc * list loc * list loc) : Prop := {
  ps_running : (w_running w').*2 = (w_running w).*2 ++ spr.1.1;
  ps_delayed : (delayed (w_queue w')).*1 = (delayed (w_queue w)).*1 ++ spr.1.2;
  ps_ready : ready (w_mem w') (w_queue w') = spr.2;
  ps_started l : l ∈ spr.1.1 → launched l w w';
  ps_objects l : l ∉ spr.1.1 → in_mem (w_mem w) l → deref (w_mem w') l = deref (w_mem w) l;
  ps_length : (length (w_mem w) <= length (w_mem w'))%nat;
  ps_others u : u ∉ ids w spr.1.1 → rows (w_db w') !! u = rows (w_db w) !! u;
  ps_machine : machine w' = machine w }.

(** What the dispatch of one task has done. *)
Record begun l w w' : Prop := {
  bg_running : w_running w' = w_running w ++ [(w_ctx w, l)];
  bg_launched : launched l w w';
  bg_objects l' : l' ≠ l → deref (w_mem w') l' = deref (w_mem w) l';
  bg_length : length (w_mem w') = length (w_mem w);
  bg_others u : u ≠ TaskUID (deref (w_mem w) l) → rows (w_db w') !! u = rows (w_db w) !! u;
  bg_machine : machine w' = machine w }.

Lemma startable_begun w l :
  startable w l → w_etcd w = None → w_nodes w = None →
  begun l w (dispatch l w).2 ∧ w_queue (dispatch l w).2 = w_queue w.
Proof.
  intros [Hl Hs [r Hr]] He Hn.
  pose proof (dispatch_frame w l Hl answers He Hn Hs) as (E1 & E2 & E3 & E4 & E5 & E6 & E7 & E8).
  pose proof (dispatch_result w l (deref (w_mem w) l) r answers He Hn Hl Hs Hr) as Hres.
  rewrite (put_self w l Hl) in Hres. destruct Hres as (D1 & _ & D3 & D4 & _ & D6 & D7).
  destruct (dispatch_only l (w_mem w) w ltac:(done)) as [_ Hm].
  split; [|done]. split; try done. unfold machine. by rewrite E1, E2, E6, E7, E8, D4, He, Hn.
Qed.

(** The task at the head is dispatched. *)
Lemma waits_dispatch w l ls w1 q k :
  waits_for w (l :: ls) → popInternal (w_mem w) (w_queue w) = (Some l, q) →
  w1 = w <| w_clk := k |> <| w_queue := q |> →
  let w2 := (dispatch l w1).2 in
  waits_for w2 ls ∧ begun l w1 w2 ∧ w_queue w2 = q.
Proof.
  intros [Hr [Hl Hall]%Forall_cons [Hid Hids]%NoDup_cons He Hn] Hpop ->; cbv zeta.
  set (w1 := w <| w_clk := k |> <| w_queue := q |>) in *.
  destruct (startable_begun w1 l) as [Hb Hq]; [by destruct Hl|done|done|].
  set (w2 := (dispatch l w1).2) in *. pose proof (bg_objects _ _ _ Hb) as Hm. pose proof (bg_machine _ _ _ Hb) as Hk.
  unfold machine in Hk. injection Hk as He' Hn' _ _ _ _.
  assert (∀ l', l' ∈ ls → l' ≠ l) as Hne.
  { intros l' Hl' ->. apply Hid. apply list_elem_of_fmap. by exists l. }
  rewrite (ready_cons _ _ _ _ Hpop) in Hr. injection Hr as Hr.
  split; [|by split]. split; [| | |by rewrite He'|by rewrite Hn'].
  - rewrite Hq. change (w_queue w1) with q. rewrite <- Hr. apply ready_ext.
    intros l' Hl'. unfold prio. rewrite Hm; [done|]. apply Hne. rewrite <- Hr, ready_perm. apply elem_of_app. by left.
  - apply Forall_forall. intros l' Hl'. rewrite Forall_forall in Hall. destruct (Hall l' Hl') as [A1 A2 A3].
    split; rewrite ?Hm by (by apply Hne).
    + unfold in_mem. by rewrite (bg_length _ _ _ Hb).
    + done.
    + rewrite (bg_others _ _ _ Hb); [done|]. intros Heq. apply Hid. apply list_elem_of_fmap. exists l'. split; [exact (eq_sym Heq)|done].
  - rewrite (list_fmap_ext _ (λ l, TaskUID (deref (w_mem w) l)) ls); [done|].
    intros i l' Hl'. rewrite Hm; [done|]. by eapply Hne, list_elem_of_lookup_2.
Qed.

(** It is put off. *)
Lemma waits_delay w l ls w1 q k :
  waits_for w (l :: ls) → popInternal (w_mem w) (w_queue w) = (Some l, q) →
  w1 = w <| w_clk := k |> <| w_queue := q |> →
  let w2 := (queue_PushDelayed l second w1).2 in
  waits_for w2 ls ∧ w_mem w2 = w_mem w ∧ w_db w2 = w_db w ∧ w_running w2 = w_running w ∧ machine w2 = machine w1 ∧
  (delayed (w_queue w2)).*1 = (delayed q).*1 ++ [l].
Proof.
  intros [Hr [_ Hall]%Forall_cons [_ Hids]%NoDup_cons He Hn] Hpop -> w2.
  rewrite (ready_cons _ _ _ _ Hpop) in Hr. injection Hr as Hr.
  split_and!; [|done|done|done|done|exact (fmap_app fst (delayed q) _)].
  split; [|eapply Forall_impl; [exact Hall|by intros x []]|exact Hids|done|done]. rewrite <- Hr. exact (ready_delayed _ q _).
Qed.

Lemma passed_dispatch w w1 w2 w' l ls sp p r b :
  waits_for w2 ls → first_fit (w_mem w2) b ls = (sp, p, r) → passed w2 w' (sp, p, r) →
  l ∉ ls → TaskUID (deref (w_mem w) l) ∉ ids w ls → in_mem (w_mem w) l → begun l w1 w2 →
  w_mem w1 = w_mem w → w_db w1 = w_db w → w_running w1 = w_running w → machine w1 = machine w →
  delayed (w_queue w2) = delayed (w_queue w) → passed w w' (l :: sp, p, r).
Proof.
  intros Hw2 Hf [] Hl Hu Hin [] Em Ed Er Ek Hdel. unfold launched in *. rewrite Em, Ed, Er, Ek in *. cbn [fst snd] in *.
  assert (∀ l', l' ∈ sp → l' ∈ ls) as Hsub.
  { intros l' Hl'. rewrite <- (first_fit_perm _ _ _ _ _ _ Hf). apply elem_of_app. by left. }
  assert (∀ l', l' ∈ sp → l' ≠ l) as Hne by (intros l' Hl' ->; by apply Hl, Hsub).
  assert (ids w2 sp = ids w sp) as Hids.
  { apply list_fmap_ext. intros i l' Hl'. rewrite bg_objects0; [done|]. by eapply Hne, list_elem_of_lookup_2. }
  assert (TaskUID (deref (w_mem w) l) ∉ ids w sp) as Hul.
  { intros (l' & Heq & Hl')%list_elem_of_fmap. apply Hu, list_elem_of_fmap. exists l'. auto. }
  assert (l ∉ sp) as Hlsp by (intros Hin'; by apply (Hne l)).
  split; cbn [fst snd]; unfold launched.
  - by rewrite ps_running0, bg_running0, fmap_app, <- app_assoc.
  - by rewrite ps_delayed0, Hdel.
  - done.
  - intros l' [->|Hl']%elem_of_cons.
    + rewrite ps_objects0, ps_others0; [done|by rewrite Hids|done|]. unfold in_mem in *. by rewrite bg_length0.
    + rewrite <- (bg_objects0 l') by by apply Hne. by apply ps_started0.
  - intros l' [Hn1 Hn2]%not_elem_of_cons Hl'. rewrite <- bg_objects0 by done.
    apply ps_objects0; [done|]. unfold in_mem in *. by rewrite bg_length0.
  - by rewrite <- bg_length0.
  - intros u [Hn1 Hn2]%not_elem_of_cons. rewrite <- bg_others0 by done. apply ps_others0. by rewrite Hids.
  - by rewrite ps_machine0.
Qed.

Lemma passed_delay w w2 w' l sp p r :
  passed w2 w' (sp, p, r) → w_mem w2 = w_mem w → w_db w2 = w_db w → w_running w2 = w_running w →
  machine w2 = machine w → (delayed (w_queue w2)).*1 = (delayed (w_queue w)).*1 ++ [l] →
  passed w w' (sp, l :: p, r).
Proof.
  intros [] Em Ed Er Ek Eq. unfold launched in *. rewrite Em, Ed, Er, Eq, Ek in *. split; try done. cbn [fst snd] in *.
  by rewrite ps_delayed0, <- app_assoc.
Qed.

Lemma passed_nothing w k ls :
  ready (w_mem w) (w_queue w) = ls → passed w (w <| w_clk := k |>) ([], [], ls).
Proof. intros Hr. split; cbn [fst snd]; rewrite ?app_nil_r; try done. by intros l Hl%elem_of_nil. Qed.

(** The head of the order is the task popped. *)
Lemma waits_head w l ls :
  waits_for w (l :: ls) →
  ∃ q, popInternal (w_mem w) (w_queue w) = (Some l, q) ∧ delayed q = delayed (w_queue w) ∧
       closed q = closed (w_queue w) ∧ l ∉ ls.
Proof.
  intros [Hr _ [Hid _]%NoDup_cons _ _]. pose proof (popInternal_delayed (w_mem w) (w_queue w)) as [Hd Hc].
  destruct (popInternal (w_mem w) (w_queue w)) as [[x|] q] eqn:Hpop; cycle 1.
  { by rewrite (ready_nil _ _ _ Hpop) in Hr. }
  rewrite (ready_cons _ _ _ _ Hpop) in Hr. injection Hr as -> _. exists q. split_and!; try done.
  intros Hin. apply Hid, list_elem_of_fmap. by exists l.
Qed.

(** The loop is the reference. *)
Lemma loop_first_fit fuel b w ls :
  waits_for w ls → (length ls < fuel)%nat →
  ∃ w', dispatch_loop fuel b w = (true, w') ∧ passed w w' (first_fit (w_mem w) b ls).
Proof.
  revert fuel b w. induction ls as [|l ls IH]; intros [|fuel] b w Hw Hlen; cbn [length] in Hlen; try lia.
  { destruct (ready_empty _ _ (wf_ready _ _ Hw)) as [Ep Ei].
    destruct (dispatch_loop_nothing fuel b w Ep Ei) as [k Hloop]. exists (w <| w_clk := k |>).
    split; [done|]. destruct Hw. assert (first_fit (w_mem w) b [] = ([], [], [])) as ->.
    { cbn. by destruct (0 <? b.2). }
    by apply passed_nothing. }
  rewrite dispatch_loop_step. cbn [first_fit]. destruct (0 <? b.2); cycle 1.
  { exists (w <| w_clk := w_clk w |>). split; [by destruct w|]. destruct Hw. by apply passed_nothing. }
  destruct (waits_head w l ls Hw) as (q & Hpop & Hdel & Hclosed & Hnin).
  destruct (queue_Pop_some w l q (100 * millisecond) Hpop) as [k Hq].
  set (w1 := w <| w_clk := k |> <| w_queue := q |>) in *.
  pose proof (wf_ids _ _ Hw) as [Hid _]%NoDup_cons.
  assert (w_mem w1 = w_mem w) as Em by done.
  destruct b as [[c m] n]. unfold pop_one, mbind, M_bind. rewrite Hq. cbn [fst snd]. unfold load, gets.
  rewrite Em. cbn [fst snd]. destruct (canAllocate (deref (w_mem w) l) c m).
  - pose proof (waits_dispatch w l ls w1 q k Hw Hpop eq_refl) as Hd. cbv zeta in Hd.
    destruct (dispatch l w1) as [[] w2]. cbn [fst snd] in *. unfold mret, M_ret. cbn [fst snd].
    destruct Hd as (Hw2 & Hb & Eq). destruct (bg_launched _ _ _ Hb) as (_ & Hplan & _).
    rewrite Em in Hplan. unfold plan in Hplan. injection Hplan as _ -> -> _.
    destruct (IH fuel (c -64 CPULimit (deref (w_mem w) l), m -64 MemoryLimit (deref (w_mem w) l), n -64 1) w2)
      as (w' & Hloop & Hp); [done|lia|]. exists w'. split; [exact Hloop|].
    rewrite (first_fit_ext (w_mem w) (w_mem w2)).
    2:{ intros l' Hl'. rewrite (bg_objects _ _ _ Hb), Em; [done|]. by intros ->. }
    destruct (first_fit (w_mem w2) _ ls) as [[sp p] r] eqn:Hf.
    assert (startable w l) as [Hin _ _] by by apply wf_all, Forall_cons in Hw as [? _].
    eapply (passed_dispatch w w1); try done.
    + unfold machine, w1. cbn. by rewrite Hclosed.
    + by rewrite Eq.
  - pose proof (waits_delay w l ls w1 q k Hw Hpop eq_refl) as Hd. cbv zeta in Hd.
    destruct (queue_PushDelayed l second w1) as [e w2]. cbn [fst snd] in *. unfold mret, M_ret. cbn [fst snd].
    destruct Hd as (Hw2 & Em2 & Ed & Er & Ek & Eq).
    destruct (IH fuel (c, m, n) w2) as (w' & Hloop & Hp); [done|lia|]. exists w'. split; [exact Hloop|].
    rewrite Em2 in Hp. destruct (first_fit (w_mem w) _ ls) as [[sp p] r].
    eapply passed_delay; try done.
    + rewrite Ek. unfold machine. cbn. by rewrite Hclosed.
    + by rewrite Eq, Hdel.
Qed.

(** *** The scan *)

Definition total64 (f : Task → Z) (ts : list Task) : Z := foldl (λ a t, a +64 f t) 0 ts.

Lemma scan_idle n ls c m w :
  Forall (λ l, timed_out n (deref (w_mem w) l) = false) ls →
  scan_running n ls c m w =
    ((foldl (λ a t, a +64 CPULimit t) c (deref (w_mem w) <$> ls),
      foldl (λ a t, a +64 MemoryLimit t) m (deref (w_mem w) <$> ls)), w).
Proof.
  revert c m. induction ls as [|l ls IH]; intros c m; [done|]. intros [Hl Hls]%Forall_cons.
  cbn [scan_running]. unfold scan_one, mbind, M_bind, load, gets. cbn [fst snd]. rewrite Hl.
  unfold mret, M_ret. cbn [fst snd]. by apply IH.
Qed.

(** The state in which the loop starts. *)
Lemma tick_scans fuel w :
  let rs := scanTask <$> select TaskStatusRunning (w_db w) in
  Forall (λ t, timed_out (clock (w_clk w)) t = false) rs →
  tick fuel w =
    dispatch_loop fuel
      (available (w_sched w) (total64 CPULimit rs) (total64 MemoryLimit rs) (Z.of_nat (length rs)))
      (w <| w_stm := S (w_stm w) |> <| w_mem := w_mem w ++ rs |> <| w_clk := S (w_clk w) |>).
Proof.
  intros rs Hrs. destruct (running_objects answers w) as [Hread Hobj]. cbv zeta in *. fold rs in Hread, Hobj.
  set (ls := seq _ _) in *. set (w1 := w <| w_stm := _ |> <| w_mem := _ |>) in *.
  unfold tick, mbind, M_bind. rewrite Hread. cbn [fst snd]. unfold now. cbn [fst snd].
  set (w2 := w1 <| w_clk := S (w_clk w1) |>).
  assert (deref (w_mem w2) <$> ls = rs) as Hobj2 by exact Hobj.
  rewrite scan_idle; rewrite ?Hobj2.
  - unfold gets. cbn [fst snd].
    assert (@length loc ls = length rs) as -> by (unfold ls, rs; by rewrite length_seq, length_fmap). done.
  - rewrite <- Hobj2 in Hrs. by apply Forall_fmap in Hrs.
Qed.

(** Objects that are read leave the waiting ones as they are. *)
Lemma waiting_objects w ls ts l : Forall (startable w) ls → l ∈ ls → deref (w_mem w ++ ts) l = deref (w_mem w) l.
Proof. rewrite Forall_forall. intros Hall Hl. apply deref_app. by apply Hall. Qed.

Lemma waits_read w ls ts s k :
  waits_for w ls → waits_for (w <| w_stm := s |> <| w_mem := w_mem w ++ ts |> <| w_clk := k |>) ls.
Proof.
  intros [Hr Hall Hids He Hn]. pose proof (waiting_objects w ls ts) as Hm. split; try done.
  - rewrite <- Hr. apply ready_ext. intros l Hl. unfold prio. cbn. rewrite Hm; [done|done|].
    rewrite <- Hr, ready_perm. apply elem_of_app. by left.
  - apply Forall_forall. intros l Hl. cbn. pose proof (Hm l Hall Hl) as Hml. rewrite Forall_forall in Hall.
    destruct (Hall l Hl) as [A1 A2 A3]. split; cbn; rewrite ?Hml; [|done|done].
    unfold in_mem in *. rewrite length_app. lia.
  - cbn. rewrite (list_fmap_ext _ (λ l, TaskUID (deref (w_mem w) l)) ls); [done|].
    intros i l Hl. rewrite Hm; [done|done|]. by eapply list_elem_of_lookup_2.
Qed.

Lemma passed_read w w' ts s k ls sp p r :
  Forall (startable w) ls → (∀ l, l ∈ sp → l ∈ ls) →
  passed (w <| w_stm := s |> <| w_mem := w_mem w ++ ts |> <| w_clk := k |>) w' (sp, p, r) →
  passed w w' (sp, p, r).
Proof.
  intros Hall Hsub []. pose proof (λ l Hl, waiting_objects w ls ts l Hall (Hsub l Hl)) as Hm.
  cbn [fst snd] in *. split; try done; cbn [fst snd].
  - intros l Hl. unfold launched. rewrite <- Hm by done. exact (ps_started0 l Hl).
  - intros l Hl Hin. rewrite <- (deref_app _ ts l Hin). apply ps_objects0; [done|].
    unfold in_mem in *. cbn. rewrite length_app. lia.
  - cbn in ps_length0. rewrite length_app in ps_length0. lia.
  - intros u Hu. apply ps_others0. intros (l & -> & Hl)%list_elem_of_fmap. apply Hu, list_elem_of_fmap.
    exists l. split; [|done]. exact (f_equal TaskUID (Hm l Hl)).
Qed.

Lemma tick_pass fuel w ls :
  waits_for w ls → (length ls < fuel)%nat →
  let rs := scanTask <$> select TaskStatusRunning (w_db w) in
  Forall (λ t, timed_out (clock (w_clk w)) t = false) rs →
  let b := available (w_sched w) (total64 CPULimit rs) (total64 MemoryLimit rs) (Z.of_nat (length rs)) in
  ∃ w', tick fuel w = (true, w') ∧ passed w w' (first_fit (w_mem w) b ls).
Proof.
  intros Hw Hfuel rs Hrs b. rewrite (tick_scans fuel w Hrs). fold rs b.
  set (w1 := w <| w_stm := _ |> <| w_mem := _ |> <| w_clk := _ |>).
  destruct (loop_first_fit fuel b w1 ls) as (w' & Hloop & Hp); [by apply waits_read|done|].
  exists w'. split; [done|]. pose proof (wf_all _ _ Hw) as Hall.
  rewrite (first_fit_ext _ (w_mem w)) in Hp by (intros l; by apply waiting_objects).
  destruct (first_fit (w_mem w) b ls) as [[sp p] r] eqn:Hf. eapply passed_read; [exact Hall| |exact Hp].
  intros l Hl. rewrite <- (first_fit_perm _ _ _ _ _ _ Hf). apply elem_of_app. by left.
Qed.

(** C9 A cycle of a server without nodes is one pass over the waiting tasks.
    They are looked at in the order of the queue, which is: the tasks with a
    priority first, the highest first, then the others as they came in.  With
    what the running rows of the table leave of the CPU, the memory and the
    slots, the cycle does exactly what the reference [first_fit] says: a
    goroutine is started for the tasks that still fit, in that order, and
    their rows become running, also where a user has canceled the task in the
    table in the meantime, since dispatch does not read the row again; the
    tasks that do not fit are put off; once the slots are used up the rest
    stays where it was; no other row changes. *)
Theorem tick_first_fit fuel w ls :
  queue_ok (w_mem w) (w_queue w) → waits_for w ls → (length ls < fuel)%nat →
  let rs := scanTask <$> select TaskStatusRunning (w_db w) in
  Forall (λ t, timed_out (clock (w_clk w)) t = false) rs →
  let b := available (w_sched w) (total64 CPULimit rs) (total64 MemoryLimit rs) (Z.of_nat (length rs)) in
  (∃ ps, ls = ps ++ items (w_queue w) ∧ ps ≡ₚ pq (w_queue w) ∧
     StronglySorted (λ x y, prio (w_mem w) y <= prio (w_mem w) x) ps) ∧
  ∃ w', tick fuel w = (true, w') ∧ passed w w' (first_fit (w_mem w) b ls).
Proof.
  intros Hok Hw Hfuel rs Hrs b. split; [rewrite <- (wf_ready _ _ Hw); by apply ready_sorted|].
  by apply tick_pass.
Qed.
End cycle.

(** ** An example *)

(** Six tasks and four slots on eight CPUs; two of the tasks have a priority. *)
Definition demo_task (cpu priority : Z) : CreateTaskRequest :=
  mkRequest "demo" "make" EmptyString None cpu 100 0 priority None.

Definition demo_waiting : CWorld :=
  foldl (λ w r, exec (CreateTask r) w) (start None None None 4 8)
    [demo_task 2 0; demo_task 7 0; demo_task 3 5; demo_task 1 9; demo_task 2 0; demo_task 1 0].

Lemma tick_first_fit_witness :
  waits_for demo_waiting [3; 2; 0; 1; 4; 5]%nat ∧
  ∃ w', tick 10 demo_waiting = (true, w') ∧ (w_running w').*2 = [3; 2; 0; 4]%nat ∧
    (delayed (w_queue w')).*1 = [1%nat] ∧ ready (w_mem w') (w_queue w') = [5%nat].
Proof.
  assert (waits_for demo_waiting [3; 2; 0; 1; 4; 5]%nat) as Hw.
  { split; [vm_compute; reflexivity| | |reflexivity|reflexivity].
    - assert (∀ l, (l < 6)%nat → startable demo_waiting l) as Hall.
      { intros l Hl. assert ((l < length (w_mem demo_waiting))%nat ∧
          Status (deref (w_mem demo_waiting) l) = TaskStatusCreated ∧
          c_task_uid <$> (rows (w_db demo_waiting) !! TaskUID (deref (w_mem demo_waiting) l)) =
            Some (TaskUID (deref (w_mem demo_waiting) l))) as (H1 & H2 & H3).
        { do 6 (destruct l as [|l]; [apply (bool_decide_unpack _); vm_compute; exact I|]). lia. }
        split; [exact H1|left; exact H2|]. apply fmap_Some in H3 as (r & -> & _). by eexists. }
      do 6 (apply Forall_cons; split; [apply Hall; lia|]). by apply Forall_nil.
    - apply (bool_decide_unpack _). vm_compute. exact I. }
  split; [exact Hw|].
  assert (queue_ok (w_mem demo_waiting) (w_queue demo_waiting)) as Hok.
  { intros [|[|i]] Hi; [lia| |vm_compute in Hi; lia]. vm_compute. discriminate. }
  assert (select TaskStatusRunning (w_db demo_waiting) = []) as Hs by (vm_compute; reflexivity).
  assert (∀ i, db_fault i = None) as Hf by done.
  destruct (tick_first_fit Hf 10 demo_waiting _ Hok Hw) as [_ (w' & Ht & Hp)].
  { cbn. lia. }
  { rewrite Hs. constructor. }
  rewrite Hs in Hp. exists w'. split; [exact Ht|].
  assert (first_fit (w_mem demo_waiting) (available (w_sched demo_waiting) 0 0 0) [3; 2; 0; 1; 4; 5]%nat =
    ([3; 2; 0; 4], [1], [5])%nat) as Hff by (vm_compute; reflexivity).
  pose proof (ps_running _ _ _ Hp) as H1. pose proof (ps_delayed _ _ _ Hp) as H2. pose proof (ps_ready _ _ _ Hp) as H3.
  change (first_fit _ _ _) with
    (first_fit (w_mem demo_waiting) (available (w_sched demo_waiting) 0 0 0) [3; 2; 0; 1; 4; 5]%nat) in H1, H2, H3.
  rewrite Hff in H1, H2, H3. exact (conj H1 (conj H2 H3)).
Defined.
