(* ===== verification/Batch.v ===== *)
(** * Every task of a batch comes to an end

    A server without nodes on which no task arrives any more.  Drains of the
    delayed tasks, cycles and ends of executions follow each other in any order,
    several executions at a time, each with any result; every task waits its
    turn, is started when it fits, and is at last finished. *)

From stdpp Require Import relations.
From S2P Require Import Prelude GoStrings GoFormat Model Heap TaskQueue TaskStore NodeStore.
From S2P Require Import NodeManager Runtime Invariant TaskService Scheduler InMemQueue.
From S2P Require Import Concrete TaskServiceSpec SchedulerSpec System Held Progress Recovery Cycle.

Section batch.
Context {K R : Type} `{HostOk} `{Etcd K} `{Redis R}.
Abbreviation W := (World InMemQueue K R).
Implicit Types (w : W) (l : loc) (ls : list loc).
Hypothesis answers : ∀ i, db_fault i = None.

(** ** The end of an execution *)

(** What it does to the world, up to the list of goroutines: the task waits
    again with one retry more, or it is over. *)
Record ended l w w' : Prop := {
  en_machine : machine w' = machine w;
  en_length : length (w_mem w') = length (w_mem w);
  en_objects l' : l' ≠ l → deref (w_mem w') l' = deref (w_mem w) l';
  en_plan : plan (deref (w_mem w') l) = plan (deref (w_mem w) l);
  en_others u : u ≠ TaskUID (deref (w_mem w) l) → rows (w_db w') !! u = rows (w_db w) !! u;
  en_outcome :
    let t := deref (w_mem w) l in
    let t' := deref (w_mem w') l in
    ∃ r, rows (w_db w') !! TaskUID t = Some r ∧
      (CanRetry t = true ∧ Status t' = TaskStatusPending ∧ RetryCount t' = RetryCount t +64 1 ∧
       c_status r = TaskStatusPending ∧
       (∃ due, w_queue w' = (w_queue w) <| delayed := delayed (w_queue w) ++ [(l, due)] |>) ∨
       w_queue w' = w_queue w ∧ RetryCount t' = RetryCount t ∧
       (c_status r = TaskStatusSuccess ∨
        c_status r = TaskStatusFailed ∧ CanRetry t = false ∧ c_retry_count r = RetryCount t)) }.

Lemma kept_machine w w' :
  kept w' = kept w → closed (w_queue w') = closed (w_queue w) → machine w' = machine w ∧ w_running w' = w_running w.
Proof. unfold kept, machine. intros [= -> -> -> ->] ->. done. Qed.

Lemma saved_status w w' l t' :
  saved w w' t' → TaskUID t' = TaskUID (deref (w_mem w) l) →
  is_Some (rows (w_db w) !! TaskUID (deref (w_mem w) l)) →
  (∃ r, rows (w_db w') !! TaskUID (deref (w_mem w) l) = Some r ∧ c_status r = Status t' ∧
        c_retry_count r = RetryCount t') ∧
  ∀ u, u ≠ TaskUID (deref (w_mem w) l) → rows (w_db w') !! u = rows (w_db w) !! u.
Proof.
  intros Hsv Hu Hr. destruct (saved_rows w w' _ t' Hsv Hu Hr) as [[r Hr'] Hne].
  split; [|done]. by exists (update_row t' r).
Qed.

Lemma failTask_ended w l msg :
  in_mem (w_mem w) l → Status (deref (w_mem w) l) = TaskStatusRunning →
  is_Some (rows (w_db w) !! TaskUID (deref (w_mem w) l)) →
  ended l w (failTask l msg w).2 ∧ w_running (failTask l msg w).2 = w_running w.
Proof.
  intros Hl Hst Hrow. destruct (failTask_frame w l msg Hl answers) as (Fk & Fp & Fl).
  destruct (failTask_result w l msg Hl (answers _)) as (_ & _ & Hu & Hout).
  destruct (failTask_only l (w_mem w) msg w ltac:(done)) as [_ Hm].
  destruct (failTask_local answers w l msg Hl) as [_ _ _ (_ & _ & Hc) _].
  destruct (kept_machine _ _ Fk Hc) as [Hk Hrun].
  pose proof (λ Hn, failTask_count w l msg Hl answers Hn) as Hcount.
  set (w' := (failTask l msg w).2) in *. split; [|done].
  destruct (CanRetry (deref (w_mem w) l)) eqn:Hcan.
  - destruct Hout as (Hs & Hrc & _ & Hsv & Hq). destruct (saved_status w w' l _ Hsv Hu Hrow) as [(r & Hr & Hrs & Hrr) Hne].
    split; try done. cbv zeta. exists r. split; [done|]. left. rewrite Hrs. split_and!; [done..|]. eexists. exact Hq.
  - rewrite bool_decide_eq_true_2 in Hout by done. destruct Hout as (Hs & _ & Hsv & Hq).
    destruct (saved_status w w' l _ Hsv Hu Hrow) as [(r & Hr & Hrs & Hrr) Hne].
    split; try done. cbv zeta. exists r. split; [done|]. right. rewrite Hrs, Hrr, Hcount by done. split_and!; [done..|]. right. by split_and!.
Qed.

(** Changing the report of the object first makes no difference. *)
Lemma ended_put l n t w w' :
  in_mem (w_mem w) l → plan t = plan (deref (w_mem w) l) → RetryCount t = RetryCount (deref (w_mem w) l) →
  ended l (put (w <| w_clk := n |>) l t) w' → ended l w w'.
Proof.
  intros Hl Hp Hc. set (w1 := put _ l t). assert (deref (w_mem w1) l = t) as Ht by by apply deref_put.
  intros [Hk Hlen Hobj Hpl Hoth Hout]. cbv zeta in Hout. rewrite Ht in *.
  assert (TaskUID t = TaskUID (deref (w_mem w) l)) as Hu by (unfold plan in Hp; congruence).
  assert (CanRetry t = CanRetry (deref (w_mem w) l)) as Hr by (unfold CanRetry, plan in *; congruence).
  rewrite Hu, Hr, Hc in *. split; try done.
  - rewrite Hlen. cbn. by rewrite length_insert.
  - intros l' Hne. rewrite Hobj by done. cbn. by rewrite deref_insert_ne.
  - by rewrite Hpl.
Qed.

(** A success does not count as a retry. *)
Lemma completeTask_count w l out :
  in_mem (w_mem w) l → tr_Error out = None →
  RetryCount (deref (w_mem (completeTask l out w).2) l) = RetryCount (deref (w_mem w) l).
Proof.
  intros Hl He. set (t := deref (w_mem w) l).
  assert (completeTask l out w = completeTask l out (put w l t)) as -> by (unfold t; by rewrite put_self).
  unfold completeTask. run. rewrite He. run. rewrite TransitionTo_spec. case_decide; cbn [fst snd]; run.
  - cbv zeta. rewrite answers, count_daily_put. cbn [snd]. rewrite deref_put; [done|].
    unfold in_mem. by rewrite (proj2 (count_daily_kept _ _)).
  - unfold mret, M_ret. cbn [snd]. by rewrite deref_put.
Qed.

Lemma completeTask_ended w l out :
  in_mem (w_mem w) l → Status (deref (w_mem w) l) = TaskStatusRunning →
  is_Some (rows (w_db w) !! TaskUID (deref (w_mem w) l)) →
  ended l w (completeTask l out w).2 ∧ w_running (completeTask l out w).2 = w_running w.
Proof.
  intros Hl Hst Hrow. destruct (tr_Error out) as [e|] eqn:He.
  - rewrite (completeTask_error w l out e) by done. set (msg := if tr_TimedOut out then _ else _).
    set (t := reported _ _ _). set (w2 := put _ l t).
    assert (deref (w_mem w2) l = t) as Ht by by apply deref_put.
    destruct (failTask_ended w2 l msg) as [Hend Hrun]; rewrite ?Ht; try done.
    { unfold in_mem, w2 in *. cbn. by rewrite length_insert. }
    split; [|done]. by apply (ended_put l (S (w_clk w)) t).
  - destruct (completeTask_success w l out Hl (answers _) He) as (Hu & _ & Hq & _ & _ & _ & Hout).
    rewrite bool_decide_eq_true_2 in Hout by done. destruct Hout as [Hs Hsv].
    destruct (completeTask_frame w l out Hl answers) as (Fk & Fp & Fl).
    destruct (completeTask_only l (w_mem w) out w ltac:(done)) as [_ Hm].
    pose proof (completeTask_count w l out Hl He) as Hcount.
    set (w' := (completeTask l out w).2) in *. destruct (kept_machine _ _ Fk) as [Hk Hrun]; [by rewrite Hq|].
    destruct (saved_status w w' l _ Hsv Hu Hrow) as [(r & Hr & Hrs & Hrr) Hne].
    split; [|done]. split; try done. cbv zeta. exists r. split; [done|]. right. rewrite Hrs. split_and!; try done. by left.
Qed.

(** The whole goroutine. *)
Lemma execution_done_ended ctx l out w :
  in_mem (w_mem w) l → Status (deref (w_mem w) l) = TaskStatusRunning →
  is_Some (rows (w_db w) !! TaskUID (deref (w_mem w) l)) →
  let w' := (execution_done ctx l out w).2 in
  ended l w w' ∧ w_running w' = filter (λ x, x ≠ (ctx, l)) (w_running w).
Proof.
  intros Hl Hst Hrow. cbv zeta. unfold execution_done, mbind, M_bind, modify, load, gets, sched_modify. cbn [fst snd].
  set (w1 := w <| w_running := _ |>).
  destruct (completeTask_ended w1 l out Hl Hst Hrow) as [[Hk Hlen Hobj Hpl Hoth Hout] Hrun].
  split; [|exact Hrun]. by split.
Qed.

(** ** The batch *)

Abbreviation places w := (pointers (w_queue w) ++ (w_running w).*2).
Abbreviation uid w l := (TaskUID (deref (w_mem w) l)).

(** A row that says how its task has ended: with a failure only after all of
    its [m] retries. *)
Definition over (m : Z) (r : TaskRow) : Prop :=
  c_status r = TaskStatusSuccess ∨ c_status r = TaskStatusFailed ∧ m <= c_retry_count r.

Lemma over_ended m r : over m r → c_status r ≠ TaskStatusRunning.
Proof. by intros [-> | [-> _]]. Qed.

(** The tasks [ls], each of which waits, runs or has ended; no other task is
    marked running, and each fits the machine on its own. *)
Record batch ls w : Prop := {
  bt_objects l : l ∈ ls →
    in_mem (w_mem w) l ∧ is_Some (rows (w_db w) !! uid w l) ∧
    0 <= RetryCount (deref (w_mem w) l) ∧ RetryCount (deref (w_mem w) l) <= MaxRetries (deref (w_mem w) l) ∧
    MaxRetries (deref (w_mem w) l) < 2 ^ 63 ∧
    canAllocate (deref (w_mem w) l) (totalCPU (w_sched w)) (totalMemMB (w_sched w)) = true;
  bt_ids : NoDup ((λ l, uid w l) <$> ls);
  bt_places : NoDup (places w);
  bt_sub l : l ∈ places w → l ∈ ls;
  bt_waiting l : l ∈ pointers (w_queue w) →
    Status (deref (w_mem w) l) = TaskStatusCreated ∨ Status (deref (w_mem w) l) = TaskStatusPending;
  bt_running l : l ∈ (w_running w).*2 → Status (deref (w_mem w) l) = TaskStatusRunning;
  bt_over l : l ∈ ls → l ∉ places w →
    ∃ r, rows (w_db w) !! uid w l = Some r ∧ over (MaxRetries (deref (w_mem w) l)) r;
  bt_table u r : rows (w_db w) !! u = Some r → c_status r = TaskStatusRunning →
    ∃ l, l ∈ (w_running w).*2 ∧ uid w l = u;
  bt_etcd : w_etcd w = None;
  bt_nodes : w_nodes w = None;
  bt_open : closed (w_queue w) = false;
  bt_cpu : in_i64 (totalCPU (w_sched w));
  bt_memory : in_i64 (totalMemMB (w_sched w));
  bt_slots : 0 < maxConcurrent (w_sched w) < 2 ^ 63 }.

Lemma batch_inj ls w l l' : batch ls w → l ∈ ls → l' ∈ ls → uid w l = uid w l' → l = l'.
Proof.
  intros [_ Hids _ _ _ _ _ _ _ _ _ _ _ _] (i & Hi)%list_elem_of_lookup (i' & Hi')%list_elem_of_lookup Hu.
  assert (i = i') as <-; [|congruence].
  eapply NoDup_lookup; [exact Hids| |]; rewrite list_lookup_fmap, ?Hi, ?Hi'; cbn; [done|by rewrite Hu].
Qed.

(** ** The steps *)

(** No task marked running has passed its deadline. *)
Definition in_time w : Prop :=
  Forall (λ t, timed_out (clock (w_clk w)) t = false) (scanTask <$> select TaskStatusRunning (w_db w)).

Inductive batch_step : W → W → Prop :=
| step_drain n w : batch_step w (w <| w_queue := drainDelayed n (w_queue w) |>)
| step_cycle fuel w :
    in_time w → (ready_count (w_queue w) < fuel)%nat → batch_step w (tick fuel w).2
| step_end ctx l out w : (ctx, l) ∈ w_running w → batch_step w (execution_done ctx l out w).2.

(** *** How far a task is from its end *)

Definition weight w l : nat :=
  2 * Z.to_nat (MaxRetries (deref (w_mem w) l) - RetryCount (deref (w_mem w) l)) +
  (if decide (l ∈ pointers (w_queue w)) then 2 else if decide (l ∈ (w_running w).*2) then 1 else 0).

Definition distance ls w : nat := sum_list_with (weight w) ls.

(** What a step keeps, and what it brings nearer to the end. *)
Record advances ls w w' : Prop := {
  ad_batch : batch ls w';
  ad_plan l : l ∈ ls → plan (deref (w_mem w') l) = plan (deref (w_mem w) l);
  ad_distance : (distance ls w' <= distance ls w)%nat;
  ad_progress : (w_running w').*2 ≠ (w_running w).*2 → (distance ls w' < distance ls w)%nat }.

(** *** Draining *)

Lemma drain_same n (q : InMemQueue) :
  pointers (drainDelayed n q) ≡ₚ pointers q ∧ closed (drainDelayed n q) = closed q.
Proof.
  unfold drainDelayed. destruct (closed q) eqn:Hc; [done|]. rewrite drain_items_spec. split; [|done].
  unfold pointers. cbn. rewrite <- (filter_app_complement (λ d, is_due n d.2 = true) (delayed q)) at 3.
  rewrite fmap_app. assert (filter (λ d, is_due n d.2 = false) (delayed q) =
    filter (λ d, ¬ is_due n d.2 = true) (delayed q)) as ->.
  { apply list_filter_iff. intros d. destruct (is_due n d.2); naive_solver. }
  rewrite <- !app_assoc. f_equiv. rewrite !app_assoc. f_equiv. apply Permutation_app_comm.
Qed.

Lemma drain_advances ls w n :
  batch ls w → advances ls w (w <| w_queue := drainDelayed n (w_queue w) |>).
Proof.
  intros []. destruct (drain_same n (w_queue w)) as [Hp Hc].
  set (w' := w <| w_queue := drainDelayed n (w_queue w) |>).
  assert (∀ l, weight w' l = weight w l) as Hw.
  { intros l. unfold weight. change (w_mem w') with (w_mem w). change (w_running w') with (w_running w). f_equal.
    rewrite (decide_ext _ (l ∈ pointers (w_queue w)) _ _); [done|]. cbn. by rewrite Hp. }
  split.
  - split; try done; cbn; rewrite ?Hp, ?Hc; try done; try (intros l; rewrite Hp; auto).
  - done.
  - apply sum_list_with_le. intros l _. by rewrite Hw.
  - done.
Qed.

(** *** Cycles *)

Lemma batch_waits ls w : batch ls w → waits_for w (ready (w_mem w) (w_queue w)).
Proof.
  intros Hb. pose proof (batch_inj ls w) as Hinj. destruct Hb.
  assert (∀ l, l ∈ ready (w_mem w) (w_queue w) → l ∈ pointers (w_queue w)) as Hsub.
  { intros l. rewrite ready_perm. unfold pointers. set_solver. }
  assert (∀ l, l ∈ ready (w_mem w) (w_queue w) → l ∈ ls) as Hls.
  { intros l Hl. apply bt_sub0, elem_of_app. left. by apply Hsub. }
  split; [done| | |done|done].
  - apply Forall_forall. intros l Hl. destruct (bt_objects0 l (Hls l Hl)) as (Hin & Hrow & _).
    split; [done| |done]. by apply bt_waiting0, Hsub.
  - apply NoDup_fmap_2_strong.
    + intros l l' Hl Hl' Hu. apply Hinj; [by split|by apply Hls|by apply Hls|done].
    + rewrite ready_perm. apply NoDup_app in bt_places0 as [Hnd _]. unfold pointers in Hnd.
      rewrite app_assoc in Hnd. apply NoDup_app in Hnd as [Hnd _]. by rewrite Permutation_app_comm.
Qed.

(** Nobody is forgotten: a cycle moves tasks between the places. *)
Lemma passed_places w w' sp p r :
  passed w w' (sp, p, r) → ready (w_mem w) (w_queue w) ≡ₚ sp ++ p ++ r →
  pointers (w_queue w) ≡ₚ sp ++ pointers (w_queue w') ∧ (w_running w').*2 = (w_running w).*2 ++ sp ∧
  places w' ≡ₚ places w.
Proof.
  intros [] Hr. cbn [fst snd] in *.
  assert (∀ w, pointers (w_queue w) ≡ₚ ready (w_mem w) (w_queue w) ++ (delayed (w_queue w)).*1) as Hp.
  { intros x. rewrite ready_perm. unfold pointers. rewrite !app_assoc. f_equiv. apply Permutation_app_comm. }
  assert (pointers (w_queue w) ≡ₚ sp ++ pointers (w_queue w')) as Hps.
  { rewrite !Hp, ps_delayed, ps_ready, Hr. solve_Permutation. }
  split_and!; [done|done|]. rewrite Hps, ps_running. solve_Permutation.
Qed.

(** What follows from the plans of the tasks and the machine being the same. *)
Record same_tasks ls w w' : Prop := {
  st_plan l : l ∈ ls → plan (deref (w_mem w') l) = plan (deref (w_mem w) l);
  st_length : (length (w_mem w) <= length (w_mem w'))%nat;
  st_machine : machine w' = machine w }.

Lemma same_uid ls w w' l : same_tasks ls w w' → l ∈ ls → uid w' l = uid w l.
Proof. intros [Hp _ _] Hl. specialize (Hp l Hl). unfold plan in Hp. congruence. Qed.

(** The step-specific part of the invariant. *)
Lemma same_batch ls w w' :
  batch ls w → same_tasks ls w w' →
  (∀ l, l ∈ ls → is_Some (rows (w_db w') !! uid w l) ∧
    0 <= RetryCount (deref (w_mem w') l) ∧ RetryCount (deref (w_mem w') l) <= MaxRetries (deref (w_mem w) l)) →
  NoDup (places w') → (∀ l, l ∈ places w' → l ∈ ls) →
  (∀ l, l ∈ pointers (w_queue w') →
    Status (deref (w_mem w') l) = TaskStatusCreated ∨ Status (deref (w_mem w') l) = TaskStatusPending) →
  (∀ l, l ∈ (w_running w').*2 → Status (deref (w_mem w') l) = TaskStatusRunning) →
  (∀ l, l ∈ ls → l ∉ places w' →
    ∃ r, rows (w_db w') !! uid w l = Some r ∧ over (MaxRetries (deref (w_mem w) l)) r) →
  (∀ u r, rows (w_db w') !! u = Some r → c_status r = TaskStatusRunning →
    ∃ l, l ∈ (w_running w').*2 ∧ uid w l = u) →
  batch ls w'.
Proof.
  intros [] Hs Hobj Hnd Hsub Hwait Hrun Hover Htable. pose proof (same_uid ls w w') as Hu.
  destruct Hs as [Hplan Hlen Hk]. pose proof Hk as Hk'. unfold machine in Hk'.
  injection Hk' as Ee En Ec E1 E2 E3.
  split; rewrite ?Ee, ?En, ?Ec, ?E1, ?E2, ?E3; try done.
  - intros l Hl. destruct (bt_objects0 l Hl) as (Hin & _ & _ & _ & Hmax & Hfit).
    destruct (Hobj l Hl) as (Hrow & Hr1 & Hr2). pose proof (Hplan l Hl) as Hp.
    rewrite (Hu l), (canAllocate_plan _ _ _ _ Hp) by done. unfold plan in Hp. injection Hp as _ _ _ ->.
    split_and!; try done. unfold in_mem in *. lia.
  - assert (((λ l, uid w' l) <$> ls) = (λ l, uid w l) <$> ls) as ->; [|done].
    apply list_fmap_ext. intros i l Hl. apply Hu; [done|]. by eapply list_elem_of_lookup_2.
  - intros l Hl Hn. pose proof (Hplan l Hl) as Hp. unfold plan in Hp. injection Hp as -> _ _ ->. by apply Hover.
  - intros u r Hr Hst. destruct (Htable u r Hr Hst) as (l & Hl & <-). exists l. split; [done|].
    apply Hu; [done|]. apply Hsub, elem_of_app. by right.
Qed.

(** The weight of a task that is not failed does not grow, and falls when the
    task moves. *)
Lemma weight_le w w' l :
  plan (deref (w_mem w') l) = plan (deref (w_mem w) l) →
  RetryCount (deref (w_mem w') l) = RetryCount (deref (w_mem w) l) →
  (l ∈ pointers (w_queue w') → l ∈ pointers (w_queue w)) → (l ∈ places w' → l ∈ places w) →
  (weight w' l <= weight w l)%nat ∧
  (l ∈ pointers (w_queue w) → l ∉ pointers (w_queue w') → weight w' l < weight w l)%nat ∧
  (l ∈ places w → l ∉ places w' → weight w' l < weight w l)%nat.
Proof.
  intros Hpl Hr Hw Ha. unfold plan in Hpl. injection Hpl as _ _ _ Hm.
  rewrite !elem_of_app in *. unfold weight. rewrite Hm, Hr.
  destruct (decide (l ∈ pointers (w_queue w))), (decide (l ∈ pointers (w_queue w'))),
    (decide (l ∈ (w_running w).*2)), (decide (l ∈ (w_running w').*2)); try tauto; split_and!; intros; try lia; tauto.
Qed.

(** What a pass leaves of the batch. *)
Record pass_kept ls w w' (sp : list loc) : Prop := {
  pk_started l : l ∈ sp → l ∈ pointers (w_queue w) ∧ l ∈ ls ∧ l ∉ pointers (w_queue w');
  pk_same l : l ∈ ls → l ∉ sp →
    deref (w_mem w') l = deref (w_mem w) l ∧ rows (w_db w') !! uid w l = rows (w_db w) !! uid w l;
  pk_tasks : same_tasks ls w w';
  pk_count l : l ∈ ls → RetryCount (deref (w_mem w') l) = RetryCount (deref (w_mem w) l) }.

Lemma pass_keeps ls w w' sp p r :
  batch ls w → passed w w' (sp, p, r) → pointers (w_queue w) ≡ₚ sp ++ pointers (w_queue w') →
  pass_kept ls w w' sp.
Proof.
  intros Hb [] Hq. pose proof (batch_inj ls w) as Hinj. pose proof Hb as []. cbn [fst snd] in *.
  assert (∀ l, l ∈ sp → l ∈ pointers (w_queue w)) as Hsp by (intros l Hl; rewrite Hq; apply elem_of_app; by left).
  assert (∀ l, l ∈ sp → l ∈ ls) as Hls by (intros l Hl; apply bt_sub0, elem_of_app; left; by apply Hsp).
  assert (∀ l, l ∈ ls → l ∉ sp → deref (w_mem w') l = deref (w_mem w) l ∧
    rows (w_db w') !! uid w l = rows (w_db w) !! uid w l) as Hsame.
  { intros l Hl Hn. split; [apply ps_objects; [done|]; by apply bt_objects0|]. apply ps_others.
    intros (l' & Hu & Hl')%list_elem_of_fmap. by rewrite (Hinj l l' Hb Hl (Hls l' Hl') Hu) in Hn. }
  split; [|done|split; [|done|done]|].
  - intros l Hl. split_and!; [by apply Hsp|by apply Hls|]. intros Hl'. rewrite Hq in bt_places0.
    apply NoDup_app in bt_places0 as [Hnd _]. apply NoDup_app in Hnd as (_ & Hnd & _). by apply (Hnd l).
  - intros l Hl. destruct (decide (l ∈ sp)) as [Hin|Hn]; [by apply ps_started|]. by rewrite (proj1 (Hsame l Hl Hn)).
  - intros l Hl. destruct (decide (l ∈ sp)) as [Hin|Hn]; [by apply ps_started|]. by rewrite (proj1 (Hsame l Hl Hn)).
Qed.

Lemma pass_batch ls w w' sp p r :
  batch ls w → passed w w' (sp, p, r) → ready (w_mem w) (w_queue w) ≡ₚ sp ++ p ++ r → batch ls w'.
Proof.
  intros Hb Hp Hr. destruct (passed_places _ _ _ _ _ Hp Hr) as (Hq & Hrun & Hpl).
  destruct (pass_keeps ls w w' sp p r Hb Hp Hq) as [Hsp Hsame Hs Hrc]. pose proof Hb as [].
  destruct Hp. cbn [fst snd] in *.
  assert (∀ l, l ∈ ls → l ∉ sp → Status (deref (w_mem w') l) = Status (deref (w_mem w) l)) as Hst
    by (intros l Hl Hn; by rewrite (proj1 (Hsame l Hl Hn))).
  apply (same_batch ls w w'); [done|done| |by rewrite Hpl| | | | |].
  - intros l Hl. rewrite Hrc by done. destruct (bt_objects0 l Hl) as (_ & Hrow & Hr1 & Hr2 & _).
    split; [|done]. destruct (decide (l ∈ sp)) as [Hin|Hn]; [|by rewrite (proj2 (Hsame l Hl Hn))].
    destruct (ps_started l Hin) as (_ & _ & _ & x & Hx & _). by exists x.
  - intros l. rewrite Hpl. apply bt_sub0.
  - intros l Hl. assert (l ∈ pointers (w_queue w)) as Hl' by (rewrite Hq; apply elem_of_app; by right).
    rewrite Hst; [by apply bt_waiting0|by apply bt_sub0, elem_of_app; left|]. intros Hin. by apply (Hsp l Hin).
  - intros l. rewrite Hrun. intros [Hl|Hl]%elem_of_app; [|by apply ps_started].
    rewrite Hst; [by apply bt_running0|by apply bt_sub0, elem_of_app; right|]. intros Hin.
    apply NoDup_app in bt_places0 as (_ & Hnd & _). by apply (Hnd l); [apply (Hsp l Hin)|].
  - intros l Hl. rewrite Hpl. intros Hn. rewrite (proj2 (Hsame l Hl ltac:(intros Hin; by apply Hn, elem_of_app; left; apply (Hsp l Hin)))).
    by apply bt_over0.
  - intros u x Hx Hst'. destruct (decide (u ∈ (λ l, uid w l) <$> sp)) as [(l & -> & Hl)%list_elem_of_fmap|Hn].
    + exists l. rewrite Hrun. split; [apply elem_of_app; by right|done].
    + rewrite ps_others in Hx by done. destruct (bt_table0 u x Hx Hst') as (l & Hl & Hu).
      exists l. rewrite Hrun. split; [apply elem_of_app; by left|done].
Qed.

Lemma pass_advances ls w w' sp p r :
  batch ls w → passed w w' (sp, p, r) → ready (w_mem w) (w_queue w) ≡ₚ sp ++ p ++ r →
  advances ls w w'.
Proof.
  intros Hb Hp Hr. destruct (passed_places _ _ _ _ _ Hp Hr) as (Hq & Hrun & Hpl).
  destruct (pass_keeps ls w w' sp p r Hb Hp Hq) as [Hsp _ Hs Hrc].
  assert (∀ l, l ∈ pointers (w_queue w') → l ∈ pointers (w_queue w)) as Hback.
  { intros l Hl. rewrite Hq. apply elem_of_app. by right. }
  assert (∀ l, l ∈ places w' → l ∈ places w) as Hplaces by (intros l; by rewrite Hpl).
  pose proof (λ l Hl, weight_le w w' l (st_plan _ _ _ Hs l Hl) (Hrc l Hl) (Hback l) (Hplaces l)) as Hw.
  split.
  - by eapply pass_batch.
  - apply Hs.
  - apply sum_list_with_le. intros l Hl. by apply Hw.
  - intros Hne. destruct sp as [|l sp]; [by rewrite Hrun, app_nil_r in Hne|].
    destruct (Hsp l ltac:(left)) as (Hin & Hl & Hgone).
    apply (sum_list_with_lt _ _ _ l); [intros x Hx; by apply Hw|done|].
    by apply (proj1 (proj2 (Hw l Hl))).
Qed.

Lemma cycle_advances ls w fuel :
  batch ls w → in_time w → (ready_count (w_queue w) < fuel)%nat → advances ls w (tick fuel w).2.
Proof.
  intros Hb Ht Hf. destruct (tick_pass answers fuel w _ (batch_waits _ _ Hb)) as (w' & -> & Hp); [|done|].
  { rewrite ready_perm, length_app. unfold ready_count in Hf. lia. }
  destruct (first_fit _ _ _) as [[sp p] r] eqn:Hff. apply (pass_advances ls w w' sp p r); [done|done|].
  symmetry. by eapply first_fit_perm.
Qed.

(** *** Ends of executions *)

Lemma goroutine_gone ctx l (rs : list (nat * loc)) :
  (ctx, l) ∈ rs → NoDup rs.*2 → rs.*2 ≡ₚ l :: (filter (λ x, x ≠ (ctx, l)) rs).*2.
Proof.
  intros (l1 & l2 & ->)%list_elem_of_split Hnd. rewrite fmap_app, fmap_cons in Hnd. cbn in Hnd.
  assert (∀ ks, l ∉ ks.*2 → filter (λ x, x ≠ (ctx, l)) ks = ks) as Hkeep.
  { induction ks as [|[c x] ks IH]; [done|]. rewrite fmap_cons, not_elem_of_cons. intros [Hne Hks].
    rewrite filter_cons_True by (intros [= _ <-]; by apply Hne). f_equal. by apply IH. }
  apply NoDup_app in Hnd as (_ & H1' & [H2' _]%NoDup_cons).
  rewrite filter_app, filter_cons_False by tauto. rewrite !Hkeep, !fmap_app; [cbn; solve_Permutation|done|].
  intros Hin. apply (H1' l Hin). by left.
Qed.

(** The goroutine of [l] has ended: what is left of the places, and what the
    outcome [back], whether the task waits again, adds to them. *)
Record left_by l (back : bool) w w' : Prop := {
  lf_running : (w_running w).*2 ≡ₚ l :: (w_running w').*2;
  lf_pointers : pointers (w_queue w') ≡ₚ (if back then [l] else []) ++ pointers (w_queue w);
  lf_queue : l ∉ pointers (w_queue w);
  lf_gone : l ∉ (w_running w').*2;
  lf_rest x : x ≠ l → (x ∈ pointers (w_queue w') ↔ x ∈ pointers (w_queue w)) ∧
                      (x ∈ (w_running w').*2 ↔ x ∈ (w_running w).*2);
  lf_nodup : NoDup (places w') }.

Lemma end_places ctx l (back : bool) w w' :
  NoDup (places w) → (ctx, l) ∈ w_running w →
  w_running w' = filter (λ x, x ≠ (ctx, l)) (w_running w) →
  pointers (w_queue w') ≡ₚ (if back then [l] else []) ++ pointers (w_queue w) →
  left_by l back w w'.
Proof.
  intros Hpl Hin Hrun Hp. assert (l ∈ (w_running w).*2) as Hl by (apply list_elem_of_fmap; by exists (ctx, l)).
  pose proof Hpl as (_ & Hq & Hnd)%NoDup_app.
  pose proof (goroutine_gone ctx l _ Hin Hnd) as Hperm. rewrite <- Hrun in Hperm.
  rewrite Hperm in Hpl. pose proof Hpl as (Hnq & Hdis & [Hgone Hnr]%NoDup_cons)%NoDup_app.
  assert (l ∉ pointers (w_queue w)) as Hlq by (intros Hn; apply (Hdis l Hn); by left).
  split; try done.
  - intros x Hne. rewrite Hp, Hperm, elem_of_app, elem_of_cons. destruct back; set_solver.
  - rewrite Hp. destruct back; [|].
    + assert (([l] ++ pointers (w_queue w)) ++ (w_running w').*2 ≡ₚ
        pointers (w_queue w) ++ l :: (w_running w').*2) as -> by solve_Permutation. done.
    + apply NoDup_app. split_and!; [done| |done]. intros x Hx Hx'. apply (Hdis x Hx). by right.
Qed.

(** The outcome of an ended execution, by whether the task waits again. *)
Lemma ended_outcome l w w' :
  ended l w w' →
  let t := deref (w_mem w) l in
  let t' := deref (w_mem w') l in
  ∃ r (back : bool), rows (w_db w') !! TaskUID t = Some r ∧
    pointers (w_queue w') ≡ₚ (if back then [l] else []) ++ pointers (w_queue w) ∧
    (if back then CanRetry t = true ∧ Status t' = TaskStatusPending ∧ RetryCount t' = RetryCount t +64 1 ∧
                  c_status r = TaskStatusPending
     else RetryCount t' = RetryCount t ∧ over (MaxRetries t) r).
Proof.
  intros [_ _ _ _ _ (r & Hr & Hout)]. exists r.
  destruct Hout as [(Hc & Hs & Hrc & Hrs & due & Hq)|(Hq & Hrc & Hrs)]; [exists true|exists false]; rewrite Hq.
  - split; [done|]. split; [|done]. unfold pointers. cbn. rewrite fmap_app. cbn. solve_Permutation.
  - split; [done|]. split; [done|]. split; [done|]. destruct Hrs as [Hrs|(Hrs & Hc & Hrr)]; [by left|].
    right. rewrite Hrr. split; [done|]. by apply Z.ltb_ge in Hc.
Qed.

Lemma end_weight l (back : bool) w w' :
  left_by l back w w' → plan (deref (w_mem w') l) = plan (deref (w_mem w) l) →
  0 <= RetryCount (deref (w_mem w) l) → RetryCount (deref (w_mem w) l) <= MaxRetries (deref (w_mem w) l) →
  MaxRetries (deref (w_mem w) l) < 2 ^ 63 →
  (if back then CanRetry (deref (w_mem w) l) = true ∧
               RetryCount (deref (w_mem w') l) = RetryCount (deref (w_mem w) l) +64 1
   else RetryCount (deref (w_mem w') l) = RetryCount (deref (w_mem w) l)) →
  (weight w' l < weight w l)%nat ∧ 0 <= RetryCount (deref (w_mem w') l) ∧
  RetryCount (deref (w_mem w') l) <= MaxRetries (deref (w_mem w) l).
Proof.
  intros [] Hpl H1' H2' H3' Hout. unfold plan in Hpl. injection Hpl as _ _ _ Hm. unfold weight. rewrite Hm.
  assert (l ∈ (w_running w).*2) as Hl by (rewrite lf_running0; left).
  rewrite (decide_False (P := l ∈ pointers (w_queue w))), (decide_True (P := l ∈ (w_running w).*2)) by done.
  rewrite (decide_False (P := l ∈ (w_running w').*2)) by done. destruct back.
  - destruct Hout as [Hc Hr]. unfold CanRetry in Hc. apply Z.ltb_lt in Hc.
    rewrite add64_id in Hr by int_lia. rewrite Hr. destruct (decide _); lia.
  - rewrite Hout, decide_False by (by rewrite lf_pointers0). lia.
Qed.

(** Everything but the task itself is as before. *)
Record end_kept ls l (back : bool) w w' r : Prop := {
  ek_left : left_by l back w w';
  ek_tasks : same_tasks ls w w';
  ek_objects x : x ≠ l → deref (w_mem w') x = deref (w_mem w) x;
  ek_others u : u ≠ uid w l → rows (w_db w') !! u = rows (w_db w) !! u;
  ek_rows x : x ∈ ls → x ≠ l → rows (w_db w') !! uid w x = rows (w_db w) !! uid w x;
  ek_row : rows (w_db w') !! uid w l = Some r;
  ek_outcome : if back then Status (deref (w_mem w') l) = TaskStatusPending ∧ c_status r = TaskStatusPending
               else over (MaxRetries (deref (w_mem w) l)) r;
  ek_weight : (weight w' l < weight w l)%nat;
  ek_count : 0 <= RetryCount (deref (w_mem w') l) ∧
             RetryCount (deref (w_mem w') l) <= MaxRetries (deref (w_mem w) l) }.

Lemma end_keeps ctx l out ls w :
  batch ls w → (ctx, l) ∈ w_running w →
  l ∈ ls ∧ ∃ back r, end_kept ls l back w (execution_done ctx l out w).2 r.
Proof.
  intros Hb Hin. pose proof (batch_inj ls w) as Hinj. pose proof Hb as [].
  assert (l ∈ (w_running w).*2) as Hl by (apply list_elem_of_fmap; by exists (ctx, l)).
  assert (l ∈ ls) as Hls by (apply bt_sub0, elem_of_app; by right). split; [done|].
  destruct (bt_objects0 l Hls) as (Hmem & Hrow & Hr0 & Hr1 & Hmax & _).
  destruct (execution_done_ended ctx l out w Hmem (bt_running0 l Hl) Hrow) as [Hend Hrun].
  set (w' := (execution_done ctx l out w).2) in *.
  destruct (ended_outcome l w w' Hend) as (r & back & Hr & Hq & Hout).
  pose proof (end_places ctx l back w w' bt_places0 Hin Hrun Hq) as Hleft.
  destruct Hend as [Hk Hlen Hobj Hplan Hoth _].
  destruct (end_weight l back w w' Hleft Hplan Hr0 Hr1 Hmax) as (Hw & Hrc); [by destruct back; apply Hout || split; apply Hout|].
  exists back, r. split; try done.
  - split; [|by rewrite Hlen|done]. intros x _. destruct (decide (x = l)) as [->|Hne]; [done|]. by rewrite Hobj.
  - intros x Hx Hne. apply Hoth. intros Hu. by apply Hne, (Hinj x l Hb).
  - destruct back; [split|]; apply Hout.
Qed.

Lemma left_sub l back w w' x : l ∈ (w_running w).*2 → left_by l back w w' → x ∈ places w' → x ∈ places w.
Proof.
  intros Hl []. destruct (decide (x = l)) as [->|Hne]; [intros _; apply elem_of_app; by right|].
  destruct (lf_rest0 x Hne) as [E1 E2]. by rewrite !elem_of_app, E1, E2.
Qed.

Lemma end_batch ls l back w w' r : batch ls w → end_kept ls l back w w' r → batch ls w'.
Proof.
  intros Hb [Hleft Hs Hobj Hoth Hrows Hr Hout _ Hrc]. pose proof Hb as [].
  assert (l ∈ (w_running w).*2) as Hl by (rewrite (lf_running _ _ _ _ Hleft); left).
  pose proof (λ x, left_sub l back w w' x Hl Hleft) as Hsub. destruct Hleft.
  apply (same_batch ls w w'); [done|done| |done| | | | |].
  - intros x Hx. destruct (decide (x = l)) as [->|Hne]; [split; [by exists r|done]|].
    rewrite Hrows, Hobj by done. destruct (bt_objects0 x Hx) as (_ & ? & ? & ? & _). done.
  - intros x Hx. by apply bt_sub0, Hsub.
  - intros x Hx. destruct (decide (x = l)) as [->|Hne].
    + destruct back; [right; apply Hout|]. by rewrite lf_pointers0 in Hx.
    + rewrite Hobj by done. by apply bt_waiting0, lf_rest0.
  - intros x Hx. destruct (decide (x = l)) as [->|Hne]; [done|]. rewrite Hobj by done. by apply bt_running0, lf_rest0.
  - intros x Hx Hn. destruct (decide (x = l)) as [->|Hne].
    + exists r. split; [done|]. destruct back; [|done]. exfalso. apply Hn, elem_of_app. left. rewrite lf_pointers0. left.
    + rewrite Hrows by done. apply bt_over0; [done|]. destruct (lf_rest0 x Hne) as [E1 E2].
      by rewrite elem_of_app, <- E1, <- E2, <- elem_of_app.
  - intros u x Hx Hst. destruct (decide (u = uid w l)) as [->|Hne].
    + exfalso. rewrite Hr in Hx. injection Hx as <-. destruct back; [|by apply over_ended in Hout].
      destruct Hout as [_ Hp]. rewrite Hp in Hst. discriminate Hst.
    + rewrite Hoth in Hx by done. destruct (bt_table0 u x Hx Hst) as (y & Hy & <-). exists y. split; [|done].
      apply lf_rest0; [by intros ->|done].
Qed.

Lemma end_advances ctx l out ls w :
  batch ls w → (ctx, l) ∈ w_running w → advances ls w (execution_done ctx l out w).2.
Proof.
  intros Hb Hin. destruct (end_keeps ctx l out ls w Hb Hin) as (Hls & back & r & Hk).
  set (w' := (execution_done ctx l out w).2) in *. pose proof (end_batch _ _ _ _ _ _ Hb Hk) as Hb'.
  destruct Hk as [Hleft Hs Hobj _ _ _ _ Hw _].
  assert (l ∈ (w_running w).*2) as Hl by (rewrite (lf_running _ _ _ _ Hleft); left).
  assert (∀ x, x ∈ ls → (weight w' x <= weight w x)%nat) as Hle.
  { intros x Hx. destruct (decide (x = l)) as [->|Hne]; [lia|]. destruct (lf_rest _ _ _ _ Hleft x Hne) as [E1 _].
    apply (weight_le w w' x); [by rewrite Hobj..|by rewrite E1|by apply left_sub with (l := l) (back := back)]. }
  assert (distance ls w' < distance ls w)%nat as Hlt by by apply (sum_list_with_lt _ _ _ l).
  split; [done|apply Hs|lia|done].
Qed.

(** ** Progress *)

Lemma step_advances ls w w' : batch ls w → batch_step w w' → advances ls w w'.
Proof.
  intros Hb. destruct 1; [by apply drain_advances|by apply cycle_advances|by apply end_advances].
Qed.

(** Once the delays are over nothing is delayed. *)
Lemma drain_all (q : InMemQueue) : closed q = false → ∃ n, delayed (drainDelayed n q) = [].
Proof.
  intros Hc. assert (∃ n, ∀ d : loc * Time, d ∈ delayed q → d.2 <= n) as [n Hn].
  { induction (delayed q) as [|d ds [n Hn]]; [exists 0; by intros d Hd%elem_of_nil|].
    exists (Z.max n d.2). intros d' [->|Hd]%elem_of_cons; [apply Z.le_max_r|].
    apply Z.le_trans with n; [by apply Hn|apply Z.le_max_l]. }
  exists n. unfold drainDelayed. rewrite Hc, drain_items_spec. cbn.
  apply elem_of_nil_inv. intros d [Hd Hin]%list_elem_of_filter.
  apply Hn, is_due_iff in Hin. cbv beta in Hd. by rewrite Hin in Hd.
Qed.

(** Nothing runs and something is ready: the first of them fits. *)
Lemma first_starts ls w :
  batch ls w → w_running w = [] → ready (w_mem w) (w_queue w) ≠ [] →
  ∃ fuel, batch_step w (tick fuel w).2 ∧ (w_running (tick fuel w).2).*2 ≠ [].
Proof.
  intros Hb Hrun Hne. pose proof (batch_waits _ _ Hb) as Hw. destruct Hb.
  assert (select TaskStatusRunning (w_db w) = []) as Hsel.
  { apply elem_of_nil_inv. intros r (Hr & u & Hu)%elem_of_select; [|done].
    destruct (bt_table0 u r Hu Hr) as (l & Hl & _). rewrite Hrun in Hl. by apply elem_of_nil in Hl. }
  assert (in_time w) as Ht by (unfold in_time; rewrite Hsel; constructor).
  exists (S (ready_count (w_queue w))). split; [apply step_cycle; [done|apply Nat.lt_succ_diag_r]|].
  destruct (tick_pass answers (S (ready_count (w_queue w))) w _ Hw) as (w' & -> & Hp); [|exact Ht|].
  { rewrite ready_perm, length_app. unfold ready_count. lia. }
  cbn [snd]. rewrite (ps_running _ _ _ Hp), Hrun, Hsel. cbn [snd fmap list_fmap app].
  destruct (ready (w_mem w) (w_queue w)) as [|l rs] eqn:Hr; [done|].
  assert (l ∈ ls) as Hl.
  { apply bt_sub0, elem_of_app. left. assert (l ∈ ready (w_mem w) (w_queue w)) as Hin by (rewrite Hr; left).
    rewrite ready_perm in Hin. unfold pointers. set_solver. }
  destruct (bt_objects0 l Hl) as (_ & _ & _ & _ & _ & Hfit).
  cbn [first_fit total64 foldl length fmap list_fmap]. unfold available. change (Z.of_nat 0) with 0. rewrite !sub64_id by (rewrite ?Z.sub_0_r; done || int_lia).
  rewrite !Z.sub_0_r. cbn [fst snd]. rewrite (proj2 (Z.ltb_lt 0 _)) by lia. rewrite Hfit.
  by destruct (first_fit _ _ rs) as [[sp p] r].
Qed.

(** Some steps, the last of which starts or ends an execution. *)
Definition turn w w' : Prop :=
  ∃ w0, rtc batch_step w w0 ∧ batch_step w0 w' ∧ (w_running w').*2 ≠ (w_running w0).*2.

Lemma turn_possible ls w : batch ls w → places w ≠ [] → ∃ w', turn w w'.
Proof.
  intros Hb Hne. destruct (w_running w) as [|[ctx l] rs] eqn:Hrun.
  - destruct (drain_all (w_queue w) (bt_open _ _ Hb)) as [n Hn].
    set (w1 := w <| w_queue := drainDelayed n (w_queue w) |>).
    assert (batch ls w1) as Hb1 by by apply drain_advances.
    destruct (first_starts ls w1 Hb1) as (fuel & Hstep & Hs); [done| |].
    + intros Hr. apply Hne. cbn. rewrite app_nil_r. apply Permutation_nil_r. symmetry.
      rewrite <- (proj1 (drain_same n (w_queue w))). unfold pointers. rewrite Hn.
      apply ready_empty in Hr as [Ep Ei]. cbn in Ep, Ei. by rewrite Ep, Ei.
    + eexists. exists w1. split; [by apply rtc_once, step_drain|]. split; [exact Hstep|].
      change (w_running w1) with (w_running w). by rewrite Hrun.
  - set (out := mkResult 0 EmptyString EmptyString false None).
    assert ((ctx, l) ∈ w_running w) as Hin by (rewrite Hrun; left).
    exists (execution_done ctx l out w).2, w. split; [done|]. split; [by apply step_end|]. intros Heq.
    pose proof (bt_places _ _ Hb) as (_ & _ & Hnd)%NoDup_app.
    assert (l ∈ (w_running w).*2) as Hl by (apply list_elem_of_fmap; by exists (ctx, l)).
    destruct (bt_objects _ _ Hb l) as (Hmem & Hrow & _); [by apply (bt_sub _ _ Hb), elem_of_app; right|].
    destruct (execution_done_ended ctx l out w Hmem (bt_running _ _ Hb l Hl) Hrow) as [_ Hr].
    pose proof (goroutine_gone ctx l _ Hin Hnd) as Hperm. rewrite <- Hr, Heq in Hperm.
    apply Permutation_length in Hperm. cbn in Hperm. lia.
Qed.

(** The batch as seen from its first state. *)
Record since ls w w' : Prop := {
  sc_batch : batch ls w';
  sc_plan l : l ∈ ls → plan (deref (w_mem w') l) = plan (deref (w_mem w) l) }.

Lemma since_step ls w w1 w2 : since ls w w1 → batch_step w1 w2 → since ls w w2.
Proof.
  intros [Hb Hp] Hs. destruct (step_advances ls w1 w2 Hb Hs) as [Hb' Hp' _ _].
  split; [done|]. intros l Hl. by rewrite Hp', Hp.
Qed.

Lemma since_steps ls w w1 w2 :
  since ls w w1 → rtc batch_step w1 w2 → since ls w w2 ∧ (distance ls w2 <= distance ls w1)%nat.
Proof.
  intros Hw Hs. revert Hw. induction Hs as [w1|w1 w2 w3 Hs _ IH]; intros Hw; [done|].
  pose proof (since_step _ _ _ _ Hw Hs) as Hw2. destruct (IH Hw2) as [Hw3 Hd]. split; [done|].
  pose proof (ad_distance _ _ _ (step_advances ls w1 w2 (sc_batch _ _ _ Hw) Hs)). lia.
Qed.

(** Everything has ended: the tasks [ls] of [w] say so in the table. *)
Definition finished ls w w' : Prop :=
  pointers (w_queue w') = [] ∧ w_running w' = [] ∧
  ∀ l, l ∈ ls → ∃ r, rows (w_db w') !! uid w l = Some r ∧ over (MaxRetries (deref (w_mem w) l)) r.

(** C4 No task of a batch starves.  On a server without nodes and etcd, whose
    database answers and to which no further task is submitted, take any number
    of waiting and running tasks, each of which fits the machine when it is
    alone.  Whatever the order of drains of the delayed tasks, of scheduling
    cycles (at which no deadline has passed) and of ends of executions, with
    any results, as long as executions go on being started and ended it is
    inevitable that nothing waits or runs any more: the row of every task says
    success, or failed after all its retries.  This holds for the tasks that
    did not fit at first and were put off, whatever their priority. *)
Theorem batch_finishes ls w : batch ls w → eventually turn (finished ls w) w.
Proof.
  intros Hb. apply (eventually_measure _ (since ls w) _ (distance ls)); [|by split].
  intros w1 Hw1. destruct (decide (places w1 = [])) as [Hn|Hne].
  - left. apply app_nil in Hn as [Hq Hr]. split_and!; [done|by apply fmap_nil_inv in Hr|].
    destruct Hw1 as [[] Hp]. intros l Hl. destruct (bt_over0 l Hl) as (r & Hr' & Ho).
    { rewrite Hq, Hr. by intros ?%elem_of_nil. }
    specialize (Hp l Hl). unfold plan in Hp. injection Hp as Eu _ _ Em. rewrite Eu, Em in *. by exists r.
  - right. split; [by apply (turn_possible ls); [apply Hw1|]|]. intros w2 (w0 & Hs & Hlast & Hd).
    destruct (since_steps ls w w1 w0 Hw1 Hs) as [Hw0 Hle]. split; [by eapply since_step|].
    pose proof (ad_progress _ _ _ (step_advances ls w0 w2 (sc_batch _ _ _ Hw0) Hlast) Hd). lia.
Qed.
End batch.

(** ** An example: the six tasks of [demo_waiting] *)

Definition demo_batch : list loc := [3; 4; 5; 2; 1; 0]%nat.

Lemma demo_objects l :
  l ∈ demo_batch →
  (l < length (w_mem demo_waiting))%nat ∧
  c_task_uid <$> (rows (w_db demo_waiting) !! TaskUID (deref (w_mem demo_waiting) l)) =
    Some (TaskUID (deref (w_mem demo_waiting) l)) ∧
  RetryCount (deref (w_mem demo_waiting) l) = 0 ∧ MaxRetries (deref (w_mem demo_waiting) l) = 3 ∧
  canAllocate (deref (w_mem demo_waiting) l) (totalCPU (w_sched demo_waiting)) (totalMemMB (w_sched demo_waiting)) = true ∧
  Status (deref (w_mem demo_waiting) l) = TaskStatusCreated.
Proof.
  intros Hl. unfold demo_batch in Hl. rewrite !elem_of_cons, elem_of_nil in Hl.
  repeat destruct Hl as [->|Hl]; [apply (bool_decide_unpack _); vm_compute; exact I..|done].
Qed.

Lemma demo_rows u r :
  rows (w_db demo_waiting) !! u = Some r → c_status r ≠ TaskStatusRunning.
Proof.
  assert (map_Forall (λ _ r, c_status r ≠ TaskStatusRunning) (rows (w_db demo_waiting))) as Hall.
  { apply (bool_decide_unpack _). vm_compute. exact I. }
  intros Hr. exact (Hall u r Hr).
Qed.

Lemma demo_same l : l ∈ [0; 1; 4; 5; 3; 2]%nat ↔ l ∈ demo_batch.
Proof. unfold demo_batch. rewrite !elem_of_cons. tauto. Qed.

Lemma batch_finishes_witness :
  batch demo_batch demo_waiting ∧
  eventually turn (finished demo_batch demo_waiting) demo_waiting.
Proof.
  assert (∀ i, db_fault i = None) as Hf by done.
  assert (pointers (w_queue demo_waiting) = [0; 1; 4; 5; 3; 2]%nat) as Hp by (vm_compute; reflexivity).
  assert (w_running demo_waiting = []) as Hr by (vm_compute; reflexivity).
  assert (batch demo_batch demo_waiting) as Hb.
  { split; rewrite ?Hp, ?Hr.
    - intros l Hl. destruct (demo_objects l Hl) as (Hm & Hrow & -> & -> & Hfit & _).
      split; [exact Hm|]. split; [apply fmap_Some in Hrow as (r & -> & _); by eexists|].
      split; [done|]. split; [done|]. split; [done|exact Hfit].
    - apply (bool_decide_unpack _). vm_compute. exact I.
    - apply (bool_decide_unpack _). vm_compute. exact I.
    - intros l Hl. apply demo_same. rewrite app_nil_r in Hl. exact Hl.
    - intros l Hl. left. apply demo_objects, demo_same. exact Hl.
    - intros l Hl. exfalso. exact (proj1 (elem_of_nil l) Hl).
    - intros l Hl Hn. destruct Hn. rewrite app_nil_r. apply demo_same. exact Hl.
    - intros u r Hu Hst. exfalso. exact (demo_rows u r Hu Hst).
    - vm_compute. reflexivity.
    - vm_compute. reflexivity.
    - vm_compute. reflexivity.
    - vm_compute. split; [discriminate|reflexivity].
    - vm_compute. split; [discriminate|reflexivity].
    - vm_compute. split; reflexivity. }
  split; [exact Hb|]. exact (batch_finishes Hf demo_batch demo_waiting Hb).
Defined.
