(* ===== verification/Outage.v ===== *)
(** * Outage: a server whose database refuses every statement

    PostgreSQL may be down, or the statements may carry a context that has been
    cancelled, as those of the scheduler do once the program shuts down.  What
    the server then still does to its table, its goroutines and its channels is
    followed through every step of the file System, with any queue. *)

From stdpp Require Import relations.
From S2P Require Import Prelude GoStrings GoFormat Model TaskQueue TaskStore NodeStore.
From S2P Require Import NodeManager Runtime Invariant TaskService Scheduler System.

Section outage.
Context {Q K R : Type} `{Host} `{TaskQueueOk Q} `{Etcd K} `{Redis R}.
Abbreviation W := (World Q K R).
Implicit Types (w : W) (l : loc).
(** From the statement [since] on, all are refused. *)
Context (since : nat).
Hypothesis refuses : ∀ i, (since ≤ i)%nat → is_Some (db_fault i).

(** The table, the goroutines and the channels of an earlier state: the first
    is the same, the others have at most lost elements. *)
Record frozen_at (w0 : W) w : Prop := {
  fz_since : (since ≤ w_stm w)%nat;
  fz_table : w_db w = w_db w0;
  fz_running : w_running w `sublist_of` w_running w0;
  fz_channels n ch : nodeTasks (w_sched w) !! n = Some ch →
    ch `sublist_of` default [] (nodeTasks (w_sched w0) !! n) }.

(** The parts of the state it reads. *)
Definition stores w := (w_stm w, w_db w, w_running w, nodeTasks (w_sched w)).

Lemma frozen_stores w0 w w' : stores w' = stores w → frozen_at w0 w → frozen_at w0 w'.
Proof. unfold stores. intros [= E1 E2 E3 E4] []. split; by rewrite ?E1, ?E2, ?E3, ?E4. Qed.

Section from.
Context (w0 : W).
Abbreviation F := (frozen_at w0).

Lemma stores_frozen {A} (c : M W A) : (∀ w, stores (c w).2 = stores w) → preserves F c.
Proof. intros Hc w. apply frozen_stores, Hc. Qed.

(** *** Effects *)

Lemma now_frozen : preserves F now.
Proof. by apply stores_frozen. Qed.
Lemma uuid_frozen : preserves F uuid.
Proof. by apply stores_frozen. Qed.
Lemma load_frozen l : preserves F (load l).
Proof. by apply stores_frozen. Qed.
Lemma assign_frozen l f : preserves F (assign l f).
Proof. by apply stores_frozen. Qed.
Lemma new_frozen t : preserves F (new t).
Proof. by apply stores_frozen. Qed.

Lemma redis_do_frozen {A} (cmd : R → A * R) : preserves F (redis_do cmd).
Proof. apply stores_frozen. intros w. unfold redis_do. destruct (w_redis w) as [r|]; [by destruct (cmd r)|done]. Qed.

Lemma sched_frozen f : (∀ s, nodeTasks (f s) = nodeTasks s) → preserves F (sched_modify f).
Proof. intros Hf. apply stores_frozen. intros w. unfold stores. cbn. by rewrite Hf. Qed.

Lemma queue_op_frozen l (op : Mem → loc → Q → option error * Q) :
  preserves F (λ w, let '(e, q) := op (w_mem w) l (w_queue w) in (e, w <| w_queue := q |>)).
Proof. apply stores_frozen. intros w. by destruct (op _ _ _). Qed.

Lemma queue_Push_frozen l : preserves F (queue_Push l).
Proof. apply queue_op_frozen. Qed.
Lemma queue_PushPriority_frozen l : preserves F (queue_PushPriority l).
Proof. apply queue_op_frozen. Qed.
Lemma queue_PushDelayed_frozen l d : preserves F (queue_PushDelayed l d).
Proof. apply preserves_bind; [apply now_frozen|]. intros n. apply (queue_op_frozen l (λ m l, q_PushDelayed n m l d)). Qed.
Lemma queue_Pop_frozen d : preserves F (queue_Pop d).
Proof. apply stores_frozen. intros w. unfold queue_Pop. by destruct (q_Pop _ _ _ _) as [[[??]?]?]. Qed.
Lemma ClaimTask_frozen u : preserves F (ClaimTask u).
Proof. apply stores_frozen. intros w. unfold ClaimTask. destruct (w_etcd w) as [k|]; [by destruct (e_txn _ k)|done]. Qed.

(** A statement fails, so what its success would lead to is never run. *)
Lemma statement_frozen {A} (k : option error → M W A) :
  (∀ e, preserves F (k (Some e))) → preserves F (statement ≫= k).
Proof.
  intros Hk w Hw. destruct (refuses (w_stm w) (fz_since _ _ Hw)) as [e He].
  unfold mbind, M_bind, statement. cbn [fst snd]. rewrite He. apply Hk.
  destruct Hw. split; cbn; [lia|done..].
Qed.

Lemma store_Update_frozen {A} l (k : option error → M W A) :
  (∀ e, preserves F (k (Some e))) → preserves F (store_Update l ≫= k).
Proof.
  intros Hk w Hw. destruct (refuses (w_stm w) (fz_since _ _ Hw)) as [e He].
  unfold store_Update, mbind, M_bind, now, statement, action. cbn [fst snd].
  change (w_stm (w <| w_clk := _ |>)) with (w_stm w). rewrite He. apply Hk.
  destruct Hw. split; cbn; [lia|done..].
Qed.

Lemma store_Create_frozen {A} l (k : option error → M W A) :
  (∀ e, preserves F (k (Some e))) → preserves F (store_Create l ≫= k).
Proof.
  intros Hk w Hw. destruct (refuses (w_stm w) (fz_since _ _ Hw)) as [e He].
  unfold store_Create, mbind, M_bind, statement, action. cbn [fst snd]. rewrite He. apply Hk.
  destruct Hw. split; cbn; [lia|done..].
Qed.
End from.

#[local] Hint Resolve now_frozen uuid_frozen load_frozen assign_frozen new_frozen redis_do_frozen
  queue_Push_frozen queue_PushPriority_frozen queue_PushDelayed_frozen queue_Pop_frozen
  ClaimTask_frozen : preserve.

(** A refused statement ends in its error branch; the rest is composition. *)
Ltac freeze :=
  repeat first
    [ apply store_Update_frozen; intros ? | apply store_Create_frozen; intros ?
    | apply statement_frozen; intros ? | apply preserves_ret
    | apply sched_frozen; by intros | solve [eauto with preserve]
    | match goal with |- preserves _ (match ?x with _ => _ end) => destruct x end
    | apply preserves_bind; [|intros ?] ].

(** *** Handlers *)

Section handlers.
Context (w0 : W).
Abbreviation F := (frozen_at w0).

Lemma transition_frozen target l : preserves F (transition target l).
Proof. unfold transition. freeze. Qed.
#[local] Hint Resolve transition_frozen : preserve.

Lemma count_daily_frozen f : preserves F (count_daily f).
Proof. unfold count_daily, has_redis. freeze. Qed.

Lemma redis_Publish_frozen ch : preserves F (redis_Publish ch).
Proof. unfold redis_Publish. freeze. by apply stores_frozen. Qed.
#[local] Hint Resolve count_daily_frozen redis_Publish_frozen : preserve.

Lemma failTask_frozen l msg : preserves F (failTask l msg).
Proof. unfold failTask. freeze. Qed.
#[local] Hint Resolve failTask_frozen : preserve.

Lemma completeTask_frozen l result : preserves F (completeTask l result).
Proof. unfold completeTask. freeze. Qed.
#[local] Hint Resolve completeTask_frozen : preserve.

Lemma dispatchLocal_frozen l : preserves F (dispatchLocal l).
Proof. unfold dispatchLocal. freeze. Qed.

Lemma dispatchRemote_frozen l node : preserves F (dispatchRemote l node).
Proof. unfold dispatchRemote. freeze. Qed.
#[local] Hint Resolve dispatchLocal_frozen dispatchRemote_frozen : preserve.

Lemma dispatch_frozen l : preserves F (dispatch l).
Proof. unfold dispatch, place. freeze. Qed.
#[local] Hint Resolve dispatch_frozen : preserve.

Lemma pop_one_frozen b : preserves F (pop_one b).
Proof. unfold pop_one. destruct b as [[cpu mem] slots]. freeze. Qed.

Lemma scan_one_frozen n l : preserves F (scan_one n l).
Proof. unfold scan_one. freeze. Qed.

Lemma store_GetByUID_frozen {A} u (k : result loc → M W A) :
  (∀ e, preserves F (k (Err e))) → preserves F (store_GetByUID u ≫= k).
Proof.
  intros Hk w Hw. destruct (refuses (w_stm w) (fz_since _ _ Hw)) as [e He].
  unfold store_GetByUID, mbind, M_bind, statement, gets. cbn [fst snd]. rewrite He. apply Hk.
  destruct Hw. split; cbn; [lia|done..].
Qed.

Lemma GetTask_frozen u : preserves F (GetTask u).
Proof. unfold GetTask, store_GetByUID. freeze. Qed.

Lemma CreateTask_frozen req : preserves F (CreateTask req).
Proof. unfold CreateTask. freeze. Qed.

Lemma CancelTask_frozen u : preserves F (CancelTask u).
Proof. unfold CancelTask. apply store_GetByUID_frozen. freeze. Qed.

Lemma RerunTask_frozen u : preserves F (RerunTask u).
Proof. unfold RerunTask. apply store_GetByUID_frozen. freeze. Qed.

Lemma HandleRemoteResult_frozen u result : preserves F (HandleRemoteResult u result).
Proof. unfold HandleRemoteResult. apply store_GetByUID_frozen. freeze. Qed.

Lemma config_changed_frozen key value : preserves F (config_changed key value).
Proof. unfold config_changed. freeze. Qed.

Lemma execution_done_frozen ctx l result : preserves F (execution_done ctx l result).
Proof.
  unfold execution_done. apply preserves_bind.
  - apply preserves_modify. intros w []. split; cbn; try done. etrans; [|done]. apply sublist_filter.
  - intros _. freeze.
Qed.

Lemma GetNextTaskForNode_frozen n : preserves F (GetNextTaskForNode n).
Proof.
  intros w Hw. unfold GetNextTaskForNode. destruct (nodeTasks _ !! n) as [[|l ch]|] eqn:Hn; [done| |done].
  destruct Hw. split; cbn; try done. intros n' ch'.
  rewrite lookup_insert_Some. intros [[<- <-]|[_ Hn']]; [|by apply fz_channels0].
  etrans; [|by apply fz_channels0]. by apply sublist_cons.
Qed.

Lemma cancel_message_frozen ch : preserves F (cancel_message ch).
Proof. apply stores_frozen. intros w. unfold cancel_message. by destruct (cancelFuncs _ !! _). Qed.

(** *** Steps *)

Context (L : Limits).

Lemma other_frozen w w' : other_step L w w' → F w → F w'.
Proof.
  intros [] Hw.
  - by apply CreateTask_frozen.
  - by apply GetTask_frozen.
  - by apply CancelTask_frozen.
  - by apply RerunTask_frozen.
  - by apply GetNextTaskForNode_frozen.
  - by apply HandleRemoteResult_frozen.
  - by apply execution_done_frozen.
  - apply cancel_message_frozen. by apply (frozen_stores _ w).
  - by apply (frozen_stores _ w).
  - by apply config_changed_frozen.
  - by apply (frozen_stores _ w).
  - by apply (frozen_stores _ w).
  - by apply (frozen_stores _ w).
  - by apply (frozen_stores _ w).
Qed.

Lemma tick_refused w : F w → ∃ e w', store_GetRunningTasks w = (Err e, w') ∧ F w'.
Proof.
  intros Hw. destruct (refuses (w_stm w) (fz_since _ _ Hw)) as [e He].
  unfold store_GetRunningTasks, mbind, M_bind, statement, gets. cbn [fst snd]. rewrite He.
  eexists _, _. split; [done|]. destruct Hw. split; cbn; [lia|done..].
Qed.

Lemma step_frozen s s' : step L s s' → F s.1 → F s'.1.
Proof.
  intros [w w' p Ho|s1 s1' Hc] Hw; [by eapply other_frozen|].
  destruct Hc as [w w' e Hg|w w' w'' ls n Hg Hn|w n l ls c m k t|w n c m k|w w' b b' Hpos Hp|w w' b Hpos Hp|w b Hb];
    cbn in *; try done.
  - destruct (tick_refused w Hw) as (e' & w1 & Hg' & Hw1). congruence.
  - destruct (tick_refused w Hw) as (e' & w1 & Hg' & Hw1). congruence.
  - by apply scan_one_frozen.
  - by pose proof (pop_one_frozen b w Hw) as Hw'; rewrite Hp in Hw'.
  - by pose proof (pop_one_frozen b w Hw) as Hw'; rewrite Hp in Hw'.
Qed.

Lemma run_frozen s s' : rtc (step L) s s' → F s.1 → F s'.1.
Proof. induction 1 as [|s1 s2 s3 Hstep _ IH]; [done|]. intros Hs. by apply IH, (step_frozen s1). Qed.
End handlers.
End outage.
