(* ===== verification/Server.v ===== *)
(** * The server program ([cmd/server/main.go], [internal/store])

    How the program is put together: which failures end it, which parts are
    left out when Redis or etcd cannot be reached, what the scheduler, the
    executor and the rate limiter are given, and what the configuration watch
    does to the scheduler.  The outcomes of the connections are arguments; a
    run-time panic of the start-up is an outcome of its own. *)

From S2P Require Import Prelude GoStrings GoFormat Model TaskQueue InMemQueue TaskStore NodeStore.
From S2P Require Import NodeManager Runtime Invariant Scheduler Api RateLimit Config Election Concrete.

(** ** Connections ([internal/store]) *)

(** [postgres.go], [redis.go] and [etcd.go]: opening and pinging, wrapped. *)
Definition NewPostgres {A} (open : result A) (ping : option error) : result A :=
  match open, ping with
  | Err err, _ => Err (WrapError "open postgres" err)
  | Ok _, Some err => Err (WrapError "ping postgres" err)
  | Ok db, None => Ok db
  end.

Definition NewRedis {A} (client : A) (ping : option error) : result A :=
  match ping with
  | Some err => Err (WrapError "ping redis" err)
  | None => Ok client
  end.

Definition NewEtcdStore {A} (client : result A) (ping : option error) : result A :=
  match client, ping with
  | Err err, _ => Err (WrapError "connect etcd" err)
  | Ok _, Some err => Err (WrapError "ping etcd" err)
  | Ok cli, None => Ok cli
  end.

(** ** Start-up *)

(** The path given to [config.Load]. *)
Definition config_path (getenv : string → string) : string :=
  if bool_decide (getenv "CONFIG_PATH"%string = EmptyString) then "configs/config.yaml"
  else getenv "CONFIG_PATH"%string.

(** It is never empty, so Viper is given a file and never searches for one. *)
Lemma config_path_is_file getenv : ∃ path, source (config_path getenv) = ConfigFile path.
Proof.
  unfold source, config_path. case_bool_decide as Hp; [|by eexists].
  exfalso. revert Hp. by case_bool_decide.
Qed.

(** What the program meets while it starts. *)
Record Environment (K R : Type) : Type := mkEnvironment {
  en_config : result Config;          (* config.Load *)
  en_postgres : result unit;          (* store.NewPostgres *)
  en_redis : result R;                (* store.NewRedis *)
  en_etcd : result K;                 (* store.NewEtcdStore *)
  en_lease : result Z;                (* etcdClient.Grant *)
  en_session : result unit;           (* concurrency.NewSession *)
  en_cpus : Z;                        (* runtime.NumCPU() *)
  en_uuid : string;
}.
Arguments mkEnvironment {K R}.
Arguments en_config {K R}. Arguments en_postgres {K R}. Arguments en_redis {K R}.
Arguments en_etcd {K R}. Arguments en_lease {K R}. Arguments en_session {K R}.
Arguments en_cpus {K R}. Arguments en_uuid {K R}.

Inductive queue_kind : Type := RedisQueue | InMemory (capacity : Z).

(** The parts [main] has put together. *)
Record Server (K R : Type) : Type := mkServer {
  sv_addr : string;                           (* http.Server.Addr *)
  sv_redis : option R;
  sv_logStream : bool;                        (* not nil *)
  sv_etcd : option K;
  sv_queue : queue_kind;
  sv_slots : Z;                               (* capacity of the executor's channel *)
  sv_offline_checker : bool;                  (* the ticker of StartOfflineChecker runs *)
  sv_node_watcher : bool;                     (* the watch of StartNodeWatcher runs *)
  sv_discovery : bool;
  sv_election : option LeaderElection;
  sv_scheduler : Runtime.Scheduler;
  sv_rate_limit : bool * Z;
  sv_grpc_addr : string;
}.
Arguments mkServer {K R}.
Arguments sv_addr {K R}. Arguments sv_redis {K R}. Arguments sv_logStream {K R}.
Arguments sv_etcd {K R}. Arguments sv_queue {K R}. Arguments sv_slots {K R}.
Arguments sv_offline_checker {K R}. Arguments sv_node_watcher {K R}. Arguments sv_discovery {K R}.
Arguments sv_election {K R}. Arguments sv_scheduler {K R}. Arguments sv_rate_limit {K R}.
Arguments sv_grpc_addr {K R}.

Inductive startup (K R : Type) : Type :=
| Exit (code : Z)
| Panic
| Serve (s : Server K R).
Arguments Exit {K R}. Arguments Panic {K R}. Arguments Serve {K R}.

Definition ok_or_none {A} (r : result A) : option A := match r with Ok a => Some a | Err _ => None end.

Section main.
Context {K R : Type}.

(** [make(chan struct{}, n)] panics when [n] is negative. *)
Definition chan_panics (n : Z) : bool := n <? 0.

Definition connect_redis (cfg : Config) (env : Environment K R) : option R :=
  if bool_decide (RedisAddr (Redis cfg) = EmptyString) then None else ok_or_none (en_redis env).

Definition connect_etcd (cfg : Config) (env : Environment K R) : option K :=
  match Endpoints (Etcd cfg) with [] => None | _ => ok_or_none (en_etcd env) end.

(** The lease of the claims; zero when there is none. *)
Definition scheduler_lease (etcd : option K) (env : Environment K R) : Z :=
  match etcd with Some _ => default 0 (ok_or_none (en_lease env)) | None => 0 end.

Definition new_election (etcd : option K) (env : Environment K R) : option LeaderElection :=
  match etcd with Some _ => ok_or_none (NewLeaderElection (en_session env)) | None => None end.

Definition main (env : Environment K R) : startup K R :=
  match en_config env, en_postgres env with
  | Err _, _ => Exit 1
  | Ok _, Err _ => Exit 1
  | Ok cfg, Ok _ =>
      let rdb := connect_redis cfg env in
      let etcd := connect_etcd cfg env in
      let queue := if rdb is Some _ then RedisQueue else InMemory 100 in
      if chan_panics (MaxConcurrentTasks (Scheduler cfg)) then Panic
      else
        Serve {|
          sv_addr := Addr (Config.Server cfg);
          sv_redis := rdb;
          sv_logStream := bool_decide (is_Some rdb);
          sv_etcd := etcd;
          sv_queue := queue;
          sv_slots := MaxConcurrentTasks (Scheduler cfg);
          sv_offline_checker := negb (bool_decide (is_Some etcd));
          sv_node_watcher := bool_decide (is_Some etcd);
          sv_discovery := bool_decide (is_Some etcd);
          sv_election := new_election etcd env;
          sv_scheduler :=
            NewScheduler (TickIntervalMs (Scheduler cfg) *64 millisecond)
              (MaxConcurrentTasks (Scheduler cfg)) (en_cpus env) (en_uuid env)
              (scheduler_lease etcd env);
          sv_rate_limit := (Enabled (Config.RateLimit cfg), RequestsPerMinute (Config.RateLimit cfg));
          sv_grpc_addr := ":50051" |}
  end.

(** ** Requests *)

(** A request passes the rate limiter before the handler of its route.  The
    limiter calls a method of a nil client when Redis is not there, which
    panics; [gin.Recovery] answers that with status 500. *)
Definition handle `{RedisCounter R} (sv : Server K R) (clientIP : string) (now : Time)
    (handler : response) : option (list header) * Z * option body :=
  let '(enabled, limit) := sv_rate_limit sv in
  if negb enabled then (Some [], code handler, Some (payload handler))
  else
    match sv_redis sv with
    | None => (None, StatusInternalServerError, None)
    | Some r =>
        match (RateLimit.RateLimit enabled limit clientIP now r).1 with
        | Next hs => (Some hs, code handler, Some (payload handler))
        | TooManyRequests hs => (Some hs, 429, Some (ErrorBody "请求过于频繁，请稍后重试"))
        end
    end.

(** ** Properties *)

(** The sections of the configuration that [main] reads. *)
Definition read_sections (c : Config) :=
  (Config.Server c, Database c, Redis c, Etcd c, Scheduler c, Config.RateLimit c).

(** What the program becomes.  It exits exactly when the configuration cannot be
    loaded or PostgreSQL cannot be reached, and panics exactly when the slots
    are negative.  Otherwise it serves: without Redis there is no log stream
    and the queue is in memory; without etcd there are no claims, no election,
    no node watch and no discovery, and the offline checker runs instead.  The
    sections executor, retry, grpc and agent of the configuration change
    nothing: the agents' port is 50051 whatever [grpc.port] says. *)
Lemma main_outcome (env : Environment K R) :
  (main env = Exit 1 ↔ is_ok (en_config env) = false ∨ is_ok (en_postgres env) = false) ∧
  (∀ c, main env = Exit c → c = 1) ∧
  (main env = Panic ↔ ∃ cfg, en_config env = Ok cfg ∧ is_ok (en_postgres env) = true ∧
                              MaxConcurrentTasks (Scheduler cfg) < 0) ∧
  (∀ sv, main env = Serve sv →
     (sv_redis sv = None ↔ sv_queue sv = InMemory 100) ∧ (sv_logStream sv = true ↔ is_Some (sv_redis sv)) ∧
     (sv_etcd sv = None → sv_election sv = None ∧ leaseID (sv_scheduler sv) = 0) ∧
     (sv_election sv = None ↔ sv_etcd sv = None ∨ is_ok (en_session env) = false) ∧
     sv_offline_checker sv = negb (sv_node_watcher sv) ∧
     (sv_node_watcher sv = true ↔ is_Some (sv_etcd sv)) ∧
     maxConcurrent (sv_scheduler sv) = sv_slots sv ∧ sv_grpc_addr sv = ":50051"%string) ∧
  (∀ cfg cfg', en_config env = Ok cfg → read_sections cfg' = read_sections cfg →
     main (mkEnvironment (Ok cfg') (en_postgres env) (en_redis env) (en_etcd env) (en_lease env)
             (en_session env) (en_cpus env) (en_uuid env)) = main env).
Proof.
  unfold main. destruct env as [[cfg|e] [[]|e'] redis etcd lease session n u]; cbn; cycle 1;
    [split_and!; naive_solver..|].
  unfold chan_panics. destruct (Z.ltb_spec (MaxConcurrentTasks (Scheduler cfg)) 0) as [Hneg|Hpos].
  - split_and!; try naive_solver.
    intros cfg0 cfg' [= <-] Hs. unfold read_sections in Hs. injection Hs as H1 H2 H3 H4 H5 H6.
    rewrite H5. destruct (Z.ltb_spec (MaxConcurrentTasks (Scheduler cfg)) 0); [done|lia].
  - split_and!; try naive_solver.
    + split; [done|]. intros (c & [= <-] & _ & ?). lia.
    + intros sv [= <-]. cbn. unfold new_election, scheduler_lease.
      destruct (connect_redis _ _) as [r|], (connect_etcd _ _) as [k|], session as [[]|e]; cbn;
        split_and!; naive_solver.
    + intros cfg0 cfg' [= <-] Hs. unfold read_sections in Hs. injection Hs as H1 H2 H3 H4 H5 H6.
      unfold connect_redis, connect_etcd. rewrite H1, H3, H4, H5, H6.
      destruct (Z.ltb_spec (MaxConcurrentTasks (Scheduler cfg)) 0); [lia|done].
Qed.

(** Without Redis a rate-limited server answers nothing.  When Redis is not
    configured or cannot be reached, the program serves all the same, but with
    rate limiting enabled, which is the default, every request to every route
    ends as an internal error, whatever its handler would have answered. *)
Lemma no_redis_breaks_api `{RedisCounter R} (env : Environment K R) (cfg : Config) sv :
  en_config env = Ok cfg → main env = Serve sv →
  RedisAddr (Redis cfg) = EmptyString ∨ is_ok (en_redis env) = false →
  Enabled (Config.RateLimit cfg) = true →
  ∀ clientIP now handler, handle sv clientIP now handler = (None, StatusInternalServerError, None).
Proof.
  intros Hcfg Hmain Hr Hen ip now handler. unfold main in Hmain. rewrite Hcfg in Hmain.
  destruct (en_postgres env); [|done]. destruct (chan_panics _); [done|].
  injection Hmain as <-. unfold handle. cbn. rewrite Hen. cbn.
  assert (connect_redis cfg env = None) as ->; [|done]. unfold connect_redis.
  case_bool_decide; [done|]. destruct Hr as [?|Hr]; [done|]. by destruct (en_redis env).
Qed.
End main.

(** ** Configuration changes at run time *)

Section reload.
Context {Q K R : Type} `{Host} `{TaskQueue Q} `{Runtime.Etcd K} `{Runtime.Redis R}.
Abbreviation W := (World Q K R).

(** The callback [Start] registers under [/config/scheduler/]. *)
Definition on_config (key value : string) (w : W) : W := (config_changed key value w).2.

(** The positive numbers published under a key with the suffix, in order. *)
Definition published (suffix : string) (kvs : list KeyValue) : list Z :=
  filter (λ n, 0 < n) (Sscanf_d ∘ snd <$> filter (λ kv, HasSuffix kv.1 suffix = true) kvs).

(** The values the watcher passes on. *)
Definition puts (evs : list (event_type * KeyValue)) : list KeyValue :=
  snd <$> filter (λ ev, ev.1 = EventTypePut) evs.

Definition delivered (reply : get_reply) (events : Z → list (event_type * KeyValue)) : list KeyValue :=
  match gr_kvs reply with Ok kvs => kvs | Err _ => [] end ++ puts (events (watch_revision reply)).

Lemma watch_fold (evs : list (event_type * KeyValue)) (w : W) :
  foldl (watch_event on_config) w evs = foldl (λ w kv, on_config kv.1 kv.2 w) w (puts evs).
Proof.
  unfold puts. revert w. induction evs as [|[[] kv] evs IH]; intros w; [done|..]; cbn [foldl].
  - rewrite filter_cons_True by done. cbn. apply IH.
  - rewrite filter_cons_False by done. apply IH.
Qed.

Lemma last_of_cons {A} (x : A) l : last (x :: l) = Some (default x (last l)).
Proof. destruct l as [|y l]; [done|]. rewrite last_cons_cons. by destruct (last (y :: l)) eqn:Hl; [|apply last_None in Hl]. Qed.

Lemma drop_bytes_bytes n m s : drop_bytes (n + m) s = drop_bytes m (drop_bytes n s).
Proof.
  revert s. induction n as [|n IH]; intros s; [done|]. destruct s as [|c s]; [by destruct m|]. apply IH.
Qed.

(** No key has both suffixes. *)
Lemma config_suffixes k :
  HasSuffix k "/max_concurrent_tasks" = true → HasSuffix k "/tick_interval_ms" = false.
Proof.
  intros [Hlen%Nat.leb_le Hd%bool_decide_eq_true]%andb_true_iff. cbn [String.length] in *.
  apply not_true_iff_false. intros [_ Ht%bool_decide_eq_true]%andb_true_iff. cbn [String.length] in Ht.
  replace (String.length k - 17)%nat with ((String.length k - 21) + 4)%nat in Ht by lia.
  by rewrite drop_bytes_bytes, Hd in Ht.
Qed.

(** The scheduler with the last values published for its two settings. *)
Definition reloaded (kvs : list KeyValue) (w : W) : W :=
  w <| w_sched := (w_sched w)
        <| maxConcurrent := default (maxConcurrent (w_sched w)) (last (published "/max_concurrent_tasks" kvs)) |>
        <| tickInterval := default (tickInterval (w_sched w))
             ((λ val, val *64 millisecond) <$> last (published "/tick_interval_ms" kvs)) |> |>.

Lemma published_cons suffix k v kvs :
  published suffix ((k, v) :: kvs) =
    (if HasSuffix k suffix && (0 <? Sscanf_d v) then [Sscanf_d v] else []) ++ published suffix kvs.
Proof.
  unfold published. rewrite filter_cons. cbn [fst]. destruct (HasSuffix k suffix) eqn:Hk.
  - rewrite decide_True by done. rewrite fmap_cons, filter_cons. cbn [compose snd andb].
    destruct (Z.ltb_spec 0 (Sscanf_d v)); [by rewrite decide_True|by rewrite decide_False by lia].
  - by rewrite decide_False.
Qed.

Lemma on_config_fold kvs (w : W) : foldl (λ w kv, on_config kv.1 kv.2 w) w kvs = reloaded kvs w.
Proof.
  revert w. induction kvs as [|[k v] kvs IH]; intros w; [by destruct w as [? ? ? ? ? ? ? ? ? ? []]|].
  cbn [foldl fst snd]. rewrite IH. unfold reloaded. rewrite !published_cons.
  unfold on_config, config_changed. destruct (HasSuffix k "/max_concurrent_tasks") eqn:Hk.
  - rewrite (config_suffixes k Hk). cbn [andb app]. destruct (0 <? Sscanf_d v); [|done].
    cbn [app]. rewrite last_of_cons. by destruct w as [? ? ? ? ? ? ? ? ? ? []].
  - cbn [andb app]. destruct (HasSuffix k "/tick_interval_ms"); cbn [andb app]; [|by destruct w as [? ? ? ? ? ? ? ? ? ? []]].
    destruct (0 <? Sscanf_d v); [|by destruct w as [? ? ? ? ? ? ? ? ? ? []]]. cbn [app].
    rewrite last_of_cons. by destruct (last (published _ kvs)), w as [? ? ? ? ? ? ? ? ? ? []].
Qed.

(** C24 The last valid values win.  After the configuration watch has delivered
    the values of the prefix and the later changes, the maximum of concurrent
    tasks is the last positive number published for it, and the tick interval
    the last positive number of milliseconds published for it; deletions,
    malformed values and other keys are ignored, and a setting without a valid
    value keeps the old one.  Nothing else of the server changes: the state is
    the old one with these two fields of the scheduler replaced.  Without etcd
    nothing changes at all. *)
Theorem reload_last_wins (reply : get_reply) (events : Z → list (event_type * KeyValue)) (w : W) :
  let kvs := delivered reply events in
  Watch on_config (Some (reply, events)) w =
    w <| w_sched := (w_sched w)
          <| maxConcurrent := default (maxConcurrent (w_sched w)) (last (published "/max_concurrent_tasks" kvs)) |>
          <| tickInterval := default (tickInterval (w_sched w))
               ((λ val, val *64 millisecond) <$> last (published "/tick_interval_ms" kvs)) |> |> ∧
  Watch on_config None w = w.
Proof.
  cbv zeta. split; [|done]. unfold Watch. rewrite watch_fold. unfold initial_load, delivered.
  destruct (gr_kvs reply) as [kvs|e]; [rewrite <- foldl_app|]; apply on_config_fold.
Qed.
End reload.

(** ** Witnesses *)

(** The configuration of [configs/config.yaml]. *)
Definition demo_config : Config := {|
  Config.Server := mkServerConfig 8080 "0.0.0.0";
  Database := mkDatabaseConfig "localhost" 5432 "mini-bk" "mini-bk" "mini-bk" "disable";
  Redis := mkRedisConfig "localhost:6379" EmptyString 0;
  Etcd := mkEtcdConfig ["localhost:2379"%string] 5;
  Scheduler := mkSchedulerConfig 500 10;
  Executor := mkExecutorConfig 300 "/tmp";
  Retry := mkRetryConfig 3 1 60 2;
  Config.RateLimit := mkRateLimitConfig true 100;
  GRPC := mkGRPCConfig 50051;
  Agent := mkAgentConfig 10 30 |}.

(** Redis as counters; this one is never reached. *)
#[local] Instance no_counter : RedisCounter unit := {|
  c_Incr _ s := (Err (ErrorString "connection refused"), s); c_Expire _ _ s := s;
  c_TTL _ s := (0, s) |}.

Definition demo_environment : Environment unit unit := {|
  en_config := Ok demo_config; en_postgres := Ok tt;
  en_redis := NewRedis tt (Some (ErrorString "connection refused"));
  en_etcd := NewEtcdStore (Ok tt) None; en_lease := Ok 7; en_session := Ok tt;
  en_cpus := 8; en_uuid := "0123456789" |}.

Definition demo_server : Server unit unit :=
  match main demo_environment with Serve sv => sv | _ => mkServer EmptyString None false None RedisQueue 0
    false false false None (NewScheduler 0 0 0 EmptyString 0) (false, 0) EmptyString end.

Lemma no_redis_breaks_api_witness :
  handle demo_server "10.0.0.1" 0 (respond StatusOK (MessageBody "ok")) =
    (None, StatusInternalServerError, None).
Proof.
  apply (no_redis_breaks_api demo_environment demo_config demo_server); [done|done|by right|done].
Defined.

(** With etcd there is an election, so the scheduler of this server never
    ticks (file Election). *)
Lemma main_outcome_example :
  sv_election demo_server = Some (mkElection false) ∧ sv_queue demo_server = InMemory 100.
Proof. done. Qed.

Lemma reload_last_wins_example :
  let reply := mkGetReply (Ok [("/config/scheduler/max_concurrent_tasks", "20")%string]) (Some 41) in
  let events rev :=
    if rev =? 42 then
      [(EventTypePut, ("/config/scheduler/max_concurrent_tasks", "3"));
       (EventTypePut, ("/config/scheduler/max_concurrent_tasks", "-5"));
       (EventTypeDelete, ("/config/scheduler/max_concurrent_tasks", EmptyString))]%string
    else [] in
  maxConcurrent (w_sched (Watch on_config (Some (reply, events)) (start None None None 4 8))) = 3.
Proof. vm_compute. reflexivity. Qed.
