(* ===== verification/Shutdown.v ===== *)
(** * Shutdown: the end of [main], and the tasks it leaves running

    The deferred calls of [cmd/server/main.go] as Go runs them: in reverse on a
    return or a panic, and not at all on [os.Exit].  The second part follows the
    tasks that are running when the scheduler's context is cancelled, through the
    end of the program into the next one. *)

From stdpp Require Import relations.
From S2P Require Import Prelude GoStrings GoFormat Model TaskQueue TaskStore NodeStore.
From S2P Require Import NodeManager Runtime Invariant TaskService Scheduler InMemQueue Config.
From S2P Require Import Election Concrete SchedulerSpec System Held Recovery Outage Server.

(** ** Deferred calls *)

(** What [main] opens or starts.  The two contexts are those of the connections
    and of [http.Server.Shutdown]. *)
Inductive part : Type :=
| StartContext | PostgresPool | RedisClient | EtcdClient | Queue | OfflineChecker | NodeWatcher
| DiscoveryWatch | ElectionSession | SchedulerLoop | HTTPServer | GRPCServer | ShutdownContext.

#[export] Instance part_eq_dec : EqDecision part.
Proof. solve_decision. Defined.

Inductive event : Type := Started (p : part) | Stopped (p : part).

(** A function under way: what has happened, and the calls it has deferred, the
    last one first. *)
Record frame : Type := mkFrame { trace : list event; deferred : list part }.

Definition start_part (p : part) (f : frame) : frame :=
  mkFrame (trace f ++ [Started p]) (deferred f).

(** [defer x.Close()] after [x] has been started. *)
Definition open_part (p : part) (f : frame) : frame :=
  mkFrame (trace f ++ [Started p]) (p :: deferred f).

Definition stop_part (p : part) (f : frame) : frame :=
  mkFrame (trace f ++ [Stopped p]) (deferred f).

Definition when (b : bool) (g : frame → frame) (f : frame) : frame := if b then g f else f.

(** Returning from the function, or panicking in it. *)
Definition unwind (f : frame) : list event := trace f ++ (Stopped <$> deferred f).

Section main.
Context {K R : Type}.

(** How the program ends once it serves: by a signal, or because
    [ListenAndServe] fails. *)
Inductive ending : Type := Signalled | ListenFailed.

(** Up to the queue, then up to the servers. *)
Definition connections (redis etcd : bool) : frame :=
  open_part Queue
    (when etcd (open_part EtcdClient)
      (when redis (open_part RedisClient)
        (open_part PostgresPool (open_part StartContext (mkFrame [] []))))).

Definition services (etcd election : bool) (f : frame) : frame :=
  start_part GRPCServer (start_part HTTPServer
    (open_part SchedulerLoop
      (when election (open_part ElectionSession)
        (when etcd (λ f, open_part DiscoveryWatch (open_part NodeWatcher f))
          (open_part OfflineChecker f))))).

(** What follows the signal.  An error of [srv.Shutdown] is only logged, and
    [schedCancel] is called here and once more as a deferred call. *)
Definition shutdown (f : frame) : frame :=
  stop_part SchedulerLoop (stop_part GRPCServer (stop_part HTTPServer (open_part ShutdownContext f))).

Definition has {A} (o : option A) : bool := bool_decide (is_Some o).

(** The events of a whole run of the program. *)
Definition main_run (env : Environment K R) (e : ending) : list event :=
  match en_config env, en_postgres env with
  | Err _, _ => []
  | Ok _, Err _ => [Started StartContext]
  | Ok cfg, Ok _ =>
      let redis := has (connect_redis cfg env) in
      let etcd := has (connect_etcd cfg env) in
      let f := connections redis etcd in
      match main env with
      | Serve sv =>
          let f := services etcd (has (sv_election sv)) f in
          match e with
          | Signalled => unwind (shutdown f)
          | ListenFailed => trace f
          end
      | _ => unwind f
      end
  end.

(** ** The order *)

(** What a part calls while it works. *)
Definition uses (p : part) : list part :=
  match p with
  | HTTPServer => [SchedulerLoop; Queue; RedisClient; PostgresPool]
  | GRPCServer => [SchedulerLoop; Queue; EtcdClient; RedisClient; PostgresPool]
  | SchedulerLoop => [ElectionSession; Queue; EtcdClient; RedisClient; PostgresPool]
  | ElectionSession | DiscoveryWatch => [EtcdClient]
  | NodeWatcher => [EtcdClient; PostgresPool]
  | OfflineChecker => [PostgresPool]
  | Queue => [RedisClient]
  | _ => []
  end.

Definition stops (tr : list event) : list part := omap (λ e, match e with Stopped p => Some p | Started _ => None end) tr.
Definition starts (tr : list event) : list part := omap (λ e, match e with Started p => Some p | Stopped _ => None end) tr.

(** [p] is stopped for the first time before [q] is. *)
Definition stops_first (tr : list event) (p q : part) : Prop :=
  ∃ l1 l2, stops tr = l1 ++ p :: l2 ∧ Forall (λ x, x ≠ p ∧ x ≠ q) l1 ∧ q ∈ l2.

(** ... decided. *)
Definition first_of (p q : part) (l : list part) : bool :=
  match list_find (λ x, x = p ∨ x = q) l with
  | Some (i, x) => bool_decide (x = p) && bool_decide (q ∈ drop (S i) l)
  | None => false
  end.

Lemma first_of_sound tr p q : p ≠ q → first_of p q (stops tr) = true → stops_first tr p q.
Proof.
  unfold first_of. intros Hpq. destruct (list_find _ _) as [[i x]|] eqn:Hf; [|done].
  rewrite andb_true_iff, !bool_decide_eq_true. intros [-> Hq].
  apply list_find_Some in Hf as (Hi & _ & Hlt). exists (take i (stops tr)), (drop (S i) (stops tr)).
  split_and!; [by rewrite take_drop_middle| |done].
  apply Forall_forall. intros y Hin. apply list_elem_of_lookup in Hin as [j Hj].
  apply lookup_take_Some in Hj as [Hj Hji]. apply Decidable.not_or. by apply (Hlt j y).
Qed.

(** The order on the parts that have been started, decided for a whole run. *)
Definition in_order (tr : list event) : bool :=
  forallb (λ p, forallb (λ q, negb (bool_decide (q ∈ starts tr)) || first_of p q (stops tr)) (uses p))
    (starts tr).

Definition all_stopped (tr : list event) : bool :=
  forallb (λ p, bool_decide (p ∈ stops tr)) (starts tr).

Lemma uses_irreflexive p q : q ∈ uses p → p ≠ q.
Proof. intros Hq ->. destruct q; cbn in Hq; repeat (apply elem_of_cons in Hq as [?|Hq]; [done|]); by apply not_elem_of_nil in Hq. Qed.

Lemma in_order_sound tr p q :
  in_order tr = true → p ∈ starts tr → q ∈ starts tr → q ∈ uses p → stops_first tr p q.
Proof.
  unfold in_order. rewrite forallb_forall. intros Hall Hp Hq Hu.
  apply first_of_sound; [by apply uses_irreflexive|].
  specialize (Hall p). rewrite <- list_elem_of_In, forallb_forall in Hall.
  specialize (Hall Hp q). rewrite <- list_elem_of_In in Hall. specialize (Hall Hu).
  by rewrite bool_decide_eq_true_2 in Hall.
Qed.

(** The shutdown is ordered.  However much of the program could be started,
    after a signal every part is stopped before the parts it uses: the requests
    before the scheduler, the scheduler before the queue, the stores and the
    election, and each client of etcd and Redis before its connection; and
    nothing stays open.  The same holds for a panic of the start-up.  When
    [ListenAndServe] fails the program exits and nothing is stopped. *)
Lemma shutdown_in_order (env : Environment K R) (e : ending) :
  let tr := main_run env e in
  match main env, e with
  | Exit _, _ | Serve _, ListenFailed => stops tr = []
  | Panic, _ | Serve _, Signalled =>
      (∀ p q, p ∈ starts tr → q ∈ starts tr → q ∈ uses p → stops_first tr p q) ∧
      ∀ p, p ∈ starts tr → p ∈ stops tr
  end.
Proof.
  intros tr. assert (∀ l, in_order l = true → all_stopped l = true →
    (∀ p q, p ∈ starts l → q ∈ starts l → q ∈ uses p → stops_first l p q) ∧
    ∀ p, p ∈ starts l → p ∈ stops l) as Hchk.
  { intros l Ho Ha. split; [intros p q; by apply in_order_sound|].
    intros p Hp. unfold all_stopped in Ha. rewrite forallb_forall in Ha. specialize (Ha p).
    rewrite <- list_elem_of_In in Ha. by apply (proj1 (bool_decide_eq_true _)), Ha. }
  unfold tr, main_run. destruct (main env) as [c| |sv] eqn:Hm.
  - unfold main in Hm. destruct (en_config env), (en_postgres env); try done.
    by destruct (chan_panics _).
  - unfold main in Hm. destruct (en_config env) as [cfg|], (en_postgres env); try done.
    destruct (has _), (has _); apply Hchk; vm_compute; reflexivity.
  - unfold main in Hm. destruct (en_config env) as [cfg|], (en_postgres env); try done.
    destruct e; destruct (has (connect_redis _ _)), (has (connect_etcd _ _)), (has (sv_election sv));
      first [reflexivity|apply Hchk; vm_compute; reflexivity].
Qed.
End main.

(** ** The tasks that are running *)

(** [schedCancel] cancels the context of the scheduler, of its executions and of
    all its statements; the executions are not waited for.  Of the old run only
    the refusal of its statements is assumed; the new one has an in-memory queue
    and a database that answers. *)
Section interrupted.
Context {Q K R K' R' : Type} (old new : Host) `{!HostOk (H := new)} `{TaskQueueOk Q}.
Context `{Runtime.Etcd K} `{Runtime.Redis R} `{Runtime.Etcd K'} `{Runtime.Redis R'} (L : Limits).

(** C26 A shutdown interrupts the running tasks and the next run repeats them.  From
    the moment the statements of the scheduler are refused, whatever its cycle,
    the ends of the executions and all other steps do, the row of a running task
    stays exactly as it was, even if its command succeeds at that moment, and no
    execution is started or handed to a node.  A server started on that table
    takes the task up by its deadline: the first cycle after it makes the row
    pending, with one retry more and an object of its own in the queue, or
    failed, when the retries are used up. *)
Theorem interrupted_task_repeated (w : World Q K R) (p : phase) s (w' : World InMemQueue K' R') u r :
  (∀ i, (w_stm w ≤ i)%nat → is_Some (@db_fault old i)) →
  (∀ i, @db_fault new i = None) →
  keyed (w_db w) → rows (w_db w) !! u = Some r → c_status r = TaskStatusRunning →
  rtc (step (H := old) L) (w, p) s →
  restarted (w_db s.1) w' → timed_out (@clock new (w_clk w')) (scanTask r) = true →
  rows (w_db s.1) !! u = Some r ∧ w_running s.1 `sublist_of` w_running w ∧
  (∀ n ch, nodeTasks (w_sched s.1) !! n = Some ch →
     ch `sublist_of` default [] (nodeTasks (w_sched w) !! n)) ∧
  ∃ w'' b l r',
    rtc (cycle_step (H := new)) (w', Idle) (w'', Popping b) ∧ rows (w_db w'') !! u = Some r' ∧
    c_error_message r' = Some "task timed out"%string ∧
    if CanRetry (scanTask r) then
      c_status r' = TaskStatusPending ∧ c_retry_count r' = c_retry_count r +64 1 ∧
      l ∈ (delayed (w_queue w'')).*1 ∧ TaskUID (deref (w_mem w'') l) = u
    else c_status r' = TaskStatusFailed.
Proof.
  intros Hold Hnew Hk Hr Hst Hrun [Hdb _] Hto.
  assert (frozen_at (w_stm w) w s.1) as [_ Htab Hgo Hch].
  { eapply (run_frozen (H := old)); [exact Hold|exact Hrun|]. split; cbn; [lia|done|done|]. by intros n ch ->. }
  rewrite Htab in *. split_and!; [done..|].
  destruct (cycle_scans Hnew w' u r) as (w'' & b & l & Hrun' & [Hu (r' & Hr' & Hm & Hout)] & _);
    [rewrite Hdb; exact Hk|rewrite Hdb; exact Hr|exact Hst|exact Hto|].
  change (TaskUID (scanTask r)) with (c_task_uid r) in *. rewrite (Hk _ _ Hr) in *.
  exists w'', b, l, r'. split_and!; [done..|]. destruct (CanRetry (scanTask r)); [|done].
  destruct Hout as (? & ? & ? & ?). by split_and!.
Qed.
End interrupted.

(** ** Witness: a command that succeeds as the server shuts down *)

(** The database of the concrete environment, refusing from a statement on. *)
Definition refusing_host (n : nat) : Host := {|
  host_sort := host_sort; host_range := host_range; host_pg := host_pg; clock := clock;
  utc_offset := utc_offset; new_uuid := new_uuid;
  db_fault i := if (i <? n)%nat then None else Some (ErrorString "context canceled") |}.

Definition quick_stopped : CWorld :=
  (execution_done (H := refusing_host (w_stm quick_running)) 0 0 succeeded quick_running).2.

Definition quick_next : CWorld := (start None None None 4 8) <| w_db := w_db quick_stopped |> <| w_clk := 2000%nat |>.

Lemma set_db (w : CWorld) d : w_db (w <| w_db := d |>) = d.
Proof. done. Qed.

Lemma quick_next_db : w_db quick_next = w_db quick_stopped.
Proof. unfold quick_next. by rewrite late_db, set_db. Qed.

Lemma interrupted_task_repeated_witness :
  rows (w_db quick_stopped) !! "uuid-0"%string = Some quick_row ∧
  ∃ w'' b r', rtc cycle_step (quick_next, Idle) (w'', Popping b) ∧
    rows (w_db w'') !! "uuid-0"%string = Some r' ∧ c_status r' = TaskStatusPending ∧
    c_retry_count r' = c_retry_count quick_row +64 1.
Proof.
  destruct (interrupted_task_repeated (refusing_host (w_stm quick_running)) simple_host
    (mkLimits 8 8192 4) quick_running Idle (quick_stopped, Idle) quick_next "uuid-0" quick_row)
    as (H1 & _ & _ & w'' & b & l & r' & H2 & H3 & _ & H4).
  - intros i Hi. cbn [db_fault refusing_host]. apply Nat.ltb_ge in Hi. rewrite Hi. by eexists.
  - intros i. reflexivity.
  - exact quick_keyed.
  - exact quick_row_found.
  - vm_compute. reflexivity.
  - apply rtc_once, step_other, other_done. vm_compute. left.
  - split; [exact quick_next_db|by repeat split].
  - vm_compute. reflexivity.
  - split; [exact H1|]. assert (CanRetry (scanTask quick_row) = true) as Hc by (vm_compute; reflexivity).
    rewrite Hc in H4. destruct H4 as (H4 & H5 & _). exists w'', b, r'. by split_and!.
Defined.

(** With Redis and etcd, after a signal. *)
Lemma shutdown_in_order_example :
  stops (main_run (mkEnvironment (Ok demo_config) (Ok tt) (Ok tt) (Ok tt) (Ok 7) (Ok tt) 8 "0123456789") Signalled) =
    [HTTPServer; GRPCServer; SchedulerLoop; ShutdownContext; SchedulerLoop; ElectionSession; DiscoveryWatch;
     NodeWatcher; OfflineChecker; Queue; EtcdClient; RedisClient; PostgresPool; StartContext].
Proof. vm_compute. reflexivity. Qed.
